(** * GFS2 resource groups and extended attributes: a shallow embedding

    The development follows [rgrp.c], [eattr.c] and [util.c].  C integers are
    integers of [Z] with the wrap-around of their width written out, block
    buffers are lists of bytes, pointers into the resource index are positions
    in the ordered list of resource groups, and the services the code calls
    but does not own (cluster locks, journal, block I/O) appear as oracles. *)

From stdpp Require Import base numbers list.
From Stdlib Require Import ZArith Lia.

Local Open Scope Z_scope.

(** ** Machine arithmetic and error numbers *)

Definition wrap32 (z : Z) : Z := z mod 2 ^ 32.

(** Conversion of a 32-bit pattern to C's [int]. *)
Definition to_int (z : Z) : Z :=
  let w := wrap32 z in if w <? 2 ^ 31 then w else w - 2 ^ 32.

Definition EPERM : Z := 1.
Definition EIO : Z := 5.
Definition ENOMEM : Z := 12.
Definition EEXIST : Z := 17.
Definition EINVAL : Z := 22.
Definition ENOSPC : Z := 28.
Definition ERANGE : Z := 34.
Definition ENODATA : Z := 61.

(** A byte of a buffer; a read outside the buffer yields 0. *)
Definition byte_at (b : list Z) (i : Z) : Z :=
  if i <? 0 then 0 else default 0 (b !! Z.to_nat i).

(** [memcpy (dst + doff, src + soff, n)]. *)
Definition memcpy (dst : list Z) (doff : Z) (src : list Z) (soff n : Z) : list Z :=
  list_inserts (Z.to_nat doff) (take (Z.to_nat n) (drop (Z.to_nat soff) src)) dst.

(** ** The bitmap codec *)

Module Bits.

Definition GFS2_NBBY : Z := 4.
Definition GFS2_BIT_SIZE : Z := 2.
Definition GFS2_BIT_MASK : Z := 3.

Definition GFS2_BLKST_FREE : Z := 0.
Definition GFS2_BLKST_USED : Z := 1.
Definition GFS2_BLKST_INVALID : Z := 2.
Definition GFS2_BLKST_DINODE : Z := 3.

(** Modelled from the spec: the state query of the bitmap codec, whose
    source ([bits.c]) is not part of the tree.  A cell is two bits wide and
    four cells share a byte; [buffer + off] is the start of the bitmap
    bytes and [buflen] their number. *)
Definition gfs2_testbit (buffer : list Z) (off buflen block : Z) : Z :=
  let byte := off + block / GFS2_NBBY in
  let bit := (block mod GFS2_NBBY) * GFS2_BIT_SIZE in
  Z.land (Z.shiftr (byte_at buffer byte) bit) GFS2_BIT_MASK.

(** Modelled from the spec: [set_state(segment, offset, state)] of the
    bitmap codec ([bits.c] is not part of the tree): it writes the 2-bit
    cell and always succeeds on a valid offset. *)
Definition gfs2_setbit (buffer : list Z) (off buflen block new_state : Z) : list Z :=
  let byte := off + block / GFS2_NBBY in
  let bit := (block mod GFS2_NBBY) * GFS2_BIT_SIZE in
  let cur_state := Z.land (Z.shiftr (byte_at buffer byte) bit) GFS2_BIT_MASK in
  <[Z.to_nat byte :=
      Z.lor (Z.lxor (byte_at buffer byte) (Z.shiftl cur_state bit))
            (Z.shiftl new_state bit)]> buffer.

(** Modelled from the spec: [find_free(segment, goal, state)] of the bitmap
    codec ([bits.c] is not part of the tree): a linear scan from [goal]
    forward, wrapping to the segment start; the lowest offset at or after
    [goal], else the lowest offset overall; [None] is the codec's
    not-found value (BFITNOENT). *)
Definition gfs2_bitfit (buffer : list Z) (off buflen goal old_state : Z) : option Z :=
  let hit c := gfs2_testbit buffer off buflen c =? old_state in
  match find hit (seqZ goal (buflen * GFS2_NBBY - goal)) with
  | Some c => Some c
  | None => find hit (seqZ 0 (Z.min goal (buflen * GFS2_NBBY)))
  end.

End Bits.

(** ** Resource groups ([rgrp.c]) *)

Module Rgrp.
Import Bits.

(** [struct gfs2_rindex]: the index entry of a resource group. *)
Record gfs2_rindex := mk_rindex {
  ri_addr : Z;      (* address of the header block *)
  ri_length : Z;    (* number of header and bitmap blocks *)
  ri_data0 : Z;     (* first data block *)
  ri_data : Z;      (* number of data blocks *)
  ri_bitbytes : Z   (* number of bitmap bytes *)
}.

(** [struct gfs2_rgrp]: the header fields the allocator uses. *)
Record gfs2_rgrp := mk_rgrp {
  rg_flags : Z;
  rg_free : Z;
  rg_dinodes : Z
}.

(** [struct gfs2_bitmap]: one bitmap segment; [bi_bh] is the data of the
    live buffer, [bi_clone] the shadow ([None] is the NULL pointer). *)
Record gfs2_bitmap := mk_bitmap {
  bi_bh : list Z;
  bi_clone : option (list Z);
  bi_offset : Z;
  bi_start : Z;
  bi_len : Z
}.

(** [struct gfs2_rgrpd]. *)
Record gfs2_rgrpd := mk_rgrpd {
  rd_ri : gfs2_rindex;
  rd_rg : gfs2_rgrp;
  rd_bits : list gfs2_bitmap;
  rd_free_clone : Z;
  rd_last_alloc_data : Z;
  rd_last_alloc_meta : Z
}.

Definition set_rd_bits (rgd : gfs2_rgrpd) (bits : list gfs2_bitmap) : gfs2_rgrpd :=
  mk_rgrpd (rd_ri rgd) (rd_rg rgd) bits (rd_free_clone rgd)
           (rd_last_alloc_data rgd) (rd_last_alloc_meta rgd).

Definition set_rd_free_clone (rgd : gfs2_rgrpd) (n : Z) : gfs2_rgrpd :=
  mk_rgrpd (rd_ri rgd) (rd_rg rgd) (rd_bits rgd) n
           (rd_last_alloc_data rgd) (rd_last_alloc_meta rgd).

Definition set_rd_rg (rgd : gfs2_rgrpd) (rg : gfs2_rgrp) : gfs2_rgrpd :=
  mk_rgrpd (rd_ri rgd) rg (rd_bits rgd) (rd_free_clone rgd)
           (rd_last_alloc_data rgd) (rd_last_alloc_meta rgd).

Definition set_rd_last_alloc_data (rgd : gfs2_rgrpd) (n : Z) : gfs2_rgrpd :=
  mk_rgrpd (rd_ri rgd) (rd_rg rgd) (rd_bits rgd) (rd_free_clone rgd)
           n (rd_last_alloc_meta rgd).

Definition set_rd_last_alloc_meta (rgd : gfs2_rgrpd) (n : Z) : gfs2_rgrpd :=
  mk_rgrpd (rd_ri rgd) (rd_rg rgd) (rd_bits rgd) (rd_free_clone rgd)
           (rd_last_alloc_data rgd) n.

Definition set_bi_bh (bi : gfs2_bitmap) (d : list Z) : gfs2_bitmap :=
  mk_bitmap d (bi_clone bi) (bi_offset bi) (bi_start bi) (bi_len bi).

Definition set_bi_clone (bi : gfs2_bitmap) (c : option (list Z)) : gfs2_bitmap :=
  mk_bitmap (bi_bh bi) c (bi_offset bi) (bi_start bi) (bi_len bi).

(** The segment [rgd->rd_bits + buf]. *)
Definition null_bitmap : gfs2_bitmap := mk_bitmap [] None 0 0 0.

Definition bits_at (bits : list gfs2_bitmap) (buf : Z) : gfs2_bitmap :=
  default null_bitmap (bits !! Z.to_nat buf).

(** *** [gfs2_rgrp_repolish_clones] *)

(** The body of the loop: a segment without a clone is skipped, otherwise
    the bitmap bytes of the live buffer are copied over the clone's. *)
Definition repolish_bitmap (bi : gfs2_bitmap) : gfs2_bitmap :=
  match bi_clone bi with
  | None => bi
  | Some c =>
      set_bi_clone bi
        (Some (memcpy c (bi_offset bi) (bi_bh bi) (bi_offset bi) (bi_len bi)))
  end.

(** [for (x = ...; x < length; x++)], with [n] the iterations left. *)
Fixpoint repolish_loop (n : nat) (x : nat) (bits : list gfs2_bitmap) : list gfs2_bitmap :=
  match n with
  | O => bits
  | S n' => repolish_loop n' (S x) (alter repolish_bitmap x bits)
  end.

Definition gfs2_rgrp_repolish_clones (rgd : gfs2_rgrpd) : gfs2_rgrpd :=
  let length := ri_length (rd_ri rgd) in
  let rgd1 := set_rd_bits rgd (repolish_loop (Z.to_nat length) 0 (rd_bits rgd)) in
  set_rd_free_clone rgd1 (rg_free (rd_rg rgd1)).

(** The buffers of a segment cover its bitmap bytes; a clone is allocated
    with the size of the live buffer. *)
Definition bitmap_buffers_ok (bi : gfs2_bitmap) : Prop :=
  0 <= bi_offset bi /\ 0 <= bi_len bi /\
  bi_offset bi + bi_len bi <= Z.of_nat (length (bi_bh bi)) /\
  forall c, bi_clone bi = Some c -> length c = length (bi_bh bi).

(** [struct gfs2_alloc]: the reservation; [al_rgd] is a position in the
    resource index. *)
Record gfs2_alloc := mk_alloc {
  al_requested : Z;
  al_alloced : Z;
  al_rgd : option nat
}.

(** [try_rgrp_fit]: the free-count query made by a reservation; it returns
    1 and records the group when the snapshot covers the request. *)
Definition try_rgrp_fit (rgd_ix : nat) (rgd : gfs2_rgrpd) (al : gfs2_alloc)
  : Z * gfs2_alloc :=
  if al_requested al <=? rd_free_clone rgd
  then (1, mk_alloc (al_requested al) (al_alloced al) (Some rgd_ix))
  else (0, al).

(** *** [rgblk_search] *)

(** The not-found value of [gfs2_bitfit], [(uint32_t)~0]. *)
Definition BFITNOENT : Z := 2 ^ 32 - 1.

(** The bytes searched in a segment: the clone when there is one, else the
    live buffer. *)
Definition search_buffer (bi : gfs2_bitmap) : list Z :=
  match bi_clone bi with
  | Some c => c
  | None => bi_bh bi
  end.

(** The first loop: the segment that holds the goal block; [n] is the
    number of iterations left and the result the final value of [buf]. *)
Fixpoint find_goal_buf (n : nat) (buf : Z) (bits : list gfs2_bitmap) (goal : Z) : Z :=
  match n with
  | O => buf
  | S n' =>
      let bi := bits_at bits buf in
      if goal <? wrap32 (wrap32 (bi_start bi + bi_len bi) * GFS2_NBBY)
      then buf
      else find_goal_buf n' (buf + 1) bits goal
  end.

(** The second loop, [for (x = 0; x <= length; x++)]: the final values of
    [x] and [buf] and what [gfs2_bitfit] found. *)
Fixpoint rgblk_scan (n : nat) (x : Z) (bits : list gfs2_bitmap)
    (length buf goal old_state : Z) : Z * Z * option Z :=
  match n with
  | O => (x, buf, None)
  | S n' =>
      let bi := bits_at bits buf in
      match gfs2_bitfit (search_buffer bi) (bi_offset bi) (bi_len bi) goal old_state with
      | Some blk => (x, buf, Some blk)
      | None => rgblk_scan n' (x + 1) bits length ((buf + 1) mod length) 0 old_state
      end
  end.

(** [rgblk_search]: [None] is the failure of the hard assertion
    [buf < length]; otherwise the block number returned, the group as
    written, and whether [gfs2_assert_withdraw] withdrew the file system. *)
Definition rgblk_search (rgd : gfs2_rgrpd) (goal old_state new_state : Z)
  : option (Z * gfs2_rgrpd * bool) :=
  let bits := rd_bits rgd in
  let length := ri_length (rd_ri rgd) in
  let buf := find_goal_buf (Z.to_nat length) 0 bits goal in
  if negb (buf <? length) then None
  else
    let goal := wrap32 (goal - wrap32 (bi_start (bits_at bits buf) * GFS2_NBBY)) in
    let '(x, buf, found) :=
      rgblk_scan (Z.to_nat (length + 1)) 0 bits length buf goal old_state in
    let withdraw := negb (x <=? length) in
    let blk := if withdraw then 0 else default BFITNOENT found in
    let bi := bits_at bits buf in
    let bh := gfs2_setbit (bi_bh bi) (bi_offset bi) (bi_len bi) blk new_state in
    let clone :=
      match bi_clone bi with
      | Some c => Some (gfs2_setbit c (bi_offset bi) (bi_len bi) blk new_state)
      | None => None
      end in
    let bi' := set_bi_clone (set_bi_bh bi bh) clone in
    Some (wrap32 (wrap32 (bi_start bi * GFS2_NBBY) + blk),
          set_rd_bits rgd (<[Z.to_nat buf := bi']> bits),
          withdraw).

(** The number of segment scans ([gfs2_bitfit] calls) [rgblk_search] makes. *)
Definition rgblk_search_scans (rgd : gfs2_rgrpd) (goal old_state : Z) : Z :=
  let bits := rd_bits rgd in
  let length := ri_length (rd_ri rgd) in
  let buf := find_goal_buf (Z.to_nat length) 0 bits goal in
  let goal := wrap32 (goal - wrap32 (bi_start (bits_at bits buf) * GFS2_NBBY)) in
  let '(x, _, found) :=
    rgblk_scan (Z.to_nat (length + 1)) 0 bits length buf goal old_state in
  match found with
  | Some _ => x + 1
  | None => x
  end.

(** The state of group-relative block [c] as a search reads it, and as the
    live buffer and the clone hold it. *)
Fixpoint segment_of (bits : list gfs2_bitmap) (c : Z) : option gfs2_bitmap :=
  match bits with
  | [] => None
  | bi :: rest =>
      if (bi_start bi * GFS2_NBBY <=? c) && (c <? (bi_start bi + bi_len bi) * GFS2_NBBY)
      then Some bi
      else segment_of rest c
  end.

Definition cell_in (pick : gfs2_bitmap -> option (list Z)) (rgd : gfs2_rgrpd) (c : Z)
  : option Z :=
  match segment_of (rd_bits rgd) c with
  | None => None
  | Some bi =>
      match pick bi with
      | None => None
      | Some b =>
          Some (gfs2_testbit b (bi_offset bi) (bi_len bi) (c - bi_start bi * GFS2_NBBY))
      end
  end.

Definition search_cell : gfs2_rgrpd -> Z -> option Z :=
  cell_in (fun bi => Some (search_buffer bi)).
Definition live_cell : gfs2_rgrpd -> Z -> option Z :=
  cell_in (fun bi => Some (bi_bh bi)).
Definition clone_cell : gfs2_rgrpd -> Z -> option Z := cell_in bi_clone.

(** The number of steps from segment [buf] round to segment [j]. *)
Definition steps_to (length buf j : Z) : Z :=
  if buf <=? j then j - buf else j - buf + length.

(** The layout [compute_bitstructs] accepts: every segment starts at the
    byte where the one before ends, the first at byte 0, and the last ends
    at [total]. *)
Fixpoint segments_from (start : Z) (bits : list gfs2_bitmap) (total : Z) : Prop :=
  match bits with
  | [] => start = total
  | bi :: rest => bi_start bi = start /\ segments_from (start + bi_len bi) rest total
  end.

(** A group as [gfs2_ri_update] and [gfs2_rgrp_bh_get] leave it: one
    segment per block, buffers in place, the computed layout, four data
    blocks per bitmap byte, and a 32-bit block count. *)
Definition rgrpd_ok (rgd : gfs2_rgrpd) : Prop :=
  Z.of_nat (length (rd_bits rgd)) = ri_length (rd_ri rgd) /\
  Forall bitmap_buffers_ok (rd_bits rgd) /\
  segments_from 0 (rd_bits rgd) (ri_bitbytes (rd_ri rgd)) /\
  ri_data (rd_ri rgd) = ri_bitbytes (rd_ri rgd) * GFS2_NBBY /\
  ri_data (rd_ri rgd) < 2 ^ 32.

(** *** The volume and the inode *)

(** The part of [struct gfs2_sbd] the allocator touches.  [sd_journals] is
    [gfs2_jindex_size(sdp)], [sd_jid] is [sdp->sd_jdesc->jd_jid],
    [sd_withdrawn] records a call of [gfs2_lm_withdraw], [sd_complain] is
    [gfs2_tune_get(sdp, gt_complain_secs) * HZ]. *)
Record gfs2_sbd := mk_sbd {
  sd_rindex_list : list gfs2_rgrpd;
  sd_rindex_recent_list : list nat;
  sd_rindex_forward : option nat;
  sd_rgrps : Z;
  sd_journals : Z;
  sd_jid : Z;
  sd_withdrawn : bool;
  sd_last_warning : Z;
  sd_complain : Z;
  ar_debug : bool
}.

Definition set_sd_rindex_list (sdp : gfs2_sbd) (l : list gfs2_rgrpd) : gfs2_sbd :=
  mk_sbd l (sd_rindex_recent_list sdp) (sd_rindex_forward sdp) (sd_rgrps sdp)
         (sd_journals sdp) (sd_jid sdp) (sd_withdrawn sdp) (sd_last_warning sdp)
         (sd_complain sdp) (ar_debug sdp).

Definition set_sd_rindex_recent_list (sdp : gfs2_sbd) (l : list nat) : gfs2_sbd :=
  mk_sbd (sd_rindex_list sdp) l (sd_rindex_forward sdp) (sd_rgrps sdp)
         (sd_journals sdp) (sd_jid sdp) (sd_withdrawn sdp) (sd_last_warning sdp)
         (sd_complain sdp) (ar_debug sdp).

Definition set_sd_rindex_forward (sdp : gfs2_sbd) (f : option nat) : gfs2_sbd :=
  mk_sbd (sd_rindex_list sdp) (sd_rindex_recent_list sdp) f (sd_rgrps sdp)
         (sd_journals sdp) (sd_jid sdp) (sd_withdrawn sdp) (sd_last_warning sdp)
         (sd_complain sdp) (ar_debug sdp).

Definition set_sd_withdrawn (sdp : gfs2_sbd) (w : bool) : gfs2_sbd :=
  mk_sbd (sd_rindex_list sdp) (sd_rindex_recent_list sdp) (sd_rindex_forward sdp)
         (sd_rgrps sdp) (sd_journals sdp) (sd_jid sdp) w (sd_last_warning sdp)
         (sd_complain sdp) (ar_debug sdp).

Definition set_sd_last_warning (sdp : gfs2_sbd) (j : Z) : gfs2_sbd :=
  mk_sbd (sd_rindex_list sdp) (sd_rindex_recent_list sdp) (sd_rindex_forward sdp)
         (sd_rgrps sdp) (sd_journals sdp) (sd_jid sdp) (sd_withdrawn sdp) j
         (sd_complain sdp) (ar_debug sdp).

(** The part of [struct gfs2_inode] the allocator touches. *)
Record gfs2_inode := mk_inode {
  i_alloc : option gfs2_alloc;
  i_last_rg_alloc : Z;
  di_goal_data : Z;
  di_goal_meta : Z
}.

Definition set_i_alloc (ip : gfs2_inode) (al : option gfs2_alloc) : gfs2_inode :=
  mk_inode al (i_last_rg_alloc ip) (di_goal_data ip) (di_goal_meta ip).

Definition set_i_last_rg_alloc (ip : gfs2_inode) (a : Z) : gfs2_inode :=
  mk_inode (i_alloc ip) a (di_goal_data ip) (di_goal_meta ip).

Definition set_di_goal_data (ip : gfs2_inode) (b : Z) : gfs2_inode :=
  mk_inode (i_alloc ip) (i_last_rg_alloc ip) b (di_goal_meta ip).

Definition set_di_goal_meta (ip : gfs2_inode) (b : Z) : gfs2_inode :=
  mk_inode (i_alloc ip) (i_last_rg_alloc ip) (di_goal_data ip) b.

Definition wrap64 (z : Z) : Z := z mod 2 ^ 64.

Definition rgrp_contains_block (ri : gfs2_rindex) (block : Z) : bool :=
  let first := ri_data0 ri in
  let last := wrap64 (first + ri_data ri) in
  (first <=? block) && (block <? last).

Definition null_rgrpd : gfs2_rgrpd :=
  mk_rgrpd (mk_rindex 0 0 0 0 0) (mk_rgrp 0 0 0) [] 0 0 0.

Definition rgrpd_at (sdp : gfs2_sbd) (r : nat) : gfs2_rgrpd :=
  default null_rgrpd (sd_rindex_list sdp !! r).

(** *** Assertions ([util.c]) *)

(** [gfs2_assert_withdraw]: a false assertion withdraws the file system and
    the caller goes on. *)
Definition gfs2_assert_withdraw (sdp : gfs2_sbd) (assertion : bool) : gfs2_sbd :=
  if assertion then sdp else set_sd_withdrawn sdp true.

(** [gfs2_assert_warn_i] at time [jiffies]: -2 when the last warning is too
    recent, otherwise the message is printed and -1 returned; [None] is
    [BUG()], reached under the debug mount option only. *)
Definition gfs2_assert_warn_i (sdp : gfs2_sbd) (jiffies : Z) : option (Z * gfs2_sbd) :=
  if jiffies <? sd_last_warning sdp + sd_complain sdp then Some (-2, sdp)
  else if ar_debug sdp then None
  else Some (-1, set_sd_last_warning sdp jiffies).

(** The macro [gfs2_assert_warn]. *)
Definition gfs2_assert_warn (sdp : gfs2_sbd) (assertion : bool) (jiffies : Z)
  : option (Z * gfs2_sbd) :=
  if assertion then Some (0, sdp) else gfs2_assert_warn_i sdp jiffies.

(** *** Single-block allocation *)

Definition alloc_inc (al : gfs2_alloc) : gfs2_alloc :=
  mk_alloc (al_requested al) (wrap32 (al_alloced al + 1)) (al_rgd al).

(** [gfs2_alloc_data]; [None] is a crash (a hard assertion or a NULL
    reservation).  The journal, statistics and quota calls and the
    rewriting of the header block by [gfs2_rgrp_out], which touches no
    bitmap byte, are not tracked. *)
Definition gfs2_alloc_data (sdp : gfs2_sbd) (ip : gfs2_inode)
  : option (Z * gfs2_sbd * gfs2_inode) :=
  al ← i_alloc ip;
  r ← al_rgd al;
  rgd ← sd_rindex_list sdp !! r;
  let goal :=
    if rgrp_contains_block (rd_ri rgd) (di_goal_data ip)
    then wrap32 (di_goal_data ip - ri_data0 (rd_ri rgd))
    else rd_last_alloc_data rgd in
  '(blk, rgd, w) ← rgblk_search rgd goal GFS2_BLKST_FREE GFS2_BLKST_USED;
  let sdp := gfs2_assert_withdraw sdp (negb w) in
  let rgd := set_rd_last_alloc_data rgd blk in
  let block := wrap64 (ri_data0 (rd_ri rgd) + blk) in
  let ip := set_di_goal_data ip block in
  let sdp := gfs2_assert_withdraw sdp (negb (rg_free (rd_rg rgd) =? 0)) in
  let rgd :=
    set_rd_rg rgd (mk_rgrp (rg_flags (rd_rg rgd)) (wrap32 (rg_free (rd_rg rgd) - 1))
                           (rg_dinodes (rd_rg rgd))) in
  let al := alloc_inc al in
  let rgd := set_rd_free_clone rgd (wrap32 (rd_free_clone rgd - 1)) in
  Some (block,
        set_sd_rindex_list sdp (<[r := rgd]> (sd_rindex_list sdp)),
        set_i_alloc ip (Some al)).

(** [gfs2_alloc_meta]. *)
Definition gfs2_alloc_meta (sdp : gfs2_sbd) (ip : gfs2_inode)
  : option (Z * gfs2_sbd * gfs2_inode) :=
  al ← i_alloc ip;
  r ← al_rgd al;
  rgd ← sd_rindex_list sdp !! r;
  let goal :=
    if rgrp_contains_block (rd_ri rgd) (di_goal_meta ip)
    then wrap32 (di_goal_meta ip - ri_data0 (rd_ri rgd))
    else rd_last_alloc_meta rgd in
  '(blk, rgd, w) ← rgblk_search rgd goal GFS2_BLKST_FREE GFS2_BLKST_USED;
  let sdp := gfs2_assert_withdraw sdp (negb w) in
  let rgd := set_rd_last_alloc_meta rgd blk in
  let block := wrap64 (ri_data0 (rd_ri rgd) + blk) in
  let ip := set_di_goal_meta ip block in
  let sdp := gfs2_assert_withdraw sdp (negb (rg_free (rd_rg rgd) =? 0)) in
  let rgd :=
    set_rd_rg rgd (mk_rgrp (rg_flags (rd_rg rgd)) (wrap32 (rg_free (rd_rg rgd) - 1))
                           (rg_dinodes (rd_rg rgd))) in
  let al := alloc_inc al in
  let rgd := set_rd_free_clone rgd (wrap32 (rd_free_clone rgd - 1)) in
  Some (block,
        set_sd_rindex_list sdp (<[r := rgd]> (sd_rindex_list sdp)),
        set_i_alloc ip (Some al)).

(** [gfs2_alloc_di]. *)
Definition gfs2_alloc_di (sdp : gfs2_sbd) (dip : gfs2_inode)
  : option (Z * gfs2_sbd * gfs2_inode) :=
  al ← i_alloc dip;
  r ← al_rgd al;
  rgd ← sd_rindex_list sdp !! r;
  '(blk, rgd, w) ←
    rgblk_search rgd (rd_last_alloc_meta rgd) GFS2_BLKST_FREE GFS2_BLKST_DINODE;
  let sdp := gfs2_assert_withdraw sdp (negb w) in
  let rgd := set_rd_last_alloc_meta rgd blk in
  let block := wrap64 (ri_data0 (rd_ri rgd) + blk) in
  let sdp := gfs2_assert_withdraw sdp (negb (rg_free (rd_rg rgd) =? 0)) in
  let rgd :=
    set_rd_rg rgd (mk_rgrp (rg_flags (rd_rg rgd)) (wrap32 (rg_free (rd_rg rgd) - 1))
                           (wrap32 (rg_dinodes (rd_rg rgd) + 1))) in
  let al := alloc_inc al in
  let rgd := set_rd_free_clone rgd (wrap32 (rd_free_clone rgd - 1)) in
  Some (block,
        set_sd_rindex_list sdp (<[r := rgd]> (sd_rindex_list sdp)),
        set_i_alloc dip (Some al)).

(** [gfs2_inplace_release] at time [jiffies]; the two lock releases belong
    to the lock service. *)
Definition gfs2_inplace_release (sdp : gfs2_sbd) (ip : gfs2_inode) (jiffies : Z)
  : option (gfs2_sbd * gfs2_inode) :=
  al ← i_alloc ip;
  '(_, sdp) ← gfs2_assert_warn sdp (al_alloced al <=? al_requested al) jiffies;
  let al := mk_alloc (al_requested al) (al_alloced al) None in
  Some (sdp, set_i_alloc ip (Some al)).

(** *** The resource index and the two working sets *)

(** [gfs2_rgrpd_get_first]: [None] is the failure of its hard assertion. *)
Definition gfs2_rgrpd_get_first (sdp : gfs2_sbd) : option nat :=
  match sd_rindex_list sdp with
  | [] => None
  | _ :: _ => Some 0%nat
  end.

(** [gfs2_rgrpd_get_next]: [None] is NULL, after the last group. *)
Definition gfs2_rgrpd_get_next (sdp : gfs2_sbd) (rgd : nat) : option nat :=
  if decide (S rgd < length (sd_rindex_list sdp))%nat then Some (S rgd) else None.

(** [recent_rgrp_first]. *)
Definition recent_rgrp_first (sdp : gfs2_sbd) (rglast : Z) : option nat :=
  match sd_rindex_recent_list sdp with
  | [] => None
  | first :: _ =>
      if rglast =? 0 then Some first
      else
        match find (fun r => ri_addr (rd_ri (rgrpd_at sdp r)) =? rglast)
                   (sd_rindex_recent_list sdp) with
        | Some r => Some r
        | None => Some first
        end
  end.

(** The walk of [recent_rgrp_next]: the entry after [cur] ([Some None] when
    [cur] is the last one), or [None] when [cur] is not on the list. *)
Fixpoint recent_after (l : list nat) (cur : nat) : option (option nat) :=
  match l with
  | [] => None
  | r :: l' => if decide (r = cur) then Some (head l') else recent_after l' cur
  end.

(** [list_del] of the node of [cur]. *)
Fixpoint recent_del (l : list nat) (cur : nat) : list nat :=
  match l with
  | [] => []
  | r :: l' => if decide (r = cur) then l' else r :: recent_del l' cur
  end.

(** [recent_rgrp_next]. *)
Definition recent_rgrp_next (sdp : gfs2_sbd) (cur_rgd : nat) (remove : bool)
  : option nat * gfs2_sbd :=
  let l := sd_rindex_recent_list sdp in
  match recent_after l cur_rgd with
  | Some rgd =>
      (rgd, if remove then set_sd_rindex_recent_list sdp (recent_del l cur_rgd) else sdp)
  | None => (head l, sdp)
  end.

(** The loop of [recent_rgrp_add]: [true] when it runs off the end of the
    list, [false] when it leaves through [goto out]. *)
Fixpoint recent_add_walk (l : list nat) (new_rgd : nat) (count max : Z) : bool :=
  match l with
  | [] => true
  | rgd :: l' =>
      if decide (rgd = new_rgd) then false
      else if max <=? wrap32 (count + 1) then false
      else recent_add_walk l' new_rgd (wrap32 (count + 1)) max
  end.

(** [recent_rgrp_add]; [None] is the division by a zero journal count. *)
Definition recent_rgrp_add (sdp : gfs2_sbd) (new_rgd : nat) : option gfs2_sbd :=
  if sd_journals sdp =? 0 then None
  else
    let max := sd_rgrps sdp / sd_journals sdp in
    let l := sd_rindex_recent_list sdp in
    if recent_add_walk l new_rgd 0 max
    then Some (set_sd_rindex_recent_list sdp (l ++ [new_rgd]))
    else Some sdp.

(** The walk of [forward_rgrp_get] from the first group; [None] is the
    dereference of NULL past the last group or an empty index. *)
Fixpoint forward_walk (sdp : gfs2_sbd) (n : nat) : option nat :=
  match n with
  | O => gfs2_rgrpd_get_first sdp
  | S n' => rgd ← forward_walk sdp n'; gfs2_rgrpd_get_next sdp rgd
  end.

(** [forward_rgrp_get]. *)
Definition forward_rgrp_get (sdp : gfs2_sbd) : option (nat * gfs2_sbd) :=
  match sd_rindex_forward sdp with
  | Some rgd => Some (rgd, sdp)
  | None =>
      let journals := sd_journals sdp in
      rg ← (if journals <=? sd_rgrps sdp
            then if journals =? 0 then None
                 else Some (wrap32 (sd_rgrps sdp * sd_jid sdp) / journals)
            else Some 0);
      rgd ← forward_walk sdp (Z.to_nat rg);
      Some (rgd, set_sd_rindex_forward sdp (Some rgd))
  end.

(** [forward_rgrp_set]. *)
Definition forward_rgrp_set (sdp : gfs2_sbd) (rgd : option nat) : gfs2_sbd :=
  set_sd_rindex_forward sdp rgd.

(** *** [get_local_rgrp] *)

Definition LM_FLAG_TRY : Z := 1.

(** What [gfs2_glock_nq_init] returns for an exclusive request: 0,
    [GLR_TRYFAILED], or another error number. *)
Inductive glock_result :=
| GL_OK
| GLR_TRYFAILED
| GL_ERROR (error : Z).

(** The lock service: the result of the [t]-th request of this call, made
    for the group at position [rgd] with [flags]. *)
Definition glock_oracle := nat -> nat -> Z -> glock_result.

(** One lock request: group, flags, result. *)
Abbreviation attempt := (nat * Z * glock_result)%type.

(** How a loop of [get_local_rgrp] is left. *)
Inductive scan_result :=
| SCAN_OUT (rgd : nat)         (* goto out *)
| SCAN_ENOSPC                  (* return -ENOSPC *)
| SCAN_LOCK_ERROR (error : Z)  (* default: return error *)
| SCAN_DONE                    (* the recent loop ended with rgd == NULL *)
| SCAN_PANIC                   (* a hard assertion failed *)
| SCAN_DIVERGE.                (* out of fuel *)

(** The loop over the recent list. *)
Fixpoint recent_scan (fuel : nat) (lock : glock_oracle) (t : nat)
    (sdp : gfs2_sbd) (al : gfs2_alloc) (rgd : option nat)
  : scan_result * gfs2_sbd * gfs2_alloc * list attempt :=
  match rgd with
  | None => (SCAN_DONE, sdp, al, [])
  | Some rgd =>
      match fuel with
      | O => (SCAN_DIVERGE, sdp, al, [])
      | S fuel' =>
          let error := lock t rgd LM_FLAG_TRY in
          let att := (rgd, LM_FLAG_TRY, error) in
          match error with
          | GL_OK =>
              let '(fit, al') := try_rgrp_fit rgd (rgrpd_at sdp rgd) al in
              if fit =? 0 then
                let '(next, sdp') := recent_rgrp_next sdp rgd true in
                let '(r, sdp'', al'', tr) := recent_scan fuel' lock (S t) sdp' al' next in
                (r, sdp'', al'', att :: tr)
              else (SCAN_OUT rgd, sdp, al', [att])
          | GLR_TRYFAILED =>
              let '(next, sdp') := recent_rgrp_next sdp rgd false in
              let '(r, sdp'', al'', tr) := recent_scan fuel' lock (S t) sdp' al next in
              (r, sdp'', al'', att :: tr)
          | GL_ERROR e => (SCAN_LOCK_ERROR e, sdp, al, [att])
          end
      end
  end.

(** [rgd = gfs2_rgrpd_get_next(rgd); if (!rgd) rgd = gfs2_rgrpd_get_first(sdp);] *)
Definition rgrpd_next_circular (sdp : gfs2_sbd) (rgd : nat) : option nat :=
  match gfs2_rgrpd_get_next sdp rgd with
  | Some r => Some r
  | None => gfs2_rgrpd_get_first sdp
  end.

(** The loop over the full list, [for (;;)], entered with [rgd == begin]. *)
Fixpoint forward_scan (fuel : nat) (lock : glock_oracle) (t : nat)
    (sdp : gfs2_sbd) (al : gfs2_alloc) (begin rgd : nat) (flags skipped loops : Z)
  : scan_result * gfs2_alloc * list attempt :=
  match fuel with
  | O => (SCAN_DIVERGE, al, [])
  | S fuel' =>
      let error := lock t rgd flags in
      let att := (rgd, flags, error) in
      let advance (al : gfs2_alloc) (skipped : Z) :=
        match rgrpd_next_circular sdp rgd with
        | None => (SCAN_PANIC, al, [att])
        | Some rgd' =>
            if decide (rgd' = begin) then
              if (2 <=? loops + 1) || (skipped =? 0) then (SCAN_ENOSPC, al, [att])
              else
                let '(r, al', tr) :=
                  forward_scan fuel' lock (S t) sdp al begin rgd' 0 skipped (loops + 1) in
                (r, al', att :: tr)
            else
              let '(r, al', tr) :=
                forward_scan fuel' lock (S t) sdp al begin rgd' flags skipped loops in
              (r, al', att :: tr)
        end in
      match error with
      | GL_OK =>
          let '(fit, al') := try_rgrp_fit rgd (rgrpd_at sdp rgd) al in
          if fit =? 0 then advance al' skipped else (SCAN_OUT rgd, al', [att])
      | GLR_TRYFAILED => advance al (skipped + 1)
      | GL_ERROR e => (SCAN_LOCK_ERROR e, al, [att])
      end
  end.

(** *** The scan as two circuits *)

(** Whether the reservation fits the group at [rgd]. *)
Definition rgrp_fits (sdp : gfs2_sbd) (al : gfs2_alloc) (rgd : nat) : bool :=
  al_requested al <=? rd_free_clone (rgrpd_at sdp rgd).

(** How one circuit of the index ends. *)
Inductive circuit_result :=
| CIRCUIT_FOUND (rgd : nat)
| CIRCUIT_LOCK_ERROR (error : Z)
| CIRCUIT_COMPLETE (skipped : Z).

(** One circuit over the groups [rgds] with lock flags [flags]: it stops at
    the first group that is locked and fits and at the first lock error, and
    counts the contended groups it passes. *)
Fixpoint circuit (lock : glock_oracle) (t : nat) (sdp : gfs2_sbd) (al : gfs2_alloc)
    (rgds : list nat) (flags skipped : Z)
  : circuit_result * gfs2_alloc * list attempt :=
  match rgds with
  | [] => (CIRCUIT_COMPLETE skipped, al, [])
  | rgd :: rest =>
      let error := lock t rgd flags in
      let att := (rgd, flags, error) in
      match error with
      | GL_OK =>
          let '(fit, al') := try_rgrp_fit rgd (rgrpd_at sdp rgd) al in
          if fit =? 0 then
            let '(r, al'', tr) := circuit lock (S t) sdp al' rest flags skipped in
            (r, al'', att :: tr)
          else (CIRCUIT_FOUND rgd, al', [att])
      | GLR_TRYFAILED =>
          let '(r, al', tr) := circuit lock (S t) sdp al rest flags (skipped + 1) in
          (r, al', att :: tr)
      | GL_ERROR e => (CIRCUIT_LOCK_ERROR e, al, [att])
      end
  end.

(** The groups of an index of [n] entries in the order of a circuit that
    begins at [begin]. *)
Definition circuit_order (n begin : nat) : list nat :=
  seq begin (n - begin) ++ seq 0 begin.

(** The scan as the specification words it: a circuit with try-locks; when
    that completes with contended groups, one more with blocking locks; no
    space when the first circuit completes without a contended group or the
    second completes. *)
Definition two_circuit_scan (lock : glock_oracle) (t : nat) (sdp : gfs2_sbd)
    (al : gfs2_alloc) (begin : nat) : scan_result * gfs2_alloc * list attempt :=
  let n := length (sd_rindex_list sdp) in
  let order := circuit_order n begin in
  match circuit lock t sdp al order LM_FLAG_TRY 0 with
  | (CIRCUIT_FOUND rgd, al', tr) => (SCAN_OUT rgd, al', tr)
  | (CIRCUIT_LOCK_ERROR e, al', tr) => (SCAN_LOCK_ERROR e, al', tr)
  | (CIRCUIT_COMPLETE skipped, al', tr) =>
      if skipped =? 0 then (SCAN_ENOSPC, al', tr)
      else
        match circuit lock (t + n) sdp al' order 0 skipped with
        | (CIRCUIT_FOUND rgd, al'', tr2) => (SCAN_OUT rgd, al'', tr ++ tr2)
        | (CIRCUIT_LOCK_ERROR e, al'', tr2) => (SCAN_LOCK_ERROR e, al'', tr ++ tr2)
        | (CIRCUIT_COMPLETE _, al'', tr2) => (SCAN_ENOSPC, al'', tr ++ tr2)
        end
  end.

(** The groups left in a circuit that began at [begin]: each is followed by
    the group the scan tries next, and only the last one leads back to
    [begin]. *)
Fixpoint circuit_rest (sdp : gfs2_sbd) (begin : nat) (l : list nat) : Prop :=
  match l with
  | [] => False
  | rgd :: rest =>
      match rest with
      | [] => rgrpd_next_circular sdp rgd = Some begin
      | next :: _ =>
          rgrpd_next_circular sdp rgd = Some next /\ next <> begin /\
          circuit_rest sdp begin rest
      end
  end.

(** What the loop does when a circuit is over. *)
Definition after_circuit (fuel : nat) (lock : glock_oracle) (t : nat) (sdp : gfs2_sbd)
    (begin : nat) (loops : Z) (c : circuit_result * gfs2_alloc * list attempt)
  : scan_result * gfs2_alloc * list attempt :=
  match c with
  | (CIRCUIT_FOUND rgd, al, tr) => (SCAN_OUT rgd, al, tr)
  | (CIRCUIT_LOCK_ERROR e, al, tr) => (SCAN_LOCK_ERROR e, al, tr)
  | (CIRCUIT_COMPLETE skipped, al, tr) =>
      if (2 <=? loops + 1) || (skipped =? 0) then (SCAN_ENOSPC, al, tr)
      else
        let '(r, al', tr2) :=
          forward_scan (fuel - length tr) lock (t + length tr) sdp al begin begin 0
                       skipped (loops + 1) in
        (r, al', tr ++ tr2)
  end.

(** The code after the label [out]; [begin] is [None] when the group came
    from the recent list. *)
Definition get_local_rgrp_out (sdp : gfs2_sbd) (ip : gfs2_inode)
    (rgd : nat) (begin : option nat) : option (gfs2_sbd * gfs2_inode) :=
  let ip := set_i_last_rg_alloc ip (ri_addr (rd_ri (rgrpd_at sdp rgd))) in
  match begin with
  | Some _ =>
      sdp ← recent_rgrp_add sdp rgd;
      next ← rgrpd_next_circular sdp rgd;
      Some (forward_rgrp_set sdp (Some next), ip)
  | None => Some (sdp, ip)
  end.

(** [get_local_rgrp]: the error number returned ([None] for a crash or an
    exhausted fuel), the volume and the inode.  Two circuits of the index
    are all the second loop can make; the first loop visits each recent
    entry at most once. *)
Definition get_local_rgrp (lock : glock_oracle) (sdp : gfs2_sbd) (ip : gfs2_inode)
  : option (Z * gfs2_sbd * gfs2_inode) :=
  al ← i_alloc ip;
  let '(r, sdp, al, tr) :=
    recent_scan (S (length (sd_rindex_recent_list sdp))) lock 0 sdp al
                (recent_rgrp_first sdp (i_last_rg_alloc ip)) in
  match r with
  | SCAN_OUT rgd =>
      '(sdp, ip) ← get_local_rgrp_out sdp (set_i_alloc ip (Some al)) rgd None;
      Some (0, sdp, ip)
  | SCAN_LOCK_ERROR e => Some (e, sdp, set_i_alloc ip (Some al))
  | SCAN_DONE =>
      '(begin, sdp) ← forward_rgrp_get sdp;
      let '(r, al, _) :=
        forward_scan (2 * length (sd_rindex_list sdp)) lock (length tr) sdp al
                     begin begin LM_FLAG_TRY 0 0 in
      match r with
      | SCAN_OUT rgd =>
          '(sdp, ip) ← get_local_rgrp_out sdp (set_i_alloc ip (Some al)) rgd (Some begin);
          Some (0, sdp, ip)
      | SCAN_ENOSPC => Some (- ENOSPC, sdp, set_i_alloc ip (Some al))
      | SCAN_LOCK_ERROR e => Some (e, sdp, set_i_alloc ip (Some al))
      | _ => None
      end
  | _ => None
  end.

End Rgrp.

(** ** Extended attributes ([eattr.c]) *)

Module Eattr.

(** The on-disk format ([gfs2_ondisk.h]) is not part of the tree; what the
    code takes from it is gathered here: the sizes of the two headers, the
    alignment of a record, the limits on names and values, the flag of the
    last record of a block, and the test [GFS2_EATYPE_VALID]. *)
Record ondisk := mk_ondisk {
  sizeof_meta_header : Z;
  sizeof_ea_header : Z;
  ea_align : Z;
  GFS2_EA_MAX_NAME_LEN : Z;
  GFS2_EA_MAX_DATA_LEN : Z;
  GFS2_EAFLAG_LAST : Z;
  GFS2_EATYPE_VALID : Z -> bool
}.

(** A record with type 0 is a hole. *)
Definition GFS2_EATYPE_UNUSED : Z := 0.

Definition GFS2_METATYPE_IN : Z := 5.
Definition GFS2_METATYPE_EA : Z := 10.
Definition GFS2_METATYPE_ED : Z := 11.

(** The flags of [setxattr(2)]. *)
Definition XATTR_CREATE : Z := 1.
Definition XATTR_REPLACE : Z := 2.

(** [struct gfs2_ea_header] as the code reads it through its macros, in CPU
    byte order, with the bytes that follow the header: the name
    ([GFS2_EA2NAME]), the inline value ([GFS2_EA2DATA]) and the pointers of
    an unstuffed value ([GFS2_EA2DATAPTRS]). *)
Record gfs2_ea_header := mk_ea_header {
  ea_rec_len : Z;
  ea_data_len : Z;
  ea_name_len : Z;
  ea_type : Z;
  ea_flags : Z;
  ea_num_ptrs : Z;
  ea_name : list Z;
  ea_data : list Z;
  ea_dataptrs : list Z
}.

(** The data of a block buffer: the type tag of its meta header (the magic
    number being right), the record a [struct gfs2_ea_header *] at a byte
    offset sees, the pointer slots of an indirect block, and the payload of
    a data block.  Every buffer has the size of a file-system block. *)
Record block := mk_block {
  mh_type : Z;
  ea_at : Z -> gfs2_ea_header;
  in_ptrs : list Z;
  ed_bytes : list Z
}.

(** Block I/O: [None] is a read error. *)
Definition disk := Z -> option block.

Definition disk_write (d : disk) (bn : Z) (b : block) : disk :=
  fun n => if n =? bn then Some b else d n.

(** The part of [struct gfs2_sbd] the attribute code reads. *)
Record gfs2_sbd := mk_sbd {
  sd_bsize : Z;     (* sd_sb.sb_bsize, the b_size of every buffer *)
  sd_jbsize : Z;
  sd_inptrs : Z
}.

(** The part of the inode the attribute code reads: [di_eattr], and the
    bits [GFS2_DIF_EA_INDIRECT] and [GFS2_DIF_APPENDONLY] of [di_flags]. *)
Record gfs2_inode := mk_inode {
  di_eattr : Z;
  dif_ea_indirect : bool;
  dif_appendonly : bool
}.

(** [struct gfs2_ea_request]; [er_data] is [None] for a NULL pointer. *)
Record gfs2_ea_request := mk_request {
  er_name : list Z;
  er_name_len : Z;
  er_data : option (list Z);
  er_data_len : Z;
  er_type : Z;
  er_flags : Z
}.

(** [struct gfs2_ea_location]: buffer, record and previous record;
    a location with [el_ea == NULL] is [None]. *)
Record gfs2_ea_location := mk_location {
  el_bh : Z;
  el_ea : Z;
  el_prev : option Z
}.

(** *** Sizes *)

Definition ALIGN (x a : Z) : Z := (x + a - 1) / a * a.
Definition DIV_RU (x y : Z) : Z := (x + y - 1) / y.

(** Modelled from the spec: the stuffed size of a request, header, name
    and inline data rounded to the alignment unit (the macro is in
    [gfs2_ondisk.h]). *)
Definition GFS2_EAREQ_SIZE_STUFFED (k : ondisk) (er : gfs2_ea_request) : Z :=
  wrap32 (ALIGN (sizeof_ea_header k + er_name_len er + er_data_len er) (ea_align k)).

(** Modelled from the spec: the unstuffed size of a request, header, name
    and one 8-byte pointer per data block (the macro is in
    [gfs2_ondisk.h]). *)
Definition GFS2_EAREQ_SIZE_UNSTUFFED (k : ondisk) (sdp : gfs2_sbd) (er : gfs2_ea_request) : Z :=
  wrap32 (ALIGN (sizeof_ea_header k + er_name_len er
                 + 8 * DIV_RU (er_data_len er) (sd_jbsize sdp)) (ea_align k)).

(** [ea_calc_size]: whether the request is stuffed, and [*size]. *)
Definition ea_calc_size (k : ondisk) (sdp : gfs2_sbd) (er : gfs2_ea_request) : bool * Z :=
  let size := GFS2_EAREQ_SIZE_STUFFED k er in
  if size <=? sd_jbsize sdp then (true, size)
  else (false, GFS2_EAREQ_SIZE_UNSTUFFED k sdp er).

(** [ea_check_size]. *)
Definition ea_check_size (k : ondisk) (sdp : gfs2_sbd) (er : gfs2_ea_request) : Z :=
  if GFS2_EA_MAX_DATA_LEN k <? er_data_len er then - ERANGE
  else
    let '(_, size) := ea_calc_size k sdp er in
    if sd_jbsize sdp <? size then - ERANGE else 0.

(** *** The walk over one block *)

(** [GFS2_EA_REC_LEN] and [GFS2_EA_DATA_LEN]: 32-bit values. *)
Definition GFS2_EA_REC_LEN (ea : gfs2_ea_header) : Z := wrap32 (ea_rec_len ea).
Definition GFS2_EA_DATA_LEN (ea : gfs2_ea_header) : Z := wrap32 (ea_data_len ea).

(** [GFS2_EA_IS_LAST]. *)
Definition GFS2_EA_IS_LAST (k : ondisk) (ea : gfs2_ea_header) : bool :=
  negb (Z.land (ea_flags ea) (GFS2_EAFLAG_LAST k) =? 0).

(** [GFS2_EA_IS_STUFFED]. *)
Definition GFS2_EA_IS_STUFFED (ea : gfs2_ea_header) : bool := ea_num_ptrs ea =? 0.

(** The three tests made on a record before the callback is called. *)
Definition ea_record_ok (k : ondisk) (b_size : Z) (ea : Z) (h : gfs2_ea_header) : bool :=
  negb (GFS2_EA_REC_LEN h =? 0)
  && ((0 <=? ea) && (ea + GFS2_EA_REC_LEN h <=? b_size))
  && GFS2_EATYPE_VALID k (ea_type h).

(** [ea_call_t]: the callback gets the private data (with whatever of the
    inode it changes), the number and the data of the buffer, the offsets of
    the record and of the previous one, and returns its error with the data
    as it leaves them. *)
Definition ea_call_t (A : Type) : Type :=
  A -> Z -> block -> Z -> option Z -> Z * A * block.

(** What a walk returns: the error, whether [gfs2_consist_inode] was
    called, the private data, the buffer, and the records the callback was
    called on, each with the header read before the call. *)
Record walk (A : Type) := mk_walk {
  w_error : Z;
  w_consist : bool;
  w_private : A;
  w_block : block;
  w_called : list (Z * gfs2_ea_header)
}.
Arguments mk_walk {A}.
Arguments w_error {A}.
Arguments w_consist {A}.
Arguments w_private {A}.
Arguments w_block {A}.
Arguments w_called {A}.

Definition walk_called {A : Type} (c : Z * gfs2_ea_header) (w : walk A) : walk A :=
  mk_walk (w_error w) (w_consist w) (w_private w) (w_block w) (c :: w_called w).

(** The loop of [ea_foreach_i] from the record at offset [ea]; [None] is an
    exhausted fuel. *)
Fixpoint ea_foreach_loop {A : Type} (fuel : nat) (k : ondisk) (b_size : Z)
    (ea_call : ea_call_t A) (data : A) (bn : Z) (bh : block)
    (ea : Z) (prev : option Z) : option (walk A) :=
  match fuel with
  | O => None
  | S fuel' =>
      let h := ea_at bh ea in
      if negb (ea_record_ok k b_size ea h)
      then Some (mk_walk (- EIO) true data bh [])
      else
        let '(error, data', bh') := ea_call data bn bh ea prev in
        if negb (error =? 0) then Some (mk_walk error false data' bh' [(ea, h)])
        else
          let h' := ea_at bh' ea in
          if GFS2_EA_IS_LAST k h' then
            if negb (ea + GFS2_EA_REC_LEN h' =? b_size)
            then Some (mk_walk (- EIO) true data' bh' [(ea, h)])
            else Some (mk_walk error false data' bh' [(ea, h)])
          else
            walk_called (ea, h) <$>
              ea_foreach_loop fuel' k b_size ea_call data' bn bh'
                              (ea + GFS2_EA_REC_LEN h') (Some ea)
  end.

(** Where a walk that flags a consistency error stopped: at the record
    after the last one called (at the record it started from when none was
    called), which fails a test, or at a last record that does not end with
    the block. *)
Definition stopped_at {A : Type} (k : ondisk) (b_size : Z) (w : walk A)
    (data : A) (bh : block) (ea : Z) : Prop :=
  match last (w_called w) with
  | None =>
      ea_record_ok k b_size ea (ea_at bh ea) = false /\ w_block w = bh /\ w_private w = data
  | Some c =>
      let h := ea_at (w_block w) (fst c) in
      (GFS2_EA_IS_LAST k h = true /\ fst c + GFS2_EA_REC_LEN h <> b_size) \/
      (GFS2_EA_IS_LAST k h = false /\
       ea_record_ok k b_size (fst c + GFS2_EA_REC_LEN h)
                    (ea_at (w_block w) (fst c + GFS2_EA_REC_LEN h)) = false)
  end.

(** [ea_foreach_i]; the walk starts after the meta header
    ([GFS2_EA_BH2FIRST]) and cannot take more steps than the block has
    bytes, plus one. *)
Definition ea_foreach_i {A : Type} (k : ondisk) (sdp : gfs2_sbd)
    (ea_call : ea_call_t A) (data : A) (bn : Z) (bh : block) : option (walk A) :=
  if negb (mh_type bh =? GFS2_METATYPE_EA)
  then Some (mk_walk (- EIO) false data bh [])
  else ea_foreach_loop (S (Z.to_nat (sd_bsize sdp))) k (sd_bsize sdp) ea_call data bn bh
                       (sizeof_meta_header k) None.

(** The turns of the loop of [ea_foreach_i] that go on to the next record,
    as a relation: the loop, entered at the record [ea] with the private
    data [data] and the buffer [bh], stands at the record [ea'] with [data']
    and [bh'] once the callback has been called on the records [called].  In
    each of these turns the record has passed the three tests, the callback
    has returned 0, and the record, as the callback left it, is not the last
    one. *)
Inductive ea_walk_to {A : Type} (k : ondisk) (b_size : Z) (ea_call : ea_call_t A) (bn : Z)
  : A -> block -> Z -> option Z -> list (Z * gfs2_ea_header) ->
    A -> block -> Z -> option Z -> Prop :=
| walk_here (data : A) (bh : block) (ea : Z) (prev : option Z) :
    ea_walk_to k b_size ea_call bn data bh ea prev [] data bh ea prev
| walk_next (data : A) (bh : block) (ea : Z) (prev : option Z)
            (data1 : A) (bh1 : block) (called : list (Z * gfs2_ea_header))
            (data' : A) (bh' : block) (ea' : Z) (prev' : option Z) :
    ea_record_ok k b_size ea (ea_at bh ea) = true ->
    ea_call data bn bh ea prev = (0, data1, bh1) ->
    GFS2_EA_IS_LAST k (ea_at bh1 ea) = false ->
    ea_walk_to k b_size ea_call bn data1 bh1 (ea + GFS2_EA_REC_LEN (ea_at bh1 ea)) (Some ea)
               called data' bh' ea' prev' ->
    ea_walk_to k b_size ea_call bn data bh ea prev ((ea, ea_at bh ea) :: called)
               data' bh' ea' prev'.

(** The loop of [ea_foreach] over the pointers of an indirect block. *)
Fixpoint ea_foreach_ptrs {A : Type} (k : ondisk) (sdp : gfs2_sbd)
    (ea_call : ea_call_t A) (data : A) (d : disk) (eablk : list Z)
  : option (Z * A * disk) :=
  match eablk with
  | [] => Some (0, data, d)
  | bn :: rest =>
      if bn =? 0 then Some (0, data, d)
      else
        match d bn with
        | None => Some (- EIO, data, d)
        | Some eabh =>
            w ← ea_foreach_i k sdp ea_call data bn eabh;
            let d' := disk_write d bn (w_block w) in
            if negb (w_error w =? 0) then Some (w_error w, w_private w, d')
            else ea_foreach_ptrs k sdp ea_call (w_private w) d' rest
        end
  end.

(** [ea_foreach]. *)
Definition ea_foreach {A : Type} (k : ondisk) (sdp : gfs2_sbd) (d : disk)
    (ip : gfs2_inode) (ea_call : ea_call_t A) (data : A) : option (Z * A * disk) :=
  match d (di_eattr ip) with
  | None => Some (- EIO, data, d)
  | Some bh =>
      if negb (dif_ea_indirect ip) then
        w ← ea_foreach_i k sdp ea_call data (di_eattr ip) bh;
        Some (w_error w, w_private w, disk_write d (di_eattr ip) (w_block w))
      else if negb (mh_type bh =? GFS2_METATYPE_IN) then Some (- EIO, data, d)
      else ea_foreach_ptrs k sdp ea_call data d (take (Z.to_nat (sd_inptrs sdp)) (in_ptrs bh))
  end.

(** *** Find *)

(** [memcmp(a, b, n) == 0]. *)
Definition memcmp_eq (a b : list Z) (n : Z) : bool :=
  bool_decide (take (Z.to_nat n) a = take (Z.to_nat n) b).

(** [ea_find_i]; its private data is the location to fill. *)
Definition ea_find_i (er_type : Z) (er_name_len : Z) (er_name : list Z)
  : ea_call_t (option gfs2_ea_location) :=
  fun el bn bh ea prev =>
    let h := ea_at bh ea in
    if ea_type h =? GFS2_EATYPE_UNUSED then (0, el, bh)
    else if (ea_type h =? er_type)
            && ((ea_name_len h =? er_name_len)
                && memcmp_eq (ea_name h) er_name (ea_name_len h))
         then (1, Some (mk_location bn ea prev), bh)
         else (0, el, bh).

(** [gfs2_ea_find]: the error and the location. *)
Definition gfs2_ea_find (k : ondisk) (sdp : gfs2_sbd) (d : disk) (ip : gfs2_inode)
    (er : gfs2_ea_request) : option (Z * option gfs2_ea_location) :=
  r ← ea_foreach k sdp d ip (ea_find_i (er_type er) (er_name_len er) (er_name er)) None;
  let '(error, el, _) := r in
  if 0 <? error then Some (0, el) else Some (error, el).

(** The record a location points to. *)
Definition located (d : disk) (el : gfs2_ea_location) : option gfs2_ea_header :=
  bh ← d (el_bh el); Some (ea_at bh (el_ea el)).

(** *** Get *)

(** The second loop of [ea_get_unstuffed]: wait for each data block (the
    first loop only starts the reads), check its type and copy its payload;
    [data + pos] is where the next copy goes. *)
Fixpoint ea_get_unstuffed_loop (sdp : gfs2_sbd) (d : disk) (dataptrs : list Z)
    (amount : Z) (data : list Z) (pos : Z) : Z * list Z :=
  match dataptrs with
  | [] => (0, data)
  | bn :: rest =>
      match d bn with
      | None => (- EIO, data)
      | Some bh =>
          if negb (mh_type bh =? GFS2_METATYPE_ED) then (- EIO, data)
          else
            let n := if amount <? sd_jbsize sdp then amount else sd_jbsize sdp in
            ea_get_unstuffed_loop sdp d rest (wrap32 (amount - sd_jbsize sdp))
                                  (memcpy data pos (ed_bytes bh) 0 n)
                                  (pos + sd_jbsize sdp)
      end
  end.

(** [ea_get_unstuffed]; [kcalloc_ok] tells whether its allocation succeeds. *)
Definition ea_get_unstuffed (sdp : gfs2_sbd) (d : disk) (kcalloc_ok : bool)
    (ea : gfs2_ea_header) (data : list Z) : Z * list Z :=
  let amount := GFS2_EA_DATA_LEN ea in
  let nptrs := DIV_RU amount (sd_jbsize sdp) in
  if negb kcalloc_ok then (- ENOMEM, data)
  else ea_get_unstuffed_loop sdp d (take (Z.to_nat nptrs) (ea_dataptrs ea)) amount data 0.

(** [gfs2_ea_get_copy]. *)
Definition gfs2_ea_get_copy (sdp : gfs2_sbd) (d : disk) (kcalloc_ok : bool)
    (ea : gfs2_ea_header) (data : list Z) : Z * list Z :=
  if GFS2_EA_IS_STUFFED ea
  then (0, memcpy data 0 (ea_data ea) 0 (GFS2_EA_DATA_LEN ea))
  else ea_get_unstuffed sdp d kcalloc_ok ea data.

(** [gfs2_ea_get_i]: the value returned and the caller's buffer; [None] is
    a crash (a copy through a NULL pointer) or an exhausted fuel. *)
Definition gfs2_ea_get_i (k : ondisk) (sdp : gfs2_sbd) (d : disk) (kcalloc_ok : bool)
    (ip : gfs2_inode) (er : gfs2_ea_request) : option (Z * option (list Z)) :=
  if di_eattr ip =? 0 then Some (- ENODATA, er_data er)
  else
    found ← gfs2_ea_find k sdp d ip er;
    let '(error, el) := found in
    if negb (error =? 0) then Some (error, er_data er)
    else
      match el with
      | None => Some (- ENODATA, er_data er)
      | Some el =>
          ea ← located d el;
          copied ←
            (if negb (er_data_len er =? 0) then
               if er_data_len er <? GFS2_EA_DATA_LEN ea then Some (- ERANGE, er_data er)
               else
                 data ← er_data er;
                 let '(error, data') := gfs2_ea_get_copy sdp d kcalloc_ok ea data in
                 Some (error, Some data')
             else Some (0, er_data er));
          let '(error, data) := copied in
          Some (if error =? 0 then to_int (GFS2_EA_DATA_LEN ea) else error, data)
      end.

(** An operation of [gfs2_ea_ops] ([eaops.c] is not part of the tree). *)
Definition eo_get_t : Type := gfs2_inode -> gfs2_ea_request -> option (Z * option (list Z)).

Definition set_er_data (er : gfs2_ea_request) (data : option (list Z)) (len : Z)
  : gfs2_ea_request :=
  mk_request (er_name er) (er_name_len er) data len (er_type er) (er_flags er).

(** The request after [if (!er->er_data || !er->er_data_len) ...]. *)
Definition er_normalize (er : gfs2_ea_request) : gfs2_ea_request :=
  match er_data er with
  | None => set_er_data er None 0
  | Some _ => if er_data_len er =? 0 then set_er_data er None 0 else er
  end.

(** [gfs2_ea_get]: [nq_error] is what [gfs2_glock_nq_init] returns for the
    inode's lock and [eo_get] the operation [gfs2_ea_ops] has for the type of
    the request; the result is the value returned and the request as the
    caller finds it. *)
Definition gfs2_ea_get (k : ondisk) (nq_error : Z) (eo_get : eo_get_t)
    (ip : gfs2_inode) (er : gfs2_ea_request) : option (Z * gfs2_ea_request) :=
  if (er_name_len er =? 0) || (GFS2_EA_MAX_NAME_LEN k <? er_name_len er)
  then Some (- EINVAL, er)
  else
    let er := er_normalize er in
    if negb (nq_error =? 0) then Some (nq_error, er)
    else
      r ← eo_get ip er;
      let '(error, data) := r in
      Some (error, set_er_data er data (er_data_len er)).

(** *** Set *)

(** What [gfs2_ea_set] asks of the lock service. *)
Inductive ea_event :=
| EV_GLOCK_NQ
| EV_GLOCK_DQ.

(** [gfs2_ea_set]: [nq_error] is what [gfs2_glock_nq_init] returns,
    [immutable] is [IS_IMMUTABLE(ip->i_vnode)] and [eo_set] the operation
    [gfs2_ea_ops] has for the type of the request; the result is the error,
    the state, the request as the caller finds it, and the calls made to the
    lock service. *)
Definition gfs2_ea_set {W : Type} (k : ondisk) (sdp : gfs2_sbd) (nq_error : Z)
    (immutable : bool) (eo_set : W -> gfs2_ea_request -> option (Z * W))
    (w : W) (er : gfs2_ea_request) : option (Z * W * gfs2_ea_request * list ea_event) :=
  if (er_name_len er =? 0) || (GFS2_EA_MAX_NAME_LEN k <? er_name_len er)
  then Some (- EINVAL, w, er, [])
  else
    let er := er_normalize er in
    let error := ea_check_size k sdp er in
    if negb (error =? 0) then Some (error, w, er, [])
    else if negb (nq_error =? 0) then Some (nq_error, w, er, [EV_GLOCK_NQ])
    else if immutable then Some (- EPERM, w, er, [EV_GLOCK_NQ; EV_GLOCK_DQ])
    else
      r ← eo_set w er;
      let '(error, w') := r in
      Some (error, w', er, [EV_GLOCK_NQ; EV_GLOCK_DQ]).

End Eattr.

(** ** Sample volumes *)

Module Examples.
Import Bits Rgrp.

(** A group of one block whose bitmap of 16 bytes follows a header of
    [hdr] bytes: 64 data blocks from block 100 on. *)
Definition bitmap_block (hdr : nat) (cells : list Z) : list Z :=
  replicate hdr 0 ++ cells.

Definition one_segment (bh : list Z) (clone : option (list Z)) : gfs2_bitmap :=
  mk_bitmap bh clone 8 0 16.

Definition rgd_stale_clone : gfs2_rgrpd :=
  mk_rgrpd (mk_rindex 99 1 100 64 16) (mk_rgrp 0 62 0)
           [one_segment (bitmap_block 8 (5 :: replicate 15 0))
                        (Some (bitmap_block 8 (replicate 16 255)))]
           7 0 0.

(** The same group with all 64 cells free and a header that says so. *)
Definition rgd_all_free : gfs2_rgrpd :=
  mk_rgrpd (mk_rindex 99 1 100 64 16) (mk_rgrp 0 64 0)
           [one_segment (bitmap_block 8 (replicate 16 0)) None]
           64 0 0.

(** A volume with that group alone, and an inode holding a reservation of
    one block in it, with goal block 100. *)
Definition sbd_one_group : gfs2_sbd :=
  mk_sbd [rgd_all_free] [] None 1 1 0 false 0 0 false.

Definition inode_goal_100 : gfs2_inode :=
  mk_inode (Some (mk_alloc 1 0 (Some 0%nat))) 0 100 0.

(** A volume of two groups shared by two journals: the first group is on
    the recent list and is the forward cursor. *)
Definition rgd_second : gfs2_rgrpd :=
  mk_rgrpd (mk_rindex 199 1 200 64 16) (mk_rgrp 0 64 0)
           [one_segment (bitmap_block 8 (replicate 16 0)) None]
           64 0 0.

Definition sbd_two_groups : gfs2_sbd :=
  mk_sbd [rgd_all_free; rgd_second] [0%nat] (Some 0%nat) 2 2 0 false 0 0 false.

(** The same volume before any allocation: no recent group, no cursor. *)
Definition sbd_two_groups_fresh : gfs2_sbd :=
  mk_sbd [rgd_all_free; rgd_second] [] None 2 2 0 false 0 0 false.

(** A lock service under which the first group is always contended. *)
Definition lock_first_busy : glock_oracle :=
  fun _ rgd _ => if decide (rgd = 0%nat) then GLR_TRYFAILED else GL_OK.

(** A lock service that fails with -EIO. *)
Definition lock_broken : glock_oracle := fun _ _ _ => GL_ERROR (- EIO).

Definition inode_no_goal : gfs2_inode :=
  mk_inode (Some (mk_alloc 1 0 None)) 0 0 0.

End Examples.

Module EattrExamples.
Import Eattr.

(** A format with headers of 24 and 16 bytes, records aligned on 8 bytes,
    names of at most 255 bytes, values of at most 64 KiB, and the types 0 to
    2; blocks of 64 bytes. *)
Definition format : ondisk := mk_ondisk 24 16 8 255 65536 1 (fun t => t <=? 2).

Definition sbd_64 : gfs2_sbd := mk_sbd 64 40 5.

Definition no_record : gfs2_ea_header := mk_ea_header 0 0 0 0 0 0 [] [] [].

(** The user attribute [foo] with a stuffed value of three bytes, alone in
    its block. *)
Definition record_foo : gfs2_ea_header :=
  mk_ea_header 40 3 3 1 1 0 [102; 111; 111] [1; 2; 3] [].

Definition block_foo : block :=
  mk_block GFS2_METATYPE_EA (fun ea => if ea =? 24 then record_foo else no_record) [] [].

Definition disk_foo : disk := fun bn => if bn =? 7 then Some block_foo else None.

Definition inode_foo (appendonly : bool) : gfs2_inode := mk_inode 7 false appendonly.

Definition request_foo (data : option (list Z)) (len flags : Z) : gfs2_ea_request :=
  mk_request [102; 111; 111] 3 data len 1 flags.

(** A block whose only record has length 0, and a callback that counts its
    calls. *)
Definition block_broken : block :=
  mk_block GFS2_METATYPE_EA (fun _ => no_record) [] [].

Definition count_calls : ea_call_t nat :=
  fun n _ bh _ _ => (0, S n, bh).

(** A block whose first record, of 16 bytes, is followed by a record of
    length 0. *)
Definition record_short : gfs2_ea_header :=
  mk_ea_header 16 0 3 1 0 0 [102; 111; 111] [] [].

Definition block_second_broken : block :=
  mk_block GFS2_METATYPE_EA (fun ea => if ea =? 24 then record_short else no_record) [] [].

End EattrExamples.

(** ** The resource index: layout, lookup and lists of groups ([rgrp.c]) *)

Module RgrpIndex.
Import Bits Rgrp.

(** *** [compute_bitstructs] *)

(** What [compute_bitstructs] takes from outside the index entry: the block
    size [sd_sb.sb_bsize] and the sizes of [struct gfs2_rgrp] and
    [struct gfs2_meta_header] ([gfs2_ondisk.h] is not part of the tree). *)
Record geometry := mk_geometry {
  sb_bsize : Z;
  sizeof_gfs2_rgrp : Z;
  sizeof_gfs2_meta_header : Z
}.

(** The body of the loop for segment [x] with [bytes_left] bytes still to
    place: the descriptor written and [bytes].  The array comes zeroed from
    [kcalloc]: no buffer (the empty list) and no clone. *)
Definition bitstruct (g : geometry) (ri : gfs2_rindex) (x bytes_left : Z)
  : gfs2_bitmap * Z :=
  let length := ri_length ri in
  if length =? 1 then
    (mk_bitmap [] None (sizeof_gfs2_rgrp g) 0 bytes_left, bytes_left)
  else if x =? 0 then
    let bytes := wrap32 (sb_bsize g - sizeof_gfs2_rgrp g) in
    (mk_bitmap [] None (sizeof_gfs2_rgrp g) 0 bytes, bytes)
  else if x + 1 =? length then
    (mk_bitmap [] None (sizeof_gfs2_meta_header g)
               (wrap32 (ri_bitbytes ri - bytes_left)) bytes_left,
     bytes_left)
  else
    let bytes := wrap32 (sb_bsize g - sizeof_gfs2_meta_header g) in
    (mk_bitmap [] None (sizeof_gfs2_meta_header g)
               (wrap32 (ri_bitbytes ri - bytes_left)) bytes,
     bytes).

(** [for (x = 0; x < length; x++)] with [n] iterations left: the
    descriptors from [x] on and the final [bytes_left]. *)
Fixpoint bitstructs_loop (n : nat) (g : geometry) (ri : gfs2_rindex) (x bytes_left : Z)
  : list gfs2_bitmap * Z :=
  match n with
  | O => ([], bytes_left)
  | S n' =>
      let '(bi, bytes) := bitstruct g ri x bytes_left in
      let '(rest, final) := bitstructs_loop n' g ri (x + 1) (wrap32 (bytes_left - bytes)) in
      (bi :: rest, final)
  end.

(** [compute_bitstructs]: the error, the group with its descriptors, and
    whether [gfs2_consist_rgrpd] was called; [kcalloc_ok] tells whether the
    allocation succeeds.  [None] is the read of [rd_bits + (length - 1)]
    outside the array, which an entry of length 0 without bitmap bytes
    reaches. *)
Definition compute_bitstructs (g : geometry) (kcalloc_ok : bool) (rgd : gfs2_rgrpd)
  : option (Z * gfs2_rgrpd * bool) :=
  let ri := rd_ri rgd in
  let length := ri_length ri in
  if negb kcalloc_ok then Some (- ENOMEM, set_rd_bits rgd [], false)
  else
    let '(bits, bytes_left) :=
      bitstructs_loop (Z.to_nat length) g ri 0 (ri_bitbytes ri) in
    let rgd := set_rd_bits rgd bits in
    if negb (bytes_left =? 0) then Some (- EIO, rgd, true)
    else
      bi ← bits !! Z.to_nat (wrap32 (length - 1));
      if negb (wrap32 (wrap32 (bi_start bi + bi_len bi) * GFS2_NBBY) =? ri_data ri)
      then Some (- EIO, rgd, true)
      else Some (0, rgd, false).

(** What the first loop of [gfs2_rgrp_bh_get] does to the descriptors:
    segment [x] gets the buffer of block [ri_addr + x]. *)
Definition attach_buffers (bits : list gfs2_bitmap) (bhs : list (list Z))
  : list gfs2_bitmap :=
  zip_with set_bi_bh bits bhs.

(** The index entries [compute_bitstructs] lays out without wrap-around:
    the bitmap bytes fill every block but the last and fit the last. *)
Definition rindex_fits (g : geometry) (ri : gfs2_rindex) : Prop :=
  let first := sb_bsize g - sizeof_gfs2_rgrp g in
  let other := sb_bsize g - sizeof_gfs2_meta_header g in
  1 <= ri_length ri < 2 ^ 32 /\
  0 <= sizeof_gfs2_meta_header g <= sizeof_gfs2_rgrp g /\
  sizeof_gfs2_rgrp g <= sb_bsize g < 2 ^ 32 /\
  0 <= ri_bitbytes ri < 2 ^ 32 /\
  (if ri_length ri =? 1 then ri_bitbytes ri <= first
   else first + (ri_length ri - 2) * other <= ri_bitbytes ri
        /\ ri_bitbytes ri <= first + (ri_length ri - 1) * other).

(** *** [gfs2_blk2rgrpd] *)

(** [gfs2_blk2rgrpd]; [mru] is [sdp->sd_rindex_mru_list], each group once,
    and [list_move] puts the group found at its head. *)
Definition gfs2_blk2rgrpd (sdp : gfs2_sbd) (mru : list nat) (blk : Z)
  : option nat * list nat :=
  match find (fun rgd => rgrp_contains_block (rd_ri (rgrpd_at sdp rgd)) blk) mru with
  | Some rgd => (Some rgd, rgd :: recent_del mru rgd)
  | None => (None, mru)
  end.

(** No block belongs to two groups of the list. *)
Definition rgrps_disjoint (sdp : gfs2_sbd) (mru : list nat) : Prop :=
  forall r1 r2 blk,
    r1 ∈ mru -> r2 ∈ mru ->
    rgrp_contains_block (rd_ri (rgrpd_at sdp r1)) blk = true ->
    rgrp_contains_block (rd_ri (rgrpd_at sdp r2)) blk = true ->
    r1 = r2.

(** [gfs2_consist]: the file system is withdrawn. *)
Definition gfs2_consist (sdp : gfs2_sbd) : gfs2_sbd := set_sd_withdrawn sdp true.

(** *** Lists of groups ([struct gfs2_rgrp_list]) *)

(** [rl_rgd] is the array of [rl_space] slots ([None] for the NULL
    pointer), a slot being NULL until it is written; [rl_ghs] holds, once
    allocated, the group, state and flags each holder was initialised
    with. *)
Record gfs2_rgrp_list := mk_rlist {
  rl_rgrps : Z;
  rl_space : Z;
  rl_rgd : option (list (option nat));
  rl_ghs : option (list (nat * Z * Z))
}.

(** [for (x = 0; x < rlist->rl_rgrps; x++) if (rlist->rl_rgd[x] == rgd)
    return;] with [n] iterations left; [None] is a read outside the
    array. *)
Fixpoint rlist_has (n : nat) (x : nat) (l : list (option nat)) (rgd : nat)
  : option bool :=
  match n with
  | O => Some false
  | S n' =>
      e ← l !! x;
      if decide (e = Some rgd) then Some true else rlist_has n' (S x) l rgd
  end.

(** [gfs2_rlist_add] at time [jiffies]; [None] is a crash (an access
    outside the array, or [BUG()] in the warning). *)
Definition gfs2_rlist_add (sdp : gfs2_sbd) (mru : list nat) (jiffies : Z)
    (rlist : gfs2_rgrp_list) (block : Z)
  : option (gfs2_sbd * list nat * gfs2_rgrp_list) :=
  '(w, sdp) ← gfs2_assert_warn sdp (bool_decide (rl_ghs rlist = None)) jiffies;
  if negb (w =? 0) then Some (sdp, mru, rlist)
  else
    match gfs2_blk2rgrpd sdp mru block with
    | (None, mru) => Some (gfs2_consist sdp, mru, rlist)
    | (Some rgd, mru) =>
        present ← rlist_has (Z.to_nat (rl_rgrps rlist)) 0 (default [] (rl_rgd rlist)) rgd;
        if present : bool then Some (sdp, mru, rlist)
        else
          grown ←
            (if rl_rgrps rlist =? rl_space rlist then
               let new_space := wrap32 (rl_space rlist + 10) in
               let tmp := replicate (Z.to_nat new_space) None in
               match rl_rgd rlist with
               | Some old =>
                   if Z.of_nat (length old) <? rl_space rlist then None
                   else Some (new_space,
                              list_inserts 0 (take (Z.to_nat (rl_space rlist)) old) tmp)
               | None => Some (new_space, tmp)
               end
             else
               match rl_rgd rlist with
               | Some old => Some (rl_space rlist, old)
               | None => None
               end);
          let '(space, arr) := grown in
          if Z.of_nat (length arr) <=? rl_rgrps rlist then None
          else
            Some (sdp, mru,
                  mk_rlist (wrap32 (rl_rgrps rlist + 1)) space
                           (Some (<[Z.to_nat (rl_rgrps rlist) := Some rgd]> arr))
                           (rl_ghs rlist))
    end.

(** The groups on a list, in the order they were added. *)
Definition rlist_rgrps (rlist : gfs2_rgrp_list) : list (option nat) :=
  take (Z.to_nat (rl_rgrps rlist)) (default [] (rl_rgd rlist)).

(** A list as [memset] and [gfs2_rlist_add] leave it: the array has
    [rl_space] slots, the first [rl_rgrps] of them hold distinct groups,
    and no holder is allocated. *)
Definition rlist_ok (rlist : gfs2_rgrp_list) : Prop :=
  0 <= rl_rgrps rlist <= rl_space rlist /\
  match rl_rgd rlist with
  | None => rl_space rlist = 0
  | Some arr => Z.of_nat (length arr) = rl_space rlist
  end /\
  (exists rgds, rlist_rgrps rlist = Some <$> rgds /\ NoDup rgds) /\
  rl_ghs rlist = None.

(** [gfs2_rlist_alloc]; [None] is the dereference of a slot that holds no
    group. *)
Definition gfs2_rlist_alloc (rlist : gfs2_rgrp_list) (state flags : Z)
  : option gfs2_rgrp_list :=
  ghs ← mapM (fun e : option nat => rgd ← e; Some (rgd, state, flags))
             (rlist_rgrps rlist);
  if Z.of_nat (length ghs) <? rl_rgrps rlist then None
  else Some (mk_rlist (rl_rgrps rlist) (rl_space rlist) (rl_rgd rlist) (Some ghs)).

End RgrpIndex.

(** ** Freeing blocks ([rgrp.c]) *)

Module RgrpFree.
Import Bits Rgrp RgrpIndex.

(** [gfs2_get_block_type]; [None] is the failure of the hard assertion
    [buf < length]. *)
Definition gfs2_get_block_type (rgd : gfs2_rgrpd) (block : Z) : option Z :=
  let bits := rd_bits rgd in
  let length := ri_length (rd_ri rgd) in
  let rgrp_block := wrap32 (block - ri_data0 (rd_ri rgd)) in
  let buf := find_goal_buf (Z.to_nat length) 0 bits rgrp_block in
  if negb (buf <? length) then None
  else
    let bi := bits_at bits buf in
    let buf_block := wrap32 (rgrp_block - wrap32 (bi_start bi * GFS2_NBBY)) in
    Some (gfs2_testbit (bi_bh bi) (bi_offset bi) (bi_len bi) buf_block).

(** The body of the loop of [rgblk_free] for the group-relative block
    [rgrp_blk]; [kmalloc n] is the content of the [n] bytes a [kmalloc]
    returns, and the size of a buffer is the length of its data. *)
Definition rgblk_free_one (kmalloc : Z -> list Z) (rgd : gfs2_rgrpd)
    (rgrp_blk new_state : Z) : option gfs2_rgrpd :=
  let bits := rd_bits rgd in
  let length := ri_length (rd_ri rgd) in
  let buf := find_goal_buf (Z.to_nat length) 0 bits rgrp_blk in
  if negb (buf <? length) then None
  else
    let bi := bits_at bits buf in
    let buf_blk := wrap32 (rgrp_blk - wrap32 (bi_start bi * GFS2_NBBY)) in
    let bi :=
      match bi_clone bi with
      | Some _ => bi
      | None =>
          set_bi_clone bi
            (Some (memcpy (kmalloc (Z.of_nat (List.length (bi_bh bi)))) (bi_offset bi)
                          (bi_bh bi) (bi_offset bi) (bi_len bi)))
      end in
    let bi :=
      set_bi_bh bi (gfs2_setbit (bi_bh bi) (bi_offset bi) (bi_len bi) buf_blk new_state) in
    Some (set_rd_bits rgd (<[Z.to_nat buf := bi]> bits)).

(** [while (blen--)] with [n] iterations left. *)
Fixpoint rgblk_free_loop (n : nat) (kmalloc : Z -> list Z) (rgd : gfs2_rgrpd)
    (rgrp_blk new_state : Z) : option gfs2_rgrpd :=
  match n with
  | O => Some rgd
  | S n' =>
      rgd ← rgblk_free_one kmalloc rgd rgrp_blk new_state;
      rgblk_free_loop n' kmalloc rgd (wrap32 (rgrp_blk + 1)) new_state
  end.

(** [rgblk_free]: the group returned ([None] for NULL), the volume and the
    MRU list; the outer [None] is a failed hard assertion. *)
Definition rgblk_free (kmalloc : Z -> list Z) (sdp : gfs2_sbd) (mru : list nat)
    (bstart blen new_state : Z) : option (option nat * gfs2_sbd * list nat) :=
  match gfs2_blk2rgrpd sdp mru bstart with
  | (None, mru) => Some (None, gfs2_consist sdp, mru)
  | (Some r, mru) =>
      let rgd := rgrpd_at sdp r in
      let rgrp_blk := wrap32 (bstart - ri_data0 (rd_ri rgd)) in
      rgd ← rgblk_free_loop (Z.to_nat blen) kmalloc rgd rgrp_blk new_state;
      Some (Some r, set_sd_rindex_list sdp (<[r := rgd]> (sd_rindex_list sdp)), mru)
  end.

(** [gfs2_free_data].  As for the allocation, the journal, statistics and
    quota calls and the rewriting of the header block are not tracked. *)
Definition gfs2_free_data (kmalloc : Z -> list Z) (sdp : gfs2_sbd) (mru : list nat)
    (bstart blen : Z) : option (gfs2_sbd * list nat) :=
  '(rgd, sdp, mru) ← rgblk_free kmalloc sdp mru bstart blen GFS2_BLKST_FREE;
  match rgd with
  | None => Some (sdp, mru)
  | Some r =>
      let rgd := rgrpd_at sdp r in
      let rgd :=
        set_rd_rg rgd (mk_rgrp (rg_flags (rd_rg rgd)) (wrap32 (rg_free (rd_rg rgd) + blen))
                               (rg_dinodes (rd_rg rgd))) in
      Some (set_sd_rindex_list sdp (<[r := rgd]> (sd_rindex_list sdp)), mru)
  end.

(** [gfs2_free_meta]: as [gfs2_free_data], and the buffers of the blocks
    are then dropped from the cache by [gfs2_meta_wipe]. *)
Definition gfs2_free_meta (kmalloc : Z -> list Z) (sdp : gfs2_sbd) (mru : list nat)
    (bstart blen : Z) : option (gfs2_sbd * list nat) :=
  '(rgd, sdp, mru) ← rgblk_free kmalloc sdp mru bstart blen GFS2_BLKST_FREE;
  match rgd with
  | None => Some (sdp, mru)
  | Some r =>
      let rgd := rgrpd_at sdp r in
      let rgd :=
        set_rd_rg rgd (mk_rgrp (rg_flags (rd_rg rgd)) (wrap32 (rg_free (rd_rg rgd) + blen))
                               (rg_dinodes (rd_rg rgd))) in
      Some (set_sd_rindex_list sdp (<[r := rgd]> (sd_rindex_list sdp)), mru)
  end.

(** [gfs2_free_uninit_di]; [rgd] is the group the caller names, which the
    code checks against the one the block is found in. *)
Definition gfs2_free_uninit_di (kmalloc : Z -> list Z) (sdp : gfs2_sbd) (mru : list nat)
    (rgd : nat) (blkno : Z) : option (gfs2_sbd * list nat) :=
  '(tmp_rgd, sdp, mru) ← rgblk_free kmalloc sdp mru blkno 1 GFS2_BLKST_FREE;
  match tmp_rgd with
  | None => Some (sdp, mru)
  | Some tmp =>
      let sdp := gfs2_assert_withdraw sdp (bool_decide (rgd = tmp)) in
      let d := rgrpd_at sdp rgd in
      let sdp := if rg_dinodes (rd_rg d) =? 0 then gfs2_consist sdp else sdp in
      let d :=
        set_rd_rg d (mk_rgrp (rg_flags (rd_rg d)) (wrap32 (rg_free (rd_rg d) + 1))
                             (wrap32 (rg_dinodes (rd_rg d) - 1))) in
      Some (set_sd_rindex_list sdp (<[rgd := d]> (sd_rindex_list sdp)), mru)
  end.

(** [gfs2_free_di] for the inode at block [no_addr]. *)
Definition gfs2_free_di (kmalloc : Z -> list Z) (sdp : gfs2_sbd) (mru : list nat)
    (rgd : nat) (no_addr : Z) : option (gfs2_sbd * list nat) :=
  gfs2_free_uninit_di kmalloc sdp mru rgd no_addr.

(** [gfs2_rgrp_repolish_clones] called on the group at position [r]. *)
Definition repolish_at (sdp : gfs2_sbd) (r : nat) : gfs2_sbd :=
  set_sd_rindex_list sdp
    (<[r := gfs2_rgrp_repolish_clones (rgrpd_at sdp r)]> (sd_rindex_list sdp)).

End RgrpFree.

(** ** Reservations ([rgrp.c]) *)

Module Reserve.
Import Bits Rgrp.

(** [gfs2_alloc_get] at time [jiffies]: the structure comes zeroed from
    [kzalloc]; [None] is [BUG()] in the warning. *)
Definition gfs2_alloc_get (sdp : gfs2_sbd) (ip : gfs2_inode) (jiffies : Z)
  : option (gfs2_sbd * gfs2_inode) :=
  '(_, sdp) ← gfs2_assert_warn sdp (bool_decide (i_alloc ip = None)) jiffies;
  Some (sdp, set_i_alloc ip (Some (mk_alloc 0 0 None))).

(** [gfs2_alloc_put]. *)
Definition gfs2_alloc_put (sdp : gfs2_sbd) (ip : gfs2_inode) (jiffies : Z)
  : option (gfs2_sbd * gfs2_inode) :=
  '(w, sdp) ← gfs2_assert_warn sdp (bool_decide (i_alloc ip <> None)) jiffies;
  if negb (w =? 0) then Some (sdp, ip) else Some (sdp, set_i_alloc ip None).

(** What [gfs2_inplace_reserve_i] asks of the lock of the resource index. *)
Inductive ri_event :=
| EV_RINDEX_HOLD
| EV_RINDEX_DQ.

(** [gfs2_inplace_reserve_i] at time [jiffies]; [gfs2_rindex_hold] returns
    an error and the volume with the index as it has read it; [None] is a
    crash. *)
Definition gfs2_inplace_reserve_i (lock : glock_oracle)
    (gfs2_rindex_hold : gfs2_sbd -> Z * gfs2_sbd)
    (sdp : gfs2_sbd) (ip : gfs2_inode) (jiffies : Z)
  : option (Z * gfs2_sbd * gfs2_inode * list ri_event) :=
  al ← i_alloc ip;
  '(w, sdp) ← gfs2_assert_warn sdp (negb (al_requested al =? 0)) jiffies;
  if negb (w =? 0) then Some (- EINVAL, sdp, ip, [])
  else
    let '(error, sdp) := gfs2_rindex_hold sdp in
    if negb (error =? 0) then Some (error, sdp, ip, [EV_RINDEX_HOLD])
    else
      '(error, sdp, ip) ← get_local_rgrp lock sdp ip;
      if negb (error =? 0) then Some (error, sdp, ip, [EV_RINDEX_HOLD; EV_RINDEX_DQ])
      else Some (0, sdp, ip, [EV_RINDEX_HOLD]).

(** A volume as [gfs2_ri_update] and the allocator leave it: [sd_rgrps]
    counts the groups of the index, of which there is one at least, the
    journal of the node is one of the journals, the recent list holds groups
    of the index, each once, and the forward cursor is NULL or a group of
    the index. *)
Definition working_sets_ok (sdp : gfs2_sbd) : Prop :=
  sd_rindex_list sdp <> [] /\
  sd_rgrps sdp = Z.of_nat (length (sd_rindex_list sdp)) /\
  0 <= sd_jid sdp < sd_journals sdp /\
  sd_rgrps sdp * sd_journals sdp < 2 ^ 32 /\
  NoDup (sd_rindex_recent_list sdp) /\
  Forall (fun r => (r < length (sd_rindex_list sdp))%nat) (sd_rindex_recent_list sdp) /\
  match sd_rindex_forward sdp with
  | Some c => (c < length (sd_rindex_list sdp))%nat
  | None => True
  end.

(** The lock service answers with an error number that is neither 0 nor
    [GLR_TRYFAILED], which have answers of their own. *)
Definition lock_errors_nonzero (lock : glock_oracle) : Prop :=
  forall t rgd flags, lock t rgd flags <> GL_ERROR 0.

End Reserve.

Module FreeExamples.
Import Bits Rgrp.

(** A [kmalloc] that returns memory filled with the byte 170. *)
Definition kmalloc_170 (n : Z) : list Z := replicate (Z.to_nat n) 170.

(** A group of 64 data blocks from block 100 on of which the first two are
    in use, without clone, and a volume with that group alone. *)
Definition rgd_two_used : gfs2_rgrpd :=
  mk_rgrpd (mk_rindex 99 1 100 64 16) (mk_rgrp 0 62 0)
           [Examples.one_segment (Examples.bitmap_block 8 (5 :: replicate 15 0)) None]
           62 0 0.

Definition sbd_two_used : gfs2_sbd :=
  mk_sbd [rgd_two_used] [] None 1 1 0 false 0 0 false.

(** An inode with a reservation of one block in that group and goal block
    100. *)
Definition inode_reserved : gfs2_inode :=
  mk_inode (Some (mk_alloc 1 0 (Some 0%nat))) 0 100 0.

End FreeExamples.

(** ** Utilities ([util.c]) *)

Module Util.
Import Rgrp.

(** *** [gfs2_icbit_munge] *)

(** The page, the byte and the bit of [bit] in a bitmap made of pages of
    [PAGE_SIZE] bytes ([PAGE_SIZE] is the kernel's). *)
Definition icbit_page (PAGE_SIZE bit : Z) : Z := bit / (8 * PAGE_SIZE).
Definition icbit_byte (PAGE_SIZE bit : Z) : Z := bit mod (8 * PAGE_SIZE) / 8.
Definition icbit_bit (PAGE_SIZE bit : Z) : Z := bit mod (8 * PAGE_SIZE) mod 8.

(** [bitmap[c][o] & (1 << b)], the way a bit of the bitmap is read;
    [None] is a read outside the bitmap. *)
Definition icbit_value (PAGE_SIZE : Z) (bitmap : list (list Z)) (bit : Z) : option Z :=
  page ← bitmap !! Z.to_nat (icbit_page PAGE_SIZE bit);
  byte ← page !! Z.to_nat (icbit_byte PAGE_SIZE bit);
  Some (Z.land byte (Z.shiftl 1 (icbit_bit PAGE_SIZE bit))).

(** [gfs2_icbit_munge]: the volume and the bitmap; the byte stored is an
    [unsigned char]; [None] is an access outside the bitmap. *)
Definition gfs2_icbit_munge (PAGE_SIZE : Z) (sdp : gfs2_sbd) (bitmap : list (list Z))
    (bit new_value : Z) : option (gfs2_sbd * list (list Z)) :=
  let c := icbit_page PAGE_SIZE bit in
  let o := icbit_byte PAGE_SIZE bit in
  let b := icbit_bit PAGE_SIZE bit in
  page ← bitmap !! Z.to_nat c;
  byte ← page !! Z.to_nat o;
  let old_value := Z.land byte (Z.shiftl 1 b) in
  let sdp := gfs2_assert_withdraw sdp
               (negb (Bool.eqb (old_value =? 0) (new_value =? 0))) in
  let byte' :=
    if negb (new_value =? 0)
    then Z.lor byte (Z.shiftl 1 b)
    else Z.land byte (Z.lnot (Z.shiftl 1 b)) in
  Some (sdp, <[Z.to_nat c := <[Z.to_nat o := byte' mod 256]> page]> bitmap).

(** A bitmap of whole pages of bytes. *)
Definition icbitmap_ok (PAGE_SIZE : Z) (bitmap : list (list Z)) : Prop :=
  Forall (fun page => Z.of_nat (length page) = PAGE_SIZE /\
                      Forall (fun byte => 0 <= byte < 256) page) bitmap.

(** *** [gfs2_printf_i] *)

(** [vsnprintf (buf + off, size, fmt, args)] for [size > 0], [text] being
    what the format and its arguments expand to: at most [size - 1]
    characters of the text are stored, then a NUL; the value returned is the
    length of the whole text. *)
Definition vsnprintf (buf : list Z) (off size : Z) (text : list Z) : Z * list Z :=
  let n := Z.min (Z.of_nat (length text)) (size - 1) in
  (Z.of_nat (length text), <[Z.to_nat (off + n) := 0]> (memcpy buf off text 0 n)).

(** [gfs2_printf_i]: the value returned, the buffer ([None] is NULL),
    [*count], and the text sent to the console by [vprintk]. *)
Definition gfs2_printf_i (buf : option (list Z)) (size count : Z) (text : list Z)
  : Z * option (list Z) * Z * option (list Z) :=
  match buf with
  | None => (0, None, count, Some text)
  | Some b =>
      let left := to_int (size - count) in
      if left <=? 0 then (1, Some b, count, None)
      else
        let '(out, b') := vsnprintf b count left text in
        if out <? left then (0, Some b', wrap32 (count + out), None)
        else (1, Some b', count, None)
  end.

(** *** [gfs2_add_bh_to_ub] *)

(** What the code takes from the machine: the width of [size_t], in which
    the test of [gfs2_add_bh_to_ub] is computed, and the eight bytes of a
    [uint64_t] in memory. *)
Record machine := mk_machine {
  size_t_bits : Z;
  u64_bytes : Z -> list Z
}.

(** [struct gfs2_user_buffer]: [ub_data] is the user memory from the
    pointer on. *)
Record gfs2_user_buffer := mk_user_buffer {
  ub_data : list Z;
  ub_size : Z;
  ub_count : Z
}.

(** The part of [struct buffer_head] that is copied. *)
Record buffer_head := mk_buffer_head {
  b_blocknr : Z;
  b_data : list Z;
  b_size : Z
}.

Definition EFAULT : Z := 14.

(** [copy_to_user (to + off, from, n)]: [uncopied] is the value returned,
    the number of bytes that could not be copied. *)
Definition copy_to_user (uncopied : Z) (to : list Z) (off : Z) (from : list Z) (n : Z)
  : Z * list Z :=
  (uncopied, memcpy to off from 0 (n - uncopied)).

(** [gfs2_add_bh_to_ub]; [uncopied1] and [uncopied2] are what the two
    calls of [copy_to_user] return. *)
Definition gfs2_add_bh_to_ub (m : machine) (uncopied1 uncopied2 : Z)
    (ub : gfs2_user_buffer) (bh : buffer_head) : Z * gfs2_user_buffer :=
  let blkno := b_blocknr bh in
  if ub_size ub <? (ub_count ub + 8 + b_size bh) mod 2 ^ size_t_bits m
  then (- ENOMEM, ub)
  else
    let '(r1, data) := copy_to_user uncopied1 (ub_data ub) (ub_count ub) (u64_bytes m blkno) 8 in
    let ub := mk_user_buffer data (ub_size ub) (ub_count ub) in
    if negb (r1 =? 0) then (- EFAULT, ub)
    else
      let ub := mk_user_buffer (ub_data ub) (ub_size ub) (wrap32 (ub_count ub + 8)) in
      let '(r2, data) :=
        copy_to_user uncopied2 (ub_data ub) (ub_count ub) (b_data bh) (b_size bh) in
      let ub := mk_user_buffer data (ub_size ub) (ub_count ub) in
      if negb (r2 =? 0) then (- EFAULT, ub)
      else (0, mk_user_buffer (ub_data ub) (ub_size ub) (wrap32 (ub_count ub + b_size bh))).

(** A buffer head with its data, and a user buffer within its memory. *)
Definition buffer_head_ok (bh : buffer_head) : Prop :=
  Z.of_nat (length (b_data bh)) = b_size bh.

Definition user_buffer_ok (ub : gfs2_user_buffer) : Prop :=
  0 <= ub_count ub <= ub_size ub /\ ub_size ub < 2 ^ 32 /\
  ub_size ub <= Z.of_nat (length (ub_data ub)).

End Util.

(** ** The attribute blocks of a file, for user space ([eattr.c]) *)

Module EattrMeta.
Import Eattr.

(** The loop of [gfs2_get_eattr_meta] over the pointers of the indirect
    block; [uncopied] gives what the two calls of [copy_to_user] return in
    the [n]-th call of [gfs2_add_bh_to_ub], whose own value is not read. *)
Fixpoint get_eattr_meta_loop (m : Util.machine) (bytes_of : block -> list Z)
    (uncopied : nat -> Z * Z) (sdp : gfs2_sbd) (d : disk) (eablk : list Z)
    (n : nat) (ub : Util.gfs2_user_buffer) : Z * Util.gfs2_user_buffer :=
  match eablk with
  | [] => (0, ub)
  | bn :: rest =>
      if bn =? 0 then (0, ub)
      else
        match d bn with
        | None => (- EIO, ub)
        | Some eabh =>
            let '(_, ub) :=
              Util.gfs2_add_bh_to_ub m (fst (uncopied n)) (snd (uncopied n)) ub
                (Util.mk_buffer_head bn (bytes_of eabh) (sd_bsize sdp)) in
            get_eattr_meta_loop m bytes_of uncopied sdp d rest (S n) ub
        end
  end.

(** [gfs2_get_eattr_meta]; [bytes_of] gives the bytes of a buffer, of
    which the fields of [block] are views. *)
Definition gfs2_get_eattr_meta (m : Util.machine) (bytes_of : block -> list Z)
    (uncopied : nat -> Z * Z) (sdp : gfs2_sbd) (d : disk) (ip : gfs2_inode)
    (ub : Util.gfs2_user_buffer) : Z * Util.gfs2_user_buffer :=
  match d (di_eattr ip) with
  | None => (- EIO, ub)
  | Some bh =>
      let '(_, ub) :=
        Util.gfs2_add_bh_to_ub m (fst (uncopied 0%nat)) (snd (uncopied 0%nat)) ub
          (Util.mk_buffer_head (di_eattr ip) (bytes_of bh) (sd_bsize sdp)) in
      if dif_ea_indirect ip then
        if negb (mh_type bh =? GFS2_METATYPE_IN) then (- EIO, ub)
        else get_eattr_meta_loop m bytes_of uncopied sdp d
               (take (Z.to_nat (sd_inptrs sdp)) (in_ptrs bh)) 1 ub
      else (0, ub)
  end.

End EattrMeta.
(** ** Writing an attribute ([eattr.c]) *)

Module EattrWrite.
Import Eattr.

(** The loop of [ea_write] over the data blocks of an unstuffed value, at
    its [x]-th pass with [n] passes to go: [alloc x] is the block
    [gfs2_alloc_meta] returns in the [x]-th pass, and [data_block p] the
    buffer [gfs2_meta_new] gives once it has its type and the payload [p]
    after its header.  The result is the disk, the pointers stored, the
    blocks added to [di_blocks] and what is left of [data_len]. *)
Fixpoint ea_write_loop (sdp : gfs2_sbd) (data_block : list Z -> block) (alloc : nat -> Z)
    (d : disk) (x n : nat) (data : list Z) (data_len : Z) : disk * list Z * Z * Z :=
  match n with
  | O => (d, [], 0, data_len)
  | S n' =>
      let block := alloc x in
      let copy := if sd_jbsize sdp <? data_len then sd_jbsize sdp else data_len in
      let payload :=
        take (Z.to_nat copy) data ++ replicate (Z.to_nat (sd_jbsize sdp - copy)) 0 in
      let d := disk_write d block (data_block payload) in
      let '(d', ptrs, blocks, rest_len) :=
        ea_write_loop sdp data_block alloc d (S x) n'
                      (drop (Z.to_nat copy) data) (wrap32 (data_len - copy)) in
      (d', block :: ptrs, blocks + 1, rest_len)
  end.

(** [ea_write] on the record [ea]: the record, the disk, the blocks added
    to [di_blocks], and whether the closing assertion withdrew the file
    system; [None] is a copy from a NULL pointer.  The lengths of name and
    data go to a field of 32 bits and to fields of 8 bits; the bytes of the
    name and of the value are copied over what the record held there.  Of
    the two views of the bytes after the name, the inline value and the
    pointers, only the one the record uses is kept up. *)
Definition ea_write (k : ondisk) (sdp : gfs2_sbd) (data_block : list Z -> block)
    (alloc : nat -> Z) (d : disk) (ea : gfs2_ea_header) (er : gfs2_ea_request)
  : option (gfs2_ea_header * disk * Z * bool) :=
  let name_len := er_name_len er mod 256 in
  let name :=
    take (Z.to_nat (er_name_len er)) (er_name er)
    ++ drop (Z.to_nat (er_name_len er)) (ea_name ea) in
  data ← (match er_data er with
           | Some data => Some data
           | None => if er_data_len er =? 0 then Some [] else None
           end);
  if GFS2_EAREQ_SIZE_STUFFED k er <=? sd_jbsize sdp then
    Some (mk_ea_header (ea_rec_len ea) (wrap32 (er_data_len er)) name_len
            (er_type er mod 256) (ea_flags ea) 0 name
            (take (Z.to_nat (er_data_len er)) data
             ++ drop (Z.to_nat (er_data_len er)) (ea_data ea))
            [],
          d, 0, false)
  else
    let num_ptrs := DIV_RU (er_data_len er) (sd_jbsize sdp) mod 256 in
    let '(d', ptrs, blocks, rest_len) :=
      ea_write_loop sdp data_block alloc d 0 (Z.to_nat num_ptrs) data (er_data_len er) in
    Some (mk_ea_header (ea_rec_len ea) (wrap32 (er_data_len er)) name_len
            (er_type er mod 256) (ea_flags ea) num_ptrs name []
            (ptrs ++ drop (length ptrs) (ea_dataptrs ea)),
          d', blocks, negb (rest_len =? 0)).

End EattrWrite.
(** ** Finding and removing an attribute ([eattr.c]) *)

Module EattrRemove.
Import Eattr.

(** The test [ea_find_i] makes on a record. *)
Definition ea_find_matches (er : gfs2_ea_request) (h : gfs2_ea_header) : bool :=
  negb (ea_type h =? GFS2_EATYPE_UNUSED)
  && ((ea_type h =? er_type er)
      && ((ea_name_len h =? er_name_len er)
          && memcmp_eq (ea_name h) (er_name er) (ea_name_len h))).

(** A store to a record of a buffer. *)
Definition set_ea_at (bh : block) (ea : Z) (h : gfs2_ea_header) : block :=
  mk_block (mh_type bh) (fun o => if o =? ea then h else ea_at bh o)
           (in_ptrs bh) (ed_bytes bh).

Definition set_ea_rec_len_flags (h : gfs2_ea_header) (len flags : Z) : gfs2_ea_header :=
  mk_ea_header len (ea_data_len h) (ea_name_len h) (ea_type h) flags
               (ea_num_ptrs h) (ea_name h) (ea_data h) (ea_dataptrs h).

Definition set_ea_type (h : gfs2_ea_header) (t : Z) : gfs2_ea_header :=
  mk_ea_header (ea_rec_len h) (ea_data_len h) (ea_name_len h) t (ea_flags h)
               (ea_num_ptrs h) (ea_name h) (ea_data h) (ea_dataptrs h).

(** The buffer after [ea_remove_stuffed] has taken the record at [ea] out:
    the record before it, when there is one, takes its length over, and its
    last-record flag in a field of 8 bits; a first record becomes a hole. *)
Definition ea_unlink (k : ondisk) (bh : block) (ea : Z) (prev : option Z) : block :=
  match prev with
  | Some p =>
      let len := wrap32 (GFS2_EA_REC_LEN (ea_at bh p) + GFS2_EA_REC_LEN (ea_at bh ea)) in
      let bh1 := set_ea_at bh p (set_ea_rec_len_flags (ea_at bh p) len (ea_flags (ea_at bh p))) in
      if GFS2_EA_IS_LAST k (ea_at bh1 ea)
      then set_ea_at bh1 p
             (set_ea_rec_len_flags (ea_at bh1 p) (ea_rec_len (ea_at bh1 p))
                (Z.lor (ea_flags (ea_at bh1 p)) (GFS2_EAFLAG_LAST k) mod 256))
      else bh1
  | None => set_ea_at bh ea (set_ea_type (ea_at bh ea) GFS2_EATYPE_UNUSED)
  end.

(** [ea_remove_stuffed]: [trans_error] and [dibh_error] are what
    [gfs2_trans_begin] and [gfs2_meta_inode_buffer] return; the time stamp
    the inode gets is not part of the state.  [None] is a location without
    its buffer. *)
Definition ea_remove_stuffed (k : ondisk) (trans_error dibh_error : Z)
    (d : disk) (el : gfs2_ea_location) : option (Z * disk) :=
  if negb (trans_error =? 0) then Some (trans_error, d)
  else
    bh ← d (el_bh el);
    Some (dibh_error, disk_write d (el_bh el) (ea_unlink k bh (el_ea el) (el_prev el))).

(** [gfs2_ea_remove_i]; [ea_remove_unstuffed] stands for the routine of
    that name, which drives the allocator and the quota service. *)
Definition gfs2_ea_remove_i (k : ondisk) (sdp : gfs2_sbd) (trans_error dibh_error : Z)
    (ea_remove_unstuffed : disk -> gfs2_ea_location -> Z * disk)
    (d : disk) (ip : gfs2_inode) (er : gfs2_ea_request) : option (Z * disk) :=
  if di_eattr ip =? 0 then Some (- ENODATA, d)
  else
    found ← gfs2_ea_find k sdp d ip er;
    let '(error, el) := found in
    if negb (error =? 0) then Some (error, d)
    else
      match el with
      | None => Some (- ENODATA, d)
      | Some el =>
          ea ← located d el;
          if GFS2_EA_IS_STUFFED ea
          then ea_remove_stuffed k trans_error dibh_error d el
          else Some (ea_remove_unstuffed d el)
      end.

(** *** The records of a store *)

(** A callback that notes where it is called and returns 0. *)
Definition ea_note : ea_call_t (list gfs2_ea_location) :=
  fun acc bn bh ea prev => (0, acc ++ [mk_location bn ea prev], bh).

(** The records a walk of the store calls its callback on, as long as the
    callback returns 0, and the error the walk ends with. *)
Definition ea_records (k : ondisk) (sdp : gfs2_sbd) (d : disk) (ip : gfs2_inode)
  : option (Z * list gfs2_ea_location) :=
  r ← ea_foreach k sdp d ip ea_note [];
  Some (r.1.1, r.1.2).

(** A callback called on the records in turn, until it returns an error;
    [err] is the error after the last record.  A record whose buffer cannot
    be read is passed over: the records of a store have theirs. *)
Fixpoint ea_run {A : Type} (d : disk) (f : ea_call_t A) (data : A)
    (recs : list gfs2_ea_location) (err : Z) : Z * A :=
  match recs with
  | [] => (err, data)
  | el :: rest =>
      match d (el_bh el) with
      | None => ea_run d f data rest err
      | Some bh =>
          let '(e, data', _) := f data (el_bh el) bh (el_ea el) (el_prev el) in
          if negb (e =? 0) then (e, data') else ea_run d f data' rest err
      end
  end.

(** A callback that leaves the buffers alone. *)
Definition ea_reads {A : Type} (f : ea_call_t A) : Prop :=
  forall data bn bh ea prev, (f data bn bh ea prev).2 = bh.

(** Two locations of one record. *)
Definition same_record (x y : gfs2_ea_location) : bool :=
  (el_bh x =? el_bh y) && (el_ea x =? el_ea y).

(** The location of a record once the record at [el] is out of the chain:
    the record that came after it now comes after the one before it. *)
Definition relink (el x : gfs2_ea_location) : gfs2_ea_location :=
  match el_prev el with
  | Some p =>
      if (el_bh x =? el_bh el) && bool_decide (el_prev x = Some (el_ea el))
      then mk_location (el_bh x) (el_ea x) (Some p)
      else x
  | None => x
  end.

(** Whether [ea_find_i] stops at the record at [x]. *)
Definition ea_found (d : disk) (er : gfs2_ea_request) (x : gfs2_ea_location) : bool :=
  match located d x with
  | Some h => ea_find_matches er h
  | None => false
  end.

(** The chain of records of the buffer [bn] from the record at [s], which
    comes after the record [q]: the locations of the records a walk calls
    its callback on, and the error it ends with when the callback returns 0
    throughout. *)
Inductive ea_chain (k : ondisk) (b_size bn : Z) (bh : block)
  : Z -> option Z -> list gfs2_ea_location -> Z -> Prop :=
| chain_fail s q :
    ea_record_ok k b_size s (ea_at bh s) = false ->
    ea_chain k b_size bn bh s q [] (- EIO)
| chain_last s q :
    ea_record_ok k b_size s (ea_at bh s) = true ->
    GFS2_EA_IS_LAST k (ea_at bh s) = true ->
    ea_chain k b_size bn bh s q [mk_location bn s q]
             (if s + GFS2_EA_REC_LEN (ea_at bh s) =? b_size then 0 else - EIO)
| chain_next s q recs err :
    ea_record_ok k b_size s (ea_at bh s) = true ->
    GFS2_EA_IS_LAST k (ea_at bh s) = false ->
    ea_chain k b_size bn bh (s + GFS2_EA_REC_LEN (ea_at bh s)) (Some s) recs err ->
    ea_chain k b_size bn bh s q (mk_location bn s q :: recs) err.

(** The records of one buffer. *)
Definition block_records (k : ondisk) (sdp : gfs2_sbd) (bn : Z) (bh : block)
    (recs : list gfs2_ea_location) (err : Z) : Prop :=
  if mh_type bh =? GFS2_METATYPE_EA
  then ea_chain k (sd_bsize sdp) bn bh (sizeof_meta_header k) None recs err
  else recs = [] /\ err = - EIO.

(** The records of the buffers an indirect block points to. *)
Inductive ptrs_records (k : ondisk) (sdp : gfs2_sbd) (d : disk)
  : list Z -> list gfs2_ea_location -> Z -> Prop :=
| ptrs_end : ptrs_records k sdp d [] [] 0
| ptrs_zero rest : ptrs_records k sdp d (0 :: rest) [] 0
| ptrs_unread bn rest :
    bn <> 0 -> d bn = None -> ptrs_records k sdp d (bn :: rest) [] (- EIO)
| ptrs_stop bn rest bh recs err :
    bn <> 0 -> d bn = Some bh -> block_records k sdp bn bh recs err -> err <> 0 ->
    ptrs_records k sdp d (bn :: rest) recs err
| ptrs_go bn rest bh recs recs2 err :
    bn <> 0 -> d bn = Some bh -> block_records k sdp bn bh recs 0 ->
    ptrs_records k sdp d rest recs2 err ->
    ptrs_records k sdp d (bn :: rest) (recs ++ recs2) err.

(** The records of a store. *)
Definition store_records (k : ondisk) (sdp : gfs2_sbd) (d : disk) (ip : gfs2_inode)
    (recs : list gfs2_ea_location) (err : Z) : Prop :=
  match d (di_eattr ip) with
  | None => recs = [] /\ err = - EIO
  | Some bh =>
      if negb (dif_ea_indirect ip) then block_records k sdp (di_eattr ip) bh recs err
      else if negb (mh_type bh =? GFS2_METATYPE_IN) then recs = [] /\ err = - EIO
      else ptrs_records k sdp d (take (Z.to_nat (sd_inptrs sdp)) (in_ptrs bh)) recs err
  end.

(** The records left once the record at [el] is out of its chain. *)
Definition unlinked (el : gfs2_ea_location) (recs : list gfs2_ea_location)
  : list gfs2_ea_location :=
  match el_prev el with
  | Some _ => relink el <$> filter (fun x => same_record x el = false) recs
  | None => recs
  end.

End EattrRemove.
(** ** Listing the attributes ([eattr.c]) *)

Module EattrList.
Import Eattr EattrRemove.

(** What the listing takes from [gfs2_ondisk.h]: the length of the entry
    of a record in the list, and the type of user attributes. *)
Record listing := mk_listing {
  GFS2_EA_STRLEN : gfs2_ea_header -> Z;
  GFS2_EATYPE_USR : Z
}.

(** The strings ["user."] and ["system."]. *)
Definition prefix_user : list Z := [117; 115; 101; 114; 46].
Definition prefix_system : list Z := [115; 121; 115; 116; 101; 109; 46].

(** [ea_list_i]; its private data are the buffer of the request and
    [ei_size], the length of the buffer being [er_data_len]. *)
Definition ea_list_i (g : listing) (er_data_len : Z) : ea_call_t (list Z * Z) :=
  fun ei bn bh ea prev =>
    let '(data, ei_size) := ei in
    let h := ea_at bh ea in
    let ea_size := wrap32 (GFS2_EA_STRLEN g h) in
    if ea_type h =? GFS2_EATYPE_UNUSED then (0, ei, bh)
    else if negb (er_data_len =? 0) then
      if er_data_len <? wrap32 (ei_size + ea_size) then (- ERANGE, ei, bh)
      else
        let '(prefix, l) :=
          if ea_type h =? GFS2_EATYPE_USR g then (prefix_user, 5) else (prefix_system, 7) in
        let data := memcpy data ei_size prefix 0 l in
        let data := memcpy data (ei_size + l) (ea_name h) 0 (ea_name_len h) in
        let data := memcpy data (ei_size + ea_size - 1) [0] 0 1 in
        (0, (data, wrap32 (ei_size + ea_size)), bh)
    else (0, (data, wrap32 (ei_size + ea_size)), bh).

(** [gfs2_ea_list]: the value returned and the request as the caller finds
    it; [nq_error] is what [gfs2_glock_nq_init] returns; [None] is an
    exhausted fuel. *)
Definition gfs2_ea_list (k : ondisk) (g : listing) (sdp : gfs2_sbd) (nq_error : Z)
    (d : disk) (ip : gfs2_inode) (er : gfs2_ea_request) : option (Z * gfs2_ea_request) :=
  let er := er_normalize er in
  if negb (nq_error =? 0) then Some (nq_error, er)
  else if negb (di_eattr ip =? 0) then
    r ← ea_foreach k sdp d ip (ea_list_i g (er_data_len er)) (default [] (er_data er), 0);
    let '(error, (data, ei_size), _) := r in
    Some (if error =? 0 then to_int ei_size else error,
          set_er_data er (match er_data er with Some _ => Some data | None => None end)
                      (er_data_len er))
  else Some (0, er).

(** The length of the list of the records [recs]. *)
Fixpoint ea_list_total (g : listing) (d : disk) (recs : list gfs2_ea_location) : Z :=
  match recs with
  | [] => 0
  | x :: rest =>
      match located d x with
      | Some h =>
          if ea_type h =? GFS2_EATYPE_UNUSED then ea_list_total g d rest
          else wrap32 (GFS2_EA_STRLEN g h) + ea_list_total g d rest
      | None => ea_list_total g d rest
      end
  end.

(** The entries of the records [recs] in the list: for each record in
    use its prefix, its name and a NUL. *)
Fixpoint ea_list_entries (g : listing) (d : disk) (recs : list gfs2_ea_location) : list Z :=
  match recs with
  | [] => []
  | x :: rest =>
      match located d x with
      | Some h =>
          if ea_type h =? GFS2_EATYPE_UNUSED then ea_list_entries g d rest
          else
            (if ea_type h =? GFS2_EATYPE_USR g then prefix_user else prefix_system)
            ++ take (Z.to_nat (ea_name_len h)) (ea_name h) ++ [0]
            ++ ea_list_entries g d rest
      | None => ea_list_entries g d rest
      end
  end.

(** The entry length as [gfs2_ondisk.h] has it: prefix, name and NUL; and
    records that hold the bytes of their names, whose length is a byte. *)
Definition listing_ok (g : listing) (d : disk) (recs : list gfs2_ea_location) : Prop :=
  Forall (fun x =>
            match located d x with
            | Some h =>
                GFS2_EA_STRLEN g h =
                  (if ea_type h =? GFS2_EATYPE_USR g then 5 else 7) + ea_name_len h + 1 /\
                0 <= ea_name_len h <= Z.of_nat (length (ea_name h)) /\
                ea_name_len h < 256
            | None => True
            end) recs.

End EattrList.
(** ** Giving back the data blocks of an attribute ([eattr.c]) *)

Module EattrDealloc.
Import Eattr EattrRemove.

(** The second loop of [ea_dealloc_unstuffed] over the pointers of the
    record, entered with the run [bstart], [blen], the block count of the
    inode and whether [gfs2_consist_inode] has been called; the result is
    the calls of [gfs2_free_meta] in order, the pointers as the loop leaves
    them, and the state at its end. *)
Fixpoint dealloc_loop (dataptrs : list Z) (bstart blen di_blocks : Z) (consist : bool)
  : list (Z * Z) * list Z * Z * Z * Z * bool :=
  match dataptrs with
  | [] => ([], [], bstart, blen, di_blocks, consist)
  | bn :: rest =>
      if bn =? 0 then ([], dataptrs, bstart, blen, di_blocks, consist)
      else
        let '(calls, bstart, blen) :=
          if Rgrp.wrap64 (bstart + blen) =? bn then ([], bstart, wrap32 (blen + 1))
          else (if negb (bstart =? 0) then [(bstart, blen)] else [], bn, 1) in
        let consist := consist || (di_blocks =? 0) in
        let '(calls', ptrs, bstart', blen', di_blocks', consist') :=
          dealloc_loop rest bstart blen (Rgrp.wrap64 (di_blocks - 1)) consist in
        (calls ++ calls', 0 :: ptrs, bstart', blen', di_blocks', consist')
  end.

Definition set_ea_dataptrs (h : gfs2_ea_header) (ptrs : list Z) : gfs2_ea_header :=
  mk_ea_header (ea_rec_len h) (ea_data_len h) (ea_name_len h) (ea_type h) (ea_flags h)
               (ea_num_ptrs h) (ea_name h) (ea_data h) ptrs.

Definition set_ea_hole (h : gfs2_ea_header) : gfs2_ea_header :=
  mk_ea_header (ea_rec_len h) (ea_data_len h) (ea_name_len h) GFS2_EATYPE_UNUSED
               (ea_flags h) 0 (ea_name h) (ea_data h) (ea_dataptrs h).

(** [ea_dealloc_unstuffed] on the record at [ea] of the buffer [bh]:
    [rgd_found bn] tells whether [gfs2_blk2rgrpd] finds a group for [bn];
    [nq_error], [trans_error] and [dibh_error] are what
    [gfs2_glock_nq_init], [gfs2_trans_begin] and [gfs2_meta_inode_buffer]
    return; [leave] is whether the pointer of that name is set.  The result
    is the error, the buffer, the calls of [gfs2_free_meta], the block
    count of the inode and whether [gfs2_consist_inode] was called. *)
Definition ea_dealloc_unstuffed (k : ondisk) (rgd_found : Z -> bool)
    (nq_error trans_error dibh_error : Z) (leave : bool)
    (bh : block) (ea : Z) (prev : option Z) (di_blocks : Z)
  : Z * block * list (Z * Z) * Z * bool :=
  let h := ea_at bh ea in
  if GFS2_EA_IS_STUFFED h then (0, bh, [], di_blocks, false)
  else
    let ptrs := take (Z.to_nat (ea_num_ptrs h)) (ea_dataptrs h) in
    match last (filter (fun p => p <> 0) ptrs) with
    | None => (0, bh, [], di_blocks, false)
    | Some bn =>
        if negb (rgd_found bn) then (- EIO, bh, [], di_blocks, true)
        else if negb (nq_error =? 0) then (nq_error, bh, [], di_blocks, false)
        else if negb (trans_error =? 0) then (trans_error, bh, [], di_blocks, false)
        else
          let '(calls, ptrs', bstart, blen, di_blocks', consist) :=
            dealloc_loop ptrs 0 0 di_blocks false in
          let calls := calls ++ (if negb (bstart =? 0) then [(bstart, blen)] else []) in
          let h1 := set_ea_dataptrs h (ptrs' ++ drop (length ptrs') (ea_dataptrs h)) in
          let bh1 := set_ea_at bh ea h1 in
          let hole := set_ea_at bh1 ea (set_ea_hole h1) in
          let bh2 :=
            match prev with
            | Some p => if leave then hole else ea_unlink k bh1 ea (Some p)
            | None => hole
            end in
          (dibh_error, bh2, calls, di_blocks', consist)
    end.

(** The blocks a list of calls of [gfs2_free_meta] gives back. *)
Definition freed_blocks (calls : list (Z * Z)) : list Z :=
  concat ((fun c => seqZ c.1 c.2) <$> calls).

End EattrDealloc.

Module ListExamples.
Import Eattr EattrList.

(** The entry lengths and the user type of [gfs2_ondisk.h]. *)
Definition listing_1 : listing :=
  mk_listing (fun h => (if ea_type h =? 1 then 5 else 7) + ea_name_len h + 1) 1.

End ListExamples.

(** ** Creating attributes ([eattr.c]) *)
Module EattrSet.
Import Eattr EattrWrite EattrRemove.

(** [ea_alloc_blk]: [bh] is the buffer [gfs2_meta_new] gives for the block
    of [gfs2_alloc_meta], once [gfs2_metatype_set] and
    [gfs2_buffer_clear_tail] have run on it.  The result is the buffer with
    its first record and the block count of the inode; the function
    returns 0. *)
Definition ea_alloc_blk (k : ondisk) (sdp : gfs2_sbd) (bh : block) (di_blocks : Z)
  : block * Z :=
  let ea := sizeof_meta_header k in
  let h := ea_at bh ea in
  (set_ea_at bh ea
     (mk_ea_header (wrap32 (sd_jbsize sdp)) (ea_data_len h) (ea_name_len h)
        GFS2_EATYPE_UNUSED (GFS2_EAFLAG_LAST k mod 256) 0
        (ea_name h) (ea_data h) (ea_dataptrs h)),
   Rgrp.wrap64 (di_blocks + 1)).

(** [ea_init_i]: [blocknr] is the block [gfs2_alloc_meta] returns to
    [ea_alloc_blk] and [bh] its buffer; [alloc x] is the block it returns
    in the [x]-th pass of the loop of [ea_write].  The result is the error,
    the inode, the disk, the block count of the inode and whether the
    assertion of [ea_write] withdrew the file system. *)
Definition ea_init_i (k : ondisk) (sdp : gfs2_sbd) (data_block : list Z -> block)
    (blocknr : Z) (bh : block) (alloc : nat -> Z)
    (d : disk) (ip : gfs2_inode) (di_blocks : Z) (er : gfs2_ea_request)
  : option (Z * gfs2_inode * disk * Z * bool) :=
  let '(bh1, di_blocks1) := ea_alloc_blk k sdp bh di_blocks in
  let ip' := mk_inode blocknr (dif_ea_indirect ip) (dif_appendonly ip) in
  let ea := sizeof_meta_header k in
  w ← ea_write k sdp data_block alloc d (ea_at bh1 ea) er;
  let '(h', d', blocks, withdrawn) := w in
  Some (0, ip', disk_write d' blocknr (set_ea_at bh1 ea h'),
        Rgrp.wrap64 (di_blocks1 + blocks), withdrawn).

(** Modelled from the spec: the bytes a record uses, its header, its name
    and its inline data or its array of 8-byte pointers, rounded to the
    alignment unit (the macro is in [gfs2_ondisk.h]). *)
Definition GFS2_EA_SIZE (k : ondisk) (ea : gfs2_ea_header) : Z :=
  ALIGN (sizeof_ea_header k + ea_name_len ea
         + (if GFS2_EA_IS_STUFFED ea then GFS2_EA_DATA_LEN ea else 8 * ea_num_ptrs ea))
        (ea_align k).

(** Modelled from the spec: the bytes [ea_write] stores from the start of a
    record for a request, header, name and inline data or pointers, rounded
    to the alignment unit; it is the size [ea_calc_size] gives, without the
    wrap-around of its 32 bits. *)
Definition ea_write_size (k : ondisk) (sdp : gfs2_sbd) (er : gfs2_ea_request) : Z :=
  ALIGN (sizeof_ea_header k + er_name_len er
         + (if GFS2_EAREQ_SIZE_STUFFED k er <=? sd_jbsize sdp then er_data_len er
            else 8 * DIV_RU (er_data_len er) (sd_jbsize sdp)))
        (ea_align k).

(** Whether the bytes [ea_write] stores for the request lie within the
    length of the record [ea].  The buffers are seen record by record: a
    write that runs over the end of its record changes the bytes of the
    record after it, or leaves the buffer, and is outside this view; the
    callers of [ea_write] modelled below give [None] for it. *)
Definition ea_write_fits (k : ondisk) (sdp : gfs2_sbd) (ea : gfs2_ea_header)
    (er : gfs2_ea_request) : bool :=
  ea_write_size k sdp er <=? GFS2_EA_REC_LEN ea.

(** [ea_split_ea]: the buffer and the new record.  [None] is a record
    whose length does not leave the room of a header after the bytes the
    record uses: the stores to the new header would land in those bytes or
    in the record that follows, which the view by records does not show. *)
Definition ea_split_ea (k : ondisk) (bh : block) (ea : Z) : option (block * Z) :=
  let h := ea_at bh ea in
  let ea_size := wrap32 (GFS2_EA_SIZE k h) in
  let new := ea + ea_size in
  let new_size := wrap32 (GFS2_EA_REC_LEN h - ea_size) in
  let last := Z.land (ea_flags h) (GFS2_EAFLAG_LAST k) in
  if negb ((sizeof_ea_header k <=? GFS2_EA_SIZE k h)
           && (GFS2_EA_SIZE k h + sizeof_ea_header k <=? GFS2_EA_REC_LEN h))
  then None
  else
    let bh1 := set_ea_at bh ea
                 (set_ea_rec_len_flags h ea_size (Z.lxor (ea_flags h) last mod 256)) in
    Some (set_ea_at bh1 new (set_ea_rec_len_flags (ea_at bh1 new) new_size (last mod 256)),
          new).

(** [ea_set_remove_stuffed] on the buffer of the location: the buffer, and
    whether its assertion withdrew the file system. *)
Definition ea_set_remove_stuffed (k : ondisk) (bh : block) (ea : Z) (prev : option Z)
  : block * bool :=
  match prev with
  | None => (set_ea_at bh ea (set_ea_type (ea_at bh ea) GFS2_EATYPE_UNUSED), false)
  | Some p =>
      if negb (GFS2_EA_IS_STUFFED (ea_at bh ea))
      then (set_ea_at bh ea (set_ea_type (ea_at bh ea) GFS2_EATYPE_UNUSED), false)
      else
        let next := p + GFS2_EA_REC_LEN (ea_at bh p) in
        let '(p, withdrawn) :=
          if negb (next =? ea)
          then (next, negb (next + GFS2_EA_REC_LEN (ea_at bh next) =? ea))
          else (p, false) in
        let len := wrap32 (GFS2_EA_REC_LEN (ea_at bh p) + GFS2_EA_REC_LEN (ea_at bh ea)) in
        let bh1 :=
          set_ea_at bh p (set_ea_rec_len_flags (ea_at bh p) len (ea_flags (ea_at bh p))) in
        (if GFS2_EA_IS_LAST k (ea_at bh1 ea)
         then set_ea_at bh1 p
                (set_ea_rec_len_flags (ea_at bh1 p) (ea_rec_len (ea_at bh1 p))
                   (Z.lor (ea_flags (ea_at bh1 p)) (GFS2_EAFLAG_LAST k) mod 256))
         else bh1,
         withdrawn)
  end.

(** [struct ea_set], the request apart. *)
Record ea_set := mk_ea_set {
  ea_split : bool;
  es_el : option gfs2_ea_location;
  es_bh : Z;
  es_ea : Z
}.

(** [ea_set_simple_alloc]: the error, the disk, the blocks added to
    [di_blocks] and whether an assertion withdrew the file system; [None]
    is a buffer that is not there, a copy from a NULL pointer, a split
    without room or a request that does not fit its record. *)
Definition ea_set_simple_alloc (k : ondisk) (sdp : gfs2_sbd)
    (data_block : list Z -> block) (alloc : nat -> Z)
    (d : disk) (es : ea_set) (er : gfs2_ea_request) : option (Z * disk * Z * bool) :=
  bh ← d (es_bh es);
  sp ← (if ea_split es then ea_split_ea k bh (es_ea es) else Some (bh, es_ea es));
  let '(bh1, ea) := sp in
  if negb (ea_write_fits k sdp (ea_at bh1 ea) er) then None
  else
    w ← ea_write k sdp data_block alloc d (ea_at bh1 ea) er;
    let '(h', d1, blocks, withdrawn) := w in
    let d2 := disk_write d1 (es_bh es) (set_ea_at bh1 ea h') in
    match es_el es with
    | None => Some (0, d2, blocks, withdrawn)
    | Some el =>
        bh_el ← d2 (el_bh el);
        let '(bh_el', withdrawn') := ea_set_remove_stuffed k bh_el (el_ea el) (el_prev el) in
        Some (0, disk_write d2 (el_bh el) bh_el', blocks, withdrawn || withdrawn')
    end.

(** *** The state of a Set *)

(** What Set reads and writes: the buffers, the inode with [di_blocks],
    whether a [gfs2_assert_withdraw] found its assertion false, whether
    [ea_dealloc_unstuffed] called [gfs2_consist_inode], and the calls of
    [gfs2_free_meta].  A block of the wrong type shows in the error
    returned only, as in the walks.  The mode and the time stamps of the
    inode are not part of the state; the reservation, the quota and the
    journal belong to the services. *)
Record ea_state := mk_ea_state {
  s_disk : disk;
  s_inode : gfs2_inode;
  s_blocks : Z;
  s_withdrawn : bool;
  s_consist : bool;
  s_freed : list (Z * Z)
}.

Definition set_s_disk (s : ea_state) (d : disk) : ea_state :=
  mk_ea_state d (s_inode s) (s_blocks s) (s_withdrawn s) (s_consist s) (s_freed s).

Definition set_s_withdrawn (s : ea_state) (w : bool) : ea_state :=
  mk_ea_state (s_disk s) (s_inode s) (s_blocks s) w (s_consist s) (s_freed s).

(** What the allocator and the buffer cache give to one Set:
    [eb_alloc x] is the block [gfs2_alloc_meta] returns in the [x]-th pass
    of the loop of [ea_write] and [eb_data_block p] the buffer
    [gfs2_meta_new] gives there once it has its type and the payload [p];
    [eb_blocknr] and [eb_bh] are the block of [ea_alloc_blk] and its buffer
    once [gfs2_metatype_set] and [gfs2_buffer_clear_tail] have run on it;
    [eb_indblk] and [eb_indbh] are the same for the indirect block of
    [ea_set_block]. *)
Record ea_blocks := mk_ea_blocks {
  eb_data_block : list Z -> block;
  eb_alloc : nat -> Z;
  eb_blocknr : Z;
  eb_bh : block;
  eb_indblk : Z;
  eb_indbh : block
}.

(** [GFS2_ERF_MODE] of [eattr.h], which is not part of the tree, and
    whether the file types of [di_mode] and [er_mode] are the same. *)
Record ea_mode := mk_ea_mode {
  GFS2_ERF_MODE : Z;
  same_fmt : bool
}.

(** What the services answer to one call of [ea_alloc_skeleton]: the
    errors of [gfs2_quota_lock], [gfs2_quota_check], [gfs2_inplace_reserve]
    for [al_requested], [gfs2_trans_begin] for [blks] (the other terms of
    the sum it gets are the services' own) and [gfs2_meta_inode_buffer]. *)
Record skeleton_services := mk_skeleton_services {
  quota_lock : Z;
  quota_check : Z;
  inplace_reserve : Z -> Z;
  trans_begin : Z -> Z;
  inode_buffer : Z
}.

(** The errors of [gfs2_trans_begin] and [gfs2_meta_inode_buffer] in
    [ea_set_simple_noalloc]. *)
Record noalloc_services := mk_noalloc_services {
  na_trans_begin : Z;
  na_inode_buffer : Z
}.

(** What the services answer to one call of [ea_remove_unstuffed]: the
    errors of [gfs2_quota_hold] and [gfs2_rindex_hold], and what
    [ea_dealloc_unstuffed] gets from [gfs2_blk2rgrpd],
    [gfs2_glock_nq_init], [gfs2_trans_begin] and
    [gfs2_meta_inode_buffer]. *)
Record removal_services := mk_removal_services {
  rm_quota_hold : Z;
  rm_rindex_hold : Z;
  rm_rgd_found : Z -> bool;
  rm_glock_nq : Z;
  rm_trans_begin : Z;
  rm_inode_buffer : Z
}.

(** The surroundings of one call of [gfs2_ea_set_i].  Each place that calls
    a service is passed at most once in a call, and has its own answers:
    the skeleton of [ea_init], the skeleton and the transaction of
    [ea_set_simple], the skeleton of [ea_set_i], and the removals made
    during the walk and after it. *)
Record ea_env := mk_ea_env {
  ev_blocks : ea_blocks;
  ev_mode : ea_mode;
  ev_init : skeleton_services;
  ev_simple : skeleton_services;
  ev_noalloc : noalloc_services;
  ev_block : skeleton_services;
  ev_leave : removal_services;
  ev_remove : removal_services
}.

(** The change of mode that closes a Set: under [GFS2_ERF_MODE] the
    assertion that the file type stays withdraws the file system when it
    does not hold. *)
Definition ea_set_mode (m : ea_mode) (er : gfs2_ea_request) (s : ea_state) : ea_state :=
  if negb (Z.land (er_flags er) (GFS2_ERF_MODE m) =? 0)
  then set_s_withdrawn s (s_withdrawn s || negb (same_fmt m))
  else s.

(** [ea_skeleton_call_t], on the state. *)
Definition ea_skeleton_call_t : Type :=
  ea_state -> gfs2_ea_request -> option (Z * ea_state).

(** [ea_alloc_skeleton]. *)
Definition ea_alloc_skeleton (sv : skeleton_services) (m : ea_mode) (s : ea_state)
    (er : gfs2_ea_request) (blks : Z) (skeleton_call : ea_skeleton_call_t)
  : option (Z * ea_state) :=
  if negb (quota_lock sv =? 0) then Some (quota_lock sv, s)
  else if negb (quota_check sv =? 0) then Some (quota_check sv, s)
  else if negb (inplace_reserve sv blks =? 0) then Some (inplace_reserve sv blks, s)
  else if negb (trans_begin sv blks =? 0) then Some (trans_begin sv blks, s)
  else
    r ← skeleton_call s er;
    let '(error, s1) := r in
    if negb (error =? 0) then Some (error, s1)
    else if negb (inode_buffer sv =? 0) then Some (inode_buffer sv, s1)
    else Some (0, ea_set_mode m er s1).

(** [ea_init_i] as [ea_init] passes it to [ea_alloc_skeleton]; [None] is
    also a request that does not fit the record of the new block. *)
Definition ea_init_call (k : ondisk) (sdp : gfs2_sbd) (eb : ea_blocks)
  : ea_skeleton_call_t :=
  fun s er =>
    if negb (ea_write_fits k sdp
               (ea_at (fst (ea_alloc_blk k sdp (eb_bh eb) (s_blocks s)))
                      (sizeof_meta_header k)) er)
    then None
    else
      r ← ea_init_i k sdp (eb_data_block eb) (eb_blocknr eb) (eb_bh eb) (eb_alloc eb)
                    (s_disk s) (s_inode s) (s_blocks s) er;
      let '(error, ip', d', blocks', withdrawn) := r in
      Some (error,
            mk_ea_state d' ip' blocks' (s_withdrawn s || withdrawn) (s_consist s)
                        (s_freed s)).

(** [ea_init]. *)
Definition ea_init (k : ondisk) (sdp : gfs2_sbd) (eb : ea_blocks)
    (sv : skeleton_services) (m : ea_mode) (s : ea_state) (er : gfs2_ea_request)
  : option (Z * ea_state) :=
  let jbsize := sd_jbsize sdp in
  let blks :=
    if jbsize <? GFS2_EAREQ_SIZE_STUFFED k er
    then wrap32 (1 + DIV_RU (er_data_len er) jbsize)
    else 1 in
  ea_alloc_skeleton sv m s er blks (ea_init_call k sdp eb).

(** What [ea_set_remove_stuffed] does to the disk for the location of a
    Set, when it has one. *)
Definition ea_set_remove_old (k : ondisk) (d : disk) (el : option gfs2_ea_location)
  : option (disk * bool) :=
  match el with
  | None => Some (d, false)
  | Some el =>
      bh_el ← d (el_bh el);
      let '(bh_el', withdrawn) := ea_set_remove_stuffed k bh_el (el_ea el) (el_prev el) in
      Some (disk_write d (el_bh el) bh_el', withdrawn)
  end.

(** [ea_set_simple_noalloc] on the record at [ea] of block [bn]; [None] as
    for [ea_set_simple_alloc]. *)
Definition ea_set_simple_noalloc (k : ondisk) (sdp : gfs2_sbd) (eb : ea_blocks)
    (sv : noalloc_services) (m : ea_mode) (s : ea_state) (bn ea : Z) (es : ea_set)
    (er : gfs2_ea_request) : option (Z * ea_state) :=
  if negb (na_trans_begin sv =? 0) then Some (na_trans_begin sv, s)
  else
    bh ← s_disk s bn;
    sp ← (if ea_split es then ea_split_ea k bh ea else Some (bh, ea));
    let '(bh1, ea1) := sp in
    if negb (ea_write_fits k sdp (ea_at bh1 ea1) er) then None
    else
      w ← ea_write k sdp (eb_data_block eb) (eb_alloc eb) (s_disk s) (ea_at bh1 ea1) er;
      let '(h', d1, blocks, withdrawn) := w in
      let d2 := disk_write d1 bn (set_ea_at bh1 ea1 h') in
      rm ← ea_set_remove_old k d2 (es_el es);
      let '(d3, withdrawn') := rm in
      let s1 :=
        mk_ea_state d3 (s_inode s) (Rgrp.wrap64 (s_blocks s + blocks))
                    (s_withdrawn s || withdrawn || withdrawn') (s_consist s) (s_freed s) in
      if negb (na_inode_buffer sv =? 0) then Some (na_inode_buffer sv, s1)
      else Some (0, ea_set_mode m er s1).

(** [ea_set_simple_alloc] as [ea_set_simple] passes it to
    [ea_alloc_skeleton]. *)
Definition ea_set_simple_alloc_call (k : ondisk) (sdp : gfs2_sbd) (eb : ea_blocks)
    (es : ea_set) : ea_skeleton_call_t :=
  fun s er =>
    r ← ea_set_simple_alloc k sdp (eb_data_block eb) (eb_alloc eb) (s_disk s) es er;
    let '(error, d', blocks, withdrawn) := r in
    Some (error,
          mk_ea_state d' (s_inode s) (Rgrp.wrap64 (s_blocks s + blocks))
                      (s_withdrawn s || withdrawn) (s_consist s) (s_freed s)).

(** [ea_remove_unstuffed] on the record at [ea] of the buffer [bh], with
    the results of [ea_dealloc_unstuffed]. *)
Definition ea_remove_unstuffed (k : ondisk) (sv : removal_services) (leave : bool)
    (bh : block) (ea : Z) (prev : option Z) (di_blocks : Z)
  : Z * block * list (Z * Z) * Z * bool :=
  if negb (rm_quota_hold sv =? 0) then (rm_quota_hold sv, bh, [], di_blocks, false)
  else if negb (rm_rindex_hold sv =? 0) then (rm_rindex_hold sv, bh, [], di_blocks, false)
  else
    EattrDealloc.ea_dealloc_unstuffed k (rm_rgd_found sv) (rm_glock_nq sv)
      (rm_trans_begin sv) (rm_inode_buffer sv) leave bh ea prev di_blocks.

(** The same on the state, for the record at [ea] of block [bn]; [None] is
    a buffer that is not there. *)
Definition ea_remove_unstuffed_in (k : ondisk) (sv : removal_services) (leave : bool)
    (s : ea_state) (bn ea : Z) (prev : option Z) : option (Z * ea_state) :=
  bh ← s_disk s bn;
  let '(error, bh', calls, di_blocks, consist) :=
    ea_remove_unstuffed k sv leave bh ea prev (s_blocks s) in
  Some (error,
        mk_ea_state (disk_write (s_disk s) bn bh') (s_inode s) di_blocks (s_withdrawn s)
                    (s_consist s || consist) (s_freed s ++ calls)).

Definition set_ea_split (es : ea_set) (split : bool) : ea_set :=
  mk_ea_set split (es_el es) (es_bh es) (es_ea es).

(** [ea_set_simple] on the record at [ea] of block [bn]: the value
    returned, [struct ea_set] and the state.  [None] is one of the cases of
    [ea_set_simple_alloc], or a record in use whose bytes run over its
    length, for which the view by records does not tell the room left. *)
Definition ea_set_simple (k : ondisk) (sdp : gfs2_sbd) (env : ea_env)
    (er : gfs2_ea_request) (es : ea_set) (s : ea_state) (bn ea : Z) (prev : option Z)
  : option (Z * ea_set * ea_state) :=
  bh ← s_disk s bn;
  let h := ea_at bh ea in
  let '(stuffed, size) := ea_calc_size k sdp er in
  let place (es : ea_set) (s : ea_state) : option (Z * ea_set * ea_state) :=
    if stuffed then
      r ← ea_set_simple_noalloc k sdp (ev_blocks env) (ev_noalloc env) (ev_mode env)
                                s bn ea es er;
      let '(error, s1) := r in
      Some (if negb (error =? 0) then error else 1, es, s1)
    else
      let es := mk_ea_set (ea_split es) (es_el es) bn ea in
      let blks := wrap32 (2 + DIV_RU (er_data_len er) (sd_jbsize sdp)) in
      r ← ea_alloc_skeleton (ev_simple env) (ev_mode env) s er blks
                            (ea_set_simple_alloc_call k sdp (ev_blocks env) es);
      let '(error, s1) := r in
      Some (if negb (error =? 0) then error else 1, es, s1) in
  if ea_type h =? GFS2_EATYPE_UNUSED then
    if GFS2_EA_REC_LEN h <? size then Some (0, es, s)
    else
      r ← (if negb (GFS2_EA_IS_STUFFED h)
           then ea_remove_unstuffed_in k (ev_leave env) true s bn ea prev
           else Some (0, s));
      let '(error, s1) := r in
      if negb (error =? 0) then Some (error, es, s1)
      else place (set_ea_split es false) s1
  else if GFS2_EA_REC_LEN h <? GFS2_EA_SIZE k h then None
  else if size <=? GFS2_EA_REC_LEN h - GFS2_EA_SIZE k h then place (set_ea_split es true) s
  else Some (0, es, s).

(** [ea_set_simple] as [ea_set_i] passes it to [ea_foreach].  The buffers
    are shared: the callback works on the disk of the state, in which it
    first puts the buffer the walk hands it, and gives the walk the buffer
    of that block back.  The private data [None] is a call that did not
    return; the walk stops there. *)
Definition ea_set_simple_call (k : ondisk) (sdp : gfs2_sbd) (env : ea_env)
    (er : gfs2_ea_request) : ea_call_t (option (ea_set * ea_state)) :=
  fun data bn bh ea prev =>
    match data with
    | None => (1, None, bh)
    | Some (es, s) =>
        match ea_set_simple k sdp env er es (set_s_disk s (disk_write (s_disk s) bn bh))
                            bn ea prev with
        | None => (1, None, bh)
        | Some (error, es', s') => (error, Some (es', s'), default bh (s_disk s' bn))
        end
    end.

Definition set_in_ptrs (bh : block) (ptrs : list Z) : block :=
  mk_block (mh_type bh) (ea_at bh) ptrs (ed_bytes bh).

(** [ea_set_block], with the location [el] as its private data.  A block
    that cannot be read gives -EIO; [None] is an indirect block without its
    [sd_inptrs] pointers or without the slot to fill, a copy from a NULL
    pointer, a request that does not fit the record of the new block, or a
    location without its buffer. *)
Definition ea_set_block (k : ondisk) (sdp : gfs2_sbd) (eb : ea_blocks)
    (el : option gfs2_ea_location) : ea_skeleton_call_t :=
  fun s er =>
    let ip := s_inode s in
    ind ←
      (if dif_ea_indirect ip then
         match s_disk s (di_eattr ip) with
         | None => Some (inl (- EIO))
         | Some indbh =>
             if negb (mh_type indbh =? GFS2_METATYPE_IN) then Some (inl (- EIO))
             else if Z.of_nat (length (in_ptrs indbh)) <? sd_inptrs sdp then None
             else
               match list_find (fun p => p = 0)
                               (take (Z.to_nat (sd_inptrs sdp)) (in_ptrs indbh)) with
               | None => Some (inl (- ENOSPC))
               | Some (slot, _) => Some (inr (di_eattr ip, indbh, slot, ip, s_blocks s))
               end
         end
       else
         Some (inr (eb_indblk eb,
                    set_in_ptrs (eb_indbh eb)
                                (<[0%nat := di_eattr ip]> (in_ptrs (eb_indbh eb))),
                    1%nat,
                    mk_inode (eb_indblk eb) true (dif_appendonly ip),
                    Rgrp.wrap64 (s_blocks s + 1))));
    match ind with
    | inl error => Some (error, s)
    | inr (indblk, indbh, slot, ip1, di_blocks1) =>
        let '(newbh, di_blocks2) := ea_alloc_blk k sdp (eb_bh eb) di_blocks1 in
        let indbh1 := set_in_ptrs indbh (<[slot := eb_blocknr eb]> (in_ptrs indbh)) in
        let d0 := disk_write (s_disk s) indblk indbh1 in
        let first := sizeof_meta_header k in
        if negb (bool_decide (slot < length (in_ptrs indbh))%nat) then None
        else if negb (ea_write_fits k sdp (ea_at newbh first) er) then None
        else
          w ← ea_write k sdp (eb_data_block eb) (eb_alloc eb) d0 (ea_at newbh first) er;
          let '(h', d1, blocks, withdrawn) := w in
          let d2 := disk_write d1 (eb_blocknr eb) (set_ea_at newbh first h') in
          rm ← ea_set_remove_old k d2 el;
          let '(d3, withdrawn') := rm in
          Some (0,
                mk_ea_state d3 ip1 (Rgrp.wrap64 (di_blocks2 + blocks))
                            (s_withdrawn s || withdrawn || withdrawn') (s_consist s)
                            (s_freed s))
    end.

(** [ea_set_i]: the disk the walk returns is that of the state its callback
    leaves. *)
Definition ea_set_i (k : ondisk) (sdp : gfs2_sbd) (env : ea_env) (s : ea_state)
    (er : gfs2_ea_request) (el : option gfs2_ea_location) : option (Z * ea_state) :=
  let es := mk_ea_set false el 0 0 in
  r ← ea_foreach k sdp (s_disk s) (s_inode s) (ea_set_simple_call k sdp env er)
                 (Some (es, s));
  let '(error, data, _) := r in
  reached ← data;
  let s1 := snd reached in
  if 0 <? error then Some (0, s1)
  else if negb (error =? 0) then Some (error, s1)
  else
    let blks := if negb (dif_ea_indirect (s_inode s1)) then 3 else 2 in
    let blks :=
      if sd_jbsize sdp <? GFS2_EAREQ_SIZE_STUFFED k er
      then wrap32 (blks + DIV_RU (er_data_len er) (sd_jbsize sdp))
      else blks in
    ea_alloc_skeleton (ev_block env) (ev_mode env) s1 er blks
                      (ea_set_block k sdp (ev_blocks env) el).

(** [ea_set_remove_unstuffed]: the error and the state; [None] is a
    location without its buffer. *)
Definition ea_set_remove_unstuffed (k : ondisk) (sv : removal_services) (s : ea_state)
    (el : gfs2_ea_location) : option (Z * ea_state) :=
  bh ← s_disk s (el_bh el);
  let '(prev, withdrawn) :=
    match el_prev el with
    | Some p =>
        let next := p + GFS2_EA_REC_LEN (ea_at bh p) in
        if negb (next =? el_ea el)
        then (Some next, negb (next + GFS2_EA_REC_LEN (ea_at bh next) =? el_ea el))
        else (Some p, false)
    | None => (None, false)
    end in
  ea_remove_unstuffed_in k sv false (set_s_withdrawn s (s_withdrawn s || withdrawn))
                         (el_bh el) (el_ea el) prev.

(** [gfs2_ea_set_i]: the error and the state. *)
Definition gfs2_ea_set_i (k : ondisk) (sdp : gfs2_sbd) (env : ea_env) (s : ea_state)
    (er : gfs2_ea_request) : option (Z * ea_state) :=
  let ip := s_inode s in
  if di_eattr ip =? 0 then
    if negb (Z.land (er_flags er) XATTR_REPLACE =? 0) then Some (- ENODATA, s)
    else ea_init k sdp (ev_blocks env) (ev_init env) (ev_mode env) s er
  else
    found ← gfs2_ea_find k sdp (s_disk s) ip er;
    let '(error, el) := found in
    if negb (error =? 0) then Some (error, s)
    else
      match el with
      | Some el =>
          if dif_appendonly ip then Some (- EPERM, s)
          else if negb (Z.land (er_flags er) XATTR_CREATE =? 0) then Some (- EEXIST, s)
          else
            ea ← located (s_disk s) el;
            let unstuffed := negb (GFS2_EA_IS_STUFFED ea) in
            r ← ea_set_i k sdp env s er (Some el);
            let '(error, s1) := r in
            if (error =? 0) && unstuffed then
              r ← ea_set_remove_unstuffed k (ev_remove env) s1 el;
              Some (error, snd r)
            else Some (error, s1)
      | None =>
          if negb (Z.land (er_flags er) XATTR_REPLACE =? 0) then Some (- ENODATA, s)
          else ea_set_i k sdp env s er None
      end.

(** Whether the request [get] names the attribute the request [er] wrote:
    the test of [ea_find_i] on the record [ea_write] fills from [er]. *)
Definition same_name (er get : gfs2_ea_request) : bool :=
  (er_type er =? er_type get)
  && ((er_name_len er =? er_name_len get)
      && memcmp_eq (er_name er) (er_name get) (er_name_len er)).

(** The location of a record once the record at [el] has been split at
    [new]: the record that came after it now comes after the new one. *)
Definition reprev (el : gfs2_ea_location) (new : Z) (x : gfs2_ea_location)
  : gfs2_ea_location :=
  if (el_bh x =? el_bh el) && bool_decide (el_prev x = Some (el_ea el))
  then mk_location (el_bh x) (el_ea x) (Some new)
  else x.

(** The records once the record at [el] has been split at [new]. *)
Definition split_records (el : gfs2_ea_location) (new : Z)
    (recs : list gfs2_ea_location) : list gfs2_ea_location :=
  concat ((fun x => if same_record x el
                    then [x; mk_location (el_bh el) new (Some (el_ea el))]
                    else [reprev el new x]) <$> recs).

(** Two disks on which [ea_get_unstuffed] reads the same from a block. *)
Definition same_payload (d1 d2 : disk) (b : Z) : Prop :=
  match d1 b, d2 b with
  | Some x, Some y => mh_type x = mh_type y /\ ed_bytes x = ed_bytes y
  | None, None => True
  | _, _ => False
  end.

(** A block the attributes of the inode do not use: it is neither the block
    of [di_eattr], nor one this block points to, nor one a record points
    to. *)
Definition ea_block_unused (d : disk) (ip : gfs2_inode) (recs : list gfs2_ea_location)
    (b : Z) : Prop :=
  b <> di_eattr ip /\
  (forall bh, d (di_eattr ip) = Some bh -> b ∉ in_ptrs bh) /\
  (forall x h, x ∈ recs -> located d x = Some h -> b ∉ ea_dataptrs h).

(** What [gfs2_ea_get_i] does once [gfs2_ea_find] has given it the
    location [el]. *)
Definition ea_get_at (sdp : gfs2_sbd) (d : disk) (kcalloc_ok : bool)
    (el : gfs2_ea_location) (er : gfs2_ea_request) : option (Z * option (list Z)) :=
  ea ← located d el;
  copied ←
    (if negb (er_data_len er =? 0) then
       if er_data_len er <? GFS2_EA_DATA_LEN ea then Some (- ERANGE, er_data er)
       else
         data ← er_data er;
         let '(error, data') := gfs2_ea_get_copy sdp d kcalloc_ok ea data in
         Some (error, Some data')
     else Some (0, er_data er));
  let '(error, data) := copied in
  Some (if error =? 0 then to_int (GFS2_EA_DATA_LEN ea) else error, data).

(** Two results of a search at the same place. *)
Definition same_place (a b : option gfs2_ea_location) : Prop :=
  match a, b with
  | Some x, Some y => el_bh x = el_bh y /\ el_ea x = el_ea y
  | None, None => True
  | _, _ => False
  end.

(** The records of the store once [ea_set_simple_alloc] has written its
    record, at [new] when it has split the record at [el] and in the record
    at [el] otherwise. *)
Definition set_records (split : bool) (el : gfs2_ea_location) (new : Z)
    (recs : list gfs2_ea_location) : list gfs2_ea_location :=
  if split then split_records el new recs else recs.

(** Two records with the same type, name and value. *)
Definition same_value (h h' : gfs2_ea_header) : Prop :=
  ea_type h' = ea_type h /\ ea_name_len h' = ea_name_len h /\ ea_name h' = ea_name h /\
  ea_data_len h' = ea_data_len h /\ ea_num_ptrs h' = ea_num_ptrs h /\
  ea_data h' = ea_data h /\ ea_dataptrs h' = ea_dataptrs h.

End EattrSet.

Module SetExamples.
Import Eattr EattrSet.

(** Blocks of 128 bytes, and the user attribute [foo] alone in block 7, its
    record taking the 104 bytes after the header of the block. *)
Definition sbd_128 : gfs2_sbd := mk_sbd 128 104 13.

Definition record_foo : gfs2_ea_header :=
  mk_ea_header 104 3 3 1 1 0 [102; 111; 111] [1; 2; 3] [].

Definition disk_foo : disk :=
  fun bn =>
    if bn =? 7
    then Some (mk_block GFS2_METATYPE_EA
                 (fun ea => if ea =? 24 then record_foo else EattrExamples.no_record) [] [])
    else None.

(** A request for the user attribute [bar]. *)
Definition request_bar (data : option (list Z)) (len : Z) : gfs2_ea_request :=
  mk_request [98; 97; 114] 3 data len 1 0.

(** The attributes [foo] and [bar] in block 7: the record of [foo] takes 56
    bytes, of which it uses 24, and the record of [bar] the 48 bytes left. *)
Definition disk_foo_bar : disk :=
  fun bn =>
    if bn =? 7
    then Some (mk_block GFS2_METATYPE_EA
                 (fun ea =>
                    if ea =? 24 then mk_ea_header 56 3 3 1 0 0 [102; 111; 111] [1; 2; 3] []
                    else if ea =? 80 then mk_ea_header 48 2 3 1 1 0 [98; 97; 114] [9; 9] []
                    else EattrExamples.no_record) [] [])
    else None.

(** Services that succeed, an allocator that gives block 9 to
    [ea_alloc_blk], block 8 to [ea_set_block] and the blocks from 100 on to
    [ea_write], and buffers as [gfs2_meta_new] gives them. *)
Definition services_ok : skeleton_services :=
  mk_skeleton_services 0 0 (fun _ => 0) (fun _ => 0) 0.

Definition removal_ok : removal_services :=
  mk_removal_services 0 0 (fun _ => true) 0 0 0.

Definition blocks_9 : ea_blocks :=
  mk_ea_blocks (fun p => mk_block GFS2_METATYPE_ED (fun _ => EattrExamples.no_record) [] p)
               (fun i => 100 + Z.of_nat i)
               9 EattrExamples.block_broken
               8 (mk_block GFS2_METATYPE_IN (fun _ => EattrExamples.no_record)
                           (replicate 13 0) []).

Definition env_ok : ea_env :=
  mk_ea_env blocks_9 (mk_ea_mode (2 ^ 31) true) services_ok services_ok
            (mk_noalloc_services 0 0) services_ok removal_ok removal_ok.



Definition state_foo (appendonly : bool) : ea_state :=
  mk_ea_state disk_foo (mk_inode 7 false appendonly) 2 false false [].

(** The attribute [foo] with a value of 60 bytes, alone in block 7: its
    record leaves 24 bytes after its own. *)
Definition state_foo_60 : ea_state :=
  mk_ea_state
    (fun bn =>
       if bn =? 7
       then Some (mk_block GFS2_METATYPE_EA
                    (fun ea =>
                       if ea =? 24
                       then mk_ea_header 104 60 3 1 1 0 [102; 111; 111] (replicate 60 7) []
                       else EattrExamples.no_record) [] [])
       else None)
    (mk_inode 7 false false) 2 false false [].

(** What Set returns, and what [gfs2_ea_get_i] then reads for the request
    [get] in the state Set leaves. *)
Definition set_then_read (env : ea_env) (s : ea_state) (er get : gfs2_ea_request)
  : option (Z * gfs2_inode * Z * option (Z * option (list Z))) :=
  r ← gfs2_ea_set_i EattrExamples.format sbd_128 env s er;
  Some (r.1, s_inode r.2, s_blocks r.2,
        gfs2_ea_get_i EattrExamples.format sbd_128 (s_disk r.2) true (s_inode r.2) get).

End SetExamples.

(** * Properties of the machine arithmetic *)

Lemma wrap32_small (z : Z) : 0 <= z < 2 ^ 32 -> wrap32 z = z.
Proof. intros H. unfold wrap32. now apply Z.mod_small. Qed.

Lemma wrap32_range (z : Z) : 0 <= wrap32 z < 2 ^ 32.
Proof. unfold wrap32. apply Z.mod_pos_bound. lia. Qed.

(** * Properties of the resource-group code *)

Module RgrpFacts.
Import Bits Rgrp.

(** ** Byte buffers *)

Lemma byte_at_lookup (b : list Z) (i : Z) (x : Z) :
  0 <= i -> b !! Z.to_nat i = Some x -> byte_at b i = x.
Proof.
  intros Hi Hx. unfold byte_at.
  destruct (Z.ltb_spec i 0) as [?|_]; [lia|]. now rewrite Hx.
Qed.

Lemma list_inserts_twice {A} (k l : list A) (i : nat) :
  list_inserts i k (list_inserts i k l) = list_inserts i k l.
Proof.
  revert i. induction k as [|y k IH]; intros i; simpl; [reflexivity|].
  rewrite <- list_insert_inserts_lt by lia.
  rewrite IH. apply list_insert_insert_eq.
Qed.

Lemma memcpy_twice (dst src : list Z) (off n : Z) :
  memcpy (memcpy dst off src off n) off src off n = memcpy dst off src off n.
Proof. unfold memcpy. apply list_inserts_twice. Qed.

Lemma length_memcpy (dst src : list Z) (doff soff n : Z) :
  length (memcpy dst doff src soff n) = length dst.
Proof. unfold memcpy. apply length_inserts. Qed.

Lemma byte_at_memcpy (dst src : list Z) (off n i : Z) :
  0 <= off -> 0 <= i < n ->
  off + n <= Z.of_nat (length src) ->
  off + n <= Z.of_nat (length dst) ->
  byte_at (memcpy dst off src off n) (off + i) = byte_at src (off + i).
Proof.
  intros Hoff Hi Hsrc Hdst. unfold byte_at, memcpy.
  destruct (Z.ltb_spec (off + i) 0) as [?|_]; [lia|].
  f_equal.
  rewrite list_lookup_inserts.
  - rewrite lookup_take_lt by lia. rewrite lookup_drop. f_equal. lia.
  - rewrite length_take, length_drop. lia.
  - lia.
Qed.

(** ** [gfs2_rgrp_repolish_clones] *)

Lemma repolish_bitmap_twice (bi : gfs2_bitmap) :
  repolish_bitmap (repolish_bitmap bi) = repolish_bitmap bi.
Proof.
  unfold repolish_bitmap. destruct bi as [bh [c|] off st len]; simpl; [|reflexivity].
  unfold set_bi_clone; simpl. now rewrite memcpy_twice.
Qed.

Lemma repolish_loop_lookup (n x : nat) (bits : list gfs2_bitmap) (i : nat) :
  repolish_loop n x bits !! i =
    if decide (x <= i < x + n)%nat then repolish_bitmap <$> bits !! i else bits !! i.
Proof.
  revert x bits. induction n as [|n IH]; intros x bits; simpl.
  - destruct (decide _); [lia|reflexivity].
  - rewrite IH. destruct (decide (i = x)) as [->|Hne].
    + rewrite list_lookup_alter_eq.
      destruct (decide _); [lia|]. destruct (decide _); [reflexivity|lia].
    + rewrite list_lookup_alter_ne by congruence.
      repeat destruct (decide _); try reflexivity; lia.
Qed.

Lemma repolish_loop_twice (n x : nat) (bits : list gfs2_bitmap) :
  repolish_loop n x (repolish_loop n x bits) = repolish_loop n x bits.
Proof.
  apply list_eq. intros i. rewrite !repolish_loop_lookup.
  destruct (decide _); [|reflexivity].
  destruct (bits !! i); simpl; [|reflexivity].
  now rewrite repolish_bitmap_twice.
Qed.

(** C8: after [gfs2_rgrp_repolish_clones], whatever the clones and the
    snapshot held before, the bitmap bytes of every clone equal those of
    its live buffer, the snapshot [rd_free_clone] equals the header's
    [rg_free] (so the free-count query of a reservation compares against
    exactly that value), and a second run changes nothing. *)
Theorem repolish_clones_refreshes (rgd : gfs2_rgrpd) :
  Forall bitmap_buffers_ok (rd_bits rgd) ->
  let rgd' := gfs2_rgrp_repolish_clones rgd in
  (forall (x : nat) (bi : gfs2_bitmap),
      Z.of_nat x < ri_length (rd_ri rgd) ->
      rd_bits rgd !! x = Some bi ->
      exists bi',
        rd_bits rgd' !! x = Some bi' /\
        bi_bh bi' = bi_bh bi /\
        (bi_clone bi = None -> bi_clone bi' = None) /\
        (forall c, bi_clone bi = Some c ->
           exists c', bi_clone bi' = Some c' /\
             forall i, 0 <= i < bi_len bi ->
               byte_at c' (bi_offset bi + i) = byte_at (bi_bh bi) (bi_offset bi + i)))
  /\ rd_rg rgd' = rd_rg rgd
  /\ rd_free_clone rgd' = rg_free (rd_rg rgd)
  /\ (forall ix al,
        fst (try_rgrp_fit ix rgd' al) =
          if al_requested al <=? rg_free (rd_rg rgd) then 1 else 0)
  /\ gfs2_rgrp_repolish_clones rgd' = rgd'.
Proof.
  intros Hok rgd'. subst rgd'. unfold gfs2_rgrp_repolish_clones; simpl.
  split; [|split; [reflexivity|split; [reflexivity|split]]].
  - intros x bi Hx Hbi.
    exists (repolish_bitmap bi). split.
    + rewrite repolish_loop_lookup. destruct (decide _); [|lia]. now rewrite Hbi.
    + pose proof (proj1 (Forall_lookup _ _) Hok x bi Hbi) as (Hoff & Hlen & Hbh & Hcl).
      unfold repolish_bitmap. destruct (bi_clone bi) as [c|] eqn:Hc; simpl.
      * split; [reflexivity|]. split; [discriminate|].
        intros c0 [= <-]. eexists; split; [reflexivity|].
        intros i Hi. apply byte_at_memcpy; try lia.
        rewrite (Hcl c eq_refl). lia.
      * split; [reflexivity|]. split; [intros _; exact Hc|]. intros c0 Hc0. congruence.
  - intros ix al. unfold try_rgrp_fit; simpl.
    now destruct (al_requested al <=? rg_free (rd_rg rgd)).
  - unfold set_rd_free_clone, set_rd_bits; simpl. now rewrite repolish_loop_twice.
Qed.

Lemma repolish_clones_refreshes_witness :
  Forall bitmap_buffers_ok (rd_bits Examples.rgd_stale_clone) /\
  rd_free_clone (gfs2_rgrp_repolish_clones Examples.rgd_stale_clone) = 62.
Proof.
  assert (H : Forall bitmap_buffers_ok (rd_bits Examples.rgd_stale_clone)).
  { repeat constructor; simpl; try lia. intros c [= <-]. reflexivity. }
  split; [exact H|].
  exact (proj1 (proj2 (proj2 (repolish_clones_refreshes _ H)))).
Defined.

(** ** The bitmap codec *)

Lemma small_state_bits (s i : Z) : 0 <= s <= 3 -> 2 <= i -> Z.testbit s i = false.
Proof.
  intros Hs Hi.
  destruct (Z.eq_dec s 0) as [->|Hne]; [apply Z.testbit_0_l|].
  apply Z.bits_above_log2; [lia|].
  assert (Z.log2 s <= Z.log2 3) by (apply Z.log2_le_mono; lia).
  change (Z.log2 3) with 1 in *. lia.
Qed.

Lemma mask_bits (i : Z) : 0 <= i -> Z.testbit 3 i = (i <? 2).
Proof.
  intros Hi. destruct (Z.ltb_spec i 2).
  - assert (i = 0 \/ i = 1) as [-> | ->] by lia; reflexivity.
  - apply small_state_bits; lia.
Qed.

(** Writing a cell of a byte and reading it back. *)
Lemma cell_write_read (b bit s : Z) :
  0 <= bit -> 0 <= s <= 3 ->
  Z.land (Z.shiftr (Z.lor (Z.lxor b (Z.shiftl (Z.land (Z.shiftr b bit) 3) bit))
                          (Z.shiftl s bit)) bit) 3 = s.
Proof.
  intros Hbit Hs. apply Z.bits_inj'. intros i Hi.
  rewrite Z.land_spec, Z.shiftr_spec, Z.lor_spec, Z.lxor_spec by lia.
  rewrite !Z.shiftl_spec by lia.
  replace (i + bit - bit) with i by lia.
  rewrite Z.land_spec, Z.shiftr_spec by lia.
  rewrite mask_bits by lia.
  destruct (Z.ltb_spec i 2).
  - destruct (Z.testbit b (i + bit)), (Z.testbit s i); reflexivity.
  - rewrite (small_state_bits s i) by lia. now rewrite andb_false_r.
Qed.

Lemma byte_at_insert (b : list Z) (i v : Z) :
  0 <= i < Z.of_nat (length b) -> byte_at (<[Z.to_nat i := v]> b) i = v.
Proof.
  intros Hi. apply byte_at_lookup; [lia|].
  apply list_lookup_insert_eq. lia.
Qed.

Lemma testbit_setbit (buffer : list Z) (off buflen blk s : Z) :
  0 <= off -> 0 <= blk -> 0 <= s <= 3 ->
  off + blk / 4 < Z.of_nat (length buffer) ->
  gfs2_testbit (gfs2_setbit buffer off buflen blk s) off buflen blk = s.
Proof.
  intros Hoff Hblk Hs Hlen. unfold gfs2_testbit, gfs2_setbit.
  unfold GFS2_NBBY, GFS2_BIT_SIZE, GFS2_BIT_MASK.
  assert (0 <= blk / 4) by (apply Z.div_pos; lia).
  assert (0 <= blk mod 4 < 4) by (apply Z.mod_pos_bound; lia).
  rewrite byte_at_insert by lia.
  apply cell_write_read; lia.
Qed.

Lemma length_setbit (buffer : list Z) (off buflen blk s : Z) :
  length (gfs2_setbit buffer off buflen blk s) = length buffer.
Proof. unfold gfs2_setbit. apply length_insert. Qed.

Lemma find_In_seqZ (f : Z -> bool) (m n c : Z) :
  find f (seqZ m n) = Some c -> m <= c < m + n /\ f c = true.
Proof.
  intros H. apply find_some in H as [Hin Hf]. split; [|exact Hf].
  apply list_elem_of_In, elem_of_seqZ in Hin. lia.
Qed.

Lemma find_seqZ_None (f : Z -> bool) (m n c : Z) :
  find f (seqZ m n) = None -> m <= c < m + n -> f c = false.
Proof.
  intros H Hc. eapply find_none; [exact H|].
  apply list_elem_of_In, elem_of_seqZ. lia.
Qed.

(** What [gfs2_bitfit] returns is a cell of the segment in the state asked
    for. *)
Lemma bitfit_sound (buffer : list Z) (off buflen goal st c : Z) :
  0 <= goal ->
  gfs2_bitfit buffer off buflen goal st = Some c ->
  0 <= c < buflen * 4 /\ gfs2_testbit buffer off buflen c = st.
Proof.
  intros Hgoal. unfold gfs2_bitfit, GFS2_NBBY.
  destruct (find _ (seqZ goal _)) as [c1|] eqn:H1.
  - intros [= <-]. apply find_In_seqZ in H1 as [? ?%Z.eqb_eq]. split; [lia|assumption].
  - intros H2. apply find_In_seqZ in H2 as [? ?%Z.eqb_eq]. split; [lia|assumption].
Qed.

(** It finds a cell whenever the segment has one in that state. *)
Lemma bitfit_complete (buffer : list Z) (off buflen goal st c : Z) :
  0 <= c < buflen * 4 -> gfs2_testbit buffer off buflen c = st ->
  gfs2_bitfit buffer off buflen goal st <> None.
Proof.
  intros Hc Hst. unfold gfs2_bitfit, GFS2_NBBY.
  destruct (find _ (seqZ goal _)) as [c1|] eqn:H1; [discriminate|].
  destruct (find _ (seqZ 0 _)) as [c2|] eqn:H2; [discriminate|].
  exfalso. apply Z.eqb_eq in Hst.
  destruct (Z.lt_ge_cases c goal) as [Hlt|Hge].
  - assert (Hf := find_seqZ_None _ _ _ c H2). simpl in Hf.
    rewrite Hst in Hf. assert (true = false) by (apply Hf; lia). discriminate.
  - assert (Hf := find_seqZ_None _ _ _ c H1). simpl in Hf.
    rewrite Hst in Hf. assert (true = false) by (apply Hf; lia). discriminate.
Qed.

(** ** The layout of the segments *)

Lemma segments_from_le (bits : list gfs2_bitmap) (start total : Z) :
  Forall bitmap_buffers_ok bits -> segments_from start bits total -> start <= total.
Proof.
  revert start. induction bits as [|bi rest IH]; intros start Hok Hseg; simpl in Hseg.
  - lia.
  - destruct Hseg as [_ Hrest]. inversion Hok as [|? ? (_ & Hlen & _) Hok']; subst.
    specialize (IH _ Hok' Hrest). lia.
Qed.

Lemma segments_from_lookup (bits : list gfs2_bitmap) (start total : Z) (j : nat)
    (bi : gfs2_bitmap) :
  Forall bitmap_buffers_ok bits -> segments_from start bits total ->
  bits !! j = Some bi ->
  start <= bi_start bi /\ bi_start bi + bi_len bi <= total /\ 0 <= bi_len bi.
Proof.
  revert start j. induction bits as [|b rest IH]; intros start j Hok Hseg Hj.
  - discriminate.
  - destruct Hseg as [Hst Hrest]. inversion Hok as [|? ? (_ & Hlen & _) Hok']; subst.
    destruct j as [|j]; simpl in Hj.
    + injection Hj as <-. pose proof (segments_from_le _ _ _ Hok' Hrest). lia.
    + specialize (IH _ _ Hok' Hrest Hj). lia.
Qed.

Lemma segment_of_lookup (bits : list gfs2_bitmap) (start total : Z) (j : nat)
    (bi : gfs2_bitmap) (c : Z) :
  Forall bitmap_buffers_ok bits -> segments_from start bits total ->
  bits !! j = Some bi ->
  bi_start bi * 4 <= c < (bi_start bi + bi_len bi) * 4 ->
  exists bi', segment_of bits c = Some bi' /\ bits !! j = Some bi'.
Proof.
  revert start j. induction bits as [|b rest IH]; intros start j Hok Hseg Hj Hc.
  - discriminate.
  - destruct Hseg as [Hst Hrest]. inversion Hok as [|? ? (_ & Hlen & _) Hok']; subst.
    simpl. unfold GFS2_NBBY. destruct j as [|j]; simpl in Hj.
    + injection Hj as ->.
      destruct (Z.leb_spec (bi_start bi * 4) c); [|lia].
      destruct (Z.ltb_spec c ((bi_start bi + bi_len bi) * 4)); [|lia].
      simpl. eauto.
    + pose proof (segments_from_lookup _ _ _ _ _ Hok' Hrest Hj) as (Hlo & _ & _).
      destruct (Z.ltb_spec c ((bi_start b + bi_len b) * 4)); [lia|].
      rewrite andb_false_r. simpl. eapply IH; eauto.
Qed.

Lemma segment_of_Some (bits : list gfs2_bitmap) (c : Z) (bi : gfs2_bitmap) :
  segment_of bits c = Some bi ->
  (exists j, bits !! j = Some bi) /\
  bi_start bi * 4 <= c < (bi_start bi + bi_len bi) * 4.
Proof.
  induction bits as [|b rest IH]; simpl; [discriminate|]. unfold GFS2_NBBY.
  destruct (Z.leb_spec (bi_start b * 4) c); simpl.
  - destruct (Z.ltb_spec c ((bi_start b + bi_len b) * 4)).
    + intros [= <-]. split; [exists 0%nat; reflexivity|lia].
    + intros H'. destruct (IH H') as [[j Hj] ?]. split; [exists (S j); exact Hj|assumption].
  - intros H'. destruct (IH H') as [[j Hj] ?]. split; [exists (S j); exact Hj|assumption].
Qed.

Lemma segments_from_insert (bits : list gfs2_bitmap) (start total : Z) (j : nat)
    (bi bi' : gfs2_bitmap) :
  segments_from start bits total -> bits !! j = Some bi ->
  bi_start bi' = bi_start bi -> bi_len bi' = bi_len bi ->
  segments_from start (<[j := bi']> bits) total.
Proof.
  revert start j. induction bits as [|b rest IH]; intros start j Hseg Hj Hs Hl.
  - discriminate.
  - destruct Hseg as [Hst Hrest]. destruct j as [|j]; simpl in Hj |- *.
    + injection Hj as ->. rewrite Hs, Hl. now split.
    + split; [assumption|]. eapply IH; eauto.
Qed.

(** ** [rgblk_search] *)

(** The first loop stops at the segment that holds the goal block. *)
Lemma find_goal_buf_spec (pre suf : list gfs2_bitmap) (start total goal : Z) :
  Forall bitmap_buffers_ok suf -> segments_from start suf total ->
  0 <= start -> total * 4 < 2 ^ 32 ->
  start * 4 <= goal < total * 4 ->
  exists (j : nat) (bi : gfs2_bitmap),
    find_goal_buf (length suf) (Z.of_nat (length pre)) (pre ++ suf) goal = Z.of_nat j /\
    (pre ++ suf) !! j = Some bi /\
    bi_start bi * 4 <= goal < (bi_start bi + bi_len bi) * 4.
Proof.
  revert pre start. induction suf as [|bi rest IH]; intros pre start Hok Hseg Hst Htot Hgoal.
  - simpl in Hseg. lia.
  - destruct Hseg as [Hbs Hrest]. inversion Hok as [|? ? (_ & Hlen & _) Hok']; subst.
    pose proof (segments_from_le _ _ _ Hok' Hrest) as Hle.
    simpl. unfold bits_at. rewrite Nat2Z.id.
    rewrite list_lookup_middle by reflexivity. simpl. unfold GFS2_NBBY.
    rewrite (wrap32_small (bi_start bi + bi_len bi)) by lia.
    rewrite wrap32_small by lia.
    destruct (Z.ltb_spec goal ((bi_start bi + bi_len bi) * 4)).
    + exists (length pre), bi. split; [reflexivity|].
      split; [now apply list_lookup_middle|lia].
    + destruct (IH (pre ++ [bi]) (bi_start bi + bi_len bi) Hok' Hrest) as (j & b & Hf & Hj & Hr);
        try lia.
      rewrite length_app in Hf. simpl in Hf.
      replace (Z.of_nat (length pre + 1)) with (Z.of_nat (length pre) + 1) in Hf by lia.
      rewrite <- app_assoc in Hf, Hj. simpl in Hf, Hj.
      exists j, b. auto.
Qed.

(** The second loop reaches a segment that holds a cell in the state asked
    for before it runs out of iterations. *)
Lemma rgblk_scan_finds (bits : list gfs2_bitmap) (length old : Z) (j : nat)
    (bj : gfs2_bitmap) (cj : Z) :
  Z.of_nat (List.length bits) = length ->
  bits !! j = Some bj ->
  0 <= cj < bi_len bj * 4 ->
  gfs2_testbit (search_buffer bj) (bi_offset bj) (bi_len bj) cj = old ->
  forall (n : nat) (x buf goal : Z),
    0 <= buf < length ->
    steps_to length buf (Z.of_nat j) < Z.of_nat n ->
    exists x' buf' blk g,
      rgblk_scan n x bits length buf goal old = (x', buf', Some blk) /\
      x <= x' <= x + steps_to length buf (Z.of_nat j) /\
      0 <= buf' < length /\
      (g = goal \/ g = 0) /\
      gfs2_bitfit (search_buffer (bits_at bits buf')) (bi_offset (bits_at bits buf'))
                  (bi_len (bits_at bits buf')) g old = Some blk.
Proof.
  intros Hlen Hj Hcj Hold.
  assert (Hjlt : Z.of_nat j < length).
  { apply lookup_lt_Some in Hj. lia. }
  induction n as [|n IH]; intros x buf goal Hbuf Hsteps.
  - unfold steps_to in Hsteps. destruct (Z.leb_spec buf (Z.of_nat j)); lia.
  - simpl.
    destruct (gfs2_bitfit (search_buffer (bits_at bits buf)) (bi_offset (bits_at bits buf))
                (bi_len (bits_at bits buf)) goal old) as [blk|] eqn:Hfit.
    + exists x, buf, blk, goal. split; [reflexivity|].
      split; [unfold steps_to; destruct (Z.leb_spec buf (Z.of_nat j)); lia|].
      split; [assumption|]. split; [now left|exact Hfit].
    + assert (Hne : buf <> Z.of_nat j).
      { intros ->. unfold bits_at in Hfit. rewrite Nat2Z.id, Hj in Hfit. simpl in Hfit.
        eapply bitfit_complete in Hfit; eauto. }
      assert (Hnext : 0 <= (buf + 1) mod length < length) by (apply Z.mod_pos_bound; lia).
      assert (Hst : steps_to length ((buf + 1) mod length) (Z.of_nat j) =
                    steps_to length buf (Z.of_nat j) - 1).
      { unfold steps_to.
        destruct (Z.eq_dec (buf + 1) length) as [He|He].
        - rewrite He, Z_mod_same_full.
          destruct (Z.leb_spec buf (Z.of_nat j)), (Z.leb_spec 0 (Z.of_nat j)); lia.
        - rewrite Z.mod_small by lia.
          destruct (Z.leb_spec buf (Z.of_nat j)), (Z.leb_spec (buf + 1) (Z.of_nat j)); lia. }
      destruct (IH (x + 1) ((buf + 1) mod length) 0 Hnext) as (x' & buf' & blk & g & Hr & Hx & Hb & Hg & Hf).
      { lia. }
      exists x', buf', blk, g. split; [exact Hr|].
      split; [lia|]. split; [assumption|]. split; [right; destruct Hg; lia|exact Hf].
Qed.

Lemma steps_to_bound (length buf j : Z) :
  0 <= buf < length -> 0 <= j < length -> 0 <= steps_to length buf j < length.
Proof. intros Hb Hj. unfold steps_to. destruct (Z.leb_spec buf j); lia. Qed.

Lemma bits_at_lookup (bits : list gfs2_bitmap) (buf : Z) :
  0 <= buf < Z.of_nat (length bits) ->
  bits !! Z.to_nat buf = Some (bits_at bits buf).
Proof.
  intros Hb. unfold bits_at.
  destruct (lookup_lt_is_Some_2 bits (Z.to_nat buf)) as [bi Hbi]; [lia|].
  now rewrite Hbi.
Qed.

Lemma cell_in_lookup (pick : gfs2_bitmap -> option (list Z)) (rgd : gfs2_rgrpd)
    (j : nat) (bi : gfs2_bitmap) (b : list Z) (blk : Z) :
  Forall bitmap_buffers_ok (rd_bits rgd) ->
  segments_from 0 (rd_bits rgd) (ri_bitbytes (rd_ri rgd)) ->
  rd_bits rgd !! j = Some bi -> pick bi = Some b ->
  0 <= blk < bi_len bi * 4 ->
  cell_in pick rgd (bi_start bi * 4 + blk) =
    Some (gfs2_testbit b (bi_offset bi) (bi_len bi) blk).
Proof.
  intros Hok Hseg Hj Hpick Hblk. unfold cell_in.
  destruct (segment_of_lookup _ _ _ j bi (bi_start bi * 4 + blk) Hok Hseg Hj)
    as (bi' & Hs & Hj'); [lia|].
  rewrite Hs. assert (bi' = bi) as -> by congruence.
  rewrite Hpick. unfold GFS2_NBBY. do 2 f_equal. lia.
Qed.

(** What [rgblk_search] does once its second loop has found a block. *)
Lemma rgblk_search_commit (rgd : gfs2_rgrpd) (goal old new : Z) (j0 : nat)
    (bi0 : gfs2_bitmap) (x' buf' blk : Z) :
  rgrpd_ok rgd -> 0 <= new <= 3 ->
  find_goal_buf (length (rd_bits rgd)) 0 (rd_bits rgd) goal = Z.of_nat j0 ->
  rd_bits rgd !! j0 = Some bi0 ->
  rgblk_scan (Z.to_nat (ri_length (rd_ri rgd) + 1)) 0 (rd_bits rgd) (ri_length (rd_ri rgd))
             (Z.of_nat j0) (wrap32 (goal - wrap32 (bi_start bi0 * 4))) old
    = (x', buf', Some blk) ->
  0 <= x' <= ri_length (rd_ri rgd) ->
  0 <= buf' < ri_length (rd_ri rgd) ->
  0 <= blk < bi_len (bits_at (rd_bits rgd) buf') * 4 ->
  exists rgd',
    rgblk_search rgd goal old new =
      Some (bi_start (bits_at (rd_bits rgd) buf') * 4 + blk, rgd', false) /\
    0 <= bi_start (bits_at (rd_bits rgd) buf') * 4 + blk < ri_data (rd_ri rgd) /\
    live_cell rgd' (bi_start (bits_at (rd_bits rgd) buf') * 4 + blk) = Some new /\
    (forall s, clone_cell rgd (bi_start (bits_at (rd_bits rgd) buf') * 4 + blk) = Some s ->
               clone_cell rgd' (bi_start (bits_at (rd_bits rgd) buf') * 4 + blk) = Some new) /\
    rd_ri rgd' = rd_ri rgd /\ rd_rg rgd' = rd_rg rgd /\
    rd_free_clone rgd' = rd_free_clone rgd /\
    rgblk_search_scans rgd goal old = x' + 1.
Proof.
  intros (Hlen & Hok & Hseg & Hdata & H32) Hnew Hfind Hj0 Hscan Hx Hbuf' Hblk.
  unfold GFS2_NBBY in Hdata.
  assert (Hn : Z.to_nat (ri_length (rd_ri rgd)) = length (rd_bits rgd)) by lia.
  pose proof (lookup_lt_Some _ _ _ Hj0) as Hj0lt.
  assert (Hat0 : bits_at (rd_bits rgd) (Z.of_nat j0) = bi0).
  { unfold bits_at. now rewrite Nat2Z.id, Hj0. }
  pose proof (bits_at_lookup (rd_bits rgd) buf' ltac:(lia)) as Hat.
  set (bi := bits_at (rd_bits rgd) buf') in *.
  pose proof (segments_from_lookup _ _ _ _ _ Hok Hseg Hat) as (Hs & He & Hl).
  pose proof (proj1 (Forall_lookup _ _) Hok _ _ Hat) as (Hoff & _ & Hbh & Hcl).
  assert (Hret : wrap32 (wrap32 (bi_start bi * 4) + blk) = bi_start bi * 4 + blk).
  { rewrite (wrap32_small (bi_start bi * 4)) by lia. apply wrap32_small. lia. }
  assert (Hdiv : 0 <= blk / 4 < bi_len bi).
  { split; [apply Z.div_pos; lia|apply Z.div_lt_upper_bound; lia]. }
  eexists. split; [|split; [lia|split; [|split; [|split; [|split; [|split]]]]]].
  - unfold rgblk_search. rewrite Hn, Hfind.
    destruct (Z.ltb_spec (Z.of_nat j0) (ri_length (rd_ri rgd))); [|lia]. simpl negb. cbv iota.
    rewrite Hat0. unfold GFS2_NBBY. rewrite Hscan.
    destruct (Z.leb_spec x' (ri_length (rd_ri rgd))); [|lia]. simpl.
    fold bi. rewrite Hret. reflexivity.
  - unfold live_cell. simpl.
    set (bi' := set_bi_clone _ _).
    assert (Hj' : (<[Z.to_nat buf' := bi']> (rd_bits rgd)) !! Z.to_nat buf' = Some bi').
    { apply list_lookup_insert_eq. lia. }
    change (bi_start bi) with (bi_start bi').
    erewrite (cell_in_lookup _ _ (Z.to_nat buf') bi'); simpl; eauto.
    + f_equal. apply testbit_setbit; lia.
    + apply Forall_insert; [exact Hok|].
      subst bi'. unfold bitmap_buffers_ok; simpl. rewrite length_setbit.
      repeat split; try lia.
      intros c0 Hc0. destruct (bi_clone bi) as [cl|] eqn:Hcl0; [|discriminate].
      injection Hc0 as <-. rewrite length_setbit. now apply Hcl.
    + eapply segments_from_insert; eauto.
  - intros s0 Hs0'. unfold clone_cell in *. simpl.
    unfold cell_in in Hs0'.
    destruct (segment_of_lookup _ _ _ _ bi (bi_start bi * 4 + blk) Hok Hseg Hat)
      as (b0 & Hsg & Hb0); [lia|].
    rewrite Hsg in Hs0'. assert (b0 = bi) as -> by congruence.
    destruct (bi_clone bi) as [cl|] eqn:Hcl0; [|discriminate].
    set (bi' := set_bi_clone _ _).
    assert (Hj' : (<[Z.to_nat buf' := bi']> (rd_bits rgd)) !! Z.to_nat buf' = Some bi').
    { apply list_lookup_insert_eq. lia. }
    change (bi_start bi) with (bi_start bi').
    erewrite (cell_in_lookup _ _ (Z.to_nat buf') bi'); simpl; eauto.
    + f_equal. apply testbit_setbit; try lia. rewrite (Hcl cl eq_refl). lia.
    + apply Forall_insert; [exact Hok|].
      subst bi'. unfold bitmap_buffers_ok; simpl. rewrite length_setbit.
      repeat split; try lia.
      intros c0 [= <-]. rewrite length_setbit. now apply Hcl.
    + eapply segments_from_insert; eauto.
  - reflexivity.
  - reflexivity.
  - reflexivity.
  - unfold rgblk_search_scans. rewrite Hn, Hfind, Hat0. unfold GFS2_NBBY. now rewrite Hscan.
Qed.





(** With a goal at or after [ri_data], which no caller passes, the hard
    assertion [buf < length] fails although the group has free cells. *)
Lemma rgblk_search_goal_outside :
  (exists c, search_cell Examples.rgd_all_free c = Some GFS2_BLKST_FREE) /\
  rgblk_search Examples.rgd_all_free 1000 GFS2_BLKST_FREE GFS2_BLKST_USED = None.
Proof. split; [exists 5|]; reflexivity. Qed.

(** ** Single-block allocation *)

Lemma bitfit_at_goal (buffer : list Z) (off buflen goal st : Z) :
  0 <= goal < buflen * 4 ->
  gfs2_testbit buffer off buflen goal = st ->
  gfs2_bitfit buffer off buflen goal st = Some goal.
Proof.
  intros Hg Hst. unfold gfs2_bitfit, GFS2_NBBY.
  rewrite seqZ_cons by lia. simpl.
  apply Z.eqb_eq in Hst. now rewrite Hst.
Qed.

(** A goal whose cell reads as the old state is the block taken. *)
Lemma rgblk_search_at_goal (rgd : gfs2_rgrpd) (goal old new : Z) :
  rgrpd_ok rgd ->
  0 <= goal < ri_data (rd_ri rgd) ->
  0 <= new <= 3 ->
  search_cell rgd goal = Some old ->
  exists rgd',
    rgblk_search rgd goal old new = Some (goal, rgd', false) /\
    live_cell rgd' goal = Some new /\
    rd_ri rgd' = rd_ri rgd /\ rd_rg rgd' = rd_rg rgd /\
    rd_free_clone rgd' = rd_free_clone rgd.
Proof.
  intros Hrgd Hgoal Hnew Hc.
  pose proof Hrgd as (Hlen & Hok & Hseg & Hdata & H32).
  unfold GFS2_NBBY in Hdata.
  destruct (find_goal_buf_spec [] (rd_bits rgd) 0 (ri_bitbytes (rd_ri rgd)) goal Hok Hseg)
    as (j0 & bi0 & Hfind & Hj0 & Hr0); try lia.
  simpl in Hfind, Hj0. change (Z.of_nat 0) with 0 in Hfind.
  pose proof (lookup_lt_Some _ _ _ Hj0) as Hj0lt.
  pose proof (segments_from_lookup _ _ _ _ _ Hok Hseg Hj0) as (Hs0 & He0 & Hl0).
  assert (Hat0 : bits_at (rd_bits rgd) (Z.of_nat j0) = bi0).
  { unfold bits_at. now rewrite Nat2Z.id, Hj0. }
  unfold search_cell, cell_in in Hc.
  destruct (segment_of_lookup _ _ _ _ bi0 goal Hok Hseg Hj0 Hr0) as (b0 & Hsg & Hb0).
  rewrite Hsg in Hc. assert (b0 = bi0) as -> by congruence.
  injection Hc as Hc. unfold GFS2_NBBY in Hc.
  assert (Hw : wrap32 (goal - wrap32 (bi_start bi0 * 4)) = goal - bi_start bi0 * 4).
  { rewrite (wrap32_small (bi_start bi0 * 4)) by lia. apply wrap32_small. lia. }
  destruct (rgblk_search_commit rgd goal old new j0 bi0 0 (Z.of_nat j0)
              (goal - bi_start bi0 * 4) Hrgd Hnew Hfind Hj0)
    as (rgd' & Hres & _ & Hlive & _ & Hri & Hrg & Hfc & _); try lia.
  - replace (Z.to_nat (ri_length (rd_ri rgd) + 1))
      with (S (Z.to_nat (ri_length (rd_ri rgd)))) by lia.
    simpl. rewrite Hat0, Hw.
    rewrite (bitfit_at_goal _ _ _ _ old); [reflexivity|lia|exact Hc].
  - rewrite Hat0. lia.
  - rewrite Hat0 in Hres, Hlive.
    replace (bi_start bi0 * 4 + (goal - bi_start bi0 * 4)) with goal in * by lia.
    exists rgd'. auto.
Qed.

(** C2, as amended: in a group of the 64 data blocks [100,164) whose cells
    are all free and whose header counts 64 free blocks, [gfs2_alloc_data]
    with goal block 100 returns block 100, leaves the header's free count at
    63 and marks the cell of offset 0 as used. *)
Theorem alloc_data_first_block (sdp : gfs2_sbd) (ip : gfs2_inode) (al : gfs2_alloc)
    (r : nat) (rgd : gfs2_rgrpd) :
  i_alloc ip = Some al -> al_rgd al = Some r ->
  sd_rindex_list sdp !! r = Some rgd ->
  rgrpd_ok rgd ->
  ri_data0 (rd_ri rgd) = 100 -> ri_data (rd_ri rgd) = 64 ->
  (forall c, 0 <= c < 64 ->
     live_cell rgd c = Some GFS2_BLKST_FREE /\ search_cell rgd c = Some GFS2_BLKST_FREE) ->
  rg_free (rd_rg rgd) = 64 ->
  di_goal_data ip = 100 ->
  exists sdp' ip' rgd',
    gfs2_alloc_data sdp ip = Some (100, sdp', ip') /\
    sd_rindex_list sdp' !! r = Some rgd' /\
    rg_free (rd_rg rgd') = 63 /\
    live_cell rgd' 0 = Some GFS2_BLKST_USED /\
    sd_withdrawn sdp' = sd_withdrawn sdp.
Proof.
  intros Hal Hr Hrgd Hok Hd0 Hd Hfree Hrg Hgoal.
  destruct (rgblk_search_at_goal rgd 0 GFS2_BLKST_FREE GFS2_BLKST_USED Hok)
    as (rgd1 & Hs & Hlive & Hri & Hrg1 & Hfc).
  { lia. }
  { unfold GFS2_BLKST_USED. lia. }
  { apply Hfree. lia. }
  unfold gfs2_alloc_data. rewrite Hal. simpl. rewrite Hr. simpl. rewrite Hrgd. simpl.
  unfold rgrp_contains_block. rewrite Hgoal, Hd0, Hd. simpl.
  change (wrap32 (100 - 100)) with 0. rewrite Hs. simpl.
  rewrite Hri, Hrg1, Hd0, Hrg. simpl.
  eexists _, _, _. split; [reflexivity|]. simpl.
  split; [apply list_lookup_insert_eq; now apply lookup_lt_Some in Hrgd|].
  split; [reflexivity|]. split; [|reflexivity].
  unfold live_cell, cell_in in *. simpl. exact Hlive.
Qed.

Lemma alloc_data_first_block_witness :
  exists sdp' ip',
    gfs2_alloc_data Examples.sbd_one_group Examples.inode_goal_100 = Some (100, sdp', ip').
Proof.
  destruct (alloc_data_first_block Examples.sbd_one_group Examples.inode_goal_100
              (mk_alloc 1 0 (Some 0%nat)) 0 Examples.rgd_all_free)
    as (sdp' & ip' & rgd' & H & _); try reflexivity.
  - repeat split; simpl; try lia.
    repeat constructor; simpl; try lia. discriminate.
  - intros c Hc.
    assert (Hin : c ∈ seqZ 0 64) by (apply elem_of_seqZ; lia).
    clear Hc. revert c Hin. apply Forall_forall.
    change (seqZ 0 64) with (Z.of_nat <$> seq 0 64).
    simpl. repeat (constructor; [split; reflexivity|]). constructor.
  - exists sdp', ip'. exact H.
Defined.

(** C2, counterexample: in that group, consistent with its bitmap, the free
    count after the allocation is 63, not 163. *)
Lemma alloc_data_free_count_63 :
  exists sdp' ip',
    gfs2_alloc_data Examples.sbd_one_group Examples.inode_goal_100 = Some (100, sdp', ip') /\
    rg_free (rd_rg (rgrpd_at sdp' 0)) = 63 /\
    rg_free (rd_rg (rgrpd_at sdp' 0)) <> 163.
Proof.
  eexists _, _. split; [vm_compute; reflexivity|].
  split; [reflexivity|discriminate].
Qed.

(** ** The reservation *)

Lemma alloc_data_inc (sdp sdp' : gfs2_sbd) (ip ip' : gfs2_inode) (al : gfs2_alloc) (blk : Z) :
  i_alloc ip = Some al ->
  gfs2_alloc_data sdp ip = Some (blk, sdp', ip') -> i_alloc ip' = Some (alloc_inc al).
Proof.
  intros Hal. unfold gfs2_alloc_data. rewrite Hal. simpl.
  destruct (al_rgd al) as [r|]; simpl; [|discriminate].
  destruct (sd_rindex_list sdp !! r) as [rgd|]; simpl; [|discriminate].
  destruct (rgblk_search _ _ _ _) as [[[b rgd'] w]|]; simpl; [|discriminate].
  now intros [= _ _ <-].
Qed.

Lemma alloc_meta_inc (sdp sdp' : gfs2_sbd) (ip ip' : gfs2_inode) (al : gfs2_alloc) (blk : Z) :
  i_alloc ip = Some al ->
  gfs2_alloc_meta sdp ip = Some (blk, sdp', ip') -> i_alloc ip' = Some (alloc_inc al).
Proof.
  intros Hal. unfold gfs2_alloc_meta. rewrite Hal. simpl.
  destruct (al_rgd al) as [r|]; simpl; [|discriminate].
  destruct (sd_rindex_list sdp !! r) as [rgd|]; simpl; [|discriminate].
  destruct (rgblk_search _ _ _ _) as [[[b rgd'] w]|]; simpl; [|discriminate].
  now intros [= _ _ <-].
Qed.

Lemma alloc_di_inc (sdp sdp' : gfs2_sbd) (ip ip' : gfs2_inode) (al : gfs2_alloc) (blk : Z) :
  i_alloc ip = Some al ->
  gfs2_alloc_di sdp ip = Some (blk, sdp', ip') -> i_alloc ip' = Some (alloc_inc al).
Proof.
  intros Hal. unfold gfs2_alloc_di. rewrite Hal. simpl.
  destruct (al_rgd al) as [r|]; simpl; [|discriminate].
  destruct (sd_rindex_list sdp !! r) as [rgd|]; simpl; [|discriminate].
  destruct (rgblk_search _ _ _ _) as [[[b rgd'] w]|]; simpl; [|discriminate].
  now intros [= _ _ <-].
Qed.

(** C6, as amended: each single-block allocation adds one to [al_alloced]
    (modulo 2^32) and leaves [al_requested] alone, without comparing the
    two; at release, outside the debug mount option, the reservation is
    released whatever the two counts are and the file system is never
    withdrawn: with [al_alloced <= al_requested] nothing else changes, and
    otherwise the only trace is that of the rate-limited warning. *)
Theorem reservation_counts_unchecked (sdp : gfs2_sbd) (ip : gfs2_inode) (al : gfs2_alloc)
    (jiffies : Z) :
  i_alloc ip = Some al ->
  ar_debug sdp = false ->
  (forall blk sdp' ip',
      gfs2_alloc_data sdp ip = Some (blk, sdp', ip') \/
      gfs2_alloc_meta sdp ip = Some (blk, sdp', ip') \/
      gfs2_alloc_di sdp ip = Some (blk, sdp', ip') ->
      exists al', i_alloc ip' = Some al' /\
                  al_alloced al' = wrap32 (al_alloced al + 1) /\
                  al_requested al' = al_requested al) /\
  (exists sdp',
      gfs2_inplace_release sdp ip jiffies =
        Some (sdp', set_i_alloc ip (Some (mk_alloc (al_requested al) (al_alloced al) None))) /\
      sd_withdrawn sdp' = sd_withdrawn sdp /\
      sd_rindex_list sdp' = sd_rindex_list sdp /\
      (al_alloced al <= al_requested al -> sdp' = sdp) /\
      (al_requested al < al_alloced al ->
         sdp' = sdp \/ sdp' = set_sd_last_warning sdp jiffies)).
Proof.
  intros Hal Hdebug. split.
  - intros blk sdp' ip' H. exists (alloc_inc al).
    split; [|split; reflexivity].
    destruct H as [H|[H|H]];
      eauto using alloc_data_inc, alloc_meta_inc, alloc_di_inc.
  - unfold gfs2_inplace_release, gfs2_assert_warn, gfs2_assert_warn_i.
    rewrite Hal, Hdebug. simpl.
    destruct (Z.leb_spec (al_alloced al) (al_requested al)); simpl.
    + exists sdp. split; [reflexivity|]. split; [reflexivity|]. split; [reflexivity|].
      split; [reflexivity|]. intros; lia.
    + destruct (jiffies <? sd_last_warning sdp + sd_complain sdp); simpl.
      * exists sdp. split; [reflexivity|]. split; [reflexivity|]. split; [reflexivity|].
        split; [reflexivity|]. now left.
      * eexists. split; [reflexivity|]. split; [reflexivity|]. split; [reflexivity|].
        split; [intros; lia|]. now right.
Qed.

Lemma reservation_counts_unchecked_witness :
  exists sdp',
    gfs2_inplace_release Examples.sbd_one_group Examples.inode_goal_100 100 =
      Some (sdp', set_i_alloc Examples.inode_goal_100 (Some (mk_alloc 1 0 None))).
Proof.
  destruct (reservation_counts_unchecked Examples.sbd_one_group Examples.inode_goal_100
              (mk_alloc 1 0 (Some 0%nat)) 100 eq_refl eq_refl)
    as (_ & sdp' & H & _).
  exists sdp'. exact H.
Defined.

(** C6, counterexample: under a reservation of one block two blocks are
    allocated, so that [al_alloced] is 2 and [al_requested] 1; the release
    that follows prints its warning and returns, and the file system is not
    withdrawn. *)
Lemma reservation_overrun_not_fatal :
  exists b1 s1 i1 b2 s2 i2 s3 i3,
    gfs2_alloc_data Examples.sbd_one_group Examples.inode_goal_100 = Some (b1, s1, i1) /\
    gfs2_alloc_data s1 i1 = Some (b2, s2, i2) /\
    (al_alloced <$> i_alloc i2) = Some 2 /\
    (al_requested <$> i_alloc i2) = Some 1 /\
    gfs2_inplace_release s2 i2 100 = Some (s3, i3) /\
    sd_withdrawn s3 = false /\
    sd_last_warning s3 = 100.
Proof.
  eexists _, _, _, _, _, _, _, _.
  split; [vm_compute; reflexivity|].
  split; [vm_compute; reflexivity|].
  split; [reflexivity|]. split; [reflexivity|].
  split; [vm_compute; reflexivity|].
  split; reflexivity.
Qed.

(** ** The working sets *)

Lemma recent_add_walk_spec (l : list nat) (new_rgd : nat) (count max : Z) :
  0 <= count -> count + 1 < 2 ^ 32 -> 0 <= max < 2 ^ 32 ->
  recent_add_walk l new_rgd count max = true <->
  (new_rgd ∉ l) /\ (l = [] \/ count + Z.of_nat (length l) < max).
Proof.
  revert count. induction l as [|r l IH]; intros count Hc Hc32 Hmax; simpl.
  - split; [intros _; split; [apply not_elem_of_nil|now left]|reflexivity].
  - destruct (decide (r = new_rgd)) as [->|Hne].
    + split; [discriminate|]. intros [Hnin _]. exfalso. apply Hnin. left.
    + rewrite wrap32_small by lia.
      destruct (Z.leb_spec max (count + 1)).
      * split; [discriminate|]. intros [_ [?|?]]; [discriminate|]. simpl in *. lia.
      * rewrite IH by lia. rewrite not_elem_of_cons.
        split.
        -- intros [Hnin Hlen]. split; [split; [congruence|assumption]|].
           right. destruct Hlen as [->|Hlen]; simpl in *; lia.
        -- intros [[_ Hnin] [?|Hlen]]; [discriminate|].
           split; [assumption|]. destruct l; [now left|right]. simpl in *. lia.
Qed.

(** C9, as amended: after a selection made by the forward scan, the chosen
    group is appended to the recent list only when it is not on the list and
    the list is empty or shorter than [sd_rgrps / journals]; otherwise the
    list is left as it was, and in no case is an entry removed.  A list
    within the bound (at least one entry being always allowed) stays within
    it.  The forward cursor becomes the group after the chosen one, the
    first group after the last, and the inode remembers the address of the
    chosen group. *)
Theorem forward_choice_recorded (sdp : gfs2_sbd) (ip : gfs2_inode) (rgd begin : nat) :
  0 < sd_journals sdp ->
  0 <= sd_rgrps sdp < 2 ^ 32 ->
  (rgd < length (sd_rindex_list sdp))%nat ->
  exists sdp' ip',
    get_local_rgrp_out sdp ip rgd (Some begin) = Some (sdp', ip') /\
    ((rgd ∉ sd_rindex_recent_list sdp) /\
     (sd_rindex_recent_list sdp = [] \/
      Z.of_nat (length (sd_rindex_recent_list sdp)) < sd_rgrps sdp / sd_journals sdp) ->
     sd_rindex_recent_list sdp' = sd_rindex_recent_list sdp ++ [rgd]) /\
    (~ ((rgd ∉ sd_rindex_recent_list sdp) /\
        (sd_rindex_recent_list sdp = [] \/
         Z.of_nat (length (sd_rindex_recent_list sdp)) < sd_rgrps sdp / sd_journals sdp)) ->
     sd_rindex_recent_list sdp' = sd_rindex_recent_list sdp) /\
    (Z.of_nat (length (sd_rindex_recent_list sdp)) <= Z.max 1 (sd_rgrps sdp / sd_journals sdp) ->
     Z.of_nat (length (sd_rindex_recent_list sdp')) <= Z.max 1 (sd_rgrps sdp / sd_journals sdp)) /\
    sd_rindex_forward sdp' =
      Some (if decide (S rgd < length (sd_rindex_list sdp))%nat then S rgd else 0%nat) /\
    i_last_rg_alloc ip' = ri_addr (rd_ri (rgrpd_at sdp rgd)).
Proof.
  intros Hj Hr Hrgd.
  assert (Hmax : 0 <= sd_rgrps sdp / sd_journals sdp < 2 ^ 32).
  { split; [apply Z.div_pos; lia|].
    apply Z.div_lt_upper_bound; [lia|]. nia. }
  pose proof (recent_add_walk_spec (sd_rindex_recent_list sdp) rgd 0
                (sd_rgrps sdp / sd_journals sdp) ltac:(lia) ltac:(lia) Hmax) as Hwalk.
  rewrite Z.add_0_l in Hwalk.
  unfold get_local_rgrp_out, recent_rgrp_add.
  destruct (Z.eqb_spec (sd_journals sdp) 0); [lia|].
  assert (Hnext : forall sdp1, sd_rindex_list sdp1 = sd_rindex_list sdp ->
            rgrpd_next_circular sdp1 rgd =
              Some (if decide (S rgd < length (sd_rindex_list sdp))%nat then S rgd else 0%nat)).
  { intros sdp1 Hl. unfold rgrpd_next_circular, gfs2_rgrpd_get_next, gfs2_rgrpd_get_first.
    rewrite Hl. destruct (decide _); [reflexivity|].
    destruct (sd_rindex_list sdp); [simpl in Hrgd; lia|reflexivity]. }
  destruct (recent_add_walk _ _ _ _) eqn:Hw; simpl.
  - rewrite Hnext by reflexivity. simpl.
    eexists _, _. split; [reflexivity|]. simpl.
    destruct Hwalk as [Hw1 _]. specialize (Hw1 eq_refl).
    split; [reflexivity|]. split; [tauto|].
    split; [|split; reflexivity].
    rewrite length_app. simpl. destruct Hw1 as [_ [->|Hlt]]; simpl; lia.
  - rewrite Hnext by reflexivity. simpl.
    eexists _, _. split; [reflexivity|]. simpl.
    split; [|split; [reflexivity|split; [tauto|split; reflexivity]]].
    intros Hcond. apply Hwalk in Hcond. discriminate.
Qed.

Lemma forward_choice_recorded_witness :
  exists sdp' ip',
    get_local_rgrp_out Examples.sbd_two_groups Examples.inode_no_goal 1 (Some 0%nat)
      = Some (sdp', ip').
Proof.
  destruct (forward_choice_recorded Examples.sbd_two_groups Examples.inode_no_goal 1 0)
    as (sdp' & ip' & H & _).
  - simpl; lia.
  - simpl; lia.
  - simpl; lia.
  - exists sdp', ip'. exact H.
Defined.

(** C9, counterexample: two groups, two journals, the first group on the
    recent list and contended; the scan chooses the second group, which is
    not put on the recent list, and the first is not evicted. *)
Lemma recent_list_full_no_eviction :
  exists sdp' ip',
    get_local_rgrp Examples.lock_first_busy Examples.sbd_two_groups Examples.inode_no_goal
      = Some (0, sdp', ip') /\
    (al_rgd <$> i_alloc ip') = Some (Some 1%nat) /\
    sd_rindex_recent_list sdp' = [0%nat] /\
    last (sd_rindex_recent_list sdp') <> Some 1%nat.
Proof.
  eexists _, _. split; [vm_compute; reflexivity|].
  split; [reflexivity|]. split; [reflexivity|]. discriminate.
Qed.

(** ** The scan of the full list *)

Lemma try_rgrp_fit_fits (sdp : gfs2_sbd) (al : gfs2_alloc) (rgd : nat) :
  try_rgrp_fit rgd (rgrpd_at sdp rgd) al =
    if rgrp_fits sdp al rgd
    then (1, mk_alloc (al_requested al) (al_alloced al) (Some rgd))
    else (0, al).
Proof. reflexivity. Qed.

Section Circuit.
Variable lock : glock_oracle.
Variable sdp : gfs2_sbd.

(** What a circuit leaves behind. *)
Lemma circuit_facts (l : list nat) (flags : Z) :
  forall (t : nat) (al : gfs2_alloc) (s : Z) r al' tr,
    circuit lock t sdp al l flags s = (r, al', tr) ->
    (length tr <= length l)%nat /\
    (forall i rgd fl res, tr !! i = Some (rgd, fl, res) ->
       l !! i = Some rgd /\ fl = flags /\ res = lock (t + i)%nat rgd flags) /\
    match r with
    | CIRCUIT_COMPLETE s' =>
        length tr = length l /\ al' = al /\ s <= s' /\
        (forall rgd fl, (rgd, fl, GL_OK) ∈ tr -> rgrp_fits sdp al rgd = false) /\
        (forall rgd fl e, (rgd, fl, GL_ERROR e) ∉ tr) /\
        (s' = s -> forall rgd fl, (rgd, fl, GLR_TRYFAILED) ∉ tr) /\
        (s < s' -> exists rgd fl, (rgd, fl, GLR_TRYFAILED) ∈ tr)
    | CIRCUIT_FOUND rgd =>
        (rgd, flags, GL_OK) ∈ tr /\ rgrp_fits sdp al rgd = true
    | CIRCUIT_LOCK_ERROR e => exists rgd, (rgd, flags, GL_ERROR e) ∈ tr
    end.
Proof.
  induction l as [|rgd rest IH]; intros t al s r al' tr Hc; simpl in Hc.
  - injection Hc as <- <- <-. simpl.
    split; [lia|]. split; [intros i rgd fl res H; discriminate|].
    repeat split; try lia; intros; try apply not_elem_of_nil.
    exfalso. eapply not_elem_of_nil; eauto.
  - destruct (lock t rgd flags) eqn:Hl.
    + rewrite try_rgrp_fit_fits in Hc.
      destruct (rgrp_fits sdp al rgd) eqn:Hfit; simpl in Hc.
      * injection Hc as <- <- <-. simpl.
        split; [lia|]. split.
        { intros [|i] rgd' fl res H; simpl in H; [|discriminate].
          injection H as <- <- <-. rewrite Nat.add_0_r. auto. }
        split; [left|exact Hfit].
      * destruct (circuit lock (S t) sdp al rest flags s) as [[r0 a0] tr0] eqn:Hrest.
        injection Hc as <- <- <-.
        destruct (IH _ _ _ _ _ _ Hrest) as (Hlen & Hlk & Hr).
        split; [simpl; lia|]. split.
        { intros [|i] rgd' fl res H; simpl in H.
          - injection H as <- <- <-. rewrite Nat.add_0_r. auto.
          - destruct (Hlk _ _ _ _ H) as (? & ? & ?). simpl.
            replace (t + S i)%nat with (S t + i)%nat by lia. auto. }
        destruct r0 as [rgd'|e|s'].
        -- destruct Hr as [? ?]. split; [now right|assumption].
        -- destruct Hr as [rgd' ?]. exists rgd'. now right.
        -- destruct Hr as (Hl' & -> & Hs & Hok & Herr & Hno & Hsome).
           split; [simpl; lia|]. split; [reflexivity|]. split; [assumption|].
           split.
           { intros rgd' fl [Heq|Hin]%elem_of_cons; [|eauto].
             injection Heq as -> _. exact Hfit. }
           split.
           { intros rgd' fl e [Heq|Hin]%elem_of_cons; [discriminate|]. eapply Herr; eauto. }
           split.
           { intros Heq rgd' fl [Heq'|Hin]%elem_of_cons; [discriminate|].
             eapply Hno; eauto. }
           intros Hlt. destruct (Hsome Hlt) as (rgd' & fl & Hin).
           exists rgd', fl. now right.
    + destruct (circuit lock (S t) sdp al rest flags (s + 1)) as [[r0 a0] tr0] eqn:Hrest.
      injection Hc as <- <- <-.
      destruct (IH _ _ _ _ _ _ Hrest) as (Hlen & Hlk & Hr).
      split; [simpl; lia|]. split.
      { intros [|i] rgd' fl res H; simpl in H.
        - injection H as <- <- <-. rewrite Nat.add_0_r. auto.
        - destruct (Hlk _ _ _ _ H) as (? & ? & ?). simpl.
          replace (t + S i)%nat with (S t + i)%nat by lia. auto. }
      destruct r0 as [rgd'|e|s'].
      * destruct Hr as [? ?]. split; [now right|assumption].
      * destruct Hr as [rgd' ?]. exists rgd'. now right.
      * destruct Hr as (Hl' & -> & Hs & Hok & Herr & Hno & Hsome).
        split; [simpl; lia|]. split; [reflexivity|]. split; [lia|].
        split.
        { intros rgd' fl [Heq|Hin]%elem_of_cons; [discriminate|eauto]. }
        split.
        { intros rgd' fl e [Heq|Hin]%elem_of_cons; [discriminate|]. eapply Herr; eauto. }
        split; [intros; lia|].
        intros _. exists rgd, flags. left.
    + injection Hc as <- <- <-. simpl.
      split; [lia|]. split.
      { intros [|i] rgd' fl res H; simpl in H; [|discriminate].
        injection H as <- <- <-. rewrite Nat.add_0_r. auto. }
      exists rgd. left.
Qed.

End Circuit.

Section ForwardScan.
Variable lock : glock_oracle.
Variable sdp : gfs2_sbd.
Variable begin : nat.

Lemma forward_scan_step (fuel t : nat) (al : gfs2_alloc) (rgd : nat) (flags skipped loops : Z) :
  forward_scan (S fuel) lock t sdp al begin rgd flags skipped loops =
    let error := lock t rgd flags in
    let att := (rgd, flags, error) in
    let advance (al : gfs2_alloc) (skipped : Z) :=
      match rgrpd_next_circular sdp rgd with
      | None => (SCAN_PANIC, al, [att])
      | Some rgd' =>
          if decide (rgd' = begin) then
            if (2 <=? loops + 1) || (skipped =? 0) then (SCAN_ENOSPC, al, [att])
            else
              let '(r, al', tr) :=
                forward_scan fuel lock (S t) sdp al begin rgd' 0 skipped (loops + 1) in
              (r, al', att :: tr)
          else
            let '(r, al', tr) :=
              forward_scan fuel lock (S t) sdp al begin rgd' flags skipped loops in
            (r, al', att :: tr)
      end in
    match error with
    | GL_OK =>
        let '(fit, al') := try_rgrp_fit rgd (rgrpd_at sdp rgd) al in
        if fit =? 0 then advance al' skipped else (SCAN_OUT rgd, al', [att])
    | GLR_TRYFAILED => advance al (skipped + 1)
    | GL_ERROR e => (SCAN_LOCK_ERROR e, al, [att])
    end.
Proof. reflexivity. Qed.

Lemma after_circuit_cons (fuel t : nat) (loops : Z) (att : attempt)
    (c : circuit_result * gfs2_alloc * list attempt) :
  (let '(r, a, tr) := after_circuit fuel lock (S t) sdp begin loops c in (r, a, att :: tr)) =
  after_circuit (S fuel) lock t sdp begin loops (let '(r, a, tr) := c in (r, a, att :: tr)).
Proof.
  destruct c as [[[rgd|e|s] a] tr]; simpl; try reflexivity.
  destruct ((2 <=? loops + 1) || (s =? 0)); [reflexivity|].
  replace (t + S (length tr))%nat with (S (t + length tr)) by lia.
  now destruct (forward_scan _ _ _ _ _ _ _ _ _ _) as [[r0 a0] tr0].
Qed.

(** The loop, followed over the groups that are left in the circuit. *)
Lemma forward_scan_circuit (l : list nat) :
  circuit_rest sdp begin l ->
  forall (fuel t : nat) (al : gfs2_alloc) (flags s loops : Z) (rgd : nat) (rest : list nat),
    l = rgd :: rest ->
    (length l <= fuel)%nat ->
    forward_scan fuel lock t sdp al begin rgd flags s loops =
      after_circuit fuel lock t sdp begin loops (circuit lock t sdp al l flags s).
Proof.
  induction l as [|rgd0 rest0 IH]; intros Hch fuel t al flags s loops rgd rest Heq Hfuel;
    [destruct Hch|].
  injection Heq as -> ->.
  destruct fuel as [|fuel]; [simpl in Hfuel; lia|].
  rewrite forward_scan_step. cbv zeta. simpl circuit.
  generalize (lock t rgd flags). intros error.
  assert (Hadv : forall (a : gfs2_alloc) (s1 : Z),
    match rgrpd_next_circular sdp rgd with
    | None => (SCAN_PANIC, a, [(rgd, flags, error)])
    | Some rgd' =>
        if decide (rgd' = begin) then
          if (2 <=? loops + 1) || (s1 =? 0)
          then (SCAN_ENOSPC, a, [(rgd, flags, error)])
          else
            let '(r, al', tr) :=
              forward_scan fuel lock (S t) sdp a begin rgd' 0 s1 (loops + 1) in
            (r, al', (rgd, flags, error) :: tr)
        else
          let '(r, al', tr) :=
            forward_scan fuel lock (S t) sdp a begin rgd' flags s1 loops in
          (r, al', (rgd, flags, error) :: tr)
    end =
    after_circuit (S fuel) lock t sdp begin loops
      (let '(r, a', tr) := circuit lock (S t) sdp a rest flags s1 in
       (r, a', (rgd, flags, error) :: tr))).
  { intros a s1. destruct rest as [|next rest'].
    - simpl in Hch. rewrite Hch. destruct (decide (begin = begin)); [|congruence].
      simpl. destruct ((2 <=? loops + 1) || (s1 =? 0)); [reflexivity|].
      rewrite Nat.sub_0_r, Nat.add_1_r. reflexivity.
    - destruct Hch as (Hnext & Hne & Hrest). rewrite Hnext.
      destruct (decide (next = begin)); [congruence|].
      rewrite (IH Hrest fuel (S t) a flags s1 loops next rest' eq_refl)
        by (simpl in Hfuel |- *; lia).
      apply after_circuit_cons. }
  destruct error as [| |e].
  - rewrite try_rgrp_fit_fits.
    destruct (rgrp_fits sdp al rgd); simpl; [reflexivity|].
    apply Hadv.
  - apply Hadv.
  - reflexivity.
Qed.

Lemma next_circular_succ (rgd : nat) :
  (S rgd < length (sd_rindex_list sdp))%nat -> rgrpd_next_circular sdp rgd = Some (S rgd).
Proof.
  intros H. unfold rgrpd_next_circular, gfs2_rgrpd_get_next.
  destruct (decide _); [reflexivity|lia].
Qed.

Lemma next_circular_wrap (rgd : nat) :
  S rgd = length (sd_rindex_list sdp) -> rgrpd_next_circular sdp rgd = Some 0%nat.
Proof.
  intros H. unfold rgrpd_next_circular, gfs2_rgrpd_get_next, gfs2_rgrpd_get_first.
  destruct (decide _); [lia|].
  destruct (sd_rindex_list sdp); [discriminate|reflexivity].
Qed.

Lemma seq_0_nonzero (b : nat) : b <> 0%nat -> seq 0 b = 0%nat :: seq 1 (b - 1).
Proof. destruct b; [congruence|]. intros _. simpl. now rewrite Nat.sub_0_r. Qed.

Hypothesis begin_valid : (begin < length (sd_rindex_list sdp))%nat.

Lemma circuit_rest_low (m : nat) :
  forall rgd : nat, (rgd + S m = begin)%nat -> circuit_rest sdp begin (seq rgd (S m)).
Proof.
  induction m as [|m IH]; intros rgd Hm.
  - simpl. rewrite next_circular_succ by lia. f_equal. lia.
  - change (seq rgd (S (S m))) with (rgd :: seq (S rgd) (S m)).
    change (seq (S rgd) (S m)) with (S rgd :: seq (S (S rgd)) m) at 1.
    cbn [circuit_rest]. rewrite next_circular_succ by lia.
    split; [reflexivity|]. split; [lia|].
    change (S rgd :: seq (S (S rgd)) m) with (seq (S rgd) (S m)).
    apply IH. lia.
Qed.

Lemma circuit_rest_high (m : nat) :
  forall rgd : nat,
    (rgd + S m = length (sd_rindex_list sdp))%nat -> (begin <= rgd)%nat ->
    circuit_rest sdp begin (seq rgd (S m) ++ seq 0 begin).
Proof.
  induction m as [|m IH]; intros rgd Hm Hb.
  - simpl seq at 1. destruct (Nat.eq_dec begin 0) as [Hz|Hnz].
    + rewrite Hz at 2. simpl. rewrite Hz. apply next_circular_wrap. lia.
    + rewrite (seq_0_nonzero begin Hnz).
      change ([rgd] ++ 0%nat :: seq 1 (begin - 1)) with (rgd :: 0%nat :: seq 1 (begin - 1)).
      cbn [circuit_rest]. rewrite next_circular_wrap by lia.
      split; [reflexivity|]. split; [lia|].
      change (circuit_rest sdp begin (0%nat :: seq 1 (begin - 1))).
      rewrite <- (seq_0_nonzero begin Hnz).
      replace begin with (S (begin - 1)) at 2 by lia.
      apply circuit_rest_low. lia.
  - change (seq rgd (S (S m))) with (rgd :: seq (S rgd) (S m)).
    change (seq (S rgd) (S m)) with (S rgd :: seq (S (S rgd)) m) at 1.
    change ((rgd :: S rgd :: seq (S (S rgd)) m) ++ seq 0 begin)
      with (rgd :: S rgd :: (seq (S (S rgd)) m ++ seq 0 begin)).
    cbn [circuit_rest]. rewrite next_circular_succ by lia.
    split; [reflexivity|]. split; [lia|].
    change (S rgd :: (seq (S (S rgd)) m ++ seq 0 begin))
      with (seq (S rgd) (S m) ++ seq 0 begin).
    apply IH; lia.
Qed.

Lemma circuit_order_rest :
  exists rest,
    circuit_order (length (sd_rindex_list sdp)) begin = begin :: rest /\
    circuit_rest sdp begin (circuit_order (length (sd_rindex_list sdp)) begin) /\
    length (circuit_order (length (sd_rindex_list sdp)) begin) = length (sd_rindex_list sdp).
Proof.
  unfold circuit_order.
  destruct (length (sd_rindex_list sdp) - begin)%nat as [|m] eqn:Hm; [lia|].
  eexists. split; [reflexivity|]. split.
  - apply circuit_rest_high; lia.
  - rewrite length_app, !length_seq. lia.
Qed.

(** The loop is the scan in two circuits. *)
Lemma forward_scan_is_two_circuits (t : nat) (al : gfs2_alloc) :
  forward_scan (2 * length (sd_rindex_list sdp)) lock t sdp al begin begin LM_FLAG_TRY 0 0 =
  two_circuit_scan lock t sdp al begin.
Proof.
  destruct circuit_order_rest as (rest & Hord & Hch & Hlen).
  rewrite (forward_scan_circuit _ Hch _ t al LM_FLAG_TRY 0 0 begin rest Hord) by lia.
  unfold two_circuit_scan.
  destruct (circuit lock t sdp al _ LM_FLAG_TRY 0) as [[[rgd|e|s] a] tr] eqn:Hc1;
    simpl; try reflexivity.
  destruct (circuit_facts _ _ _ _ _ _ _ _ _ _ Hc1) as (_ & _ & Hl1 & _).
  destruct (s =? 0); [reflexivity|].
  rewrite (forward_scan_circuit _ Hch _ _ a 0 s 1 begin rest Hord) by lia.
  rewrite Hl1, Hlen.
  destruct (circuit lock (t + _) sdp a _ 0 s) as [[[rgd|e|s2] a2] tr2] eqn:Hc2;
    simpl; reflexivity.
Qed.

End ForwardScan.

(** C1, as amended: the loop over the full list is the scan in two
    circuits: it ends within [2 * n] lock requests, by a chosen group, by
    -ENOSPC or by the error of a lock request; the requests of the first
    circuit carry the try flag and those of the second none, each circuit
    taking the groups in index order from [begin]; the result is -ENOSPC
    exactly when no request was answered by a lock on a group that fits nor
    by an error; and then either one circuit was made and no group was
    contended, or two were made and a group of the first was contended. *)
Theorem forward_scan_two_circuits (lock : glock_oracle) (t : nat) (sdp : gfs2_sbd)
    (al : gfs2_alloc) (begin : nat) :
  (begin < length (sd_rindex_list sdp))%nat ->
  exists r al' tr,
    forward_scan (2 * length (sd_rindex_list sdp)) lock t sdp al begin begin LM_FLAG_TRY 0 0
      = (r, al', tr) /\
    two_circuit_scan lock t sdp al begin = (r, al', tr) /\
    (length tr <= 2 * length (sd_rindex_list sdp))%nat /\
    ((exists rgd, r = SCAN_OUT rgd) \/ r = SCAN_ENOSPC \/ (exists e, r = SCAN_LOCK_ERROR e)) /\
    (forall i rgd fl res, tr !! i = Some (rgd, fl, res) ->
       res = lock (t + i)%nat rgd fl /\
       ((i < length (sd_rindex_list sdp))%nat /\ fl = LM_FLAG_TRY /\
          circuit_order (length (sd_rindex_list sdp)) begin !! i = Some rgd \/
        (length (sd_rindex_list sdp) <= i)%nat /\ fl = 0 /\
          circuit_order (length (sd_rindex_list sdp)) begin
            !! (i - length (sd_rindex_list sdp))%nat = Some rgd)) /\
    (r = SCAN_ENOSPC <->
       (forall rgd fl, (rgd, fl, GL_OK) ∈ tr -> rgrp_fits sdp al rgd = false) /\
       (forall rgd fl e, (rgd, fl, GL_ERROR e) ∉ tr)) /\
    (r = SCAN_ENOSPC ->
       (length tr = length (sd_rindex_list sdp) /\
        forall rgd fl, (rgd, fl, GLR_TRYFAILED) ∉ tr) \/
       (length tr = (2 * length (sd_rindex_list sdp))%nat /\
        exists rgd fl,
          (rgd, fl, GLR_TRYFAILED) ∈ take (length (sd_rindex_list sdp)) tr)).
Proof.
  intros Hbegin.
  rewrite (forward_scan_is_two_circuits lock sdp begin Hbegin).
  destruct (circuit_order_rest sdp begin Hbegin) as (rest & _ & _ & Hlen).
  unfold two_circuit_scan.
  set (n := length (sd_rindex_list sdp)) in *.
  set (order := circuit_order n begin) in *.
  destruct (circuit lock t sdp al order LM_FLAG_TRY 0) as [[r1 a1] tr1] eqn:Hc1.
  destruct (circuit_facts _ _ _ _ _ _ _ _ _ _ Hc1) as (Hl1 & Hlk1 & Hr1).
  assert (Hfirst : forall i rgd fl res, tr1 !! i = Some (rgd, fl, res) ->
            res = lock (t + i)%nat rgd fl /\
            ((i < n)%nat /\ fl = LM_FLAG_TRY /\ order !! i = Some rgd \/
             (n <= i)%nat /\ fl = 0 /\ order !! (i - n)%nat = Some rgd)).
  { intros i rgd fl res Hi. destruct (Hlk1 _ _ _ _ Hi) as (Ho & -> & ->).
    split; [reflexivity|]. left. apply lookup_lt_Some in Ho as Hlt. split; [lia|auto]. }
  destruct r1 as [rgd1|e1|s1].
  - destruct Hr1 as [Hin Hfit].
    exists (SCAN_OUT rgd1), a1, tr1. split; [reflexivity|]. split; [reflexivity|].
    split; [lia|]. split; [left; eauto|]. split; [exact Hfirst|]. split; [|discriminate].
    split; [discriminate|]. intros [Hno _]. rewrite (Hno _ _ Hin) in Hfit. discriminate.
  - destruct Hr1 as [rgd Hin].
    exists (SCAN_LOCK_ERROR e1), a1, tr1. split; [reflexivity|]. split; [reflexivity|].
    split; [lia|]. split; [right; right; eauto|]. split; [exact Hfirst|].
    split; [|discriminate].
    split; [discriminate|]. intros [_ Hno]. exfalso. eapply Hno; eauto.
  - destruct Hr1 as (Hlen1 & -> & Hs1 & Hok1 & Herr1 & Hno1 & Hsome1).
    destruct (Z.eqb_spec s1 0) as [->|Hs].
    + exists SCAN_ENOSPC, al, tr1. split; [reflexivity|]. split; [reflexivity|].
      split; [lia|]. split; [right; left; reflexivity|]. split; [exact Hfirst|].
      split; [split; [intros _; split; assumption|reflexivity]|].
      intros _. left. split; [lia|]. now apply Hno1.
    + destruct (Hsome1 ltac:(lia)) as (rgdT & flT & HinT).
      destruct (circuit lock (t + n) sdp al order 0 s1) as [[r2 a2] tr2] eqn:Hc2.
      destruct (circuit_facts _ _ _ _ _ _ _ _ _ _ Hc2) as (Hl2 & Hlk2 & Hr2).
      assert (Hboth : forall i rgd fl res, (tr1 ++ tr2) !! i = Some (rgd, fl, res) ->
                res = lock (t + i)%nat rgd fl /\
                ((i < n)%nat /\ fl = LM_FLAG_TRY /\ order !! i = Some rgd \/
                 (n <= i)%nat /\ fl = 0 /\ order !! (i - n)%nat = Some rgd)).
      { intros i rgd fl res Hi. apply lookup_app_Some in Hi as [Hi|[Hge Hi]].
        - now apply Hfirst.
        - destruct (Hlk2 _ _ _ _ Hi) as (Ho & -> & ->).
          replace (t + n + (i - length tr1))%nat with (t + i)%nat by lia.
          split; [reflexivity|]. right. split; [lia|]. split; [reflexivity|].
          now replace (i - n)%nat with (i - length tr1)%nat by lia. }
      assert (Hlen12 : (length (tr1 ++ tr2) <= 2 * n)%nat).
      { rewrite length_app. lia. }
      destruct r2 as [rgd2|e2|s2].
      * destruct Hr2 as [Hin Hfit].
        exists (SCAN_OUT rgd2), a2, (tr1 ++ tr2).
        split; [reflexivity|]. split; [reflexivity|].
        split; [exact Hlen12|]. split; [left; eauto|]. split; [exact Hboth|].
        split; [|discriminate].
        split; [discriminate|]. intros [Hno _].
        rewrite (Hno rgd2 0) in Hfit; [discriminate|]. apply elem_of_app. now right.
      * destruct Hr2 as [rgd Hin].
        exists (SCAN_LOCK_ERROR e2), a2, (tr1 ++ tr2).
        split; [reflexivity|]. split; [reflexivity|].
        split; [exact Hlen12|]. split; [right; right; eauto|]. split; [exact Hboth|].
        split; [|discriminate].
        split; [discriminate|]. intros [_ Hno]. exfalso.
        eapply (Hno rgd 0 e2). apply elem_of_app. now right.
      * destruct Hr2 as (Hlen2 & -> & _ & Hok2 & Herr2 & _ & _).
        exists SCAN_ENOSPC, al, (tr1 ++ tr2).
        split; [reflexivity|]. split; [reflexivity|].
        split; [exact Hlen12|]. split; [right; left; reflexivity|]. split; [exact Hboth|].
        split.
        -- split; [intros _|reflexivity]. split.
           ++ intros rgd fl [Hin|Hin]%elem_of_app; eauto.
           ++ intros rgd fl e [Hin|Hin]%elem_of_app; [eapply Herr1|eapply Herr2]; eauto.
        -- intros _. right. split; [rewrite length_app; lia|].
           exists rgdT, flT. rewrite take_app_length'; [exact HinT|lia].
Qed.

Lemma forward_scan_two_circuits_witness :
  exists r al' tr,
    forward_scan 4 Examples.lock_first_busy 0 Examples.sbd_two_groups (mk_alloc 1 0 None)
                 0 0 LM_FLAG_TRY 0 0 = (r, al', tr).
Proof.
  destruct (forward_scan_two_circuits Examples.lock_first_busy 0 Examples.sbd_two_groups
              (mk_alloc 1 0 None) 0) as (r & al' & tr & H & _).
  - simpl. lia.
  - exists r, al', tr. exact H.
Defined.

(** C1, counterexample: when the lock service answers the first request with
    -EIO, no circuit has found a group with space, and yet the scan returns
    -EIO, not -ENOSPC. *)
Lemma forward_scan_lock_error :
  recent_rgrp_first Examples.sbd_two_groups_fresh 0 = None /\
  forward_scan 4 Examples.lock_broken 0 Examples.sbd_two_groups_fresh (mk_alloc 1 0 None)
               0 0 LM_FLAG_TRY 0 0
    = (SCAN_LOCK_ERROR (- EIO), mk_alloc 1 0 None, [(0%nat, LM_FLAG_TRY, GL_ERROR (- EIO))]) /\
  exists sdp' ip',
    get_local_rgrp Examples.lock_broken Examples.sbd_two_groups_fresh Examples.inode_no_goal
      = Some (- EIO, sdp', ip') /\
    - EIO <> - ENOSPC.
Proof.
  split; [reflexivity|]. split; [reflexivity|].
  eexists _, _. split; [vm_compute; reflexivity|discriminate].
Qed.

End RgrpFacts.

(** * Properties of the attribute code *)

Module EattrFacts.
Import Eattr.

(** ** The size check of Set *)

(** C7, as amended: a Set request whose name is empty or longer than
    [GFS2_EA_MAX_NAME_LEN] fails with -EINVAL before the size check; a
    request with a name of valid length and a value, at a non-null address,
    longer than [GFS2_EA_MAX_DATA_LEN] fails with -ERANGE in
    [ea_check_size].  In both cases, whatever the lock service, the
    immutable flag and the operation would answer, no lock is asked for,
    and the state and the request are as before. *)
Theorem ea_set_oversized {W : Type} (k : ondisk) (sdp : gfs2_sbd) (nq_error : Z)
    (immutable : bool) (eo_set : W -> gfs2_ea_request -> option (Z * W))
    (w : W) (er : gfs2_ea_request) :
  (er_name_len er = 0 \/ GFS2_EA_MAX_NAME_LEN k < er_name_len er ->
   gfs2_ea_set k sdp nq_error immutable eo_set w er = Some (- EINVAL, w, er, [])) /\
  (forall buf : list Z,
     0 < er_name_len er <= GFS2_EA_MAX_NAME_LEN k ->
     er_data er = Some buf ->
     0 <= GFS2_EA_MAX_DATA_LEN k < er_data_len er ->
     gfs2_ea_set k sdp nq_error immutable eo_set w er = Some (- ERANGE, w, er, [])).
Proof.
  split.
  - intros Hname. unfold gfs2_ea_set.
    destruct (Z.eqb_spec (er_name_len er) 0) as [Hz|Hnz]; [reflexivity|].
    destruct (Z.ltb_spec (GFS2_EA_MAX_NAME_LEN k) (er_name_len er)); [reflexivity|lia].
  - intros buf Hname Hdata Hlen. unfold gfs2_ea_set.
    destruct (Z.eqb_spec (er_name_len er) 0); [lia|].
    destruct (Z.ltb_spec (GFS2_EA_MAX_NAME_LEN k) (er_name_len er)); [lia|]. simpl.
    assert (Hn : er_normalize er = er).
    { unfold er_normalize. rewrite Hdata.
      destruct (Z.eqb_spec (er_data_len er) 0); [lia|reflexivity]. }
    rewrite Hn. unfold ea_check_size.
    destruct (Z.ltb_spec (GFS2_EA_MAX_DATA_LEN k) (er_data_len er)); [|lia].
    reflexivity.
Qed.

Lemma ea_set_oversized_witness :
  gfs2_ea_set EattrExamples.format EattrExamples.sbd_64 0 false
              (EattrSet.gfs2_ea_set_i EattrExamples.format EattrExamples.sbd_64
                                      SetExamples.env_ok)
              (SetExamples.state_foo false)
              (EattrExamples.request_foo (Some [0]) 70000 0)
    = Some (- ERANGE, SetExamples.state_foo false,
            EattrExamples.request_foo (Some [0]) 70000 0, []) /\
  gfs2_ea_set EattrExamples.format EattrExamples.sbd_64 0 false
              (EattrSet.gfs2_ea_set_i EattrExamples.format EattrExamples.sbd_64
                                      SetExamples.env_ok)
              (SetExamples.state_foo false)
              (mk_request (replicate 300 102) 300 (Some [0]) 1 1 0)
    = Some (- EINVAL, SetExamples.state_foo false,
            mk_request (replicate 300 102) 300 (Some [0]) 1 1 0, []).
Proof.
  split.
  - apply (proj2 (ea_set_oversized _ _ _ _ _ _ _) [0]).
    + simpl; lia.
    + reflexivity.
    + simpl; lia.
  - apply (proj1 (ea_set_oversized _ _ _ _ _ _ _)).
    right. simpl; lia.
Defined.

(** C7, counterexample: a request with an empty name and a value of 70000
    bytes fails with -EINVAL, not -ERANGE: the name is checked first. *)
Lemma ea_set_oversized_empty_name :
  gfs2_ea_set EattrExamples.format EattrExamples.sbd_64 0 false
              (EattrSet.gfs2_ea_set_i EattrExamples.format EattrExamples.sbd_64
                                      SetExamples.env_ok)
              (SetExamples.state_foo false)
              (mk_request [] 0 (Some [0]) 70000 1 0)
    = Some (- EINVAL, SetExamples.state_foo false,
            mk_request [] 0 (Some [0]) 70000 1 0, []) /\
  - EINVAL <> - ERANGE.
Proof. split; [reflexivity|discriminate]. Qed.

(** ** The walk over a block *)

Lemma ea_record_ok_true (k : ondisk) (b_size ea : Z) (h : gfs2_ea_header) :
  ea_record_ok k b_size ea h = true <->
  GFS2_EA_REC_LEN h <> 0 /\ 0 <= ea /\ ea + GFS2_EA_REC_LEN h <= b_size /\
  GFS2_EATYPE_VALID k (ea_type h) = true.
Proof.
  unfold ea_record_ok.
  rewrite !andb_true_iff, negb_true_iff, Z.eqb_neq, !Z.leb_le. tauto.
Qed.

Lemma rec_len_range (h : gfs2_ea_header) : 0 <= GFS2_EA_REC_LEN h.
Proof. unfold GFS2_EA_REC_LEN, wrap32. apply Z.mod_pos_bound. lia. Qed.

Section Walk.
Context {A : Type}.
Variable k : ondisk.
Variable b_size : Z.
Variable ea_call : ea_call_t A.
Variable bn : Z.

(** The loop returns, and it has called the callback on checked records
    only. *)
Lemma ea_foreach_loop_total (fuel : nat) :
  forall (data : A) (bh : block) (ea : Z) (prev : option Z),
    (1 <= fuel)%nat ->
    b_size - ea < Z.of_nat fuel \/ GFS2_EA_REC_LEN (ea_at bh ea) = 0 ->
    exists w,
      ea_foreach_loop fuel k b_size ea_call data bn bh ea prev = Some w /\
      Forall (fun c => ea_record_ok k b_size (fst c) (snd c) = true) (w_called w) /\
      (w_consist w = true -> w_error w = - EIO /\ stopped_at k b_size w data bh ea).
Proof.
  induction fuel as [|fuel IH]; intros data bh ea prev H1 Hfuel; [lia|].
  simpl.
  destruct (ea_record_ok k b_size ea (ea_at bh ea)) eqn:Hok; simpl.
  - apply ea_record_ok_true in Hok as Hok'. destruct Hok' as (Hnz & Hea & Hend & Hty).
    pose proof (rec_len_range (ea_at bh ea)) as Hr.
    destruct Hfuel as [Hfuel|Hz]; [|congruence].
    destruct (ea_call data bn bh ea prev) as [[error data'] bh'].
    destruct (error =? 0); simpl.
    + destruct (GFS2_EA_IS_LAST k (ea_at bh' ea)) eqn:Hlast.
      * destruct (Z.eqb_spec (ea + GFS2_EA_REC_LEN (ea_at bh' ea)) b_size); simpl;
          eexists; (split; [reflexivity|]); simpl;
          (split; [repeat constructor; exact Hok|]); [discriminate|].
        intros _. split; [reflexivity|]. unfold stopped_at; simpl. left. auto.
      * pose proof (rec_len_range (ea_at bh' ea)) as Hr'.
        destruct (IH data' bh' (ea + GFS2_EA_REC_LEN (ea_at bh' ea)) (Some ea))
          as (w & Hw & Hall & Hc).
        { lia. }
        { destruct (Z.eq_dec (GFS2_EA_REC_LEN (ea_at bh' ea)) 0) as [Hz|Hnz'].
          - right. now rewrite Hz, Z.add_0_r.
          - left. lia. }
        rewrite Hw. simpl. eexists. split; [reflexivity|]. simpl.
        split; [constructor; assumption|].
        intros Hcons. destruct (Hc Hcons) as [He Hst]. split; [exact He|].
        unfold stopped_at in *. simpl.
        destruct (w_called w) as [|c cs] eqn:Hcs; simpl in *.
        -- destruct Hst as (Hbad & -> & _). right. auto.
        -- destruct (last (c :: cs)) eqn:Hl; [exact Hst|].
           apply last_None in Hl. discriminate.
    + eexists. split; [reflexivity|]. simpl.
      split; [repeat constructor; exact Hok|discriminate].
  - eexists. split; [reflexivity|]. simpl. split; [constructor|].
    intros _. split; [reflexivity|]. unfold stopped_at; simpl. auto.
Qed.

(** Wherever the loop stands, a record that fails a test ends it with -EIO
    and a consistency error, and the callback is not called. *)
Lemma ea_foreach_loop_halts (fuel : nat) (data : A) (bh : block) (ea : Z) (prev : option Z) :
  ea_record_ok k b_size ea (ea_at bh ea) = false ->
  ea_foreach_loop (S fuel) k b_size ea_call data bn bh ea prev =
    Some (mk_walk (- EIO) true data bh []).
Proof. intros H. simpl. now rewrite H. Qed.

(** A loop that returns has returned at the first record failing a test
    that its turns reach: with -EIO and a consistency error, the private
    data and the buffer as they were on reaching that record, and no other
    call of the callback than those of the turns before. *)
Lemma ea_walk_to_halts (data : A) (bh : block) (ea : Z) (prev : option Z)
    (called : list (Z * gfs2_ea_header)) (data' : A) (bh' : block) (ea' : Z)
    (prev' : option Z) :
  ea_walk_to k b_size ea_call bn data bh ea prev called data' bh' ea' prev' ->
  ea_record_ok k b_size ea' (ea_at bh' ea') = false ->
  forall (fuel : nat) (w : walk A),
    ea_foreach_loop fuel k b_size ea_call data bn bh ea prev = Some w ->
    w = mk_walk (- EIO) true data' bh' called.
Proof.
  induction 1 as [data bh ea prev|data bh ea prev data1 bh1 called data' bh' ea' prev'
                                  Hok Hcall Hlast Hwalk IH];
    intros Hbad fuel w Hloop.
  - destruct fuel as [|fuel]; [discriminate|].
    rewrite ea_foreach_loop_halts in Hloop by exact Hbad. congruence.
  - destruct fuel as [|fuel]; [discriminate|].
    cbn [ea_foreach_loop] in Hloop. rewrite Hok, Hcall in Hloop.
    cbn [negb Z.eqb] in Hloop. rewrite Hlast in Hloop.
    destruct (ea_foreach_loop fuel k b_size ea_call data1 bn bh1
                (ea + GFS2_EA_REC_LEN (ea_at bh1 ea)) (Some ea)) as [w1|] eqn:Hw1;
      [|discriminate].
    injection Hloop as <-. rewrite (IH Hbad fuel w1 Hw1). reflexivity.
Qed.

End Walk.

(** C5: a walk over one attribute block returns; every record the callback
    is called on has passed the three tests before the call: its length is
    not zero, it ends inside the block, and its type is a recognized one; a
    block of another type ends the walk with -EIO before any record.  When
    the turns of the walk, from the first record on, reach a record that
    fails one of the tests, be it the first record or a later one, the walk
    returns -EIO with a consistency error, and the private data, the buffer
    and the list of calls are those of the turns before, so the callback
    is not called on that record.  A walk that flags a consistency error
    returns -EIO and stopped at such a record, or at a last record that does
    not end with the block. *)
Theorem ea_foreach_validates {A : Type} (k : ondisk) (sdp : gfs2_sbd)
    (ea_call : ea_call_t A) (data : A) (bn : Z) (bh : block) :
  0 <= sizeof_meta_header k ->
  exists w,
    ea_foreach_i k sdp ea_call data bn bh = Some w /\
    Forall (fun c =>
              GFS2_EA_REC_LEN (snd c) <> 0 /\
              0 <= fst c /\ fst c + GFS2_EA_REC_LEN (snd c) <= sd_bsize sdp /\
              GFS2_EATYPE_VALID k (ea_type (snd c)) = true) (w_called w) /\
    (w_consist w = true ->
     w_error w = - EIO /\
     stopped_at k (sd_bsize sdp) w data bh (sizeof_meta_header k)) /\
    (mh_type bh <> GFS2_METATYPE_EA -> w = mk_walk (- EIO) false data bh []) /\
    (mh_type bh = GFS2_METATYPE_EA ->
     forall called data' bh' ea prev,
       ea_walk_to k (sd_bsize sdp) ea_call bn data bh (sizeof_meta_header k) None
                  called data' bh' ea prev ->
       GFS2_EA_REC_LEN (ea_at bh' ea) = 0 \/
       ~ (0 <= ea /\ ea + GFS2_EA_REC_LEN (ea_at bh' ea) <= sd_bsize sdp) \/
       GFS2_EATYPE_VALID k (ea_type (ea_at bh' ea)) = false ->
       w = mk_walk (- EIO) true data' bh' called).
Proof.
  intros Hmh. unfold ea_foreach_i.
  destruct (Z.eqb_spec (mh_type bh) GFS2_METATYPE_EA) as [Hty|Hty]; simpl negb; cbv iota.
  - destruct (ea_foreach_loop_total k (sd_bsize sdp) ea_call bn
                (S (Z.to_nat (sd_bsize sdp))) data bh (sizeof_meta_header k) None)
      as (w & Hw & Hall & Hc).
    { lia. }
    { left. lia. }
    exists w. split; [exact Hw|]. split.
    { eapply Forall_impl; [exact Hall|]. intros c Hc'. now apply ea_record_ok_true. }
    split; [exact Hc|]. split; [congruence|].
    intros _ called data' bh' ea prev Hwalk Hbad.
    eapply ea_walk_to_halts; [exact Hwalk| |exact Hw].
    destruct (ea_record_ok k (sd_bsize sdp) ea (ea_at bh' ea)) eqn:Hok; [|reflexivity].
    apply ea_record_ok_true in Hok as (? & ? & ? & Hv).
    destruct Hbad as [?|[?|Hf]]; [congruence|tauto|congruence].
  - eexists. split; [reflexivity|]. simpl.
    split; [constructor|]. split; [discriminate|]. split; [reflexivity|congruence].
Qed.

Lemma ea_foreach_validates_witness :
  ea_foreach_i EattrExamples.format EattrExamples.sbd_64 EattrExamples.count_calls
               0%nat 7 EattrExamples.block_second_broken
    = Some (mk_walk (- EIO) true 1%nat EattrExamples.block_second_broken
                    [(24, EattrExamples.record_short)]).
Proof.
  destruct (ea_foreach_validates EattrExamples.format EattrExamples.sbd_64
              EattrExamples.count_calls 0%nat 7 EattrExamples.block_second_broken)
    as (w & Hw & _ & _ & _ & Hbad).
  - simpl; lia.
  - rewrite Hw. f_equal.
    apply (Hbad eq_refl [(24, EattrExamples.record_short)] 1%nat
                EattrExamples.block_second_broken 40 (Some 24)).
    + apply (walk_next _ _ _ _ 0%nat EattrExamples.block_second_broken 24 None
                       1%nat EattrExamples.block_second_broken);
        [reflexivity|reflexivity|reflexivity|apply walk_here].
    + left. reflexivity.
Defined.

(** ** The sizing call of Get *)

Lemma to_int_small (z : Z) : 0 <= z < 2 ^ 31 -> to_int z = z.
Proof.
  intros H. unfold to_int. rewrite wrap32_small by lia.
  destruct (Z.ltb_spec z (2 ^ 31)); lia.
Qed.

Lemma get_unstuffed_loop_errors (sdp : gfs2_sbd) (d : disk) (ptrs : list Z) :
  forall amount data pos,
    fst (ea_get_unstuffed_loop sdp d ptrs amount data pos) = 0 \/
    fst (ea_get_unstuffed_loop sdp d ptrs amount data pos) = - EIO.
Proof.
  induction ptrs as [|bn rest IH]; intros amount data pos; simpl; [now left|].
  destruct (d bn) as [bh|]; [|now right].
  destruct (mh_type bh =? GFS2_METATYPE_ED); simpl; [apply IH|now right].
Qed.

Lemma get_copy_errors (sdp : gfs2_sbd) (d : disk) (kc : bool) (ea : gfs2_ea_header)
    (data : list Z) :
  fst (gfs2_ea_get_copy sdp d kc ea data) = 0 \/
  fst (gfs2_ea_get_copy sdp d kc ea data) = - EIO \/
  fst (gfs2_ea_get_copy sdp d kc ea data) = - ENOMEM.
Proof.
  unfold gfs2_ea_get_copy, ea_get_unstuffed.
  destruct (GFS2_EA_IS_STUFFED ea); [now left|].
  destruct kc; simpl; [|now right; right].
  destruct (get_unstuffed_loop_errors sdp d
              (take (Z.to_nat (DIV_RU (GFS2_EA_DATA_LEN ea) (sd_jbsize sdp))) (ea_dataptrs ea))
              (GFS2_EA_DATA_LEN ea) data 0) as [H|H]; rewrite H; auto.
Qed.

(** C10: for a stored attribute, one that Find locates, Get with a null or
    a zero-length buffer returns the length of the stored value and leaves
    no buffer behind; Get fails with -ERANGE only when the buffer is not
    null, its length is not zero and is below the length of the stored
    value, and then it does. *)
Theorem ea_get_sizing (k : ondisk) (sdp : gfs2_sbd) (d : disk) (kcalloc_ok : bool)
    (ip : gfs2_inode) (er : gfs2_ea_request) (el : gfs2_ea_location) (ea : gfs2_ea_header) :
  0 < er_name_len er <= GFS2_EA_MAX_NAME_LEN k ->
  di_eattr ip <> 0 ->
  gfs2_ea_find k sdp d ip er = Some (0, Some el) ->
  located d el = Some ea ->
  GFS2_EA_DATA_LEN ea < 2 ^ 31 ->
  (er_data er = None \/ er_data_len er = 0 ->
   gfs2_ea_get k 0 (gfs2_ea_get_i k sdp d kcalloc_ok) ip er =
     Some (GFS2_EA_DATA_LEN ea, set_er_data er None 0)) /\
  (forall er',
     gfs2_ea_get k 0 (gfs2_ea_get_i k sdp d kcalloc_ok) ip er = Some (- ERANGE, er') ->
     exists buf, er_data er = Some buf /\ er_data_len er <> 0 /\
                 er_data_len er < GFS2_EA_DATA_LEN ea) /\
  (forall buf,
     er_data er = Some buf -> er_data_len er <> 0 ->
     er_data_len er < GFS2_EA_DATA_LEN ea ->
     gfs2_ea_get k 0 (gfs2_ea_get_i k sdp d kcalloc_ok) ip er = Some (- ERANGE, er)).
Proof.
  intros Hname Hnz Hfind Hloc H31.
  assert (Hlen0 : 0 <= GFS2_EA_DATA_LEN ea) by (unfold GFS2_EA_DATA_LEN; apply wrap32_range).
  assert (Hget : forall er0,
            er_type er0 = er_type er -> er_name_len er0 = er_name_len er ->
            er_name er0 = er_name er ->
            gfs2_ea_get_i k sdp d kcalloc_ok ip er0 =
              (copied ←
                 (if negb (er_data_len er0 =? 0) then
                    if er_data_len er0 <? GFS2_EA_DATA_LEN ea then Some (- ERANGE, er_data er0)
                    else
                      data ← er_data er0;
                      let '(error, data') := gfs2_ea_get_copy sdp d kcalloc_ok ea data in
                      Some (error, Some data')
                  else Some (0, er_data er0));
               let '(error, data) := copied in
               Some (if error =? 0 then to_int (GFS2_EA_DATA_LEN ea) else error, data))).
  { intros er0 Ht Hn Hnm. unfold gfs2_ea_get_i.
    destruct (Z.eqb_spec (di_eattr ip) 0); [contradiction|].
    unfold gfs2_ea_find in *. rewrite Ht, Hn, Hnm, Hfind. simpl. rewrite Hloc. reflexivity. }
  assert (Hpre : (er_name_len er =? 0) || (GFS2_EA_MAX_NAME_LEN k <? er_name_len er) = false).
  { destruct (Z.eqb_spec (er_name_len er) 0); [lia|].
    destruct (Z.ltb_spec (GFS2_EA_MAX_NAME_LEN k) (er_name_len er)); [lia|reflexivity]. }
  split; [|split].
  - intros Hnull. unfold gfs2_ea_get. rewrite Hpre. simpl.
    assert (Hn : er_normalize er = set_er_data er None 0).
    { unfold er_normalize. destruct Hnull as [->| ->]; [reflexivity|].
      now destruct (er_data er). }
    rewrite Hn, Hget by reflexivity. simpl.
    now rewrite to_int_small by lia.
  - intros er' Hr. unfold gfs2_ea_get in Hr. rewrite Hpre in Hr. simpl in Hr.
    unfold er_normalize in Hr.
    destruct (er_data er) as [buf|] eqn:Hdata.
    + destruct (Z.eqb_spec (er_data_len er) 0) as [Hz|Hz].
      * rewrite Hget in Hr by reflexivity. simpl in Hr.
        rewrite to_int_small in Hr by lia. injection Hr as Hr _. unfold ERANGE in Hr. lia.
      * rewrite Hget in Hr by reflexivity.
        destruct (Z.eqb_spec (er_data_len er) 0); [contradiction|]. simpl in Hr.
        destruct (Z.ltb_spec (er_data_len er) (GFS2_EA_DATA_LEN ea)).
        -- exists buf. auto.
        -- rewrite Hdata in Hr. simpl in Hr.
           pose proof (get_copy_errors sdp d kcalloc_ok ea buf) as He.
           destruct (gfs2_ea_get_copy sdp d kcalloc_ok ea buf) as [e data'].
           simpl in He, Hr. exfalso.
           destruct He as [->|[->| ->]]; simpl in Hr.
           ++ rewrite to_int_small in Hr by lia. injection Hr as Hr _.
              unfold ERANGE in Hr. lia.
           ++ discriminate.
           ++ discriminate.
    + rewrite Hget in Hr by reflexivity. simpl in Hr.
      rewrite to_int_small in Hr by lia. injection Hr as Hr _. unfold ERANGE in Hr. lia.
  - intros buf Hdata Hz Hlt. unfold gfs2_ea_get. rewrite Hpre. simpl.
    assert (Hn : er_normalize er = er).
    { unfold er_normalize. rewrite Hdata.
      destruct (Z.eqb_spec (er_data_len er) 0); [contradiction|reflexivity]. }
    rewrite Hn, Hget by reflexivity.
    destruct (Z.eqb_spec (er_data_len er) 0); [contradiction|]. simpl.
    destruct (Z.ltb_spec (er_data_len er) (GFS2_EA_DATA_LEN ea)); [|lia]. simpl.
    f_equal. f_equal. destruct er; simpl in *. now subst.
Qed.

Lemma ea_get_sizing_witness :
  gfs2_ea_get EattrExamples.format 0
              (gfs2_ea_get_i EattrExamples.format EattrExamples.sbd_64
                             EattrExamples.disk_foo true)
              (EattrExamples.inode_foo false) (EattrExamples.request_foo None 0 0)
    = Some (3, EattrExamples.request_foo None 0 0).
Proof.
  apply (proj1 (ea_get_sizing EattrExamples.format EattrExamples.sbd_64
                  EattrExamples.disk_foo true (EattrExamples.inode_foo false)
                  (EattrExamples.request_foo None 0 0) (mk_location 7 24 None)
                  EattrExamples.record_foo ltac:(simpl; lia) ltac:(discriminate)
                  eq_refl eq_refl ltac:(reflexivity))).
  now left.
Defined.

End EattrFacts.

(** * Properties of the resource index *)

Module RgrpIndexFacts.
Import Bits Rgrp RgrpIndex.

(** ** [compute_bitstructs] *)

Lemma wrap32_sub_add (a b : Z) : wrap32 (wrap32 (a - b) + b) = wrap32 a.
Proof.
  unfold wrap32. rewrite Z.add_mod_idemp_l by lia. f_equal. lia.
Qed.

Lemma bitstruct_bytes_range (g : geometry) (ri : gfs2_rindex) (x bl : Z) :
  0 <= bl < 2 ^ 32 -> 0 <= snd (bitstruct g ri x bl) < 2 ^ 32.
Proof.
  intros Hbl. unfold bitstruct.
  repeat (destruct (_ =? _)); simpl; try assumption; apply wrap32_range.
Qed.

(** However many bytes the earlier segments took, the last one takes what
    is left: the loop ends with [bytes_left] at 0 and the last segment ends
    at [ri_bitbytes], modulo 2^32. *)
Lemma bitstructs_loop_last (g : geometry) (ri : gfs2_rindex) (n : nat) :
  forall x bl,
    (1 <= n)%nat -> x + Z.of_nat n = ri_length ri -> 0 <= x ->
    0 <= bl < 2 ^ 32 -> (x = 0 -> bl = ri_bitbytes ri) ->
    exists bits bi,
      bitstructs_loop n g ri x bl = (bits, 0) /\
      length bits = n /\
      last bits = Some bi /\
      wrap32 (bi_start bi + bi_len bi) = wrap32 (ri_bitbytes ri).
Proof.
  induction n as [|n IH]; intros x bl Hn Hx Hx0 Hbl Hfirst; [lia|].
  destruct n as [|n].
  - simpl. unfold bitstruct.
    destruct (Z.eqb_spec (ri_length ri) 1) as [H1|H1].
    + assert (x = 0) by lia. rewrite (Hfirst ltac:(assumption)) in *.
      rewrite Z.sub_diag. change (wrap32 0) with 0.
      eexists _, _. split; [reflexivity|]. split; [reflexivity|].
      split; [reflexivity|]. reflexivity.
    + destruct (Z.eqb_spec x 0) as [->|Hxn]; [lia|].
      destruct (Z.eqb_spec (x + 1) (ri_length ri)) as [_|]; [|lia].
      rewrite Z.sub_diag. change (wrap32 0) with 0.
      eexists _, _. split; [reflexivity|]. split; [reflexivity|].
      split; [reflexivity|]. simpl. apply wrap32_sub_add.
  - pose proof (bitstruct_bytes_range g ri x bl Hbl) as Hbytes.
    change (bitstructs_loop (S (S n)) g ri x bl) with
      (let '(bi, bytes) := bitstruct g ri x bl in
       let '(rest, final) := bitstructs_loop (S n) g ri (x + 1) (wrap32 (bl - bytes)) in
       (bi :: rest, final)).
    destruct (bitstruct g ri x bl) as [bi0 bytes]. simpl in Hbytes.
    destruct (IH (x + 1) (wrap32 (bl - bytes))) as (bits & bi & Hl & Hlen & Hlast & Hsum).
    + lia.
    + lia.
    + lia.
    + apply wrap32_range.
    + lia.
    + rewrite Hl. exists (bi0 :: bits), bi.
      split; [reflexivity|]. split; [simpl; lia|]. split; [|exact Hsum].
      destruct bits as [|b bits]; [discriminate|]. exact Hlast.
Qed.

(** X1: with at least one block, the only test an index entry has to pass
    is [ri_data = 4 * ri_bitbytes] (modulo 2^32): the test of
    [bytes_left] cannot fail, and neither the block size nor the number of
    blocks is compared with the number of bitmap bytes. *)
Theorem compute_bitstructs_checks (g : geometry) (rgd : gfs2_rgrpd) :
  1 <= ri_length (rd_ri rgd) < 2 ^ 32 ->
  0 <= ri_bitbytes (rd_ri rgd) < 2 ^ 32 ->
  exists bits,
    Z.of_nat (length bits) = ri_length (rd_ri rgd) /\
    compute_bitstructs g true rgd =
      Some (if wrap32 (ri_bitbytes (rd_ri rgd) * GFS2_NBBY) =? ri_data (rd_ri rgd)
            then 0 else - EIO,
            set_rd_bits rgd bits,
            negb (wrap32 (ri_bitbytes (rd_ri rgd) * GFS2_NBBY) =? ri_data (rd_ri rgd))).
Proof.
  intros Hlen Hbb.
  destruct (bitstructs_loop_last g (rd_ri rgd) (Z.to_nat (ri_length (rd_ri rgd)))
              0 (ri_bitbytes (rd_ri rgd)))
    as (bits & bi & Hl & Hn & Hlast & Hsum); try lia.
  exists bits. split; [lia|].
  unfold compute_bitstructs. simpl. rewrite Hl. simpl.
  rewrite wrap32_small by lia.
  rewrite last_lookup in Hlast. rewrite Hn in Hlast.
  replace (Z.to_nat (ri_length (rd_ri rgd) - 1))
    with (pred (Z.to_nat (ri_length (rd_ri rgd)))) by lia.
  rewrite Hlast. simpl.
  assert (Hw : wrap32 (wrap32 (bi_start bi + bi_len bi) * GFS2_NBBY) =
               wrap32 (ri_bitbytes (rd_ri rgd) * GFS2_NBBY)).
  { rewrite Hsum. unfold wrap32. rewrite Z.mul_mod_idemp_l by lia. reflexivity. }
  rewrite Hw.
  destruct (_ =? _); reflexivity.
Qed.

Lemma compute_bitstructs_checks_witness :
  exists rgd',
    compute_bitstructs (mk_geometry 4096 128 24) true
      (mk_rgrpd (mk_rindex 17 3 20 400 100) (mk_rgrp 0 0 0) [] 0 0 0)
    = Some (0, rgd', false).
Proof.
  destruct (compute_bitstructs_checks (mk_geometry 4096 128 24)
              (mk_rgrpd (mk_rindex 17 3 20 400 100) (mk_rgrp 0 0 0) [] 0 0 0))
    as (bits & _ & H); simpl; try lia.
  eexists. exact H.
Defined.

(** A descriptor fresh from [compute_bitstructs] that lies within its
    block. *)
Lemma bitstruct_fits (g : geometry) (ri : gfs2_rindex) (x bl : Z) :
  rindex_fits g ri -> 0 <= x < ri_length ri ->
  bl = ri_bitbytes ri -
       (if x =? 0 then 0
        else sb_bsize g - sizeof_gfs2_rgrp g
             + (x - 1) * (sb_bsize g - sizeof_gfs2_meta_header g)) ->
  let '(bi, bytes) := bitstruct g ri x bl in
  bi_start bi = ri_bitbytes ri - bl /\ bi_len bi = bytes /\
  0 <= bytes <= bl /\ (x + 1 = ri_length ri -> bytes = bl) /\
  (x + 1 < ri_length ri ->
   bytes = if x =? 0 then sb_bsize g - sizeof_gfs2_rgrp g
           else sb_bsize g - sizeof_gfs2_meta_header g) /\
  bi_bh bi = [] /\ bi_clone bi = None /\
  0 <= bi_offset bi /\ bi_offset bi + bi_len bi <= sb_bsize g.
Proof.
  intros (Hlen & Hmh & Hrg & Hbb & Hfit) Hx Hbl. unfold bitstruct.
  destruct (Z.eqb_spec (ri_length ri) 1) as [H1|H1].
  - assert (x = 0) as -> by lia. simpl in Hbl. simpl. repeat split; lia.
  - destruct (Z.eqb_spec x 0) as [->|Hx0].
    + simpl in Hbl. rewrite wrap32_small by lia. simpl.
      assert (0 <= (ri_length ri - 2) * (sb_bsize g - sizeof_gfs2_meta_header g)) by nia.
      repeat split; lia.
    + assert (Hmono : (x - 1) * (sb_bsize g - sizeof_gfs2_meta_header g)
                      <= (ri_length ri - 2) * (sb_bsize g - sizeof_gfs2_meta_header g)) by nia.
      assert (0 <= (x - 1) * (sb_bsize g - sizeof_gfs2_meta_header g)) by nia.
      destruct (Z.eqb_spec (x + 1) (ri_length ri)) as [Hl|Hl]; simpl.
      * assert (x - 1 = ri_length ri - 2) as Hx1 by lia. rewrite Hx1 in *.
        rewrite wrap32_small by lia. repeat split; lia.
      * assert (Hstep : x * (sb_bsize g - sizeof_gfs2_meta_header g)
                        <= (ri_length ri - 2) * (sb_bsize g - sizeof_gfs2_meta_header g)) by nia.
        rewrite (wrap32_small (sb_bsize g - _)) by lia.
        rewrite wrap32_small by lia. repeat split; lia.
Qed.

Lemma bitstructs_loop_layout (g : geometry) (ri : gfs2_rindex) (n : nat) :
  rindex_fits g ri ->
  forall x bl,
    (1 <= n)%nat -> x + Z.of_nat n = ri_length ri -> 0 <= x ->
    bl = ri_bitbytes ri -
         (if x =? 0 then 0
          else sb_bsize g - sizeof_gfs2_rgrp g
               + (x - 1) * (sb_bsize g - sizeof_gfs2_meta_header g)) ->
    exists bits,
      bitstructs_loop n g ri x bl = (bits, 0) /\
      length bits = n /\
      segments_from (ri_bitbytes ri - bl) bits (ri_bitbytes ri) /\
      Forall (fun bi => bi_bh bi = [] /\ bi_clone bi = None /\ 0 <= bi_len bi /\
                        0 <= bi_offset bi /\ bi_offset bi + bi_len bi <= sb_bsize g) bits.
Proof.
  intros Hfits. induction n as [|n IH]; intros x bl Hn Hx Hx0 Hbl; [lia|].
  pose proof (bitstruct_fits g ri x bl Hfits ltac:(lia) Hbl) as Hb.
  change (bitstructs_loop (S n) g ri x bl) with
    (let '(bi, bytes) := bitstruct g ri x bl in
     let '(rest, final) := bitstructs_loop n g ri (x + 1) (wrap32 (bl - bytes)) in
     (bi :: rest, final)).
  destruct (bitstruct g ri x bl) as [bi bytes].
  destruct Hb as (Hs & Hl & Hby & Hlast & Hmid & Hbh & Hcl & Hoff & Hend).
  destruct n as [|n].
  - simpl. rewrite (Hlast ltac:(lia)), Z.sub_diag. change (wrap32 0) with 0.
    exists [bi]. split; [reflexivity|]. split; [reflexivity|].
    split; [simpl; split; [exact Hs|lia]|].
    constructor; [|constructor]. repeat split; try assumption; lia.
  - destruct Hfits as (Hlen & Hmh & Hrg & Hbb & Hfit).
    assert (Hblr : bl <= ri_bitbytes ri).
    { rewrite Hbl. destruct (Z.eqb_spec x 0); [lia|].
      assert (0 <= (x - 1) * (sb_bsize g - sizeof_gfs2_meta_header g)) by nia. lia. }
    rewrite wrap32_small by lia.
    destruct (IH (x + 1) (bl - bytes)) as (bits & Hloop & Hlen' & Hseg & Hall).
    + lia.
    + lia.
    + lia.
    + rewrite (Hmid ltac:(lia)), Hbl.
      destruct (Z.eqb_spec x 0) as [->|Hxn]; simpl.
      * lia.
      * destruct (Z.eqb_spec (x + 1) 0); [lia|].
        replace (x + 1 - 1) with (x - 1 + 1) by lia. lia.
    + rewrite Hloop. exists (bi :: bits).
      split; [reflexivity|]. split; [simpl; lia|]. split.
      * simpl. split; [exact Hs|].
        replace (ri_bitbytes ri - bl + bi_len bi) with (ri_bitbytes ri - (bl - bytes)) by lia.
        exact Hseg.
      * constructor; [|exact Hall]. repeat split; try assumption; lia.
Qed.

Lemma segments_from_attach (bits : list gfs2_bitmap) (bhs : list (list Z)) (start total : Z) :
  length bhs = length bits ->
  segments_from start bits total -> segments_from start (attach_buffers bits bhs) total.
Proof.
  revert bhs start. induction bits as [|bi bits IH]; intros [|bh bhs] start Hlen Hseg;
    try discriminate; simpl in *; [assumption|].
  destruct Hseg as [Hs Hrest]. split; [exact Hs|]. apply IH; [lia|exact Hrest].
Qed.

(** X2: an index entry whose bitmap bytes fill every block but the last,
    and whose data blocks number four per bitmap byte, is accepted, and the
    segments laid out for it tile the bitmap from byte 0 to [ri_bitbytes],
    each within its block; once every segment has the buffer of its block,
    the group is as the allocator expects it. *)
Theorem compute_bitstructs_layout (g : geometry) (rgd : gfs2_rgrpd) :
  rindex_fits g (rd_ri rgd) ->
  ri_data (rd_ri rgd) = ri_bitbytes (rd_ri rgd) * GFS2_NBBY ->
  ri_data (rd_ri rgd) < 2 ^ 32 ->
  exists bits,
    compute_bitstructs g true rgd = Some (0, set_rd_bits rgd bits, false) /\
    Z.of_nat (length bits) = ri_length (rd_ri rgd) /\
    segments_from 0 bits (ri_bitbytes (rd_ri rgd)) /\
    Forall (fun bi => bi_clone bi = None /\ 0 <= bi_len bi /\ 0 <= bi_offset bi /\
                      bi_offset bi + bi_len bi <= sb_bsize g) bits /\
    forall bhs,
      length bhs = length bits ->
      Forall (fun bh => Z.of_nat (length bh) = sb_bsize g) bhs ->
      rgrpd_ok (set_rd_bits rgd (attach_buffers bits bhs)).
Proof.
  intros Hfits Hdata H32.
  pose proof Hfits as (Hlen & Hmh & Hrg & Hbb & Hfit).
  unfold GFS2_NBBY in Hdata.
  destruct (bitstructs_loop_layout g (rd_ri rgd) (Z.to_nat (ri_length (rd_ri rgd))) Hfits
              0 (ri_bitbytes (rd_ri rgd)))
    as (bits & Hloop & Hn & Hseg & Hall); try lia.
  { simpl. lia. }
  rewrite Z.sub_diag in Hseg.
  destruct (bitstructs_loop_last g (rd_ri rgd) (Z.to_nat (ri_length (rd_ri rgd)))
              0 (ri_bitbytes (rd_ri rgd)))
    as (bits' & bl & Hl & _ & Hlast & Hsum); try lia.
  assert (bits' = bits) as -> by congruence.
  exists bits. split; [|split; [lia|split; [exact Hseg|split]]].
  - unfold compute_bitstructs. simpl. rewrite Hloop. simpl.
    rewrite wrap32_small by lia.
    rewrite last_lookup in Hlast. rewrite Hn in Hlast.
    replace (Z.to_nat (ri_length (rd_ri rgd) - 1))
      with (pred (Z.to_nat (ri_length (rd_ri rgd)))) by lia.
    rewrite Hlast. simpl. rewrite Hsum.
    rewrite (wrap32_small (ri_bitbytes _)) by lia.
    unfold GFS2_NBBY. rewrite wrap32_small by lia.
    destruct (Z.eqb_spec (ri_bitbytes (rd_ri rgd) * 4) (ri_data (rd_ri rgd))); [|lia].
    reflexivity.
  - eapply Forall_impl; [exact Hall|]. simpl. intros bi (?&?&?&?&?). auto.
  - intros bhs Hbl Hbs. unfold rgrpd_ok. simpl.
    split; [unfold attach_buffers; rewrite length_zip_with; lia|].
    split; [|split; [now apply segments_from_attach|split; [exact Hdata|exact H32]]].
    clear - Hall Hbl Hbs. revert bhs Hbl Hbs.
    induction Hall as [|bi bits (Hbh & Hcl & Hl & Ho & He) Hrest IH]; intros [|bh bhs] Hbl Hbs;
      try discriminate; simpl; constructor.
    + inversion Hbs; subst. unfold bitmap_buffers_ok; simpl.
      repeat split; try lia. rewrite Hcl. discriminate.
    + inversion Hbs; subst. apply IH; [simpl in Hbl; lia|assumption].
Qed.

Lemma compute_bitstructs_layout_witness :
  exists bits,
    compute_bitstructs (mk_geometry 64 16 8) true
      (mk_rgrpd (mk_rindex 17 3 20 480 120) (mk_rgrp 0 0 0) [] 0 0 0)
    = Some (0, set_rd_bits (mk_rgrpd (mk_rindex 17 3 20 480 120) (mk_rgrp 0 0 0) [] 0 0 0) bits,
            false) /\
    segments_from 0 bits 120.
Proof.
  destruct (compute_bitstructs_layout (mk_geometry 64 16 8)
              (mk_rgrpd (mk_rindex 17 3 20 480 120) (mk_rgrp 0 0 0) [] 0 0 0))
    as (bits & H & _ & Hseg & _).
  - unfold rindex_fits; simpl. lia.
  - reflexivity.
  - simpl. lia.
  - exists bits. split; assumption.
Defined.

(** ** [gfs2_blk2rgrpd] *)

Lemma recent_del_perm (l : list nat) (r : nat) : r ∈ l -> r :: recent_del l r ≡ₚ l.
Proof.
  induction l as [|x l IH]; intros Hin; [now apply not_elem_of_nil in Hin|].
  simpl. destruct (decide (x = r)) as [->|Hne]; [reflexivity|].
  apply elem_of_cons in Hin as [->|Hin]; [congruence|].
  rewrite Permutation_swap. now rewrite IH.
Qed.

Lemma find_elem_of {A} (f : A -> bool) (l : list A) (x : A) :
  find f l = Some x -> x ∈ l /\ f x = true.
Proof.
  intros H. apply find_some in H as [Hin Hf]. split; [now apply list_elem_of_In|exact Hf].
Qed.

Lemma find_None_elem_of {A} (f : A -> bool) (l : list A) (x : A) :
  find f l = None -> x ∈ l -> f x = false.
Proof. intros H Hin. eapply find_none; [exact H|now apply list_elem_of_In]. Qed.

(** X3: [gfs2_blk2rgrpd] returns a group of the list that contains the
    block and moves it to the head of the MRU list, which keeps its
    entries; a further lookup of any block of that group stops at the head
    and leaves the list as it is; when no group of the list contains the
    block the result is NULL and the list is unchanged. *)
Theorem blk2rgrpd_lookup (sdp : gfs2_sbd) (mru : list nat) (blk : Z) :
  match gfs2_blk2rgrpd sdp mru blk with
  | (Some r, mru') =>
      r ∈ mru /\ rgrp_contains_block (rd_ri (rgrpd_at sdp r)) blk = true /\
      mru' ≡ₚ mru /\ head mru' = Some r /\
      forall blk2,
        rgrp_contains_block (rd_ri (rgrpd_at sdp r)) blk2 = true ->
        gfs2_blk2rgrpd sdp mru' blk2 = (Some r, mru')
  | (None, mru') =>
      mru' = mru /\
      forall r, r ∈ mru -> rgrp_contains_block (rd_ri (rgrpd_at sdp r)) blk = false
  end.
Proof.
  unfold gfs2_blk2rgrpd.
  destruct (find _ mru) as [r|] eqn:Hf.
  - apply find_elem_of in Hf as [Hin Hc].
    split; [exact Hin|]. split; [exact Hc|]. split; [now apply recent_del_perm|].
    split; [reflexivity|].
    intros blk2 Hc2. simpl. rewrite Hc2. simpl.
    destruct (decide (r = r)); [reflexivity|congruence].
  - split; [reflexivity|]. intros r Hin. now apply (find_None_elem_of _ _ _ Hf).
Qed.

(** X4: when no block belongs to two groups, the answer of
    [gfs2_blk2rgrpd] does not depend on the order the earlier lookups left
    the MRU list in, and the lists it leaves hold the same groups. *)
Theorem blk2rgrpd_any_order (sdp : gfs2_sbd) (mru1 mru2 : list nat) (blk : Z) :
  rgrps_disjoint sdp mru1 -> mru1 ≡ₚ mru2 ->
  fst (gfs2_blk2rgrpd sdp mru1 blk) = fst (gfs2_blk2rgrpd sdp mru2 blk) /\
  snd (gfs2_blk2rgrpd sdp mru1 blk) ≡ₚ snd (gfs2_blk2rgrpd sdp mru2 blk) /\
  rgrps_disjoint sdp (snd (gfs2_blk2rgrpd sdp mru2 blk)).
Proof.
  intros Hdis Hperm.
  assert (Hdis2 : rgrps_disjoint sdp mru2).
  { intros r1 r2 b H1 H2. apply Hdis; now rewrite Hperm. }
  unfold gfs2_blk2rgrpd.
  destruct (find _ mru1) as [r1|] eqn:Hf1; destruct (find _ mru2) as [r2|] eqn:Hf2; simpl.
  - apply find_elem_of in Hf1 as [Hin1 Hc1]. apply find_elem_of in Hf2 as [Hin2 Hc2].
    assert (r1 = r2) as ->.
    { apply (Hdis r1 r2 blk); try assumption. now rewrite Hperm. }
    split; [reflexivity|]. split.
    + rewrite Hperm in Hin1. now rewrite !recent_del_perm by (assumption || now rewrite Hperm).
    + intros a b c Ha Hb. apply Hdis2; now rewrite <- (recent_del_perm mru2 r2 Hin2).
  - apply find_elem_of in Hf1 as [Hin1 Hc1].
    rewrite Hperm in Hin1. rewrite (find_None_elem_of _ _ _ Hf2 Hin1) in Hc1. discriminate.
  - apply find_elem_of in Hf2 as [Hin2 Hc2].
    rewrite <- Hperm in Hin2. rewrite (find_None_elem_of _ _ _ Hf1 Hin2) in Hc2. discriminate.
  - split; [reflexivity|]. split; [exact Hperm|exact Hdis2].
Qed.

Lemma two_groups_disjoint : rgrps_disjoint Examples.sbd_two_groups [0; 1]%nat.
Proof.
  intros r1 r2 blk H1 H2.
  assert (Hr1 : r1 = 0%nat \/ r1 = 1%nat).
  { apply elem_of_cons in H1 as [->|H1]; [now left|].
    apply elem_of_cons in H1 as [->|H1]; [now right|]. now apply not_elem_of_nil in H1. }
  assert (Hr2 : r2 = 0%nat \/ r2 = 1%nat).
  { apply elem_of_cons in H2 as [->|H2]; [now left|].
    apply elem_of_cons in H2 as [->|H2]; [now right|]. now apply not_elem_of_nil in H2. }
  unfold rgrp_contains_block.
  destruct Hr1 as [-> | ->], Hr2 as [-> | ->]; simpl; try reflexivity;
    change (wrap64 (100 + 64)) with 164; change (wrap64 (200 + 64)) with 264;
    intros Ha Hb; apply andb_true_iff in Ha as [Ha1 Ha2]; apply andb_true_iff in Hb as [Hb1 Hb2];
    apply Z.leb_le in Ha1, Hb1; apply Z.ltb_lt in Ha2, Hb2; lia.
Qed.

Lemma blk2rgrpd_any_order_witness :
  fst (gfs2_blk2rgrpd Examples.sbd_two_groups [0; 1]%nat 210) = Some 1%nat /\
  fst (gfs2_blk2rgrpd Examples.sbd_two_groups [1; 0]%nat 210) = Some 1%nat.
Proof.
  pose proof (blk2rgrpd_any_order Examples.sbd_two_groups [0; 1]%nat [1; 0]%nat 210
                two_groups_disjoint (Permutation_swap _ _ _)) as [H _].
  split; [reflexivity|]. rewrite <- H. reflexivity.
Defined.

(** ** Lists of groups *)

Lemma rlist_has_spec (rgds : list nat) (rgd : nat) :
  forall (x : nat) (l : list (option nat)),
    (forall i r, rgds !! i = Some r -> l !! (x + i)%nat = Some (Some r)) ->
    rlist_has (length rgds) x l rgd = Some (bool_decide (rgd ∈ rgds)).
Proof.
  induction rgds as [|r0 rgds IH]; intros x l Hl.
  - reflexivity.
  - pose proof (Hl 0%nat r0 eq_refl) as H0. replace (x + 0)%nat with x in H0 by lia.
    remember (bool_decide (rgd ∈ r0 :: rgds)) as b eqn:Hb.
    simpl. rewrite H0. simpl. subst b.
    destruct (decide (Some r0 = Some rgd)) as [[= ->]|Hne].
    + rewrite bool_decide_eq_true_2; [reflexivity|apply list_elem_of_here].
    + rewrite (IH (S x) l).
      * f_equal. apply bool_decide_ext. rewrite elem_of_cons.
        split; [now right|]. intros [->|]; [congruence|assumption].
      * intros i r Hi. replace (S x + i)%nat with (x + S i)%nat by lia. now apply Hl.
Qed.

Lemma rlist_ok_entries (rlist : gfs2_rgrp_list) (rgds : list nat) :
  rlist_ok rlist -> rlist_rgrps rlist = Some <$> rgds ->
  length rgds = Z.to_nat (rl_rgrps rlist) /\
  Z.of_nat (length (default [] (rl_rgd rlist))) = rl_space rlist /\
  forall i r, rgds !! i = Some r -> default [] (rl_rgd rlist) !! i = Some (Some r).
Proof.
  intros (Hn & Harr & _ & _) Hr. unfold rlist_rgrps in Hr.
  assert (Hlen : Z.of_nat (length (default [] (rl_rgd rlist))) = rl_space rlist).
  { destruct (rl_rgd rlist); simpl; [exact Harr|lia]. }
  split; [|split; [exact Hlen|]].
  - apply (f_equal length) in Hr. rewrite length_take, length_fmap in Hr. lia.
  - intros i r Hi.
    assert (Ht : take (Z.to_nat (rl_rgrps rlist)) (default [] (rl_rgd rlist)) !! i
                 = Some (Some r)).
    { rewrite Hr, list_lookup_fmap, Hi. reflexivity. }
    now apply lookup_take_Some in Ht as [Ht _].
Qed.

(** X12: [gfs2_rlist_add] on a list no holder has been allocated for does
    not crash and keeps the list well formed: the groups listed stay
    distinct and in place, at most one is appended, and the array grows by
    ten slots only when it is full.  When a group holds the block the list
    contains that group afterwards, and adding a block of a group already
    listed changes nothing; when no group holds the block the file system
    is withdrawn and the list is unchanged. *)
Theorem rlist_add_keeps (sdp : gfs2_sbd) (mru : list nat) (jiffies : Z)
    (rlist : gfs2_rgrp_list) (block : Z) :
  rlist_ok rlist -> rl_space rlist + 10 < 2 ^ 32 ->
  exists sdp' rlist',
    gfs2_rlist_add sdp mru jiffies rlist block
      = Some (sdp', snd (gfs2_blk2rgrpd sdp mru block), rlist') /\
    rlist_ok rlist' /\
    match fst (gfs2_blk2rgrpd sdp mru block) with
    | Some rgd =>
        sdp' = sdp /\
        Some rgd ∈ rlist_rgrps rlist' /\
        (if bool_decide (Some rgd ∈ rlist_rgrps rlist) then rlist' = rlist
         else rlist_rgrps rlist' = rlist_rgrps rlist ++ [Some rgd] /\
              rl_space rlist' =
                if rl_rgrps rlist =? rl_space rlist then rl_space rlist + 10
                else rl_space rlist)
    | None => sdp' = set_sd_withdrawn sdp true /\ rlist' = rlist
    end.
Proof.
  intros Hok Hspace.
  pose proof Hok as (Hn & Harr & (rgds & Hrg & Hnd) & Hghs).
  destruct (rlist_ok_entries rlist rgds Hok Hrg) as (Hlen & Hal & Hent).
  unfold gfs2_rlist_add. rewrite Hghs.
  rewrite bool_decide_eq_true_2 by reflexivity. simpl.
  destruct (gfs2_blk2rgrpd sdp mru block) as [[rgd|] mru'] eqn:Hb; simpl.
  2:{ eexists _, _. split; [reflexivity|]. split; [exact Hok|]. split; reflexivity. }
  rewrite <- Hlen.
  rewrite (rlist_has_spec rgds rgd 0 _ Hent). simpl.
  assert (Hmem : Some rgd ∈ rlist_rgrps rlist <-> rgd ∈ rgds).
  { rewrite Hrg, list_elem_of_fmap. split.
    - intros (y & [= ->] & Hy). exact Hy.
    - intros Hy. exists rgd. split; [reflexivity|exact Hy]. }
  destruct (decide (rgd ∈ rgds)) as [Hin|Hnin].
  - rewrite bool_decide_eq_true_2 by assumption.
    eexists _, _. split; [reflexivity|]. split; [exact Hok|]. split; [reflexivity|].
    split; [now apply Hmem|]. rewrite bool_decide_eq_true_2 by (now apply Hmem). reflexivity.
  - rewrite bool_decide_eq_false_2 by assumption.
    rewrite (bool_decide_eq_false_2 (Some rgd ∈ rlist_rgrps rlist)) by (now rewrite Hmem).
    set (old := default [] (rl_rgd rlist)) in *.
    assert (Hgrown : exists arr,
               (if rl_rgrps rlist =? rl_space rlist
                then
                  match rl_rgd rlist with
                  | Some old =>
                      if Z.of_nat (length old) <? rl_space rlist then None
                      else Some (wrap32 (rl_space rlist + 10),
                                 list_inserts 0 (take (Z.to_nat (rl_space rlist)) old)
                                   (replicate (Z.to_nat (wrap32 (rl_space rlist + 10))) None))
                  | None =>
                      Some (wrap32 (rl_space rlist + 10),
                            replicate (Z.to_nat (wrap32 (rl_space rlist + 10))) None)
                  end
                else
                  match rl_rgd rlist with
                  | Some old => Some (rl_space rlist, old)
                  | None => None
                  end)
               = Some (if rl_rgrps rlist =? rl_space rlist then rl_space rlist + 10
                       else rl_space rlist, arr) /\
               Z.of_nat (length arr) =
                 (if rl_rgrps rlist =? rl_space rlist then rl_space rlist + 10
                  else rl_space rlist) /\
               take (length rgds) arr = Some <$> rgds).
    { destruct (Z.eqb_spec (rl_rgrps rlist) (rl_space rlist)) as [Hfull|Hroom].
      - rewrite wrap32_small by lia.
        exists (old ++ replicate 10 None).
        assert (Hrep : replicate (Z.to_nat (rl_space rlist + 10)) (@None nat) =
                       replicate (length old) None ++ replicate 10 None).
        { rewrite <- replicate_add. f_equal. lia. }
        assert (Htk : take (length rgds) old = Some <$> rgds).
        { rewrite Hlen. exact Hrg. }
        split; [|split].
        + subst old. destruct (rl_rgd rlist) as [o|]; simpl in *.
          * destruct (Z.ltb_spec (Z.of_nat (length o)) (rl_space rlist)); [lia|].
            rewrite firstn_all2 by lia. rewrite Hrep.
            rewrite list_inserts_0_r by (now rewrite length_replicate). reflexivity.
          * rewrite Hrep. reflexivity.
        + rewrite length_app, length_replicate. lia.
        + rewrite take_app_le by lia. exact Htk.
      - exists old. unfold rlist_rgrps in Hrg. subst old.
        destruct (rl_rgd rlist) as [o|]; simpl in *; [|lia].
        split; [reflexivity|]. split; [exact Hal|]. rewrite Hlen. exact Hrg. }
    destruct Hgrown as (arr & Hg & Hla & Htk). rewrite Hg. simpl.
    destruct (Z.leb_spec (Z.of_nat (length arr)) (rl_rgrps rlist)) as [Hbad|_].
    { destruct (rl_rgrps rlist =? rl_space rlist) eqn:He; [|lia].
      apply Z.eqb_eq in He. lia. }
    assert (Hspace' : rl_rgrps rlist + 1 <= Z.of_nat (length arr)).
    { destruct (Z.eqb_spec (rl_rgrps rlist) (rl_space rlist)); lia. }
    rewrite wrap32_small by (destruct (rl_rgrps rlist =? rl_space rlist); lia).
    set (rl' := mk_rlist (rl_rgrps rlist + 1)
                  (if rl_rgrps rlist =? rl_space rlist then rl_space rlist + 10
                   else rl_space rlist)
                  (Some (<[length rgds := Some rgd]> arr)) None).
    assert (Hnew : rlist_rgrps rl' = (Some <$> rgds) ++ [Some rgd]).
    { unfold rlist_rgrps. simpl.
      replace (Z.to_nat (rl_rgrps rlist + 1)) with (S (length rgds)) by lia.
      rewrite (take_S_r _ _ (Some rgd)) by (apply list_lookup_insert_eq; lia).
      rewrite take_insert_ge by lia. now rewrite Htk. }
    exists sdp, rl'. split; [reflexivity|]. split; [|split; [reflexivity|split]].
    + unfold rlist_ok. split; [simpl; lia|]. split; [simpl; now rewrite length_insert|].
      split; [|reflexivity].
      exists (rgds ++ [rgd]). split.
      * rewrite Hnew, fmap_app. reflexivity.
      * apply NoDup_app. split; [exact Hnd|]. split; [|apply NoDup_singleton].
        intros y Hy Hy'. apply list_elem_of_singleton in Hy'. now subst y.
    + rewrite Hnew. apply elem_of_app. right. now apply list_elem_of_singleton.
    + split; [|reflexivity]. rewrite Hnew, Hrg. reflexivity.
Qed.

Lemma rlist_add_keeps_witness :
  exists sdp' rlist',
    gfs2_rlist_add Examples.sbd_two_groups [0; 1]%nat 0 (mk_rlist 0 0 None None) 210
      = Some (sdp', [1; 0]%nat, rlist') /\
    rlist_rgrps rlist' = [Some 1%nat].
Proof.
  destruct (rlist_add_keeps Examples.sbd_two_groups [0; 1]%nat 0 (mk_rlist 0 0 None None) 210)
    as (sdp' & rlist' & H & _ & _ & _ & Hl).
  - unfold rlist_ok. simpl. split; [lia|]. split; [reflexivity|]. split; [|reflexivity].
    exists []. split; [reflexivity|constructor].
  - simpl. lia.
  - exists sdp', rlist'. split; [exact H|]. exact (proj1 Hl).
Defined.

End RgrpIndexFacts.

(** * Properties of the freeing of blocks *)

Module RgrpFreeFacts.
Import Bits Rgrp RgrpIndex RgrpFree RgrpFacts RgrpIndexFacts.

(** ** Cells and bytes *)

Lemma land_3_range (x : Z) : 0 <= Z.land x 3 <= 3.
Proof.
  split; [apply Z.land_nonneg; lia|].
  assert (H : Z.land x 3 = x mod 2 ^ 2) by (change 3 with (Z.ones 2); apply Z.land_ones; lia).
  rewrite H. pose proof (Z.mod_pos_bound x (2 ^ 2)). lia.
Qed.

Lemma testbit_range (b : list Z) (off len c : Z) : 0 <= gfs2_testbit b off len c <= 3.
Proof. unfold gfs2_testbit, GFS2_BIT_MASK. apply land_3_range. Qed.

Lemma testbit_byte (b1 b2 : list Z) (off len c : Z) :
  byte_at b1 (off + c / 4) = byte_at b2 (off + c / 4) ->
  gfs2_testbit b1 off len c = gfs2_testbit b2 off len c.
Proof. intros H. unfold gfs2_testbit, GFS2_NBBY. now rewrite H. Qed.

Lemma byte_at_insert_ne (b : list Z) (i : nat) (j v : Z) :
  Z.to_nat j <> i \/ j < 0 -> byte_at (<[i := v]> b) j = byte_at b j.
Proof.
  intros H. unfold byte_at. destruct (Z.ltb_spec j 0); [reflexivity|].
  rewrite list_lookup_insert_ne; [reflexivity|]. destruct H; [congruence|lia].
Qed.

(** Writing a cell of a byte leaves the other cells of the byte alone. *)
Lemma cell_write_other (b bit bit' s : Z) :
  0 <= bit -> 0 <= bit' -> bit + 2 <= bit' \/ bit' + 2 <= bit -> 0 <= s <= 3 ->
  Z.land (Z.shiftr (Z.lor (Z.lxor b (Z.shiftl (Z.land (Z.shiftr b bit) 3) bit))
                          (Z.shiftl s bit)) bit') 3
  = Z.land (Z.shiftr b bit') 3.
Proof.
  intros Hbit Hbit' Hfar Hs. apply Z.bits_inj'. intros i Hi.
  rewrite !Z.land_spec, !Z.shiftr_spec, Z.lor_spec, Z.lxor_spec by lia.
  rewrite mask_bits by lia.
  destruct (Z.ltb_spec i 2); [|now rewrite !andb_false_r].
  rewrite !andb_true_r.
  assert (Hcell : forall t, 0 <= t <= 3 -> Z.testbit (Z.shiftl t bit) (i + bit') = false).
  { intros t Ht. rewrite Z.shiftl_spec by lia.
    destruct (Z.lt_ge_cases (i + bit' - bit) 0); [now apply Z.testbit_neg_r|].
    apply small_state_bits; lia. }
  rewrite (Hcell s Hs), (Hcell _ (land_3_range _)).
  now rewrite xorb_false_r, orb_false_r.
Qed.

Lemma testbit_setbit_other (buffer : list Z) (off buflen blk c s : Z) :
  0 <= off -> 0 <= blk -> 0 <= c -> c <> blk -> 0 <= s <= 3 ->
  gfs2_testbit (gfs2_setbit buffer off buflen blk s) off buflen c
  = gfs2_testbit buffer off buflen c.
Proof.
  intros Hoff Hblk Hc Hne Hs. unfold gfs2_testbit, gfs2_setbit.
  unfold GFS2_NBBY, GFS2_BIT_SIZE, GFS2_BIT_MASK.
  assert (0 <= blk / 4) by (apply Z.div_pos; lia).
  assert (0 <= c / 4) by (apply Z.div_pos; lia).
  assert (0 <= blk mod 4 < 4) by (apply Z.mod_pos_bound; lia).
  assert (0 <= c mod 4 < 4) by (apply Z.mod_pos_bound; lia).
  destruct (Z.eq_dec (c / 4) (blk / 4)) as [Hsame|Hdiff].
  - rewrite Hsame.
    destruct (Z.lt_ge_cases (off + blk / 4) (Z.of_nat (length buffer))) as [Hin|Hout].
    + rewrite byte_at_insert by lia.
      apply cell_write_other; try lia.
      assert (c mod 4 <> blk mod 4).
      { intros Hm. apply Hne.
        rewrite (Z.div_mod c 4), (Z.div_mod blk 4) by lia. lia. }
      lia.
    + rewrite list_insert_ge by lia. reflexivity.
  - rewrite byte_at_insert_ne; [reflexivity|]. left. lia.
Qed.

(** ** The layout of a group *)

Lemma find_goal_buf_past (pre suf : list gfs2_bitmap) (start total goal : Z) :
  Forall bitmap_buffers_ok suf -> segments_from start suf total ->
  0 <= start -> total * 4 < 2 ^ 32 -> total * 4 <= goal ->
  find_goal_buf (length suf) (Z.of_nat (length pre)) (pre ++ suf) goal
  = Z.of_nat (length pre + length suf).
Proof.
  revert pre start. induction suf as [|bi rest IH]; intros pre start Hok Hseg Hst Htot Hgoal.
  - simpl. f_equal. lia.
  - destruct Hseg as [Hbs Hrest]. inversion Hok as [|? ? (_ & Hlen & _) Hok']; subst.
    pose proof (segments_from_le _ _ _ Hok' Hrest) as Hle.
    simpl. unfold bits_at. rewrite Nat2Z.id.
    rewrite list_lookup_middle by reflexivity. simpl. unfold GFS2_NBBY.
    rewrite (wrap32_small (bi_start bi + bi_len bi)) by lia.
    rewrite wrap32_small by lia.
    destruct (Z.ltb_spec goal ((bi_start bi + bi_len bi) * 4)); [lia|].
    specialize (IH (pre ++ [bi]) (bi_start bi + bi_len bi) Hok' Hrest ltac:(lia) Htot Hgoal).
    rewrite length_app in IH. simpl in IH.
    replace (Z.of_nat (length pre + 1)) with (Z.of_nat (length pre) + 1) in IH by lia.
    rewrite <- app_assoc in IH. simpl in IH. rewrite IH. f_equal. lia.
Qed.

(** The segment of a block of the group, as the first loop of
    [rgblk_search], [rgblk_free] and [gfs2_get_block_type] finds it. *)
Lemma segment_found (rgd : gfs2_rgrpd) (c : Z) :
  rgrpd_ok rgd -> 0 <= c < ri_data (rd_ri rgd) ->
  exists (j : nat) (bi : gfs2_bitmap),
    find_goal_buf (Z.to_nat (ri_length (rd_ri rgd))) 0 (rd_bits rgd) c = Z.of_nat j /\
    rd_bits rgd !! j = Some bi /\
    Z.of_nat j < ri_length (rd_ri rgd) /\
    bi_start bi * 4 <= c < (bi_start bi + bi_len bi) * 4 /\
    wrap32 (c - wrap32 (bi_start bi * GFS2_NBBY)) = c - bi_start bi * 4 /\
    bitmap_buffers_ok bi.
Proof.
  intros (Hlen & Hok & Hseg & Hdata & H32) Hc. unfold GFS2_NBBY in *.
  destruct (find_goal_buf_spec [] (rd_bits rgd) 0 (ri_bitbytes (rd_ri rgd)) c Hok Hseg)
    as (j & bi & Hfind & Hj & Hr); try lia.
  simpl in Hfind, Hj. change (Z.of_nat 0) with 0 in Hfind.
  pose proof (lookup_lt_Some _ _ _ Hj) as Hjlt.
  pose proof (segments_from_lookup _ _ _ _ _ Hok Hseg Hj) as (Hs & He & Hl).
  exists j, bi. replace (Z.to_nat (ri_length (rd_ri rgd))) with (length (rd_bits rgd)) by lia.
  split; [exact Hfind|]. split; [exact Hj|]. split; [lia|]. split; [exact Hr|].
  split; [|exact (proj1 (Forall_lookup _ _) Hok _ _ Hj)].
  rewrite (wrap32_small (bi_start bi * 4)) by lia. apply wrap32_small. lia.
Qed.

Lemma cell_in_segment (pick : gfs2_bitmap -> option (list Z)) (rgd : gfs2_rgrpd)
    (j : nat) (bi : gfs2_bitmap) (c : Z) :
  rgrpd_ok rgd -> rd_bits rgd !! j = Some bi ->
  bi_start bi * 4 <= c < (bi_start bi + bi_len bi) * 4 ->
  cell_in pick rgd c =
    (fun b => gfs2_testbit b (bi_offset bi) (bi_len bi) (c - bi_start bi * 4)) <$> pick bi.
Proof.
  intros (Hlen & Hok & Hseg & Hdata & H32) Hj Hc. unfold cell_in.
  destruct (segment_of_lookup _ _ _ j bi c Hok Hseg Hj Hc) as (bi' & Hs & Hj').
  rewrite Hs. assert (bi' = bi) as -> by congruence.
  destruct (pick bi); reflexivity.
Qed.

(** Replacing a segment by one of the same layout and buffer sizes keeps
    the group well formed. *)
Lemma rgrpd_ok_insert (rgd : gfs2_rgrpd) (j : nat) (bi bi' : gfs2_bitmap) :
  rgrpd_ok rgd -> rd_bits rgd !! j = Some bi ->
  bi_offset bi' = bi_offset bi -> bi_start bi' = bi_start bi -> bi_len bi' = bi_len bi ->
  length (bi_bh bi') = length (bi_bh bi) ->
  (forall c, bi_clone bi' = Some c -> length c = length (bi_bh bi)) ->
  rgrpd_ok (set_rd_bits rgd (<[j := bi']> (rd_bits rgd))).
Proof.
  intros (Hlen & Hok & Hseg & Hdata & H32) Hj Ho Hs Hl Hbh Hcl.
  pose proof (proj1 (Forall_lookup _ _) Hok _ _ Hj) as (Hoff & Hlen0 & Hsz & _).
  unfold rgrpd_ok. simpl. rewrite length_insert.
  split; [exact Hlen|]. split; [|split; [|split; assumption]].
  - apply Forall_insert; [exact Hok|].
    unfold bitmap_buffers_ok. rewrite Ho, Hl, Hbh.
    split; [assumption|]. split; [assumption|]. split; [assumption|].
    intros c Hc. now apply Hcl.
  - eapply segments_from_insert; eauto.
Qed.

(** ** [gfs2_get_block_type] *)

Lemma get_block_type_live (rgd : gfs2_rgrpd) (block : Z) :
  rgrpd_ok rgd ->
  wrap32 (block - ri_data0 (rd_ri rgd)) < ri_data (rd_ri rgd) ->
  gfs2_get_block_type rgd block = live_cell rgd (wrap32 (block - ri_data0 (rd_ri rgd))) /\
  is_Some (live_cell rgd (wrap32 (block - ri_data0 (rd_ri rgd)))).
Proof.
  intros Hrgd Hc. pose proof (wrap32_range (block - ri_data0 (rd_ri rgd))) as Hc0.
  set (c := wrap32 (block - ri_data0 (rd_ri rgd))) in *.
  destruct (segment_found rgd c Hrgd ltac:(lia)) as (j & bi & Hfind & Hj & Hjl & Hr & Hw & _).
  unfold gfs2_get_block_type. fold c. rewrite Hfind.
  destruct (Z.ltb_spec (Z.of_nat j) (ri_length (rd_ri rgd))); [|lia]. simpl.
  assert (Hat : bits_at (rd_bits rgd) (Z.of_nat j) = bi).
  { unfold bits_at. now rewrite Nat2Z.id, Hj. }
  rewrite Hat, Hw.
  unfold live_cell. rewrite (cell_in_segment _ rgd j bi c Hrgd Hj Hr). simpl.
  split; [reflexivity|eauto].
Qed.

(** X5: [gfs2_get_block_type] reads the cell of the block in the live
    buffer of its segment when the block, taken relative to the first data
    block modulo 2^32, lies within the group, and otherwise fails its hard
    assertion; it does not test that the block belongs to the group
    otherwise. *)
Theorem get_block_type_cell (rgd : gfs2_rgrpd) (block : Z) :
  rgrpd_ok rgd ->
  let c := wrap32 (block - ri_data0 (rd_ri rgd)) in
  (c < ri_data (rd_ri rgd) ->
   exists s, gfs2_get_block_type rgd block = Some s /\ live_cell rgd c = Some s /\
             0 <= s <= 3) /\
  (ri_data (rd_ri rgd) <= c -> gfs2_get_block_type rgd block = None).
Proof.
  intros Hrgd c. pose proof (wrap32_range (block - ri_data0 (rd_ri rgd))) as Hc0.
  fold c in Hc0. split; intros Hc.
  - destruct (get_block_type_live rgd block Hrgd Hc) as [Heq [s Hs]]. fold c in Heq, Hs.
    exists s. split; [congruence|]. split; [exact Hs|].
    unfold live_cell, cell_in in Hs.
    destruct (segment_of _ _); [|discriminate]. injection Hs as <-. apply testbit_range.
  - destruct Hrgd as (Hlen & Hok & Hseg & Hdata & H32). unfold GFS2_NBBY in Hdata.
    unfold gfs2_get_block_type. fold c.
    pose proof (find_goal_buf_past [] (rd_bits rgd) 0 (ri_bitbytes (rd_ri rgd)) c Hok Hseg)
      as Hpast.
    simpl in Hpast. change (Z.of_nat 0) with 0 in Hpast.
    replace (Z.to_nat (ri_length (rd_ri rgd))) with (length (rd_bits rgd)) by lia.
    rewrite Hpast by lia.
    destruct (Z.ltb_spec (Z.of_nat (length (rd_bits rgd))) (ri_length (rd_ri rgd))); [lia|].
    reflexivity.
Qed.

Lemma rgd_all_free_ok : rgrpd_ok Examples.rgd_all_free.
Proof.
  repeat split; simpl; try lia.
  repeat constructor; simpl; try lia. discriminate.
Qed.

Lemma get_block_type_cell_witness :
  gfs2_get_block_type Examples.rgd_all_free 164 = None.
Proof.
  apply (proj2 (get_block_type_cell Examples.rgd_all_free 164 rgd_all_free_ok)).
  vm_compute. discriminate.
Defined.

(** ** [rgblk_free] *)

(** One round of the loop: the cell of the block is written in the live
    buffer; what a search reads is the same as before, in the clone that was
    there or in the one just taken from the live buffer. *)
Lemma rgblk_free_one_spec (kmalloc : Z -> list Z) (rgd : gfs2_rgrpd) (c new : Z) :
  (forall n, length (kmalloc n) = Z.to_nat n) ->
  rgrpd_ok rgd -> 0 <= c < ri_data (rd_ri rgd) -> 0 <= new <= 3 ->
  exists rgd',
    rgblk_free_one kmalloc rgd c new = Some rgd' /\
    rgrpd_ok rgd' /\
    rd_ri rgd' = rd_ri rgd /\ rd_rg rgd' = rd_rg rgd /\
    rd_free_clone rgd' = rd_free_clone rgd /\
    live_cell rgd' c = Some new /\
    (forall c', 0 <= c' < ri_data (rd_ri rgd) -> c' <> c ->
                live_cell rgd' c' = live_cell rgd c') /\
    (forall c', 0 <= c' < ri_data (rd_ri rgd) -> search_cell rgd' c' = search_cell rgd c').
Proof.
  intros Hk Hrgd Hc Hnew.
  destruct (segment_found rgd c Hrgd Hc) as (j & bi & Hfind & Hj & Hjl & Hr & Hw & Hbi).
  destruct Hbi as (Hoff & Hlen0 & Hsz & Hcl).
  assert (Hat : bits_at (rd_bits rgd) (Z.of_nat j) = bi).
  { unfold bits_at. now rewrite Nat2Z.id, Hj. }
  unfold rgblk_free_one. rewrite Hfind.
  destruct (Z.ltb_spec (Z.of_nat j) (ri_length (rd_ri rgd))); [|lia]. simpl negb. cbv iota.
  rewrite Hat, Hw, Nat2Z.id.
  set (bi1 := match bi_clone bi with
              | Some _ => bi
              | None => set_bi_clone bi _
              end).
  assert (Hbh1 : bi_bh bi1 = bi_bh bi) by (subst bi1; destruct (bi_clone bi); reflexivity).
  assert (Ho1 : bi_offset bi1 = bi_offset bi) by (subst bi1; destruct (bi_clone bi); reflexivity).
  assert (Hs1 : bi_start bi1 = bi_start bi) by (subst bi1; destruct (bi_clone bi); reflexivity).
  assert (Hl1 : bi_len bi1 = bi_len bi) by (subst bi1; destruct (bi_clone bi); reflexivity).
  rewrite Hbh1, Ho1, Hl1.
  set (bi2 := set_bi_bh bi1 _).
  assert (Hcl2 : forall cl, bi_clone bi2 = Some cl -> length cl = length (bi_bh bi)).
  { intros cl. subst bi2 bi1. simpl. destruct (bi_clone bi) as [cl0|] eqn:Hc0; simpl.
    - rewrite Hc0. intros [= <-]. now apply Hcl.
    - intros [= <-]. rewrite length_memcpy, Hk. lia. }
  assert (Hok' : rgrpd_ok (set_rd_bits rgd (<[j := bi2]> (rd_bits rgd)))).
  { apply (rgrpd_ok_insert rgd j bi bi2 Hrgd Hj); try assumption.
    subst bi2. simpl. apply length_setbit. }
  assert (Hj2 : (<[j := bi2]> (rd_bits rgd)) !! j = Some bi2).
  { apply list_lookup_insert_eq. now apply lookup_lt_Some in Hj. }
  assert (Hdiv : 0 <= (c - bi_start bi * 4) / 4 < bi_len bi).
  { split; [apply Z.div_pos; lia|apply Z.div_lt_upper_bound; lia]. }
  eexists. split; [reflexivity|]. split; [exact Hok'|].
  split; [reflexivity|]. split; [reflexivity|]. split; [reflexivity|].
  split; [|split].
  - unfold live_cell.
    rewrite (cell_in_segment _ _ j bi2 c Hok' Hj2) by (simpl; rewrite Hs1, Hl1; exact Hr).
    simpl. rewrite Ho1, Hl1, Hs1. f_equal.
    apply testbit_setbit; lia.
  - intros c' Hc' Hne.
    destruct (segment_found rgd c' Hrgd Hc') as (j' & bi' & _ & Hj' & _ & Hr' & _ & _).
    unfold live_cell. rewrite (cell_in_segment _ rgd j' bi' c' Hrgd Hj' Hr'). simpl.
    destruct (decide (j' = j)) as [->|Hjne].
    + assert (bi' = bi) as -> by congruence.
      rewrite (cell_in_segment _ _ j bi2 c' Hok' Hj2) by (simpl; rewrite Hs1, Hl1; exact Hr').
      simpl. rewrite Ho1, Hl1, Hs1. f_equal.
      apply testbit_setbit_other; lia.
    + assert (Hj2' : (<[j := bi2]> (rd_bits rgd)) !! j' = Some bi').
      { rewrite list_lookup_insert_ne by congruence. exact Hj'. }
      now rewrite (cell_in_segment _ _ j' bi' c' Hok' Hj2' Hr').
  - intros c' Hc'.
    destruct (segment_found rgd c' Hrgd Hc') as (j' & bi' & _ & Hj' & _ & Hr' & _ & _).
    unfold search_cell. rewrite (cell_in_segment _ rgd j' bi' c' Hrgd Hj' Hr'). simpl.
    destruct (decide (j' = j)) as [->|Hjne].
    + assert (bi' = bi) as -> by congruence.
      rewrite (cell_in_segment _ _ j bi2 c' Hok' Hj2) by (simpl; rewrite Hs1, Hl1; exact Hr').
      simpl. rewrite Ho1, Hl1, Hs1. f_equal.
      unfold search_buffer. subst bi2 bi1. simpl.
      destruct (bi_clone bi) as [cl|] eqn:Hc0; simpl; [now rewrite Hc0|].
      apply testbit_byte.
      assert (Hd' : 0 <= (c' - bi_start bi * 4) / 4 < bi_len bi).
      { split; [apply Z.div_pos; lia|apply Z.div_lt_upper_bound; lia]. }
      apply byte_at_memcpy; try lia. rewrite Hk. lia.
    + assert (Hj2' : (<[j := bi2]> (rd_bits rgd)) !! j' = Some bi').
      { rewrite list_lookup_insert_ne by congruence. exact Hj'. }
      now rewrite (cell_in_segment _ _ j' bi' c' Hok' Hj2' Hr').
Qed.

Lemma rgblk_free_loop_spec (kmalloc : Z -> list Z) (new : Z) (n : nat) :
  (forall n, length (kmalloc n) = Z.to_nat n) -> 0 <= new <= 3 ->
  forall (rgd : gfs2_rgrpd) (c : Z),
    rgrpd_ok rgd -> 0 <= c -> c + Z.of_nat n <= ri_data (rd_ri rgd) ->
    exists rgd',
      rgblk_free_loop n kmalloc rgd c new = Some rgd' /\
      rgrpd_ok rgd' /\
      rd_ri rgd' = rd_ri rgd /\ rd_rg rgd' = rd_rg rgd /\
      rd_free_clone rgd' = rd_free_clone rgd /\
      (forall c', c <= c' < c + Z.of_nat n -> live_cell rgd' c' = Some new) /\
      (forall c', 0 <= c' < ri_data (rd_ri rgd) -> ~ c <= c' < c + Z.of_nat n ->
                  live_cell rgd' c' = live_cell rgd c') /\
      (forall c', 0 <= c' < ri_data (rd_ri rgd) -> search_cell rgd' c' = search_cell rgd c').
Proof.
  intros Hk Hnew. induction n as [|n IH]; intros rgd c Hrgd Hc Hn.
  - exists rgd. split; [reflexivity|]. split; [assumption|].
    do 3 (split; [reflexivity|]). split; [intros c' Hc'; lia|].
    split; intros; reflexivity.
  - destruct (rgblk_free_one_spec kmalloc rgd c new Hk Hrgd ltac:(lia) Hnew)
      as (rgd1 & H1 & Hok1 & Hri1 & Hrg1 & Hfc1 & Hlive1 & Hoth1 & Hsea1).
    assert (H32 : ri_data (rd_ri rgd) < 2 ^ 32) by (destruct Hrgd as (_ & _ & _ & _ & H); exact H).
    destruct (IH rgd1 (c + 1) Hok1 ltac:(lia) ltac:(rewrite Hri1; lia))
      as (rgd' & H' & Hok' & Hri' & Hrg' & Hfc' & Hlive' & Hoth' & Hsea').
    exists rgd'. simpl. rewrite H1. simpl. rewrite wrap32_small by lia.
    split; [exact H'|]. split; [exact Hok'|].
    split; [congruence|]. split; [congruence|]. split; [congruence|].
    rewrite Hri1 in Hoth', Hsea'.
    split; [|split].
    + intros c' Hc'. destruct (Z.eq_dec c' c) as [->|Hne].
      * rewrite Hoth' by lia. exact Hlive1.
      * apply Hlive'. lia.
    + intros c' Hc' Hout. rewrite Hoth' by lia. apply Hoth1; lia.
    + intros c' Hc'. rewrite Hsea' by lia. now apply Hsea1.
Qed.

(** ** [gfs2_rgrp_repolish_clones] in terms of cells *)

Lemma repolish_loop_fmap (bits : list gfs2_bitmap) :
  repolish_loop (length bits) 0 bits = repolish_bitmap <$> bits.
Proof.
  apply list_eq. intros i. rewrite repolish_loop_lookup, list_lookup_fmap.
  destruct (decide _) as [_|Hn]; [reflexivity|].
  rewrite lookup_ge_None_2 by lia. reflexivity.
Qed.

Lemma segments_from_fmap (f : gfs2_bitmap -> gfs2_bitmap) (bits : list gfs2_bitmap)
    (start total : Z) :
  (forall bi, bi_start (f bi) = bi_start bi /\ bi_len (f bi) = bi_len bi) ->
  segments_from start bits total -> segments_from start (f <$> bits) total.
Proof.
  intros Hf. revert start. induction bits as [|bi bits IH]; intros start Hseg; [exact Hseg|].
  destruct Hseg as [Hs Hrest]. destruct (Hf bi) as [Hs' Hl'].
  simpl. rewrite Hs', Hl'. split; [exact Hs|]. now apply IH.
Qed.

Lemma repolish_bitmap_ok (bi : gfs2_bitmap) :
  bitmap_buffers_ok bi -> bitmap_buffers_ok (repolish_bitmap bi).
Proof.
  intros (Ho & Hl & Hsz & Hcl). unfold repolish_bitmap.
  destruct (bi_clone bi) as [c|] eqn:Hc; [|repeat split; try assumption; now rewrite Hc].
  unfold bitmap_buffers_ok; simpl. repeat split; try assumption.
  intros c0 [= <-]. rewrite length_memcpy. now apply Hcl.
Qed.

Lemma repolish_ok (rgd : gfs2_rgrpd) :
  rgrpd_ok rgd -> rgrpd_ok (gfs2_rgrp_repolish_clones rgd).
Proof.
  intros (Hlen & Hok & Hseg & Hdata & H32).
  unfold gfs2_rgrp_repolish_clones, rgrpd_ok. simpl.
  replace (Z.to_nat (ri_length (rd_ri rgd))) with (length (rd_bits rgd)) by lia.
  rewrite repolish_loop_fmap, length_fmap.
  split; [exact Hlen|]. split; [|split; [|split; assumption]].
  - apply Forall_fmap. eapply Forall_impl; [exact Hok|]. intros bi. apply repolish_bitmap_ok.
  - apply segments_from_fmap; [|exact Hseg].
    intros bi. unfold repolish_bitmap. destruct (bi_clone bi); split; reflexivity.
Qed.

(** After [gfs2_rgrp_repolish_clones] a search reads what the live buffers
    hold. *)
Lemma repolish_search (rgd : gfs2_rgrpd) (c : Z) :
  rgrpd_ok rgd -> 0 <= c < ri_data (rd_ri rgd) ->
  search_cell (gfs2_rgrp_repolish_clones rgd) c = live_cell rgd c.
Proof.
  intros Hrgd Hc. pose proof (repolish_ok rgd Hrgd) as Hok'.
  destruct (segment_found rgd c Hrgd Hc) as (j & bi & _ & Hj & _ & Hr & _ & Hbi).
  destruct Hbi as (Hoff & Hlen0 & Hsz & Hcl).
  assert (Hj' : rd_bits (gfs2_rgrp_repolish_clones rgd) !! j = Some (repolish_bitmap bi)).
  { destruct Hrgd as (Hlen & _). unfold gfs2_rgrp_repolish_clones. simpl.
    replace (Z.to_nat (ri_length (rd_ri rgd))) with (length (rd_bits rgd)) by lia.
    rewrite repolish_loop_fmap, list_lookup_fmap, Hj. reflexivity. }
  assert (Hlay : bi_start (repolish_bitmap bi) = bi_start bi /\
                 bi_len (repolish_bitmap bi) = bi_len bi /\
                 bi_offset (repolish_bitmap bi) = bi_offset bi).
  { unfold repolish_bitmap. destruct (bi_clone bi); repeat split; reflexivity. }
  destruct Hlay as (Hs' & Hl' & Ho').
  unfold search_cell, live_cell.
  rewrite (cell_in_segment _ _ j _ c Hok' Hj') by (rewrite Hs', Hl'; exact Hr).
  rewrite (cell_in_segment _ rgd j bi c Hrgd Hj Hr). simpl.
  rewrite Hs', Hl', Ho'. f_equal.
  unfold search_buffer, repolish_bitmap.
  destruct (bi_clone bi) as [cl|] eqn:Hc0; simpl; [|now rewrite Hc0].
  apply testbit_byte.
  assert (Hd : 0 <= (c - bi_start bi * 4) / 4 < bi_len bi).
  { split; [apply Z.div_pos; lia|apply Z.div_lt_upper_bound; lia]. }
  apply byte_at_memcpy; try lia. rewrite (Hcl cl eq_refl). lia.
Qed.

(** ** [gfs2_free_data] *)

Lemma contains_block_range (ri : gfs2_rindex) (block : Z) :
  0 <= ri_data0 ri -> 0 <= ri_data ri -> ri_data0 ri + ri_data ri < 2 ^ 64 ->
  rgrp_contains_block ri block = true <->
  ri_data0 ri <= block < ri_data0 ri + ri_data ri.
Proof.
  intros H0 Hd H64. unfold rgrp_contains_block, wrap64.
  rewrite Z.mod_small by lia.
  rewrite andb_true_iff, Z.leb_le, Z.ltb_lt. reflexivity.
Qed.

Section FreeData.
Variable kmalloc : Z -> list Z.
Variable sdp : gfs2_sbd.
Variable mru : list nat.
Variable r : nat.
Variable rgd : gfs2_rgrpd.
Variables bstart blen : Z.

Hypothesis kmalloc_size : forall n, length (kmalloc n) = Z.to_nat n.
Hypothesis found : fst (gfs2_blk2rgrpd sdp mru bstart) = Some r.
Hypothesis at_r : sd_rindex_list sdp !! r = Some rgd.
Hypothesis rgd_ok : rgrpd_ok rgd.
Hypothesis data0_range : 0 <= ri_data0 (rd_ri rgd).
Hypothesis data_range : ri_data0 (rd_ri rgd) + ri_data (rd_ri rgd) < 2 ^ 64.
Hypothesis run_range : 0 <= blen /\ bstart + blen <= ri_data0 (rd_ri rgd) + ri_data (rd_ri rgd).

Lemma free_data_start : ri_data0 (rd_ri rgd) <= bstart.
Proof using found at_r.
  unfold gfs2_blk2rgrpd in found.
  destruct (find _ mru) as [r'|] eqn:Hf; [|discriminate].
  injection found as ->. apply find_some in Hf as [_ Hc].
  unfold rgrpd_at in Hc. rewrite at_r in Hc. simpl in Hc.
  unfold rgrp_contains_block in Hc. apply andb_true_iff in Hc as [Hc _].
  now apply Z.leb_le in Hc.
Qed.

Lemma free_data_result :
  exists rgd1,
    rgblk_free_loop (Z.to_nat blen) kmalloc rgd (bstart - ri_data0 (rd_ri rgd)) GFS2_BLKST_FREE
      = Some rgd1 /\
    gfs2_free_data kmalloc sdp mru bstart blen =
      Some (set_sd_rindex_list sdp
              (<[r := set_rd_rg rgd1 (mk_rgrp (rg_flags (rd_rg rgd))
                                              (wrap32 (rg_free (rd_rg rgd) + blen))
                                              (rg_dinodes (rd_rg rgd)))]>
                 (sd_rindex_list sdp)),
            snd (gfs2_blk2rgrpd sdp mru bstart)) /\
    rgrpd_ok rgd1 /\
    rd_ri rgd1 = rd_ri rgd /\ rd_rg rgd1 = rd_rg rgd /\
    rd_free_clone rgd1 = rd_free_clone rgd /\
    (forall c, bstart - ri_data0 (rd_ri rgd) <= c < bstart - ri_data0 (rd_ri rgd) + blen ->
               live_cell rgd1 c = Some GFS2_BLKST_FREE) /\
    (forall c, 0 <= c < ri_data (rd_ri rgd) ->
               ~ bstart - ri_data0 (rd_ri rgd) <= c < bstart - ri_data0 (rd_ri rgd) + blen ->
               live_cell rgd1 c = live_cell rgd c) /\
    (forall c, 0 <= c < ri_data (rd_ri rgd) -> search_cell rgd1 c = search_cell rgd c).
Proof using All.
  pose proof free_data_start as Hstart.
  assert (H32 : ri_data (rd_ri rgd) < 2 ^ 32) by (destruct rgd_ok as (_ & _ & _ & _ & H); exact H).
  destruct (rgblk_free_loop_spec kmalloc GFS2_BLKST_FREE (Z.to_nat blen) kmalloc_size
              ltac:(unfold GFS2_BLKST_FREE; lia) rgd (bstart - ri_data0 (rd_ri rgd)) rgd_ok)
    as (rgd1 & Hloop & Hok1 & Hri1 & Hrg1 & Hfc1 & Hlive & Hoth & Hsea); try lia.
  rewrite Z2Nat.id in Hlive, Hoth by lia.
  exists rgd1. split; [exact Hloop|]. split.
  - unfold gfs2_free_data, rgblk_free.
    destruct (gfs2_blk2rgrpd sdp mru bstart) as [[r'|] mru'] eqn:Hb; simpl in found;
      [|discriminate].
    injection found as ->. simpl.
    assert (Hat : rgrpd_at sdp r = rgd) by (unfold rgrpd_at; now rewrite at_r).
    rewrite Hat. rewrite wrap32_small by lia. rewrite Hloop. simpl.
    unfold rgrpd_at at 1 2 3 4. simpl.
    rewrite list_lookup_insert_eq by (now apply lookup_lt_Some in at_r). simpl.
    rewrite list_insert_insert_eq, Hrg1. reflexivity.
  - auto 10.
Qed.

End FreeData.

(** X7: [gfs2_free_data] on a run of blocks inside a group does not crash;
    it marks the blocks free in the live bitmap, where
    [gfs2_get_block_type] now reads them as free, and adds their number to
    the header's free count; but the snapshot [rd_free_clone] a
    reservation is checked against and the cells a search reads stay as
    they were, so the allocator cannot hand the blocks out yet. *)
Theorem free_data_hidden (kmalloc : Z -> list Z) (sdp : gfs2_sbd) (mru : list nat)
    (r : nat) (rgd : gfs2_rgrpd) (bstart blen : Z) :
  (forall n, length (kmalloc n) = Z.to_nat n) ->
  fst (gfs2_blk2rgrpd sdp mru bstart) = Some r ->
  sd_rindex_list sdp !! r = Some rgd ->
  rgrpd_ok rgd ->
  0 <= ri_data0 (rd_ri rgd) ->
  ri_data0 (rd_ri rgd) + ri_data (rd_ri rgd) < 2 ^ 64 ->
  0 <= blen /\ bstart + blen <= ri_data0 (rd_ri rgd) + ri_data (rd_ri rgd) ->
  exists sdp' mru' rgd',
    gfs2_free_data kmalloc sdp mru bstart blen = Some (sdp', mru') /\
    sd_rindex_list sdp' = <[r := rgd']> (sd_rindex_list sdp) /\
    sd_withdrawn sdp' = sd_withdrawn sdp /\
    rg_free (rd_rg rgd') = wrap32 (rg_free (rd_rg rgd) + blen) /\
    rg_dinodes (rd_rg rgd') = rg_dinodes (rd_rg rgd) /\
    rd_free_clone rgd' = rd_free_clone rgd /\
    (forall b, bstart <= b < bstart + blen ->
               gfs2_get_block_type rgd' b = Some GFS2_BLKST_FREE) /\
    (forall c, 0 <= c < ri_data (rd_ri rgd) -> search_cell rgd' c = search_cell rgd c).
Proof.
  intros Hk Hfound Hat Hok H0 H64 Hrun.
  pose proof (free_data_start sdp mru r rgd bstart Hfound Hat) as Hstart.
  assert (H32 : ri_data (rd_ri rgd) < 2 ^ 32) by (destruct Hok as (_ & _ & _ & _ & H); exact H).
  destruct (free_data_result kmalloc sdp mru r rgd bstart blen Hk Hfound Hat Hok H0 H64 Hrun)
    as (rgd1 & _ & Hres & Hok1 & Hri1 & Hrg1 & Hfc1 & Hlive & _ & Hsea).
  eexists _, _, _. split; [exact Hres|]. simpl.
  split; [reflexivity|]. split; [reflexivity|]. split; [reflexivity|].
  split; [reflexivity|]. split; [exact Hfc1|]. split.
  - intros b Hb.
    set (rgd' := set_rd_rg rgd1 _).
    assert (Hok' : rgrpd_ok rgd') by exact Hok1.
    assert (Hw : wrap32 (b - ri_data0 (rd_ri rgd')) = b - ri_data0 (rd_ri rgd)).
    { subst rgd'. simpl. rewrite Hri1. apply wrap32_small. lia. }
    destruct (get_block_type_live rgd' b Hok') as [Heq _].
    { rewrite Hw. subst rgd'. simpl. rewrite Hri1. lia. }
    rewrite Heq, Hw. apply Hlive. lia.
  - exact Hsea.
Qed.

Lemma rgd_two_used_ok : rgrpd_ok FreeExamples.rgd_two_used.
Proof.
  repeat split; simpl; try lia.
  repeat constructor; simpl; try lia. discriminate.
Qed.

Lemma kmalloc_170_size (n : Z) : length (FreeExamples.kmalloc_170 n) = Z.to_nat n.
Proof. apply length_replicate. Qed.

Lemma free_data_hidden_witness :
  exists sdp' mru' rgd',
    gfs2_free_data FreeExamples.kmalloc_170 FreeExamples.sbd_two_used [0%nat] 100 2
      = Some (sdp', mru') /\
    sd_rindex_list sdp' = [rgd'] /\
    search_cell rgd' 0 = Some GFS2_BLKST_USED.
Proof.
  destruct (free_data_hidden FreeExamples.kmalloc_170 FreeExamples.sbd_two_used [0%nat]
              0 FreeExamples.rgd_two_used 100 2 kmalloc_170_size)
    as (sdp' & mru' & rgd' & H & Hl & _ & _ & _ & _ & _ & Hs); try reflexivity.
  - exact rgd_two_used_ok.
  - simpl. lia.
  - simpl. lia.
  - exists sdp', mru', rgd'. split; [exact H|]. split; [exact Hl|].
    rewrite Hs by (simpl; lia). reflexivity.
Defined.

Lemma repolish_at_lookup (sdp : gfs2_sbd) (r : nat) (rgd : gfs2_rgrpd) :
  sd_rindex_list sdp !! r = Some rgd ->
  sd_rindex_list (repolish_at sdp r) !! r = Some (gfs2_rgrp_repolish_clones rgd).
Proof.
  intros H. unfold repolish_at, rgrpd_at. rewrite H. simpl.
  apply list_lookup_insert_eq. now apply lookup_lt_Some in H.
Qed.

(** X8: once [gfs2_rgrp_repolish_clones] has run on the group, the
    blocks [gfs2_free_data] freed read as free to a search and the snapshot
    [rd_free_clone] counts them. *)
Theorem free_data_repolish (kmalloc : Z -> list Z) (sdp : gfs2_sbd) (mru : list nat)
    (r : nat) (rgd : gfs2_rgrpd) (bstart blen : Z) :
  (forall n, length (kmalloc n) = Z.to_nat n) ->
  fst (gfs2_blk2rgrpd sdp mru bstart) = Some r ->
  sd_rindex_list sdp !! r = Some rgd ->
  rgrpd_ok rgd ->
  0 <= ri_data0 (rd_ri rgd) ->
  ri_data0 (rd_ri rgd) + ri_data (rd_ri rgd) < 2 ^ 64 ->
  0 <= blen /\ bstart + blen <= ri_data0 (rd_ri rgd) + ri_data (rd_ri rgd) ->
  exists sdp' mru' rgd'',
    gfs2_free_data kmalloc sdp mru bstart blen = Some (sdp', mru') /\
    sd_rindex_list (repolish_at sdp' r) !! r = Some rgd'' /\
    rd_free_clone rgd'' = wrap32 (rg_free (rd_rg rgd) + blen) /\
    (forall b, bstart <= b < bstart + blen ->
               search_cell rgd'' (b - ri_data0 (rd_ri rgd)) = Some GFS2_BLKST_FREE).
Proof.
  intros Hk Hfound Hat Hok H0 H64 Hrun.
  pose proof (free_data_start sdp mru r rgd bstart Hfound Hat) as Hstart.
  assert (H32 : ri_data (rd_ri rgd) < 2 ^ 32) by (destruct Hok as (_ & _ & _ & _ & H); exact H).
  pose proof (lookup_lt_Some _ _ _ Hat) as Hr.
  destruct (free_data_result kmalloc sdp mru r rgd bstart blen Hk Hfound Hat Hok H0 H64 Hrun)
    as (rgd1 & _ & Hres & Hok1 & Hri1 & Hrg1 & Hfc1 & Hlive & _ & Hsea).
  set (rgd' := set_rd_rg rgd1 (mk_rgrp (rg_flags (rd_rg rgd))
                                       (wrap32 (rg_free (rd_rg rgd) + blen))
                                       (rg_dinodes (rd_rg rgd)))) in *.
  assert (Hat' : sd_rindex_list (set_sd_rindex_list sdp (<[r := rgd']> (sd_rindex_list sdp)))
                   !! r = Some rgd').
  { simpl. now apply list_lookup_insert_eq. }
  eexists _, _, _. split; [exact Hres|].
  split; [exact (repolish_at_lookup _ _ _ Hat')|]. split; [reflexivity|].
  intros b Hb.
  assert (Hok' : rgrpd_ok rgd') by exact Hok1.
  rewrite (repolish_search rgd' _ Hok') by (subst rgd'; simpl; rewrite Hri1; lia).
  apply Hlive. lia.
Qed.

Lemma free_data_repolish_witness :
  exists sdp' mru' rgd'',
    gfs2_free_data FreeExamples.kmalloc_170 FreeExamples.sbd_two_used [0%nat] 100 2
      = Some (sdp', mru') /\
    sd_rindex_list (repolish_at sdp' 0) !! 0%nat = Some rgd'' /\
    rd_free_clone rgd'' = 64.
Proof.
  destruct (free_data_repolish FreeExamples.kmalloc_170 FreeExamples.sbd_two_used [0%nat]
              0 FreeExamples.rgd_two_used 100 2 kmalloc_170_size)
    as (sdp' & mru' & rgd'' & H & Hl & Hfc & _); try reflexivity.
  - exact rgd_two_used_ok.
  - simpl. lia.
  - simpl. lia.
  - exists sdp', mru', rgd''. split; [exact H|]. split; [exact Hl|exact Hfc].
Defined.

(** X9: a block freed by [gfs2_free_data] comes back from
    [gfs2_alloc_data] once the clones are repolished: with the block as the
    inode's goal, the allocation returns that very block. *)
Theorem free_then_alloc_same_block (kmalloc : Z -> list Z) (sdp : gfs2_sbd) (mru : list nat)
    (r : nat) (rgd : gfs2_rgrpd) (bstart blen : Z) (ip : gfs2_inode) (al : gfs2_alloc) :
  (forall n, length (kmalloc n) = Z.to_nat n) ->
  fst (gfs2_blk2rgrpd sdp mru bstart) = Some r ->
  sd_rindex_list sdp !! r = Some rgd ->
  rgrpd_ok rgd ->
  0 <= ri_data0 (rd_ri rgd) ->
  ri_data0 (rd_ri rgd) + ri_data (rd_ri rgd) < 2 ^ 64 ->
  0 <= blen /\ bstart + blen <= ri_data0 (rd_ri rgd) + ri_data (rd_ri rgd) ->
  i_alloc ip = Some al -> al_rgd al = Some r ->
  bstart <= di_goal_data ip < bstart + blen ->
  exists sdp' mru' sdp'' ip',
    gfs2_free_data kmalloc sdp mru bstart blen = Some (sdp', mru') /\
    gfs2_alloc_data (repolish_at sdp' r) ip = Some (di_goal_data ip, sdp'', ip').
Proof.
  intros Hk Hfound Hat Hok H0 H64 Hrun Hal Hr Hgoal.
  pose proof (free_data_start sdp mru r rgd bstart Hfound Hat) as Hstart.
  assert (H32 : ri_data (rd_ri rgd) < 2 ^ 32) by (destruct Hok as (_ & _ & _ & _ & H); exact H).
  pose proof (lookup_lt_Some _ _ _ Hat) as Hrlt.
  destruct (free_data_result kmalloc sdp mru r rgd bstart blen Hk Hfound Hat Hok H0 H64 Hrun)
    as (rgd1 & _ & Hres & Hok1 & Hri1 & Hrg1 & Hfc1 & Hlive & _ & Hsea).
  set (rgd' := set_rd_rg rgd1 (mk_rgrp (rg_flags (rd_rg rgd))
                                       (wrap32 (rg_free (rd_rg rgd) + blen))
                                       (rg_dinodes (rd_rg rgd)))) in *.
  assert (Hok' : rgrpd_ok rgd') by exact Hok1.
  pose proof (repolish_ok rgd' Hok') as Hok''.
  set (g := di_goal_data ip - ri_data0 (rd_ri rgd)).
  assert (Hsearch : search_cell (gfs2_rgrp_repolish_clones rgd') g = Some GFS2_BLKST_FREE).
  { rewrite (repolish_search rgd' _ Hok') by (subst rgd' g; simpl; rewrite Hri1; lia).
    apply Hlive. subst g. lia. }
  assert (Hri'' : rd_ri (gfs2_rgrp_repolish_clones rgd') = rd_ri rgd) by exact Hri1.
  destruct (rgblk_search_at_goal (gfs2_rgrp_repolish_clones rgd') g
              GFS2_BLKST_FREE GFS2_BLKST_USED Hok'')
    as (rgd2 & Hs & _ & Hri2 & _).
  { rewrite Hri''. subst g. lia. }
  { unfold GFS2_BLKST_USED. lia. }
  { exact Hsearch. }
  assert (Hat' : sd_rindex_list (set_sd_rindex_list sdp (<[r := rgd']> (sd_rindex_list sdp)))
                   !! r = Some rgd').
  { simpl. now apply list_lookup_insert_eq. }
  apply repolish_at_lookup in Hat'.
  assert (Hcont : rgrp_contains_block (rd_ri rgd) (di_goal_data ip) = true).
  { apply contains_block_range; lia. }
  assert (Halloc : exists sdp'' ip',
             gfs2_alloc_data
               (repolish_at (set_sd_rindex_list sdp (<[r := rgd']> (sd_rindex_list sdp))) r) ip
             = Some (di_goal_data ip, sdp'', ip')).
  { remember (repolish_at _ r) as sdp2 eqn:Hsdp2. clear Hsdp2.
    unfold gfs2_alloc_data. rewrite Hal. simpl. rewrite Hr. simpl. rewrite Hat'. simpl.
    rewrite Hri1, Hcont. fold g. rewrite (wrap32_small g) by (subst g; lia).
    rewrite Hs. simpl. rewrite Hri2, Hri''.
    unfold wrap64. rewrite Z.mod_small by (subst g; lia).
    replace (ri_data0 (rd_ri rgd) + g) with (di_goal_data ip) by (subst g; lia).
    eexists _, _. reflexivity. }
  destruct Halloc as (sdp'' & ip' & Halloc).
  eexists _, _, sdp'', ip'. split; [exact Hres|exact Halloc].
Qed.

Lemma free_then_alloc_same_block_witness :
  exists sdp' mru' sdp'' ip',
    gfs2_free_data FreeExamples.kmalloc_170 FreeExamples.sbd_two_used [0%nat] 100 2
      = Some (sdp', mru') /\
    gfs2_alloc_data (repolish_at sdp' 0) FreeExamples.inode_reserved = Some (100, sdp'', ip').
Proof.
  apply (free_then_alloc_same_block FreeExamples.kmalloc_170 FreeExamples.sbd_two_used
           [0%nat] 0 FreeExamples.rgd_two_used 100 2 FreeExamples.inode_reserved
           (mk_alloc 1 0 (Some 0%nat)) kmalloc_170_size); try reflexivity.
  - exact rgd_two_used_ok.
  - simpl. lia.
  - simpl. lia.
  - simpl. lia.
Defined.

(** ** Allocation and [gfs2_get_block_type] *)

Lemma set_rd_bits_same (rgd : gfs2_rgrpd) : set_rd_bits rgd (rd_bits rgd) = rgd.
Proof. now destruct rgd. Qed.

(** Whatever it returns, [rgblk_search] leaves the layout of the group as
    it was. *)
Lemma rgblk_search_ok (rgd rgd' : gfs2_rgrpd) (goal old new blk : Z) (w : bool) :
  rgrpd_ok rgd -> rgblk_search rgd goal old new = Some (blk, rgd', w) ->
  rgrpd_ok rgd' /\ rd_ri rgd' = rd_ri rgd /\ rd_rg rgd' = rd_rg rgd.
Proof.
  intros Hok. unfold rgblk_search.
  destruct (negb _); [discriminate|].
  destruct (rgblk_scan _ _ _ _ _ _ _) as [[x buf] found].
  intros [= _ <- _]. split; [|split; reflexivity].
  unfold bits_at.
  destruct (rd_bits rgd !! Z.to_nat buf) as [bi|] eqn:Hbi; simpl.
  - pose proof Hok as (_ & Hall & _).
    pose proof (proj1 (Forall_lookup _ _) Hall _ _ Hbi) as (_ & _ & _ & Hcl).
    apply (rgrpd_ok_insert rgd _ bi); try assumption; try reflexivity.
    + simpl. apply length_setbit.
    + simpl. intros c. destruct (bi_clone bi) as [cl|]; [|discriminate].
      intros [= <-]. rewrite length_setbit. now apply Hcl.
  - rewrite list_insert_ge by (now apply lookup_ge_None). now rewrite set_rd_bits_same.
Qed.

(** Once its second loop has found a block, [rgblk_search] leaves the
    cell of that block in the new state for the next search too. *)
Lemma rgblk_search_commit_search (rgd : gfs2_rgrpd) (goal old new : Z) (j0 : nat)
    (bi0 : gfs2_bitmap) (x' buf' blk : Z) :
  rgrpd_ok rgd -> 0 <= new <= 3 ->
  find_goal_buf (length (rd_bits rgd)) 0 (rd_bits rgd) goal = Z.of_nat j0 ->
  rd_bits rgd !! j0 = Some bi0 ->
  rgblk_scan (Z.to_nat (ri_length (rd_ri rgd) + 1)) 0 (rd_bits rgd) (ri_length (rd_ri rgd))
             (Z.of_nat j0) (wrap32 (goal - wrap32 (bi_start bi0 * 4))) old
    = (x', buf', Some blk) ->
  0 <= x' <= ri_length (rd_ri rgd) ->
  0 <= buf' < ri_length (rd_ri rgd) ->
  0 <= blk < bi_len (bits_at (rd_bits rgd) buf') * 4 ->
  exists rgd',
    rgblk_search rgd goal old new =
      Some (bi_start (bits_at (rd_bits rgd) buf') * 4 + blk, rgd', false) /\
    search_cell rgd' (bi_start (bits_at (rd_bits rgd) buf') * 4 + blk) = Some new.
Proof.
  intros Hrgd Hnew Hfind Hj0 Hscan Hx Hbuf' Hblk.
  pose proof Hrgd as (Hlen & Hok & Hseg & Hdata & H32).
  unfold GFS2_NBBY in Hdata.
  assert (Hn : Z.to_nat (ri_length (rd_ri rgd)) = length (rd_bits rgd)) by lia.
  pose proof (lookup_lt_Some _ _ _ Hj0) as Hj0lt.
  assert (Hat0 : bits_at (rd_bits rgd) (Z.of_nat j0) = bi0).
  { unfold bits_at. now rewrite Nat2Z.id, Hj0. }
  pose proof (bits_at_lookup (rd_bits rgd) buf' ltac:(lia)) as Hat.
  set (bi := bits_at (rd_bits rgd) buf') in *.
  pose proof (segments_from_lookup _ _ _ _ _ Hok Hseg Hat) as (Hs & He & Hl).
  pose proof (proj1 (Forall_lookup _ _) Hok _ _ Hat) as (Hoff & _ & Hbh & Hcl).
  assert (Hret : wrap32 (wrap32 (bi_start bi * 4) + blk) = bi_start bi * 4 + blk).
  { rewrite (wrap32_small (bi_start bi * 4)) by lia. apply wrap32_small. lia. }
  assert (Hdiv : 0 <= blk / 4 < bi_len bi).
  { split; [apply Z.div_pos; lia|apply Z.div_lt_upper_bound; lia]. }
  eexists. split.
  - unfold rgblk_search. rewrite Hn, Hfind.
    destruct (Z.ltb_spec (Z.of_nat j0) (ri_length (rd_ri rgd))); [|lia]. simpl negb. cbv iota.
    rewrite Hat0. unfold GFS2_NBBY. rewrite Hscan.
    destruct (Z.leb_spec x' (ri_length (rd_ri rgd))); [|lia]. simpl.
    fold bi. rewrite Hret. reflexivity.
  - set (bi' := set_bi_clone _ _).
    assert (Hok' : rgrpd_ok (set_rd_bits rgd (<[Z.to_nat buf' := bi']> (rd_bits rgd)))).
    { apply (rgrpd_ok_insert rgd _ bi); try assumption; try reflexivity.
      - simpl. apply length_setbit.
      - subst bi'. simpl. intros c. destruct (bi_clone bi) as [cl|]; [|discriminate].
        intros [= <-]. rewrite length_setbit. now apply Hcl. }
    assert (Hj' : (<[Z.to_nat buf' := bi']> (rd_bits rgd)) !! Z.to_nat buf' = Some bi').
    { apply list_lookup_insert_eq. lia. }
    unfold search_cell.
    rewrite (cell_in_segment _ _ _ bi' _ Hok' Hj') by (subst bi'; simpl; lia).
    subst bi'. simpl. f_equal.
    replace (bi_start bi * 4 + blk - bi_start bi * 4) with blk by lia.
    unfold search_buffer. simpl.
    destruct (bi_clone bi) as [cl|] eqn:Hc0; simpl.
    + apply testbit_setbit; try lia. rewrite (Hcl cl eq_refl). lia.
    + apply testbit_setbit; lia.
Qed.

(** With a cell in the old state somewhere in the group, [rgblk_search]
    takes a block whose cell read as the old state. *)
Lemma rgblk_search_takes (rgd : gfs2_rgrpd) (goal old new : Z) :
  rgrpd_ok rgd ->
  0 <= goal < ri_data (rd_ri rgd) ->
  0 <= new <= 3 ->
  (exists c, search_cell rgd c = Some old) ->
  exists blk rgd',
    rgblk_search rgd goal old new = Some (blk, rgd', false) /\
    0 <= blk < ri_data (rd_ri rgd) /\
    search_cell rgd blk = Some old /\
    live_cell rgd' blk = Some new /\
    rd_free_clone rgd' = rd_free_clone rgd /\
    search_cell rgd' blk = Some new.
Proof.
  intros Hrgd Hgoal Hnew [c Hc].
  pose proof Hrgd as (Hlen & Hok & Hseg & Hdata & H32).
  unfold GFS2_NBBY in Hdata.
  unfold search_cell, cell_in in Hc.
  destruct (segment_of (rd_bits rgd) c) as [bj|] eqn:Hsegc; [|discriminate].
  injection Hc as Hc. unfold GFS2_NBBY in Hc.
  apply segment_of_Some in Hsegc as [[j Hj] Hrange].
  destruct (find_goal_buf_spec [] (rd_bits rgd) 0 (ri_bitbytes (rd_ri rgd)) goal Hok Hseg)
    as (j0 & bi0 & Hfind & Hj0 & Hr0); try lia.
  simpl in Hfind, Hj0. change (Z.of_nat 0) with 0 in Hfind.
  pose proof (lookup_lt_Some _ _ _ Hj0) as Hj0lt.
  pose proof (lookup_lt_Some _ _ _ Hj) as Hjlt.
  pose proof (steps_to_bound (ri_length (rd_ri rgd)) (Z.of_nat j0) (Z.of_nat j)
                ltac:(lia) ltac:(lia)) as Hsteps.
  destruct (rgblk_scan_finds (rd_bits rgd) (ri_length (rd_ri rgd)) old j bj
              (c - bi_start bj * 4) Hlen Hj ltac:(lia) Hc
              (Z.to_nat (ri_length (rd_ri rgd) + 1)) 0 (Z.of_nat j0)
              (wrap32 (goal - wrap32 (bi_start bi0 * 4))))
    as (x' & buf' & blk & g & Hscan & Hx & Hbuf' & Hg & Hfit); try lia.
  assert (Hg0 : 0 <= g).
  { destruct Hg as [-> | ->]; [apply wrap32_range|lia]. }
  apply bitfit_sound in Hfit as [Hblk Hst]; [|exact Hg0].
  destruct (rgblk_search_commit rgd goal old new j0 bi0 x' buf' blk Hrgd Hnew Hfind Hj0 Hscan)
    as (rgd' & Hres & Hb & Hlive & _ & _ & _ & Hfc & _); try lia.
  destruct (rgblk_search_commit_search rgd goal old new j0 bi0 x' buf' blk Hrgd Hnew Hfind Hj0
              Hscan) as (rgd'' & Hres' & Hsearch); try lia.
  assert (rgd'' = rgd') as -> by congruence.
  pose proof (bits_at_lookup (rd_bits rgd) buf' ltac:(lia)) as Hat.
  eexists _, rgd'. split; [exact Hres|]. split; [exact Hb|].
  split; [|split; [exact Hlive|split; [exact Hfc|exact Hsearch]]].
  unfold search_cell. erewrite cell_in_lookup; eauto. now rewrite Hst.
Qed.

(** X6: in a group with a cell that reads as free, each of the three
    allocation routines returns a block of the group that a search read as
    free, and [gfs2_get_block_type] then reports that block as used after
    [gfs2_alloc_data] and [gfs2_alloc_meta], and as a dinode after
    [gfs2_alloc_di]. *)
Theorem alloc_block_type (sdp : gfs2_sbd) (ip : gfs2_inode) (al : gfs2_alloc)
    (r : nat) (rgd : gfs2_rgrpd) :
  i_alloc ip = Some al -> al_rgd al = Some r ->
  sd_rindex_list sdp !! r = Some rgd ->
  rgrpd_ok rgd ->
  0 <= ri_data0 (rd_ri rgd) ->
  ri_data0 (rd_ri rgd) + ri_data (rd_ri rgd) < 2 ^ 64 ->
  0 <= rd_last_alloc_data rgd < ri_data (rd_ri rgd) ->
  0 <= rd_last_alloc_meta rgd < ri_data (rd_ri rgd) ->
  (exists c, search_cell rgd c = Some GFS2_BLKST_FREE) ->
  (exists block sdp' ip',
      gfs2_alloc_data sdp ip = Some (block, sdp', ip') /\
      rgrp_contains_block (rd_ri rgd) block = true /\
      search_cell rgd (block - ri_data0 (rd_ri rgd)) = Some GFS2_BLKST_FREE /\
      gfs2_get_block_type (rgrpd_at sdp' r) block = Some GFS2_BLKST_USED) /\
  (exists block sdp' ip',
      gfs2_alloc_meta sdp ip = Some (block, sdp', ip') /\
      rgrp_contains_block (rd_ri rgd) block = true /\
      search_cell rgd (block - ri_data0 (rd_ri rgd)) = Some GFS2_BLKST_FREE /\
      gfs2_get_block_type (rgrpd_at sdp' r) block = Some GFS2_BLKST_USED) /\
  (exists block sdp' ip',
      gfs2_alloc_di sdp ip = Some (block, sdp', ip') /\
      rgrp_contains_block (rd_ri rgd) block = true /\
      search_cell rgd (block - ri_data0 (rd_ri rgd)) = Some GFS2_BLKST_FREE /\
      gfs2_get_block_type (rgrpd_at sdp' r) block = Some GFS2_BLKST_DINODE).
Proof.
  intros Hal Hr Hat Hok H0 H64 Hld Hlm Hfree.
  assert (H32 : ri_data (rd_ri rgd) < 2 ^ 32) by (destruct Hok as (_ & _ & _ & _ & H); exact H).
  pose proof (lookup_lt_Some _ _ _ Hat) as Hrlt.
  assert (Hcore : forall goal new blk rgd1 (f : gfs2_rgrpd -> gfs2_rgrpd) sdp1,
             0 <= new <= 3 ->
             rgblk_search rgd goal GFS2_BLKST_FREE new = Some (blk, rgd1, false) ->
             0 <= blk < ri_data (rd_ri rgd) ->
             search_cell rgd blk = Some GFS2_BLKST_FREE ->
             live_cell rgd1 blk = Some new ->
             rd_bits (f rgd1) = rd_bits rgd1 -> rd_ri (f rgd1) = rd_ri rgd1 ->
             sd_rindex_list sdp1 = sd_rindex_list sdp ->
             let block := wrap64 (ri_data0 (rd_ri rgd1) + blk) in
             let sdp' := set_sd_rindex_list sdp1 (<[r := f rgd1]> (sd_rindex_list sdp1)) in
             rgrp_contains_block (rd_ri rgd) block = true /\
             search_cell rgd (block - ri_data0 (rd_ri rgd)) = Some GFS2_BLKST_FREE /\
             gfs2_get_block_type (rgrpd_at sdp' r) block = Some new).
  { intros goal new blk rgd1 f sdp1 Hnew Hs Hblk Hsc Hlive Hfb Hfr Hl block sdp'.
    destruct (rgblk_search_ok rgd rgd1 _ _ _ _ _ Hok Hs) as (Hok1 & Hri1 & _).
    assert (Hblock : block = ri_data0 (rd_ri rgd) + blk).
    { subst block. rewrite Hri1. unfold wrap64. apply Z.mod_small. lia. }
    rewrite Hblock.
    split; [apply contains_block_range; lia|].
    replace (ri_data0 (rd_ri rgd) + blk - ri_data0 (rd_ri rgd)) with blk by lia.
    split; [exact Hsc|].
    assert (Hat' : rgrpd_at sdp' r = f rgd1).
    { subst sdp'. unfold rgrpd_at. simpl.
      rewrite list_lookup_insert_eq by (rewrite Hl; exact Hrlt). reflexivity. }
    rewrite Hat'.
    assert (Hokf : rgrpd_ok (f rgd1)).
    { unfold rgrpd_ok. rewrite Hfb, Hfr. exact Hok1. }
    assert (Hw : wrap32 (ri_data0 (rd_ri rgd) + blk - ri_data0 (rd_ri (f rgd1))) = blk).
    { rewrite Hfr, Hri1. replace (ri_data0 (rd_ri rgd) + blk - ri_data0 (rd_ri rgd)) with blk by lia.
      apply wrap32_small. lia. }
    destruct (get_block_type_live (f rgd1) (ri_data0 (rd_ri rgd) + blk) Hokf) as [Heq _].
    { rewrite Hw, Hfr, Hri1. lia. }
    rewrite Heq, Hw. unfold live_cell, cell_in in *. rewrite Hfb. exact Hlive. }
  assert (Hused : 0 <= GFS2_BLKST_USED <= 3) by (unfold GFS2_BLKST_USED; lia).
  assert (Hdi : 0 <= GFS2_BLKST_DINODE <= 3) by (unfold GFS2_BLKST_DINODE; lia).
  split; [|split].
  - set (goal := if rgrp_contains_block (rd_ri rgd) (di_goal_data ip)
                 then wrap32 (di_goal_data ip - ri_data0 (rd_ri rgd))
                 else rd_last_alloc_data rgd).
    assert (Hgoal : 0 <= goal < ri_data (rd_ri rgd)).
    { subst goal. destruct (rgrp_contains_block _ _) eqn:Hc; [|exact Hld].
      apply contains_block_range in Hc; try lia. rewrite wrap32_small by lia. lia. }
    destruct (rgblk_search_takes rgd goal GFS2_BLKST_FREE GFS2_BLKST_USED Hok Hgoal Hused Hfree)
      as (blk & rgd1 & Hs & Hblk & Hsc & Hlive & _ & _).
    unfold gfs2_alloc_data. rewrite Hal. simpl. rewrite Hr. simpl. rewrite Hat. simpl.
    fold goal. rewrite Hs. simpl.
    eexists _, _, _. split; [reflexivity|].
    apply (Hcore goal GFS2_BLKST_USED blk rgd1
             (fun d => set_rd_free_clone
                         (set_rd_rg (set_rd_last_alloc_data d blk)
                            (mk_rgrp (rg_flags (rd_rg d)) (wrap32 (rg_free (rd_rg d) - 1))
                                     (rg_dinodes (rd_rg d))))
                         (wrap32 (rd_free_clone d - 1)))
             (gfs2_assert_withdraw sdp (negb (rg_free (rd_rg rgd1) =? 0))));
      try assumption; try reflexivity.
    unfold gfs2_assert_withdraw. now destruct (negb _).
  - set (goal := if rgrp_contains_block (rd_ri rgd) (di_goal_meta ip)
                 then wrap32 (di_goal_meta ip - ri_data0 (rd_ri rgd))
                 else rd_last_alloc_meta rgd).
    assert (Hgoal : 0 <= goal < ri_data (rd_ri rgd)).
    { subst goal. destruct (rgrp_contains_block _ _) eqn:Hc; [|exact Hlm].
      apply contains_block_range in Hc; try lia. rewrite wrap32_small by lia. lia. }
    destruct (rgblk_search_takes rgd goal GFS2_BLKST_FREE GFS2_BLKST_USED Hok Hgoal Hused Hfree)
      as (blk & rgd1 & Hs & Hblk & Hsc & Hlive & _ & _).
    unfold gfs2_alloc_meta. rewrite Hal. simpl. rewrite Hr. simpl. rewrite Hat. simpl.
    fold goal. rewrite Hs. simpl.
    eexists _, _, _. split; [reflexivity|].
    apply (Hcore goal GFS2_BLKST_USED blk rgd1
             (fun d => set_rd_free_clone
                         (set_rd_rg (set_rd_last_alloc_meta d blk)
                            (mk_rgrp (rg_flags (rd_rg d)) (wrap32 (rg_free (rd_rg d) - 1))
                                     (rg_dinodes (rd_rg d))))
                         (wrap32 (rd_free_clone d - 1)))
             (gfs2_assert_withdraw sdp (negb (rg_free (rd_rg rgd1) =? 0))));
      try assumption; try reflexivity.
    unfold gfs2_assert_withdraw. now destruct (negb _).
  - destruct (rgblk_search_takes rgd (rd_last_alloc_meta rgd) GFS2_BLKST_FREE GFS2_BLKST_DINODE
                Hok Hlm Hdi Hfree)
      as (blk & rgd1 & Hs & Hblk & Hsc & Hlive & _ & _).
    unfold gfs2_alloc_di. rewrite Hal. simpl. rewrite Hr. simpl. rewrite Hat. simpl.
    rewrite Hs. simpl.
    eexists _, _, _. split; [reflexivity|].
    apply (Hcore (rd_last_alloc_meta rgd) GFS2_BLKST_DINODE blk rgd1
             (fun d => set_rd_free_clone
                         (set_rd_rg (set_rd_last_alloc_meta d blk)
                            (mk_rgrp (rg_flags (rd_rg d)) (wrap32 (rg_free (rd_rg d) - 1))
                                     (wrap32 (rg_dinodes (rd_rg d) + 1))))
                         (wrap32 (rd_free_clone d - 1)))
             (gfs2_assert_withdraw sdp (negb (rg_free (rd_rg rgd1) =? 0))));
      try assumption; try reflexivity.
    unfold gfs2_assert_withdraw. now destruct (negb _).
Qed.

Lemma alloc_block_type_witness :
  exists block sdp' ip',
    gfs2_alloc_di FreeExamples.sbd_two_used FreeExamples.inode_reserved
      = Some (block, sdp', ip') /\
    gfs2_get_block_type (rgrpd_at sdp' 0) block = Some GFS2_BLKST_DINODE.
Proof.
  destruct (alloc_block_type FreeExamples.sbd_two_used FreeExamples.inode_reserved
              (mk_alloc 1 0 (Some 0%nat)) 0 FreeExamples.rgd_two_used)
    as (_ & _ & block & sdp' & ip' & H & _ & _ & Ht); try reflexivity.
  - exact rgd_two_used_ok.
  - simpl. lia.
  - simpl. lia.
  - simpl. lia.
  - exists 2. reflexivity.
  - exists block, sdp', ip'. split; assumption.
Defined.

(** ** Runs that are not inside a group *)

Lemma rgblk_free_one_past (kmalloc : Z -> list Z) (rgd : gfs2_rgrpd) (c new : Z) :
  rgrpd_ok rgd -> ri_data (rd_ri rgd) <= c -> rgblk_free_one kmalloc rgd c new = None.
Proof.
  intros (Hlen & Hok & Hseg & Hdata & H32) Hc. unfold GFS2_NBBY in Hdata.
  unfold rgblk_free_one.
  pose proof (find_goal_buf_past [] (rd_bits rgd) 0 (ri_bitbytes (rd_ri rgd)) c Hok Hseg)
    as Hpast.
  simpl in Hpast. change (Z.of_nat 0) with 0 in Hpast.
  replace (Z.to_nat (ri_length (rd_ri rgd))) with (length (rd_bits rgd)) by lia.
  rewrite Hpast by lia.
  destruct (Z.ltb_spec (Z.of_nat (length (rd_bits rgd))) (ri_length (rd_ri rgd))); [lia|].
  reflexivity.
Qed.

Lemma rgblk_free_loop_past (kmalloc : Z -> list Z) (new : Z) (n : nat) :
  (forall n, length (kmalloc n) = Z.to_nat n) -> 0 <= new <= 3 ->
  forall (rgd : gfs2_rgrpd) (c : Z),
    rgrpd_ok rgd -> 0 <= c <= ri_data (rd_ri rgd) -> ri_data (rd_ri rgd) < c + Z.of_nat n ->
    rgblk_free_loop n kmalloc rgd c new = None.
Proof.
  intros Hk Hnew. induction n as [|n IH]; intros rgd c Hrgd Hc Hn; [lia|].
  simpl. destruct (Z.eq_dec c (ri_data (rd_ri rgd))) as [He|Hne].
  - rewrite rgblk_free_one_past by (assumption || lia). reflexivity.
  - destruct (rgblk_free_one_spec kmalloc rgd c new Hk Hrgd ltac:(lia) Hnew)
      as (rgd1 & H1 & Hok1 & Hri1 & _).
    assert (H32 : ri_data (rd_ri rgd) < 2 ^ 32) by (destruct Hrgd as (_ & _ & _ & _ & H); exact H).
    rewrite H1. simpl. rewrite wrap32_small by lia.
    apply IH; [exact Hok1|rewrite Hri1; lia|rewrite Hri1; lia].
Qed.

(** X10: the two ways a run can miss: when no group holds its first block,
    [gfs2_free_data] withdraws the file system and changes neither a group
    nor the MRU list; when the run starts in a group and goes on past the
    group's last block, the hard assertion of [rgblk_free] fails. *)
Theorem free_data_outside (kmalloc : Z -> list Z) (sdp : gfs2_sbd) (mru : list nat)
    (bstart blen : Z) :
  (fst (gfs2_blk2rgrpd sdp mru bstart) = None ->
   gfs2_free_data kmalloc sdp mru bstart blen = Some (set_sd_withdrawn sdp true, mru)) /\
  (forall r rgd,
     (forall n, length (kmalloc n) = Z.to_nat n) ->
     fst (gfs2_blk2rgrpd sdp mru bstart) = Some r ->
     sd_rindex_list sdp !! r = Some rgd ->
     rgrpd_ok rgd ->
     0 <= ri_data0 (rd_ri rgd) ->
     ri_data0 (rd_ri rgd) + ri_data (rd_ri rgd) < 2 ^ 64 ->
     ri_data0 (rd_ri rgd) + ri_data (rd_ri rgd) < bstart + blen ->
     gfs2_free_data kmalloc sdp mru bstart blen = None).
Proof.
  split.
  - unfold gfs2_free_data, rgblk_free, gfs2_blk2rgrpd.
    destruct (find _ mru); [discriminate|]. reflexivity.
  - intros r rgd Hk Hfound Hat Hok H0 H64 Hover.
    pose proof (free_data_start sdp mru r rgd bstart Hfound Hat) as Hstart.
    assert (Hin : bstart < ri_data0 (rd_ri rgd) + ri_data (rd_ri rgd)).
    { unfold gfs2_blk2rgrpd in Hfound.
      destruct (find _ mru) as [r'|] eqn:Hf; [|discriminate].
      injection Hfound as ->. apply find_some in Hf as [_ Hc].
      unfold rgrpd_at in Hc. rewrite Hat in Hc. simpl in Hc.
      assert (0 <= ri_data (rd_ri rgd)).
      { destruct Hok as (_ & Hall & Hseg & Hd & _).
        pose proof (segments_from_le _ _ _ Hall Hseg). unfold GFS2_NBBY in Hd. lia. }
      apply contains_block_range in Hc; lia. }
    assert (H32 : ri_data (rd_ri rgd) < 2 ^ 32) by (destruct Hok as (_ & _ & _ & _ & H); exact H).
    unfold gfs2_free_data, rgblk_free.
    destruct (gfs2_blk2rgrpd sdp mru bstart) as [[r'|] mru'] eqn:Hb; simpl in Hfound;
      [|discriminate].
    injection Hfound as ->.
    assert (Hatr : rgrpd_at sdp r = rgd) by (unfold rgrpd_at; now rewrite Hat).
    rewrite Hatr. rewrite wrap32_small by lia.
    rewrite (rgblk_free_loop_past kmalloc GFS2_BLKST_FREE (Z.to_nat blen) Hk
               ltac:(unfold GFS2_BLKST_FREE; lia) rgd _ Hok); [reflexivity|lia|lia].
Qed.

Lemma free_data_outside_witness :
  gfs2_free_data FreeExamples.kmalloc_170 FreeExamples.sbd_two_used [0%nat] 5 1
    = Some (set_sd_withdrawn FreeExamples.sbd_two_used true, [0%nat]) /\
  gfs2_free_data FreeExamples.kmalloc_170 FreeExamples.sbd_two_used [0%nat] 162 3 = None.
Proof.
  destruct (free_data_outside FreeExamples.kmalloc_170 FreeExamples.sbd_two_used [0%nat] 5 1)
    as [H1 _].
  destruct (free_data_outside FreeExamples.kmalloc_170 FreeExamples.sbd_two_used [0%nat] 162 3)
    as [_ H2].
  split.
  - apply H1. reflexivity.
  - apply (H2 0%nat FreeExamples.rgd_two_used kmalloc_170_size); try reflexivity.
    + exact rgd_two_used_ok.
    + simpl. lia.
Defined.

(** ** A dinode allocated and freed again *)

Lemma find_ext {A} (f g : A -> bool) (l : list A) :
  (forall x, f x = g x) -> find f l = find g l.
Proof.
  intros H. induction l as [|x l IH]; [reflexivity|]. simpl. now rewrite H, IH.
Qed.

Lemma blk2rgrpd_found_in (sdp : gfs2_sbd) (mru : list nat) (r : nat) (blk : Z) :
  r ∈ mru -> rgrps_disjoint sdp mru ->
  rgrp_contains_block (rd_ri (rgrpd_at sdp r)) blk = true ->
  fst (gfs2_blk2rgrpd sdp mru blk) = Some r.
Proof.
  intros Hin Hdis Hc. unfold gfs2_blk2rgrpd.
  destruct (find _ mru) as [r'|] eqn:Hf; simpl.
  - apply find_elem_of in Hf as [Hin' Hc']. f_equal. now apply (Hdis r' r blk).
  - rewrite (find_None_elem_of _ _ _ Hf Hin) in Hc. discriminate.
Qed.

Lemma blk2rgrpd_same_index (sdp sdp' : gfs2_sbd) (mru : list nat) (blk : Z) :
  (forall x, rd_ri (rgrpd_at sdp' x) = rd_ri (rgrpd_at sdp x)) ->
  gfs2_blk2rgrpd sdp' mru blk = gfs2_blk2rgrpd sdp mru blk.
Proof.
  intros H. unfold gfs2_blk2rgrpd.
  rewrite (find_ext _ (fun rgd => rgrp_contains_block (rd_ri (rgrpd_at sdp rgd)) blk));
    [reflexivity|].
  intros x. now rewrite H.
Qed.

Lemma wrap32_pred_succ (z : Z) : 0 <= z < 2 ^ 32 -> wrap32 (wrap32 (z - 1) + 1) = z.
Proof.
  intros Hz. replace z with (z - 1 + 1) at 2 by lia.
  unfold wrap32. rewrite Z.add_mod_idemp_l by lia.
  apply Z.mod_small. lia.
Qed.

Lemma wrap32_succ_pred (z : Z) : 0 <= z < 2 ^ 32 -> wrap32 (wrap32 (z + 1) - 1) = z.
Proof.
  intros Hz. unfold wrap32.
  rewrite Zminus_mod_idemp_l. replace (z + 1 - 1) with z by lia.
  apply Z.mod_small. lia.
Qed.

(** X11: a dinode allocated by [gfs2_alloc_di] and given back by
    [gfs2_free_uninit_di] leaves the header of the group as it was and the
    block free in the live bitmap; but a search still reads the block as a
    dinode and the snapshot [rd_free_clone] stays one lower, so the block
    is not handed out again before the clones are repolished. *)
Theorem alloc_di_then_free (kmalloc : Z -> list Z) (sdp : gfs2_sbd) (mru : list nat)
    (ip : gfs2_inode) (al : gfs2_alloc) (r : nat) (rgd : gfs2_rgrpd) :
  (forall n, length (kmalloc n) = Z.to_nat n) ->
  i_alloc ip = Some al -> al_rgd al = Some r ->
  sd_rindex_list sdp !! r = Some rgd ->
  r ∈ mru -> rgrps_disjoint sdp mru ->
  rgrpd_ok rgd ->
  0 <= ri_data0 (rd_ri rgd) ->
  ri_data0 (rd_ri rgd) + ri_data (rd_ri rgd) < 2 ^ 64 ->
  0 <= rd_last_alloc_meta rgd < ri_data (rd_ri rgd) ->
  0 < rg_free (rd_rg rgd) < 2 ^ 32 ->
  0 <= rg_dinodes (rd_rg rgd) < 2 ^ 32 - 1 ->
  (exists c, search_cell rgd c = Some GFS2_BLKST_FREE) ->
  exists block sdp1 ip1 sdp2 mru2 rgd2,
    gfs2_alloc_di sdp ip = Some (block, sdp1, ip1) /\
    gfs2_free_uninit_di kmalloc sdp1 mru r block = Some (sdp2, mru2) /\
    sd_rindex_list sdp2 !! r = Some rgd2 /\
    rd_rg rgd2 = rd_rg rgd /\
    sd_withdrawn sdp2 = sd_withdrawn sdp /\
    gfs2_get_block_type rgd2 block = Some GFS2_BLKST_FREE /\
    search_cell rgd2 (block - ri_data0 (rd_ri rgd)) = Some GFS2_BLKST_DINODE /\
    rd_free_clone rgd2 = wrap32 (rd_free_clone rgd - 1).
Proof.
  intros Hk Hal Hr Hat Hin Hdis Hok H0 H64 Hlm Hfree Hdin Hcell.
  assert (H32 : ri_data (rd_ri rgd) < 2 ^ 32) by (destruct Hok as (_ & _ & _ & _ & H); exact H).
  pose proof (lookup_lt_Some _ _ _ Hat) as Hrlt.
  assert (Hdi : 0 <= GFS2_BLKST_DINODE <= 3) by (unfold GFS2_BLKST_DINODE; lia).
  assert (Hfr : 0 <= GFS2_BLKST_FREE <= 3) by (unfold GFS2_BLKST_FREE; lia).
  destruct (rgblk_search_takes rgd (rd_last_alloc_meta rgd) GFS2_BLKST_FREE GFS2_BLKST_DINODE
              Hok Hlm Hdi Hcell)
    as (blk & rgd1 & Hs & Hblk & _ & _ & Hfc1 & Hsearch1).
  destruct (rgblk_search_ok rgd rgd1 _ _ _ _ _ Hok Hs) as (Hok1 & Hri1 & Hrg1).
  (* the group after the allocation *)
  set (rgda := set_rd_free_clone
                 (set_rd_rg (set_rd_last_alloc_meta rgd1 blk)
                    (mk_rgrp (rg_flags (rd_rg rgd1)) (wrap32 (rg_free (rd_rg rgd1) - 1))
                             (wrap32 (rg_dinodes (rd_rg rgd1) + 1))))
                 (wrap32 (rd_free_clone rgd1 - 1))).
  assert (Hoka : rgrpd_ok rgda) by exact Hok1.
  assert (Hria : rd_ri rgda = rd_ri rgd) by exact Hri1.
  set (sdp1 := set_sd_rindex_list sdp (<[r := rgda]> (sd_rindex_list sdp))).
  set (block := ri_data0 (rd_ri rgd) + blk).
  assert (Halloc : gfs2_alloc_di sdp ip =
                   Some (block, sdp1, set_i_alloc ip (Some (alloc_inc al)))).
  { unfold gfs2_alloc_di. rewrite Hal. simpl. rewrite Hr. simpl. rewrite Hat. simpl.
    rewrite Hs. simpl. rewrite Hri1. unfold wrap64. rewrite Z.mod_small by lia.
    rewrite Hrg1.
    destruct (Z.eqb_spec (rg_free (rd_rg rgd)) 0) as [He|_]; [lia|].
    simpl. fold block. rewrite <- Hrg1. reflexivity. }
  assert (Hat1 : sd_rindex_list sdp1 !! r = Some rgda).
  { subst sdp1. simpl. now apply list_lookup_insert_eq. }
  assert (Hidx : forall x, rd_ri (rgrpd_at sdp1 x) = rd_ri (rgrpd_at sdp x)).
  { intros x. unfold rgrpd_at. subst sdp1. simpl.
    destruct (decide (x = r)) as [->|Hne].
    - rewrite list_lookup_insert_eq by assumption. rewrite Hat. exact Hria.
    - now rewrite list_lookup_insert_ne by congruence. }
  assert (Hcont : rgrp_contains_block (rd_ri (rgrpd_at sdp r)) block = true).
  { unfold rgrpd_at. rewrite Hat. simpl. apply contains_block_range; subst block; lia. }
  assert (Hfound : gfs2_blk2rgrpd sdp1 mru block =
                   (Some r, snd (gfs2_blk2rgrpd sdp mru block))).
  { rewrite (blk2rgrpd_same_index sdp sdp1 mru block Hidx).
    pose proof (blk2rgrpd_found_in sdp mru r block Hin Hdis Hcont) as Hf.
    destruct (gfs2_blk2rgrpd sdp mru block) as [o m]. simpl in Hf. now subst o. }
  (* the group after the release *)
  destruct (rgblk_free_one_spec kmalloc rgda blk GFS2_BLKST_FREE Hk Hoka
              ltac:(rewrite Hria; lia) Hfr)
    as (rgdb & Hone & Hokb & Hrib & Hrgb & Hfcb & Hliveb & _ & Hseab).
  set (rgd2 := set_rd_rg rgdb (mk_rgrp (rg_flags (rd_rg rgdb)) (wrap32 (rg_free (rd_rg rgdb) + 1))
                                       (wrap32 (rg_dinodes (rd_rg rgdb) - 1)))).
  assert (Hdin1 : rg_dinodes (rd_rg rgdb) = rg_dinodes (rd_rg rgd) + 1).
  { rewrite Hrgb. subst rgda. simpl. rewrite Hrg1. apply wrap32_small. lia. }
  assert (Hfree2 : exists sdp2,
             gfs2_free_uninit_di kmalloc sdp1 mru r block =
               Some (sdp2, snd (gfs2_blk2rgrpd sdp mru block)) /\
             sd_rindex_list sdp2 !! r = Some rgd2 /\
             sd_withdrawn sdp2 = sd_withdrawn sdp).
  { unfold gfs2_free_uninit_di, rgblk_free. rewrite Hfound.
    assert (Hatr : rgrpd_at sdp1 r = rgda) by (unfold rgrpd_at; now rewrite Hat1).
    rewrite Hatr, Hria.
    replace (block - ri_data0 (rd_ri rgd)) with blk by (subst block; lia).
    rewrite wrap32_small by lia.
    change (Z.to_nat 1) with 1%nat. simpl rgblk_free_loop. rewrite Hone. simpl.
    rewrite bool_decide_eq_true_2 by reflexivity. simpl.
    unfold rgrpd_at. simpl.
    rewrite !list_lookup_insert_eq by (rewrite length_insert; exact Hrlt). simpl.
    destruct (Z.eqb_spec (rg_dinodes (rd_rg rgdb)) 0) as [He|_]; [lia|].
    eexists. split; [reflexivity|]. split; [|reflexivity].
    simpl. apply list_lookup_insert_eq. rewrite !length_insert. exact Hrlt. }
  destruct Hfree2 as (sdp2 & Hfree2 & Hat2 & Hw2).
  exists block, sdp1, (set_i_alloc ip (Some (alloc_inc al))).
  exists sdp2, (snd (gfs2_blk2rgrpd sdp mru block)), rgd2.
  split; [exact Halloc|]. split; [exact Hfree2|]. split; [exact Hat2|].
  split; [|split; [exact Hw2|split; [|split]]].
  - subst rgd2. simpl. rewrite Hrgb. subst rgda. simpl. rewrite Hrg1.
    rewrite wrap32_pred_succ by lia. rewrite wrap32_succ_pred by lia.
    now destruct (rd_rg rgd).
  - assert (Hok2 : rgrpd_ok rgd2) by exact Hokb.
    assert (Hw : wrap32 (block - ri_data0 (rd_ri rgd2)) = blk).
    { subst rgd2. simpl. rewrite Hrib, Hria.
      replace (block - ri_data0 (rd_ri rgd)) with blk by (subst block; lia).
      apply wrap32_small. lia. }
    destruct (get_block_type_live rgd2 block Hok2) as [Heq _].
    { rewrite Hw. subst rgd2. simpl. rewrite Hrib, Hria. lia. }
    rewrite Heq, Hw. exact Hliveb.
  - replace (block - ri_data0 (rd_ri rgd)) with blk by (subst block; lia).
    change (search_cell rgd2 blk) with (search_cell rgdb blk).
    rewrite Hseab by (rewrite Hria; lia). exact Hsearch1.
  - subst rgd2. simpl. rewrite Hfcb. subst rgda. simpl. now rewrite Hfc1.
Qed.

Lemma single_group_disjoint (sdp : gfs2_sbd) (r : nat) : rgrps_disjoint sdp [r].
Proof.
  intros r1 r2 blk H1 H2 _ _.
  apply list_elem_of_singleton in H1, H2. congruence.
Qed.

Lemma alloc_di_then_free_witness :
  exists block sdp1 ip1 sdp2 mru2 rgd2,
    gfs2_alloc_di FreeExamples.sbd_two_used FreeExamples.inode_reserved
      = Some (block, sdp1, ip1) /\
    gfs2_free_uninit_di FreeExamples.kmalloc_170 sdp1 [0%nat] 0 block = Some (sdp2, mru2) /\
    sd_rindex_list sdp2 !! 0%nat = Some rgd2 /\
    rd_rg rgd2 = mk_rgrp 0 62 0 /\
    rd_free_clone rgd2 = 61.
Proof.
  destruct (alloc_di_then_free FreeExamples.kmalloc_170 FreeExamples.sbd_two_used [0%nat]
              FreeExamples.inode_reserved (mk_alloc 1 0 (Some 0%nat)) 0
              FreeExamples.rgd_two_used kmalloc_170_size)
    as (block & sdp1 & ip1 & sdp2 & mru2 & rgd2 & H1 & H2 & H3 & H4 & _ & _ & _ & H5);
    try reflexivity.
  - apply list_elem_of_singleton. reflexivity.
  - apply single_group_disjoint.
  - exact rgd_two_used_ok.
  - simpl. lia.
  - simpl. lia.
  - simpl. lia.
  - simpl. lia.
  - exists 2. reflexivity.
  - exists block, sdp1, ip1, sdp2, mru2, rgd2. repeat (split; [assumption|]). exact H5.
Defined.

End RgrpFreeFacts.

(** * Properties of the reservation *)

Module ReserveFacts.
Import Bits Rgrp Reserve RgrpFacts.

(** ** The loop over the recent list *)

Lemma recent_after_mid (pre post : list nat) (rgd : nat) :
  rgd ∉ pre -> recent_after (pre ++ rgd :: post) rgd = Some (head post).
Proof.
  induction pre as [|x pre IH]; intros Hnin; simpl.
  - destruct (decide (rgd = rgd)); [reflexivity|congruence].
  - apply not_elem_of_cons in Hnin as [Hne Hnin].
    destruct (decide (x = rgd)); [congruence|]. now apply IH.
Qed.

Lemma recent_del_mid (pre post : list nat) (rgd : nat) :
  rgd ∉ pre -> recent_del (pre ++ rgd :: post) rgd = pre ++ post.
Proof.
  induction pre as [|x pre IH]; intros Hnin; simpl.
  - destruct (decide (rgd = rgd)); [reflexivity|congruence].
  - apply not_elem_of_cons in Hnin as [Hne Hnin].
    destruct (decide (x = rgd)); [congruence|]. now rewrite IH.
Qed.

Lemma set_recent_list_same (sdp : gfs2_sbd) :
  set_sd_rindex_recent_list sdp (sd_rindex_recent_list sdp) = sdp.
Proof. now destruct sdp. Qed.

(** The first loop ends within one pass over the recent list: by a group
    of the list that fits, by the error of a lock request, or with the list
    exhausted; it changes nothing but the recent list, from which it only
    removes. *)
Lemma recent_scan_spec (lock : glock_oracle) (post : list nat) :
  forall (pre : list nat) (rgd : nat) (fuel t : nat) (sdp : gfs2_sbd) (al : gfs2_alloc),
    sd_rindex_recent_list sdp = pre ++ rgd :: post ->
    NoDup (pre ++ rgd :: post) ->
    (length post < fuel)%nat ->
    exists r sdp' al' tr,
      recent_scan fuel lock t sdp al (Some rgd) = (r, sdp', al', tr) /\
      sdp' = set_sd_rindex_recent_list sdp (sd_rindex_recent_list sdp') /\
      sublist (sd_rindex_recent_list sdp') (pre ++ rgd :: post) /\
      match r with
      | SCAN_OUT x =>
          x ∈ rgd :: post /\ rgrp_fits sdp al x = true /\
          al' = mk_alloc (al_requested al) (al_alloced al) (Some x)
      | SCAN_LOCK_ERROR e => (exists t' x f, lock t' x f = GL_ERROR e) /\ al' = al
      | SCAN_DONE => al' = al
      | _ => False
      end.
Proof.
  induction post as [|nxt post IH]; intros pre rgd fuel t sdp al Hl Hnd Hfuel.
  - destruct fuel as [|fuel]; [simpl in Hfuel; lia|]. simpl.
    assert (Hnin : rgd ∉ pre).
    { apply NoDup_app in Hnd as (_ & Hd & _). intros Hin. apply (Hd _ Hin). left. }
    destruct (lock t rgd LM_FLAG_TRY) as [| |e] eqn:Hlock.
    + rewrite try_rgrp_fit_fits. destruct (rgrp_fits sdp al rgd) eqn:Hfit; simpl.
      * eexists _, _, _, _. split; [reflexivity|].
        split; [now rewrite set_recent_list_same|]. rewrite Hl. split; [reflexivity|].
        split; [left|]. split; [exact Hfit|reflexivity].
      * unfold recent_rgrp_next. rewrite Hl, recent_after_mid, recent_del_mid by assumption.
        simpl. destruct fuel; simpl.
        -- eexists _, _, _, _. split; [reflexivity|]. split; [reflexivity|].
           split; [|reflexivity]. simpl.
           apply sublist_app; [reflexivity|apply sublist_cons; reflexivity].
        -- eexists _, _, _, _. split; [reflexivity|]. split; [reflexivity|].
           split; [|reflexivity]. simpl.
           apply sublist_app; [reflexivity|apply sublist_cons; reflexivity].
    + unfold recent_rgrp_next. rewrite Hl, recent_after_mid by assumption. simpl.
      destruct fuel; simpl.
      * eexists _, _, _, _. split; [reflexivity|].
        split; [now rewrite set_recent_list_same|]. rewrite Hl. split; reflexivity.
      * eexists _, _, _, _. split; [reflexivity|].
        split; [now rewrite set_recent_list_same|]. rewrite Hl. split; reflexivity.
    + eexists _, _, _, _. split; [reflexivity|].
      split; [now rewrite set_recent_list_same|]. rewrite Hl. split; [reflexivity|].
      split; [eauto|reflexivity].
  - destruct fuel as [|fuel]; [simpl in Hfuel; lia|]. simpl in Hfuel.
    assert (Hnin : rgd ∉ pre).
    { apply NoDup_app in Hnd as (_ & Hd & _). intros Hin. apply (Hd _ Hin). left. }
    cbn [recent_scan].
    destruct (lock t rgd LM_FLAG_TRY) as [| |e] eqn:Hlock.
    + rewrite try_rgrp_fit_fits. destruct (rgrp_fits sdp al rgd) eqn:Hfit; simpl.
      * eexists _, _, _, _. split; [reflexivity|].
        split; [now rewrite set_recent_list_same|]. rewrite Hl. split; [reflexivity|].
        split; [left|]. split; [exact Hfit|reflexivity].
      * unfold recent_rgrp_next. rewrite Hl, recent_after_mid, recent_del_mid by assumption.
        cbn [head].
        destruct (IH pre nxt fuel (S t)
                    (set_sd_rindex_recent_list sdp (pre ++ nxt :: post)) al)
          as (r & sdp' & al' & tr & Hrec & Hsdp & Hsub & Hr).
        { reflexivity. }
        { apply NoDup_app in Hnd as (Hp & Hd & Hq). apply NoDup_cons in Hq as [_ Hq].
          apply NoDup_app. split; [exact Hp|]. split; [|exact Hq].
          intros x Hx Hx'. apply (Hd x Hx). now right. }
        { lia. }
        rewrite Hrec. eexists _, _, _, _. split; [reflexivity|].
        split; [rewrite Hsdp at 1; reflexivity|].
        split; [etrans; [exact Hsub|]; apply sublist_app; [reflexivity|];
                apply sublist_cons; reflexivity|].
        destruct r; try exact Hr.
        destruct Hr as (Hin & Hf & Ha). split; [now right|]. split; assumption.
    + unfold recent_rgrp_next. rewrite Hl, recent_after_mid by assumption. cbn [head].
      destruct (IH (pre ++ [rgd]) nxt fuel (S t) sdp al)
        as (r & sdp' & al' & tr & Hrec & Hsdp & Hsub & Hr).
      { rewrite Hl, <- app_assoc. reflexivity. }
      { rewrite <- app_assoc. exact Hnd. }
      { lia. }
      rewrite Hrec. eexists _, _, _, _. split; [reflexivity|].
      split; [exact Hsdp|]. rewrite <- app_assoc in Hsub. split; [exact Hsub|].
      destruct r; try exact Hr.
      destruct Hr as (Hin & Hf & Ha). split; [now right|]. split; assumption.
    + eexists _, _, _, _. split; [reflexivity|].
      split; [now rewrite set_recent_list_same|]. rewrite Hl. split; [reflexivity|].
      split; [eauto|reflexivity].
Qed.

(** ** The loop over the full list *)

(** A circuit leaves the reservation alone unless it finds a group, which
    it then names. *)
Lemma circuit_alloc (lock : glock_oracle) (sdp : gfs2_sbd) (l : list nat) (flags : Z) :
  forall (t : nat) (al : gfs2_alloc) (s : Z) r al' tr,
    circuit lock t sdp al l flags s = (r, al', tr) ->
    match r with
    | CIRCUIT_FOUND rgd =>
        rgd ∈ l /\ al' = mk_alloc (al_requested al) (al_alloced al) (Some rgd)
    | CIRCUIT_LOCK_ERROR e => (exists t' x f, lock t' x f = GL_ERROR e) /\ al' = al
    | CIRCUIT_COMPLETE _ => al' = al
    end.
Proof.
  induction l as [|rgd rest IH]; intros t al s r al' tr Hc; simpl in Hc.
  - injection Hc as <- <- <-. reflexivity.
  - destruct (lock t rgd flags) eqn:Hl.
    + rewrite try_rgrp_fit_fits in Hc.
      destruct (rgrp_fits sdp al rgd) eqn:Hfit; simpl in Hc.
      * injection Hc as <- <- <-. split; [left|reflexivity].
      * destruct (circuit lock (S t) sdp al rest flags s) as [[r0 a0] tr0] eqn:Hrest.
        injection Hc as <- <- <-. specialize (IH _ _ _ _ _ _ Hrest).
        destruct r0; try exact IH. destruct IH as [Hin Ha]. split; [now right|exact Ha].
    + destruct (circuit lock (S t) sdp al rest flags (s + 1)) as [[r0 a0] tr0] eqn:Hrest.
      injection Hc as <- <- <-. specialize (IH _ _ _ _ _ _ Hrest).
      destruct r0; try exact IH. destruct IH as [Hin Ha]. split; [now right|exact Ha].
    + injection Hc as <- <- <-. split; [eauto|reflexivity].
Qed.

Lemma circuit_order_elem (n begin rgd : nat) :
  (begin < n)%nat -> rgd ∈ circuit_order n begin -> (rgd < n)%nat.
Proof.
  intros Hb Hin. unfold circuit_order in Hin.
  apply elem_of_app in Hin as [Hin|Hin]; apply elem_of_seq in Hin; lia.
Qed.

(** The second loop, begun at a group of the index, ends by a group of the
    index that fits, by -ENOSPC, or by the error of a lock request. *)
Lemma forward_scan_result (lock : glock_oracle) (sdp : gfs2_sbd) (begin t : nat)
    (al : gfs2_alloc) :
  (begin < length (sd_rindex_list sdp))%nat ->
  exists r al' tr,
    forward_scan (2 * length (sd_rindex_list sdp)) lock t sdp al begin begin LM_FLAG_TRY 0 0
      = (r, al', tr) /\
    match r with
    | SCAN_OUT rgd =>
        (rgd < length (sd_rindex_list sdp))%nat /\ rgrp_fits sdp al rgd = true /\
        al' = mk_alloc (al_requested al) (al_alloced al) (Some rgd)
    | SCAN_LOCK_ERROR e => (exists t' x f, lock t' x f = GL_ERROR e) /\ al' = al
    | SCAN_ENOSPC => al' = al
    | _ => False
    end.
Proof.
  intros Hbegin.
  rewrite (forward_scan_is_two_circuits lock sdp begin Hbegin).
  unfold two_circuit_scan.
  set (n := length (sd_rindex_list sdp)) in *.
  set (order := circuit_order n begin) in *.
  destruct (circuit lock t sdp al order LM_FLAG_TRY 0) as [[r1 a1] tr1] eqn:Hc1.
  pose proof (circuit_alloc _ _ _ _ _ _ _ _ _ _ Hc1) as Ha1.
  destruct (circuit_facts _ _ _ _ _ _ _ _ _ _ Hc1) as (_ & _ & Hr1).
  destruct r1 as [rgd1|e1|s1].
  - destruct Ha1 as [Hin ->]. destruct Hr1 as [_ Hfit].
    eexists _, _, _. split; [reflexivity|].
    split; [eapply circuit_order_elem; eauto|]. split; [exact Hfit|reflexivity].
  - eexists _, _, _. split; [reflexivity|]. exact Ha1.
  - subst a1. destruct (s1 =? 0).
    + eexists _, _, _. split; reflexivity.
    + destruct (circuit lock (t + n) sdp al order 0 s1) as [[r2 a2] tr2] eqn:Hc2.
      pose proof (circuit_alloc _ _ _ _ _ _ _ _ _ _ Hc2) as Ha2.
      destruct (circuit_facts _ _ _ _ _ _ _ _ _ _ Hc2) as (_ & _ & Hr2).
      destruct r2 as [rgd2|e2|s2].
      * destruct Ha2 as [Hin ->]. destruct Hr2 as [_ Hfit].
        eexists _, _, _. split; [reflexivity|].
        split; [eapply circuit_order_elem; eauto|]. split; [exact Hfit|reflexivity].
      * eexists _, _, _. split; [reflexivity|]. exact Ha2.
      * eexists _, _, _. split; [reflexivity|]. exact Ha2.
Qed.

(** ** The cursor *)

Lemma forward_walk_at (sdp : gfs2_sbd) (n : nat) :
  (n < length (sd_rindex_list sdp))%nat -> forward_walk sdp n = Some n.
Proof.
  induction n as [|n IH]; intros Hn; simpl.
  - unfold gfs2_rgrpd_get_first. destruct (sd_rindex_list sdp); [simpl in Hn; lia|reflexivity].
  - rewrite IH by lia. simpl. unfold gfs2_rgrpd_get_next.
    destruct (decide _); [reflexivity|lia].
Qed.

Lemma forward_rgrp_get_at (sdp : gfs2_sbd) :
  working_sets_ok sdp -> sd_rindex_forward sdp = None ->
  let rg := if sd_journals sdp <=? sd_rgrps sdp
            then sd_rgrps sdp * sd_jid sdp / sd_journals sdp else 0 in
  forward_rgrp_get sdp =
    Some (Z.to_nat rg, set_sd_rindex_forward sdp (Some (Z.to_nat rg))) /\
  0 <= rg < sd_rgrps sdp.
Proof.
  intros (Hne & Hn & Hjid & Hmul & _) Hfw rg.
  assert (Hlen : 0 < sd_rgrps sdp).
  { destruct (sd_rindex_list sdp); [congruence|]. simpl in Hn. lia. }
  assert (Hq : 0 <= sd_rgrps sdp * sd_jid sdp / sd_journals sdp < sd_rgrps sdp).
  { split; [apply Z.div_pos; nia|]. apply Z.div_lt_upper_bound; nia. }
  unfold forward_rgrp_get. rewrite Hfw. subst rg.
  destruct (Z.leb_spec (sd_journals sdp) (sd_rgrps sdp)) as [Hle|Hgt].
  - split; [|exact Hq].
    destruct (Z.eqb_spec (sd_journals sdp) 0); [lia|]. simpl.
    rewrite wrap32_small by nia.
    rewrite forward_walk_at by lia. reflexivity.
  - split; [|lia]. simpl. unfold gfs2_rgrpd_get_first.
    destruct (sd_rindex_list sdp); [congruence|reflexivity].
Qed.

(** X14: with no cursor yet, the scan of a node starts at the group of
    position [sd_rgrps * jid / journals] when there are at least as many
    groups as journals, and two nodes with different journals then start at
    different groups; with fewer groups than journals every node starts at
    the first group. *)
Theorem forward_start_spread (sdp1 sdp2 : gfs2_sbd) :
  working_sets_ok sdp1 -> working_sets_ok sdp2 ->
  sd_rindex_forward sdp1 = None -> sd_rindex_forward sdp2 = None ->
  sd_rindex_list sdp1 = sd_rindex_list sdp2 ->
  sd_journals sdp1 = sd_journals sdp2 ->
  sd_jid sdp1 < sd_jid sdp2 ->
  exists b1 b2 sdp1' sdp2',
    forward_rgrp_get sdp1 = Some (b1, sdp1') /\
    forward_rgrp_get sdp2 = Some (b2, sdp2') /\
    (b2 < length (sd_rindex_list sdp1))%nat /\
    if sd_journals sdp1 <=? sd_rgrps sdp1
    then Z.of_nat b1 = sd_rgrps sdp1 * sd_jid sdp1 / sd_journals sdp1 /\ (b1 < b2)%nat
    else b1 = 0%nat /\ b2 = 0%nat.
Proof.
  intros Hok1 Hok2 Hf1 Hf2 Hl Hj Hlt.
  destruct (forward_rgrp_get_at sdp1 Hok1 Hf1) as [Hg1 Hq1].
  destruct (forward_rgrp_get_at sdp2 Hok2 Hf2) as [Hg2 Hq2].
  destruct Hok1 as (_ & Hn1 & Hjid1 & _). destruct Hok2 as (_ & Hn2 & Hjid2 & _).
  assert (Hr : sd_rgrps sdp2 = sd_rgrps sdp1) by (rewrite Hn1, Hn2, Hl; reflexivity).
  eexists _, _, _, _. split; [exact Hg1|]. split; [exact Hg2|].
  rewrite Hr, <- Hj in *.
  set (n := sd_rgrps sdp1) in *. set (j := sd_journals sdp1) in *.
  destruct (Z.leb_spec j n) as [Hle|Hgt].
  - assert (Hstep : n * sd_jid sdp1 / j + 1 <= n * sd_jid sdp2 / j).
    { apply Z.div_le_lower_bound; [lia|].
      pose proof (Z.mul_div_le (n * sd_jid sdp1) j ltac:(lia)). nia. }
    split; [lia|]. split; lia.
  - split; [lia|]. split; reflexivity.
Qed.

Lemma two_groups_ok (jid : Z) :
  0 <= jid < 2 -> working_sets_ok (mk_sbd [Examples.rgd_all_free; Examples.rgd_second]
                                         [] None 2 2 jid false 0 0 false).
Proof.
  intros Hj. unfold working_sets_ok. simpl.
  split; [discriminate|]. split; [reflexivity|]. split; [exact Hj|]. split; [lia|].
  split; [constructor|]. split; [constructor|exact I].
Qed.

Lemma forward_start_spread_witness :
  exists b1 b2 sdp1' sdp2',
    forward_rgrp_get (mk_sbd [Examples.rgd_all_free; Examples.rgd_second]
                             [] None 2 2 0 false 0 0 false) = Some (b1, sdp1') /\
    forward_rgrp_get (mk_sbd [Examples.rgd_all_free; Examples.rgd_second]
                             [] None 2 2 1 false 0 0 false) = Some (b2, sdp2') /\
    (b1 < b2)%nat.
Proof.
  destruct (forward_start_spread
              (mk_sbd [Examples.rgd_all_free; Examples.rgd_second] [] None 2 2 0 false 0 0 false)
              (mk_sbd [Examples.rgd_all_free; Examples.rgd_second] [] None 2 2 1 false 0 0 false))
    as (b1 & b2 & s1 & s2 & H1 & H2 & _ & H3); try reflexivity.
  - apply two_groups_ok. lia.
  - apply two_groups_ok. lia.
  - exists b1, b2, s1, s2. split; [exact H1|]. split; [exact H2|]. exact (proj2 H3).
Defined.


(** ** The choice of a group *)

Lemma recent_rgrp_first_elem (sdp : gfs2_sbd) (rglast : Z) :
  match recent_rgrp_first sdp rglast with
  | Some r => r ∈ sd_rindex_recent_list sdp
  | None => sd_rindex_recent_list sdp = []
  end.
Proof.
  unfold recent_rgrp_first. destruct (sd_rindex_recent_list sdp) as [|first l] eqn:Hl.
  - reflexivity.
  - destruct (rglast =? 0); [left|].
    destruct (find _ (first :: l)) as [r|] eqn:Hfind; [|left].
    apply find_some in Hfind as [Hin _]. now apply list_elem_of_In.
Qed.

Lemma rgrp_fits_ext (sdp sdp' : gfs2_sbd) (al : gfs2_alloc) (rgd : nat) :
  sd_rindex_list sdp' = sd_rindex_list sdp -> rgrp_fits sdp' al rgd = rgrp_fits sdp al rgd.
Proof. intros H. unfold rgrp_fits, rgrpd_at. now rewrite H. Qed.

Lemma next_circular_range (sdp : gfs2_sbd) (rgd : nat) :
  (rgd < length (sd_rindex_list sdp))%nat ->
  exists n, rgrpd_next_circular sdp rgd = Some n /\ (n < length (sd_rindex_list sdp))%nat.
Proof.
  intros Hr. unfold rgrpd_next_circular, gfs2_rgrpd_get_next, gfs2_rgrpd_get_first.
  destruct (decide _); [eexists; split; [reflexivity|assumption]|].
  destruct (sd_rindex_list sdp); [simpl in Hr; lia|].
  eexists; split; [reflexivity|simpl; lia].
Qed.

Lemma working_sets_ok_update (sdp : gfs2_sbd) (l : list nat) (f : option nat) :
  working_sets_ok sdp ->
  NoDup l -> Forall (fun r => (r < length (sd_rindex_list sdp))%nat) l ->
  match f with Some c => (c < length (sd_rindex_list sdp))%nat | None => True end ->
  working_sets_ok (set_sd_rindex_forward (set_sd_rindex_recent_list sdp l) f).
Proof.
  intros (H1 & H2 & H3 & H4 & _) Hnd Hall Hf.
  unfold working_sets_ok. simpl. auto 10.
Qed.

Lemma working_sets_ok_recent (sdp : gfs2_sbd) (l : list nat) :
  working_sets_ok sdp ->
  NoDup l -> Forall (fun r => (r < length (sd_rindex_list sdp))%nat) l ->
  working_sets_ok (set_sd_rindex_recent_list sdp l).
Proof.
  intros (H1 & H2 & H3 & H4 & _ & _ & H5) Hnd Hall.
  unfold working_sets_ok. simpl. auto 10.
Qed.

Lemma forward_rgrp_get_ok (sdp : gfs2_sbd) :
  working_sets_ok sdp ->
  exists b, forward_rgrp_get sdp = Some (b, set_sd_rindex_forward sdp (Some b)) /\
            (b < length (sd_rindex_list sdp))%nat.
Proof.
  intros Hok. destruct (sd_rindex_forward sdp) as [c|] eqn:Hf.
  - exists c. unfold forward_rgrp_get. rewrite Hf.
    destruct Hok as (_ & _ & _ & _ & _ & _ & Hc). rewrite Hf in Hc.
    split; [|exact Hc]. destruct sdp; simpl in *. now subst.
  - destruct (forward_rgrp_get_at sdp Hok Hf) as [Hg Hr].
    eexists. split; [exact Hg|]. destruct Hok as (_ & Hn & _). lia.
Qed.

Lemma recent_rgrp_add_ok (sdp : gfs2_sbd) (rgd : nat) :
  working_sets_ok sdp -> (rgd < length (sd_rindex_list sdp))%nat ->
  exists l, recent_rgrp_add sdp rgd = Some (set_sd_rindex_recent_list sdp l) /\
            NoDup l /\ Forall (fun r => (r < length (sd_rindex_list sdp))%nat) l.
Proof.
  intros (Hne & Hn & Hjid & Hmul & Hnd & Hall & _) Hr. unfold recent_rgrp_add.
  destruct (Z.eqb_spec (sd_journals sdp) 0); [lia|].
  destruct (recent_add_walk _ _ _ _) eqn:Hw.
  - apply recent_add_walk_spec in Hw as [Hnin _]; [|lia|lia|].
    + eexists. split; [reflexivity|]. split.
      * apply NoDup_app. split; [exact Hnd|]. split; [|apply NoDup_singleton].
        intros x Hx Hx'. apply list_elem_of_singleton in Hx'. now subst.
      * apply Forall_app. split; [exact Hall|]. now apply Forall_singleton.
    + split; [apply Z.div_pos; lia|]. apply Z.div_lt_upper_bound; nia.
  - exists (sd_rindex_recent_list sdp). rewrite set_recent_list_same. auto.
Qed.

(** The second loop and the code after [out], on a well-formed volume. *)
Lemma forward_phase (lock : glock_oracle) (sdp : gfs2_sbd) (ip : gfs2_inode)
    (al : gfs2_alloc) (t : nat) :
  working_sets_ok sdp -> lock_errors_nonzero lock ->
  exists error sdp' ip',
    ('(begin, sdp) ← forward_rgrp_get sdp;
     let '(r, al, _) :=
       forward_scan (2 * length (sd_rindex_list sdp)) lock t sdp al
                    begin begin LM_FLAG_TRY 0 0 in
     match r with
     | SCAN_OUT rgd =>
         '(sdp, ip) ← get_local_rgrp_out sdp (set_i_alloc ip (Some al)) rgd (Some begin);
         Some (0, sdp, ip)
     | SCAN_ENOSPC => Some (- ENOSPC, sdp, set_i_alloc ip (Some al))
     | SCAN_LOCK_ERROR e => Some (e, sdp, set_i_alloc ip (Some al))
     | _ => None
     end) = Some (error, sdp', ip') /\
    working_sets_ok sdp' /\
    sd_rindex_list sdp' = sd_rindex_list sdp /\
    if error =? 0 then
      exists rgd, (rgd < length (sd_rindex_list sdp))%nat /\
        rgrp_fits sdp al rgd = true /\
        i_alloc ip' = Some (mk_alloc (al_requested al) (al_alloced al) (Some rgd)) /\
        i_last_rg_alloc ip' = ri_addr (rd_ri (rgrpd_at sdp rgd))
    else
      i_alloc ip' = Some al /\ i_last_rg_alloc ip' = i_last_rg_alloc ip /\
      (error = - ENOSPC \/ exists t' x f, lock t' x f = GL_ERROR error).
Proof.
  intros Hok Hlock.
  destruct (forward_rgrp_get_ok sdp Hok) as (b & Hget & Hb).
  rewrite Hget. cbn [mbind option_bind].
  set (sdp1 := set_sd_rindex_forward sdp (Some b)).
  assert (Hok1 : working_sets_ok sdp1).
  { subst sdp1.
    replace (set_sd_rindex_forward sdp (Some b))
      with (set_sd_rindex_forward
              (set_sd_rindex_recent_list sdp (sd_rindex_recent_list sdp)) (Some b))
      by now rewrite set_recent_list_same.
    pose proof Hok as (_ & _ & _ & _ & Hnd & Hall & _).
    apply working_sets_ok_update; assumption. }
  assert (Hl1 : sd_rindex_list sdp1 = sd_rindex_list sdp) by reflexivity.
  destruct (forward_scan_result lock sdp1 b t al Hb) as (r & al' & tr & Hscan & Hr).
  rewrite Hscan. destruct r as [rgd| |e| | |]; try contradiction.
  - destruct Hr as (Hrgd & Hfit & ->).
    destruct (recent_rgrp_add_ok sdp1 rgd Hok1 Hrgd) as (l & Hadd & Hnd & Hall).
    destruct (next_circular_range sdp1 rgd Hrgd) as (n & Hnext & Hn).
    unfold get_local_rgrp_out. rewrite Hadd. cbn [mbind option_bind].
    change (rgrpd_next_circular (set_sd_rindex_recent_list sdp1 l) rgd)
      with (rgrpd_next_circular sdp1 rgd).
    rewrite Hnext. cbn [mbind option_bind].
    eexists _, _, _. split; [reflexivity|].
    split; [apply working_sets_ok_update; assumption|]. split; [reflexivity|].
    simpl. exists rgd. split; [exact Hrgd|]. split; [exact Hfit|]. split; reflexivity.
  - subst al'. eexists _, _, _. split; [reflexivity|]. split; [exact Hok1|].
    split; [reflexivity|]. simpl. split; [reflexivity|]. split; [reflexivity|now left].
  - destruct Hr as [(t' & x & f & He) ->].
    eexists _, _, _. split; [reflexivity|]. split; [exact Hok1|]. split; [reflexivity|].
    destruct (Z.eqb_spec e 0) as [->|_]; [exfalso; exact (Hlock _ _ _ He)|].
    split; [reflexivity|]. split; [reflexivity|]. right. eauto.
Qed.

(** X13: on a well-formed volume, with lock errors other than 0,
    [get_local_rgrp] always returns: 0, -ENOSPC or the error of a lock
    request.  On 0 the reservation names a group of the index whose free
    count covers the request, and the inode remembers the address of that
    group; otherwise the reservation and the inode are as before.  The
    index is never changed and the working sets stay well formed. *)
Theorem get_local_rgrp_reserves (lock : glock_oracle) (sdp : gfs2_sbd) (ip : gfs2_inode)
    (al : gfs2_alloc) :
  working_sets_ok sdp -> lock_errors_nonzero lock -> i_alloc ip = Some al ->
  exists error sdp' ip',
    get_local_rgrp lock sdp ip = Some (error, sdp', ip') /\
    working_sets_ok sdp' /\
    sd_rindex_list sdp' = sd_rindex_list sdp /\
    if error =? 0 then
      exists rgd, (rgd < length (sd_rindex_list sdp))%nat /\
        rgrp_fits sdp al rgd = true /\
        i_alloc ip' = Some (mk_alloc (al_requested al) (al_alloced al) (Some rgd)) /\
        i_last_rg_alloc ip' = ri_addr (rd_ri (rgrpd_at sdp rgd))
    else
      i_alloc ip' = Some al /\ i_last_rg_alloc ip' = i_last_rg_alloc ip /\
      (error = - ENOSPC \/ exists t' x f, lock t' x f = GL_ERROR error).
Proof.
  intros Hok Hlock Hal. unfold get_local_rgrp. rewrite Hal. cbn [mbind option_bind].
  pose proof (recent_rgrp_first_elem sdp (i_last_rg_alloc ip)) as Hfirst.
  destruct (recent_rgrp_first sdp (i_last_rg_alloc ip)) as [r0|].
  - apply list_elem_of_split in Hfirst as (pre & post & Hl).
    pose proof Hok as (_ & _ & _ & _ & Hnd & Hall & _).
    destruct (recent_scan_spec lock post pre r0 (S (length (sd_rindex_recent_list sdp)))
                0%nat sdp al Hl) as (r & sdp1 & al1 & tr & Hscan & Hsdp & Hsub & Hr).
    { rewrite <- Hl. exact Hnd. }
    { rewrite Hl, length_app. simpl. lia. }
    rewrite Hscan.
    assert (Hok1 : working_sets_ok sdp1).
    { rewrite Hsdp. rewrite <- Hl in Hsub. apply working_sets_ok_recent.
      - exact Hok.
      - eapply sublist_NoDup; eassumption.
      - apply Forall_forall. intros x Hx. rewrite Forall_forall in Hall.
        apply Hall. eapply elem_of_sublist; eassumption. }
    assert (Hl1 : sd_rindex_list sdp1 = sd_rindex_list sdp) by (rewrite Hsdp; reflexivity).
    destruct r as [rgd| |e| | |]; try contradiction.
    + destruct Hr as (Hin & Hfit & ->). simpl.
      eexists _, _, _. split; [reflexivity|]. split; [exact Hok1|]. split; [exact Hl1|].
      simpl. exists rgd. split.
      { rewrite Forall_forall in Hall. apply Hall. rewrite Hl.
        apply elem_of_app. now right. }
      split; [exact Hfit|]. split; [reflexivity|].
      unfold rgrpd_at. now rewrite Hl1.
    + destruct Hr as [(t' & x & f & He) ->].
      eexists _, _, _. split; [reflexivity|]. split; [exact Hok1|]. split; [exact Hl1|].
      destruct (Z.eqb_spec e 0) as [->|_]; [exfalso; exact (Hlock _ _ _ He)|].
      split; [reflexivity|]. split; [reflexivity|]. right. eauto.
    + subst al1.
      destruct (forward_phase lock sdp1 ip al (length tr) Hok1 Hlock)
        as (error & sdp' & ip' & Hph & Hok' & Hl' & Hres).
      rewrite Hph. exists error, sdp', ip'. split; [reflexivity|].
      split; [exact Hok'|]. split; [congruence|].
      destruct (error =? 0); [|exact Hres].
      destruct Hres as (rgd & H1 & H2 & H3 & H4). exists rgd.
      rewrite <- Hl1. split; [exact H1|]. rewrite <- (rgrp_fits_ext sdp sdp1) by exact Hl1.
      split; [exact H2|]. split; [exact H3|].
      rewrite H4. unfold rgrpd_at. now rewrite Hl1.
  - cbn [recent_scan].
    destruct (forward_phase lock sdp ip al (length (@nil attempt)) Hok Hlock)
      as (error & sdp' & ip' & Hph & Hres).
    rewrite Hph. exists error, sdp', ip'. split; [reflexivity|exact Hres].
Qed.

Lemma lock_first_busy_nonzero : lock_errors_nonzero Examples.lock_first_busy.
Proof.
  intros t rgd flags. unfold Examples.lock_first_busy.
  destruct (decide (rgd = 0%nat)); discriminate.
Qed.

Lemma get_local_rgrp_reserves_witness :
  exists error sdp' ip',
    get_local_rgrp Examples.lock_first_busy Examples.sbd_two_groups_fresh
                   Examples.inode_no_goal = Some (error, sdp', ip') /\
    working_sets_ok sdp'.
Proof.
  destruct (get_local_rgrp_reserves Examples.lock_first_busy Examples.sbd_two_groups_fresh
              Examples.inode_no_goal (mk_alloc 1 0 None))
    as (error & sdp' & ip' & Hget & Hok & _).
  - apply two_groups_ok. lia.
  - apply lock_first_busy_nonzero.
  - reflexivity.
  - exists error, sdp', ip'. split; [exact Hget|exact Hok].
Defined.

(** ** The reservation *)

(** X15: [gfs2_inplace_reserve_i] crashes only in the warning of an empty
    request under the debug option; an empty request is otherwise refused
    with -EINVAL before any lock is asked for.  For a request of at least
    one block, when the index as read is well formed, a return of 0 keeps
    the lock of the index and leaves the reservation on a group of the index
    whose free count covers the request; an error leaves the reservation as
    it was, and the lock of the index has been given back unless it is the
    error of taking it. *)
Theorem inplace_reserve_outcome (lock : glock_oracle)
    (gfs2_rindex_hold : gfs2_sbd -> Z * gfs2_sbd)
    (sdp : gfs2_sbd) (ip : gfs2_inode) (al : gfs2_alloc) (jiffies : Z) :
  i_alloc ip = Some al ->
  lock_errors_nonzero lock ->
  (fst (gfs2_rindex_hold sdp) = 0 -> working_sets_ok (snd (gfs2_rindex_hold sdp))) ->
  match gfs2_inplace_reserve_i lock gfs2_rindex_hold sdp ip jiffies with
  | None => al_requested al = 0 /\ ar_debug sdp = true
  | Some (error, sdp', ip', ev) =>
      if al_requested al =? 0 then error = - EINVAL /\ ev = [] /\ ip' = ip
      else if error =? 0 then
        ev = [EV_RINDEX_HOLD] /\
        exists rgd, (rgd < length (sd_rindex_list sdp'))%nat /\
          i_alloc ip' = Some (mk_alloc (al_requested al) (al_alloced al) (Some rgd)) /\
          al_requested al <= rd_free_clone (rgrpd_at sdp' rgd)
      else
        i_alloc ip' = Some al /\
        ((ev = [EV_RINDEX_HOLD] /\ error = fst (gfs2_rindex_hold sdp)) \/
         ev = [EV_RINDEX_HOLD; EV_RINDEX_DQ])
  end.
Proof.
  intros Hal Hlock Hhold. unfold gfs2_inplace_reserve_i. rewrite Hal.
  cbn [mbind option_bind]. unfold gfs2_assert_warn, gfs2_assert_warn_i.
  destruct (Z.eqb_spec (al_requested al) 0) as [Hz|Hnz]; cbn [negb].
  - destruct (jiffies <? _); cbn [mbind option_bind negb Z.eqb].
    + change (-2 =? 0) with false. cbn [negb]. auto.
    + destruct (ar_debug sdp); cbn [mbind option_bind]; [auto|].
      change (-1 =? 0) with false. cbn [negb]. auto.
  - cbn [mbind option_bind]. change (0 =? 0) with true. cbn [negb].
    destruct (gfs2_rindex_hold sdp) as [herr sdp1] eqn:Hh. simpl in Hhold.
    destruct (Z.eqb_spec herr 0) as [->|Hne]; cbn [negb].
    + destruct (get_local_rgrp_reserves lock sdp1 ip al (Hhold eq_refl) Hlock Hal)
        as (error & sdp' & ip' & Hget & _ & Hl & Hres).
      rewrite Hget. cbn [mbind option_bind].
      destruct (Z.eqb_spec error 0) as [->|Hne]; cbn [negb].
      * change (0 =? 0) with true. cbn match. split; [reflexivity|].
        destruct Hres as (rgd & Hr & Hfit & Hi & _). exists rgd.
        rewrite Hl. split; [exact Hr|]. split; [exact Hi|].
        unfold rgrp_fits in Hfit. unfold rgrpd_at in *. rewrite Hl. lia.
      * destruct (Z.eqb_spec error 0); [contradiction|].
        split; [apply Hres|now right].
    + destruct (Z.eqb_spec herr 0); [contradiction|].
      split; [exact Hal|]. left. split; reflexivity.
Qed.

Lemma inplace_reserve_outcome_witness :
  exists sdp' ip' rgd,
    gfs2_inplace_reserve_i Examples.lock_first_busy (fun s => (0, s))
      Examples.sbd_two_groups_fresh Examples.inode_no_goal 0
      = Some (0, sdp', ip', [EV_RINDEX_HOLD]) /\
    i_alloc ip' = Some (mk_alloc 1 0 (Some rgd)) /\
    1 <= rd_free_clone (rgrpd_at sdp' rgd).
Proof.
  pose proof (inplace_reserve_outcome Examples.lock_first_busy (fun s => (0, s))
                Examples.sbd_two_groups_fresh Examples.inode_no_goal (mk_alloc 1 0 None) 0
                eq_refl lock_first_busy_nonzero
                (fun _ => two_groups_ok 0 ltac:(lia))) as H.
  destruct (gfs2_inplace_reserve_i _ _ _ _ _) as [[[[error sdp'] ip'] ev]|] eqn:Hr.
  - assert (He : error = 0) by (vm_compute in Hr; congruence). subst error.
    change (al_requested (mk_alloc 1 0 None) =? 0) with false in H.
    change (0 =? 0) with true in H. cbn match in H.
    destruct H as (-> & rgd & _ & Hi & Hfit).
    exists sdp', ip', rgd. split; [reflexivity|]. split; [exact Hi|exact Hfit].
  - destruct H as [H _]. discriminate H.
Defined.

End ReserveFacts.

(** * Copies between buffers *)

Module CopyFacts.
Import RgrpFacts.

Lemma list_inserts_splice {A} (k l : list A) (i : nat) :
  (i + length k <= length l)%nat ->
  list_inserts i k l = take i l ++ k ++ drop (i + length k) l.
Proof.
  intros Hlen.
  rewrite <- (take_drop i l) at 1.
  replace i with (length (take i l) + 0)%nat at 1 by (rewrite length_take; lia).
  rewrite list_inserts_app_r. f_equal.
  rewrite <- (take_drop (length k) (drop i l)) at 1.
  rewrite list_inserts_0_r by (rewrite length_take, length_drop; lia).
  now rewrite drop_drop.
Qed.

Lemma memcpy_splice (dst src : list Z) (off n : Z) :
  0 <= off -> 0 <= n <= Z.of_nat (length src) -> off + n <= Z.of_nat (length dst) ->
  memcpy dst off src 0 n =
    take (Z.to_nat off) dst ++ take (Z.to_nat n) src ++ drop (Z.to_nat (off + n)) dst.
Proof.
  intros Hoff Hn Hlen. unfold memcpy. change (Z.to_nat 0) with 0%nat. rewrite drop_0.
  rewrite list_inserts_splice by (rewrite length_take; lia).
  rewrite length_take. do 3 f_equal. lia.
Qed.

Lemma memcpy_all (dst src : list Z) (n : Z) :
  n = Z.of_nat (length src) -> n <= Z.of_nat (length dst) ->
  memcpy dst 0 src 0 n = src ++ drop (Z.to_nat n) dst.
Proof.
  intros Hn Hlen. rewrite memcpy_splice by lia.
  change (Z.to_nat 0) with 0%nat. rewrite take_0, take_ge by lia. reflexivity.
Qed.

(** A copy made in two parts. *)
Lemma memcpy_parts (dst src : list Z) (off n1 n : Z) :
  0 <= off -> 0 <= n1 <= n -> n <= Z.of_nat (length src) ->
  off + n <= Z.of_nat (length dst) ->
  memcpy (memcpy dst off src 0 n1) (off + n1) (drop (Z.to_nat n1) src) 0 (n - n1) =
  memcpy dst off src 0 n.
Proof.
  intros Hoff Hn1 Hn Hlen.
  rewrite (memcpy_splice dst src off n1) by lia.
  rewrite (memcpy_splice dst src off n) by lia.
  set (pre := take (Z.to_nat off) dst).
  assert (Hpre : length (pre ++ take (Z.to_nat n1) src) = Z.to_nat (off + n1)).
  { subst pre. rewrite length_app, !length_take. lia. }
  rewrite memcpy_splice.
  - rewrite (app_assoc pre).
    rewrite take_app_length' by (now rewrite Hpre).
    rewrite drop_app_ge by lia. rewrite Hpre, drop_drop.
    rewrite <- !app_assoc. f_equal.
    rewrite (app_assoc (take _ src)), take_take_drop.
    f_equal; f_equal; lia.
  - lia.
  - rewrite length_drop. lia.
  - rewrite !length_app, length_drop. subst pre. rewrite !length_take. lia.
Qed.

End CopyFacts.

(** * Properties of the utilities *)

Module UtilFacts.
Import Rgrp Util RgrpFacts CopyFacts.

(** ** [gfs2_icbit_munge] *)

Lemma icbit_split (P bit : Z) :
  0 < P -> 0 <= bit ->
  bit = 8 * P * icbit_page P bit + 8 * icbit_byte P bit + icbit_bit P bit /\
  0 <= icbit_page P bit /\ 0 <= icbit_byte P bit < P /\ 0 <= icbit_bit P bit < 8.
Proof.
  intros HP Hb. unfold icbit_page, icbit_byte, icbit_bit.
  pose proof (Z.div_mod bit (8 * P) ltac:(lia)) as H1.
  pose proof (Z.mod_pos_bound bit (8 * P) ltac:(lia)) as H2.
  pose proof (Z.div_mod (bit mod (8 * P)) 8 ltac:(lia)) as H3.
  pose proof (Z.mod_pos_bound (bit mod (8 * P)) 8 ltac:(lia)) as H4.
  assert (0 <= bit / (8 * P)) by (apply Z.div_pos; lia).
  assert (0 <= bit mod (8 * P) / 8) by (apply Z.div_pos; lia).
  assert (bit mod (8 * P) / 8 < P) by (apply Z.div_lt_upper_bound; lia).
  lia.
Qed.

Lemma land_bit (x b : Z) :
  0 <= b -> Z.land x (Z.shiftl 1 b) = if Z.testbit x b then 2 ^ b else 0.
Proof.
  intros Hb. rewrite Z.shiftl_1_l. apply Z.bits_inj'. intros n Hn.
  rewrite Z.land_spec, Z.pow2_bits_eqb by lia.
  destruct (Z.eqb_spec b n) as [->|Hne].
  - destruct (Z.testbit x n); [now rewrite Z.pow2_bits_true by lia|now rewrite Z.bits_0].
  - rewrite andb_false_r.
    destruct (Z.testbit x b); [now rewrite Z.pow2_bits_false by lia|now rewrite Z.bits_0].
Qed.

Lemma byte_bits (x n : Z) : 0 <= n -> Z.testbit (x mod 256) n = Z.testbit x n && (n <? 8).
Proof.
  intros Hn. change 256 with (2 ^ 8). rewrite Z.testbit_mod_pow2 by lia.
  now rewrite andb_comm.
Qed.

Lemma byte_range (x : Z) : 0 <= x mod 256 < 256.
Proof. apply Z.mod_pos_bound. lia. Qed.

(** The byte [gfs2_icbit_munge] stores. *)
Lemma munged_bits (byte b new_value n : Z) :
  0 <= b < 8 -> 0 <= n < 8 ->
  Z.testbit ((if negb (new_value =? 0)
              then Z.lor byte (Z.shiftl 1 b)
              else Z.land byte (Z.lnot (Z.shiftl 1 b))) mod 256) n =
  if n =? b then negb (new_value =? 0) else Z.testbit byte n.
Proof.
  intros Hb Hn. rewrite byte_bits by lia.
  replace (n <? 8) with true by (symmetry; apply Z.ltb_lt; lia). rewrite andb_true_r.
  rewrite Z.shiftl_1_l.
  destruct (new_value =? 0); cbn [negb].
  - rewrite Z.land_spec, Z.lnot_spec, Z.pow2_bits_eqb by lia.
    rewrite (Z.eqb_sym b n). destruct (n =? b); [apply andb_false_r|apply andb_true_r].
  - rewrite Z.lor_spec, Z.pow2_bits_eqb by lia.
    rewrite (Z.eqb_sym b n). destruct (n =? b); [apply orb_true_r|apply orb_false_r].
Qed.

(** X16: on a bitmap of whole pages [gfs2_icbit_munge] sets or clears
    exactly the bit asked for: that bit then reads as [new_value] says,
    every other bit reads as before, and the bitmap keeps its shape.  The
    file system is withdrawn when the bit already had the value asked for,
    and the byte is written all the same.  A bit past the last page is an
    access outside the bitmap. *)
Theorem icbit_munge_effect (P : Z) (sdp : gfs2_sbd) (bitmap : list (list Z))
    (bit new_value : Z) :
  0 < P -> 0 <= bit -> icbitmap_ok P bitmap ->
  if bit <? 8 * P * Z.of_nat (length bitmap) then
    exists old sdp' bitmap',
      icbit_value P bitmap bit = Some old /\
      gfs2_icbit_munge P sdp bitmap bit new_value = Some (sdp', bitmap') /\
      icbitmap_ok P bitmap' /\ length bitmap' = length bitmap /\
      icbit_value P bitmap' bit =
        Some (if new_value =? 0 then 0 else 2 ^ icbit_bit P bit) /\
      (forall bit2, 0 <= bit2 -> bit2 <> bit ->
         icbit_value P bitmap' bit2 = icbit_value P bitmap bit2) /\
      sdp' = if Bool.eqb (old =? 0) (new_value =? 0)
             then set_sd_withdrawn sdp true else sdp
  else gfs2_icbit_munge P sdp bitmap bit new_value = None.
Proof.
  intros HP Hbit Hok.
  destruct (icbit_split P bit HP Hbit) as (Hsplit & Hc & Ho & Hb).
  destruct (Z.ltb_spec bit (8 * P * Z.of_nat (length bitmap))) as [Hin|Hout].
  - assert (Hcl : (Z.to_nat (icbit_page P bit) < length bitmap)%nat) by nia.
    destruct (lookup_lt_is_Some_2 _ _ Hcl) as [page Hpage].
    pose proof (Forall_lookup_1 _ _ _ _ Hok Hpage) as [Hplen Hpbytes].
    assert (Hol : (Z.to_nat (icbit_byte P bit) < length page)%nat) by lia.
    destruct (lookup_lt_is_Some_2 _ _ Hol) as [byte Hbyte].
    unfold gfs2_icbit_munge, icbit_value. rewrite Hpage. cbn [mbind option_bind].
    rewrite Hbyte. cbn [mbind option_bind].
    eexists _, _, _. split; [reflexivity|]. split; [reflexivity|].
    split; [|split; [apply length_insert|]].
    { apply Forall_insert; [exact Hok|]. split; [now rewrite length_insert|].
      apply Forall_insert; [exact Hpbytes|apply byte_range]. }
    split; [|split].
    + rewrite list_lookup_insert_eq by exact Hcl. cbn [mbind option_bind].
      rewrite list_lookup_insert_eq by exact Hol. cbn [mbind option_bind].
      rewrite land_bit by lia. rewrite munged_bits by lia. rewrite Z.eqb_refl.
      now destruct (new_value =? 0).
    + intros bit2 Hbit2 Hne.
      destruct (icbit_split P bit2 HP Hbit2) as (Hsplit2 & Hc2 & Ho2 & Hb2).
      destruct (decide (icbit_page P bit2 = icbit_page P bit)) as [Hce|Hcne].
      * rewrite Hce, list_lookup_insert_eq, Hpage by exact Hcl. cbn [mbind option_bind].
        destruct (decide (icbit_byte P bit2 = icbit_byte P bit)) as [Hoe|Hone].
        -- rewrite Hoe, list_lookup_insert_eq, Hbyte by exact Hol. cbn [mbind option_bind].
           rewrite !land_bit by lia. rewrite munged_bits by lia.
           destruct (Z.eqb_spec (icbit_bit P bit2) (icbit_bit P bit)); [lia|reflexivity].
        -- rewrite list_lookup_insert_ne by lia. reflexivity.
      * rewrite list_lookup_insert_ne by lia. reflexivity.
    + unfold gfs2_assert_withdraw. now destruct (Bool.eqb _ _).
  - unfold gfs2_icbit_munge.
    rewrite (lookup_ge_None_2 bitmap (Z.to_nat (icbit_page P bit))) by nia. reflexivity.
Qed.

Lemma icbit_munge_effect_witness :
  exists old sdp' bitmap',
    icbit_value 2 [[0; 0]; [0; 255]] 27 = Some old /\
    gfs2_icbit_munge 2 Examples.sbd_one_group [[0; 0]; [0; 255]] 27 0 = Some (sdp', bitmap') /\
    icbit_value 2 bitmap' 27 = Some 0.
Proof.
  assert (Hok : icbitmap_ok 2 [[0; 0]; [0; 255]]).
  { repeat constructor; lia. }
  destruct (icbit_munge_effect 2 Examples.sbd_one_group [[0; 0]; [0; 255]] 27 0
              ltac:(lia) ltac:(lia) Hok) as (old & sdp' & bm' & H1 & H2 & _ & _ & H3 & _).
  exists old, sdp', bm'. split; [exact H1|]. split; [exact H2|exact H3].
Defined.

(** ** [gfs2_printf_i] *)

(** What [vsnprintf] leaves in a buffer that has room for [size] bytes at
    [off]. *)
Lemma vsnprintf_splice (buf : list Z) (off size : Z) (text : list Z) :
  0 <= off -> 0 < size -> off + size <= Z.of_nat (length buf) ->
  let n := Z.min (Z.of_nat (length text)) (size - 1) in
  snd (vsnprintf buf off size text) =
    take (Z.to_nat off) buf ++ take (Z.to_nat n) text ++
    0 :: drop (Z.to_nat (off + n + 1)) buf.
Proof.
  intros Hoff Hsize Hlen n. unfold vsnprintf. fold n. cbn [snd].
  rewrite memcpy_splice by lia.
  assert (Hn : length (take (Z.to_nat n) text) = Z.to_nat n) by (rewrite length_take; lia).
  rewrite app_assoc.
  replace (Z.to_nat (off + n))
    with (length (take (Z.to_nat off) buf ++ take (Z.to_nat n) text) + 0)%nat at 1
    by (rewrite length_app, length_take, Hn; lia).
  rewrite insert_app_r.
  destruct (drop (Z.to_nat (off + n)) buf) as [|x rest] eqn:Hd.
  { apply (f_equal length) in Hd. rewrite length_drop in Hd. simpl in Hd. lia. }
  cbn [insert list_insert]. rewrite <- app_assoc. do 3 f_equal.
  replace (Z.to_nat (off + n + 1)) with (1 + Z.to_nat (off + n))%nat by lia.
  rewrite Nat.add_comm, <- drop_drop, Hd. reflexivity.
Qed.

(** X17: [size] and [*count] are unsigned numbers of 32 bits and the room
    left, [size - *count], is taken as an [int].  With a buffer of at least
    [size] bytes and [*count] within [size], [gfs2_printf_i] never writes
    before [*count] nor at or past [size].  While the room is below 2^31, a
    text that leaves room for its NUL ([*count] plus its length below
    [size]) is appended at [*count], followed by a NUL, and [*count] moves
    to that NUL; any other text is cut, 1 is returned and [*count] stays.
    With a room of 2^31 or more the [int] is negative: 1 is returned and
    nothing is written, whatever the text.  Nothing goes to the console. *)
Theorem printf_appends (b : list Z) (size count : Z) (text : list Z) :
  0 <= count <= size -> size < 2 ^ 32 -> size <= Z.of_nat (length b) ->
  exists ret b' count',
    gfs2_printf_i (Some b) size count text = (ret, Some b', count', None) /\
    length b' = length b /\
    take (Z.to_nat count) b' = take (Z.to_nat count) b /\
    drop (Z.to_nat size) b' = drop (Z.to_nat size) b /\
    count <= count' <= size /\
    (2 ^ 31 <= size - count -> ret = 1 /\ b' = b /\ count' = count) /\
    if (size - count <? 2 ^ 31) && (count + Z.of_nat (length text) <? size)
    then ret = 0 /\ count' = count + Z.of_nat (length text) /\
         take (Z.to_nat count' + 1) b' = take (Z.to_nat count) b ++ text ++ [0]
    else ret = 1 /\ count' = count.
Proof.
  intros Hcount Hsize Hlen. unfold gfs2_printf_i.
  destruct (Z.ltb_spec (size - count) (2 ^ 31)) as [Hint|Hneg]; cbn [andb].
  2:{ assert (Hleft : to_int (size - count) = size - count - 2 ^ 32).
      { unfold to_int. rewrite wrap32_small by lia.
        destruct (Z.ltb_spec (size - count) (2 ^ 31)); lia. }
      rewrite Hleft.
      destruct (Z.leb_spec (size - count - 2 ^ 32) 0); [|lia].
      eexists _, _, _. split; [reflexivity|]. split; [reflexivity|].
      split; [reflexivity|]. split; [reflexivity|]. split; [lia|].
      split; [intros _|]; repeat split; reflexivity. }
  rewrite EattrFacts.to_int_small by lia.
  destruct (Z.leb_spec (size - count) 0) as [Hfull|Hroom].
  - eexists _, _, _. split; [reflexivity|]. split; [reflexivity|].
    split; [reflexivity|]. split; [reflexivity|]. split; [lia|]. split; [lia|].
    destruct (Z.ltb_spec (count + Z.of_nat (length text)) size); [lia|]. split; reflexivity.
  - pose proof (vsnprintf_splice b count (size - count) text ltac:(lia) Hroom ltac:(lia))
      as Hsp. cbv zeta in Hsp.
    destruct (vsnprintf b count (size - count) text) as [out b'] eqn:Hv.
    assert (Hout : out = Z.of_nat (length text)) by (unfold vsnprintf in Hv; congruence).
    simpl in Hsp. subst out.
    set (n := Z.min (Z.of_nat (length text)) (size - count - 1)) in *.
    assert (Hn : length (take (Z.to_nat n) text) = Z.to_nat n) by (rewrite length_take; lia).
    assert (Hb' : length b' = length b).
    { rewrite Hsp. rewrite !length_app, Hn. cbn [length]. rewrite length_take, length_drop. lia. }
    assert (Htake : take (Z.to_nat count) b' = take (Z.to_nat count) b).
    { rewrite Hsp. rewrite take_app_le by (rewrite length_take; lia).
      rewrite take_take. f_equal. lia. }
    assert (Hdrop : drop (Z.to_nat size) b' = drop (Z.to_nat size) b).
    { rewrite Hsp. rewrite drop_app_ge by (rewrite length_take; lia).
      rewrite length_take. rewrite drop_app_ge by lia. rewrite Hn.
      replace (Z.to_nat size - Z.to_nat count `min` length b - Z.to_nat n)%nat
        with (S (Z.to_nat (size - count - n - 1))) by lia.
      cbn [drop]. rewrite drop_drop. f_equal. lia. }
    destruct (Z.ltb_spec (Z.of_nat (length text)) (size - count)) as [Hfit|Hcut].
    + rewrite wrap32_small by lia.
      eexists _, _, _. split; [reflexivity|]. split; [exact Hb'|]. split; [exact Htake|].
      split; [exact Hdrop|]. split; [lia|]. split; [lia|].
      destruct (Z.ltb_spec (count + Z.of_nat (length text)) size); [|lia].
      split; [reflexivity|]. split; [reflexivity|].
      assert (Hnt : Z.to_nat n = length text) by lia.
      rewrite Hsp, Hnt, firstn_all.
      replace (Z.to_nat (count + Z.of_nat (length text)) + 1)%nat
        with (length (take (Z.to_nat count) b) + (length text + 1))%nat
        by (rewrite length_take; lia).
      rewrite take_app_add. f_equal.
      rewrite take_app_add. f_equal.
    + eexists _, _, _. split; [reflexivity|]. split; [exact Hb'|]. split; [exact Htake|].
      split; [exact Hdrop|]. split; [lia|]. split; [lia|].
      destruct (Z.ltb_spec (count + Z.of_nat (length text)) size); [lia|]. split; reflexivity.
Qed.

Lemma printf_appends_witness :
  exists ret b' count',
    gfs2_printf_i (Some [97; 98; 0; 7; 7; 7; 7; 9]) 7 2 [99; 100] = (ret, Some b', count', None) /\
    ret = 0 /\ count' = 4 /\ take 5 b' = [97; 98; 99; 100; 0].
Proof.
  destruct (printf_appends [97; 98; 0; 7; 7; 7; 7; 9] 7 2 [99; 100])
    as (ret & b' & count' & Hp & _ & _ & _ & _ & _ & Hret & Hc & Ht); [lia|lia|simpl; lia|].
  exists ret, b', count'. split; [exact Hp|]. split; [exact Hret|]. split; [exact Hc|].
  rewrite Hc in Ht. exact Ht.
Defined.

(** ** [gfs2_add_bh_to_ub] *)

(** X18: [gfs2_add_bh_to_ub] on a user buffer within its memory.  A block
    that does not fit ([ub_count] + 8 + [b_size] above [ub_size]) gives
    -ENOMEM and leaves the buffer alone.  One that fits is appended at
    [ub_count] as the eight bytes of its number followed by its data,
    [ub_count] moves past it, and the rest of the memory is as before.  A
    fault in the first copy gives -EFAULT with [ub_count] unchanged; a fault
    in the second gives -EFAULT with [ub_count] already past the number. *)
Theorem add_bh_to_ub_appends (m : machine) (uncopied1 uncopied2 : Z)
    (ub : gfs2_user_buffer) (bh : buffer_head) :
  user_buffer_ok ub -> buffer_head_ok bh ->
  length (u64_bytes m (b_blocknr bh)) = 8%nat ->
  ub_count ub + 8 + b_size bh < 2 ^ size_t_bits m ->
  let '(ret, ub') := gfs2_add_bh_to_ub m uncopied1 uncopied2 ub bh in
  ub_size ub' = ub_size ub /\
  if ub_size ub <? ub_count ub + 8 + b_size bh then ret = - ENOMEM /\ ub' = ub
  else if negb (uncopied1 =? 0) then ret = - EFAULT /\ ub_count ub' = ub_count ub
  else if negb (uncopied2 =? 0) then ret = - EFAULT /\ ub_count ub' = ub_count ub + 8
  else
    ret = 0 /\ user_buffer_ok ub' /\
    ub_count ub' = ub_count ub + 8 + b_size bh /\
    ub_data ub' =
      take (Z.to_nat (ub_count ub)) (ub_data ub) ++
      u64_bytes m (b_blocknr bh) ++ b_data bh ++
      drop (Z.to_nat (ub_count ub + 8 + b_size bh)) (ub_data ub).
Proof.
  intros (Hcount & Hsize & Hmem) Hbh Hu64 Hwrap. unfold buffer_head_ok in Hbh.
  unfold gfs2_add_bh_to_ub, copy_to_user.
  rewrite (Z.mod_small (ub_count ub + 8 + b_size bh)) by lia.
  destruct (Z.ltb_spec (ub_size ub) (ub_count ub + 8 + b_size bh)) as [Hbig|Hfits].
  - split; [reflexivity|]. split; reflexivity.
  - destruct (Z.eqb_spec uncopied1 0) as [->|Hf1]; cbn [negb];
      [|split; [reflexivity|]; split; reflexivity].
    cbn [ub_data ub_size ub_count].
    destruct (Z.eqb_spec uncopied2 0) as [->|Hf2]; cbn [negb].
    + cbn [ub_data ub_size ub_count]. rewrite !Z.sub_0_r.
      rewrite !wrap32_small by lia.
      split; [reflexivity|]. split; [reflexivity|].
      split.
      { unfold user_buffer_ok. cbn [ub_data ub_size ub_count].
        rewrite !length_memcpy. lia. }
      split; [lia|].
      rewrite (memcpy_splice (ub_data ub)) by lia.
      rewrite (take_ge (u64_bytes m (b_blocknr bh))) by lia.
      rewrite memcpy_splice.
      * rewrite (take_ge (b_data bh)) by lia.
        set (pre := take (Z.to_nat (ub_count ub)) (ub_data ub)).
        set (u := u64_bytes m (b_blocknr bh)) in *.
        set (post := drop (Z.to_nat (ub_count ub + 8)) (ub_data ub)).
        assert (Hpre : length (pre ++ u) = Z.to_nat (ub_count ub + 8)).
        { subst pre. rewrite length_app, length_take, Hu64. lia. }
        rewrite (app_assoc pre u post).
        rewrite take_app_length' by (now rewrite Hpre).
        rewrite drop_app_ge by lia. rewrite Hpre. subst post. rewrite drop_drop.
        rewrite <- !app_assoc. do 4 f_equal. lia.
      * lia.
      * lia.
      * rewrite !length_app, Hu64, length_take, length_drop. lia.
    + cbn [ub_data ub_size ub_count]. rewrite !wrap32_small by lia.
      split; [reflexivity|]. split; reflexivity.
Qed.


Lemma add_bh_to_ub_appends_witness :
  exists ub',
    gfs2_add_bh_to_ub (mk_machine 64 (fun z => [z; 0; 0; 0; 0; 0; 0; 0])) 0 0
      (mk_user_buffer (replicate 16 9) 14 1) (mk_buffer_head 7 [1; 2; 3; 4] 4) = (0, ub') /\
    ub_count ub' = 13 /\
    ub_data ub' = [9; 7; 0; 0; 0; 0; 0; 0; 0; 1; 2; 3; 4; 9; 9; 9].
Proof.
  pose proof (add_bh_to_ub_appends (mk_machine 64 (fun z => [z; 0; 0; 0; 0; 0; 0; 0])) 0 0
                (mk_user_buffer (replicate 16 9) 14 1) (mk_buffer_head 7 [1; 2; 3; 4] 4)) as H.
  destruct (gfs2_add_bh_to_ub _ _ _ _ _) as [ret ub'].
  destruct H as (_ & -> & _ & Hc & Hd).
  - unfold user_buffer_ok. simpl. lia.
  - reflexivity.
  - reflexivity.
  - simpl. lia.
  - exists ub'. split; [reflexivity|]. split; [exact Hc|exact Hd].
Defined.

End UtilFacts.

(** * Properties of the export of attribute blocks *)

Module EattrMetaFacts.
Import Eattr Util EattrMeta.

Lemma add_bh_too_big (m : machine) (u1 u2 : Z) (ub : gfs2_user_buffer) (bh : buffer_head) :
  0 <= ub_count ub + 8 + b_size bh < 2 ^ size_t_bits m ->
  ub_size ub < ub_count ub + 8 + b_size bh ->
  gfs2_add_bh_to_ub m u1 u2 ub bh = (- ENOMEM, ub).
Proof.
  intros Hwrap Hbig. unfold gfs2_add_bh_to_ub. rewrite Z.mod_small by exact Hwrap.
  destruct (Z.ltb_spec (ub_size ub) (ub_count ub + 8 + b_size bh)); [reflexivity|lia].
Qed.

Lemma get_eattr_meta_loop_error (m : machine) (bytes_of : block -> list Z)
    (sdp : gfs2_sbd) (d : disk) (eablk : list Z) :
  forall uncopied uncopied' n n' ub ub',
    fst (get_eattr_meta_loop m bytes_of uncopied sdp d eablk n ub) =
    fst (get_eattr_meta_loop m bytes_of uncopied' sdp d eablk n' ub').
Proof.
  induction eablk as [|bn rest IH]; intros uncopied uncopied' n n' ub ub'; simpl.
  - reflexivity.
  - destruct (bn =? 0); [reflexivity|]. destruct (d bn) as [eabh|]; [|reflexivity].
    destruct (gfs2_add_bh_to_ub m _ _ ub _) as [r1 ub1].
    destruct (gfs2_add_bh_to_ub m _ _ ub' _) as [r2 ub2]. apply IH.
Qed.

Lemma get_eattr_meta_loop_full (m : machine) (bytes_of : block -> list Z)
    (uncopied : nat -> Z * Z) (sdp : gfs2_sbd) (d : disk) (ub : gfs2_user_buffer) :
  0 <= ub_count ub + 8 + sd_bsize sdp < 2 ^ size_t_bits m ->
  ub_size ub < ub_count ub + 8 + sd_bsize sdp ->
  forall eablk n, snd (get_eattr_meta_loop m bytes_of uncopied sdp d eablk n ub) = ub.
Proof.
  intros Hwrap Hbig. induction eablk as [|bn rest IH]; intros n; simpl.
  - reflexivity.
  - destruct (bn =? 0); [reflexivity|]. destruct (d bn) as [eabh|]; [|reflexivity].
    rewrite add_bh_too_big by assumption. apply IH.
Qed.

(** X19: [gfs2_get_eattr_meta] does not read what [gfs2_add_bh_to_ub]
    returns: the value it returns depends on the blocks read only, not on
    the user buffer nor on the faults of the copies, so that -ENOMEM and
    -EFAULT are never reported.  In particular a user buffer without room
    for one more block is left as it was, and the value returned is the
    one a buffer with room gets. *)
Theorem get_eattr_meta_unchecked (m : machine) (bytes_of : block -> list Z)
    (uncopied uncopied' : nat -> Z * Z) (sdp : gfs2_sbd) (d : disk) (ip : gfs2_inode)
    (ub ub' : gfs2_user_buffer) :
  fst (gfs2_get_eattr_meta m bytes_of uncopied sdp d ip ub) =
    fst (gfs2_get_eattr_meta m bytes_of uncopied' sdp d ip ub') /\
  (0 <= ub_count ub + 8 + sd_bsize sdp < 2 ^ size_t_bits m ->
   ub_size ub < ub_count ub + 8 + sd_bsize sdp ->
   snd (gfs2_get_eattr_meta m bytes_of uncopied sdp d ip ub) = ub).
Proof.
  unfold gfs2_get_eattr_meta.
  destruct (d (di_eattr ip)) as [bh|]; [|split; reflexivity].
  split.
  - destruct (gfs2_add_bh_to_ub m _ _ ub _) as [r ub1].
    destruct (gfs2_add_bh_to_ub m _ _ ub' _) as [r' ub1'].
    destruct (dif_ea_indirect ip); [|reflexivity].
    destruct (negb (mh_type bh =? GFS2_METATYPE_IN)); [reflexivity|].
    apply get_eattr_meta_loop_error.
  - intros Hwrap Hbig. rewrite add_bh_too_big by assumption.
    destruct (dif_ea_indirect ip); [|reflexivity].
    destruct (negb (mh_type bh =? GFS2_METATYPE_IN)); [reflexivity|].
    now apply get_eattr_meta_loop_full.
Qed.

Lemma get_eattr_meta_unchecked_witness :
  gfs2_get_eattr_meta (mk_machine 64 (fun z => [z; 0; 0; 0; 0; 0; 0; 0]))
    (fun _ => replicate 64 0) (fun _ => (0, 0)) EattrExamples.sbd_64
    EattrExamples.disk_foo (EattrExamples.inode_foo false) (mk_user_buffer [] 0 0)
  = (0, mk_user_buffer [] 0 0).
Proof.
  pose proof (get_eattr_meta_unchecked (mk_machine 64 (fun z => [z; 0; 0; 0; 0; 0; 0; 0]))
                (fun _ => replicate 64 0) (fun _ => (0, 0)) (fun _ => (0, 0))
                EattrExamples.sbd_64 EattrExamples.disk_foo (EattrExamples.inode_foo false)
                (mk_user_buffer [] 0 0) (mk_user_buffer (replicate 100 0) 100 0)) as [Hf Hs].
  rewrite (surjective_pairing (gfs2_get_eattr_meta _ _ _ _ _ _ _)).
  rewrite Hf, Hs; [reflexivity|simpl; lia|simpl; lia].
Defined.

End EattrMetaFacts.
(** * Properties of the writing of an attribute *)

Module EattrWriteFacts.
Import Eattr EattrWrite RgrpFacts CopyFacts.

Lemma memcpy_nothing (dst src : list Z) (off : Z) :
  0 <= off <= Z.of_nat (length dst) -> memcpy dst off src 0 0 = dst.
Proof.
  intros Hoff. rewrite memcpy_splice by lia. change (Z.to_nat 0) with 0%nat.
  rewrite take_0, Z.add_0_r. apply take_drop.
Qed.

(** Reading back the head of a payload. *)
Lemma memcpy_payload (dst data zeros : list Z) (off c : Z) :
  0 <= c <= Z.of_nat (length data) ->
  memcpy dst off (take (Z.to_nat c) data ++ zeros) 0 c = memcpy dst off data 0 c.
Proof.
  intros Hc. unfold memcpy. change (Z.to_nat 0) with 0%nat. rewrite !drop_0.
  rewrite take_app_le by (rewrite length_take; lia). now rewrite take_take, Nat.min_id.
Qed.

Section WriteLoop.
Variable sdp : gfs2_sbd.
Variable data_block : list Z -> block.
Variable alloc : nat -> Z.
Hypothesis jbsize_pos : 0 < sd_jbsize sdp.
Hypothesis data_block_type : forall p, mh_type (data_block p) = GFS2_METATYPE_ED.
Hypothesis data_block_bytes : forall p, ed_bytes (data_block p) = p.

(** The loop of [ea_write] followed by the loop of [ea_get_unstuffed]. *)
Lemma write_loop_read_back (n : nat) :
  forall (x : nat) (d : disk) (data : list Z) (len : Z) (buf : list Z) (pos : Z),
    len = Z.of_nat (length data) -> len < 2 ^ 32 ->
    (Z.of_nat n - 1) * sd_jbsize sdp < len <= Z.of_nat n * sd_jbsize sdp ->
    (forall i j, (x <= i < x + n)%nat -> (x <= j < x + n)%nat -> alloc i = alloc j -> i = j) ->
    0 <= pos -> pos + len <= Z.of_nat (length buf) ->
    exists d' ptrs,
      ea_write_loop sdp data_block alloc d x n data len = (d', ptrs, Z.of_nat n, 0) /\
      length ptrs = n /\
      (forall b, (forall i, (x <= i < x + n)%nat -> alloc i <> b) -> d' b = d b) /\
      ea_get_unstuffed_loop sdp d' ptrs len buf pos = (0, memcpy buf pos data 0 len).
Proof.
  induction n as [|n IH]; intros x d data len buf pos Hlen H32 Hn Hinj Hpos Hbuf.
  - assert (len = 0) by lia. subst len. rewrite H. simpl.
    exists d, []. split; [reflexivity|]. split; [reflexivity|]. split; [reflexivity|].
    rewrite memcpy_nothing by lia. reflexivity.
  - cbn [ea_write_loop].
    set (copy := if sd_jbsize sdp <? len then sd_jbsize sdp else len).
    set (payload := take (Z.to_nat copy) data
                    ++ replicate (Z.to_nat (sd_jbsize sdp - copy)) 0).
    set (d1 := disk_write d (alloc x) (data_block payload)).
    assert (Hcopy : 0 < copy <= len /\ copy <= sd_jbsize sdp).
    { subst copy. destruct (Z.ltb_spec (sd_jbsize sdp) len); lia. }
    destruct (IH (S x) d1 (drop (Z.to_nat copy) data) (wrap32 (len - copy))
                 (memcpy buf pos data 0 copy) (pos + copy))
      as (d' & ptrs & Hw & Hptrs & Hframe & Hget).
    { rewrite wrap32_small by lia. rewrite length_drop. lia. }
    { rewrite wrap32_small by lia. lia. }
    { rewrite wrap32_small by lia. subst copy.
      destruct (Z.ltb_spec (sd_jbsize sdp) len); nia. }
    { intros i j Hi Hj. apply Hinj; lia. }
    { lia. }
    { rewrite wrap32_small by lia. rewrite length_memcpy. lia. }
    rewrite Hw. exists d', (alloc x :: ptrs).
    split; [do 2 f_equal; lia|].
    split; [simpl; now rewrite Hptrs|].
    split.
    { intros b Hb. rewrite Hframe by (intros i Hi; apply Hb; lia).
      subst d1. unfold disk_write.
      destruct (Z.eqb_spec b (alloc x)) as [->|]; [|reflexivity].
      exfalso. apply (Hb x); [lia|reflexivity]. }
    cbn [ea_get_unstuffed_loop].
    rewrite Hframe.
    2:{ intros i Hi Heq. apply Hinj in Heq; lia. }
    subst d1. unfold disk_write at 1. rewrite Z.eqb_refl.
    rewrite data_block_type, Z.eqb_refl, data_block_bytes. cbn [negb].
    replace (if len <? sd_jbsize sdp then len else sd_jbsize sdp) with copy
      by (subst copy; destruct (Z.ltb_spec (sd_jbsize sdp) len),
            (Z.ltb_spec len (sd_jbsize sdp)); lia).
    subst payload. rewrite memcpy_payload by lia.
    destruct (Z.ltb_spec (sd_jbsize sdp) len) as [Hmore|Hlast].
    + assert (copy = sd_jbsize sdp) as Hc by (subst copy;
        destruct (Z.ltb_spec (sd_jbsize sdp) len); lia).
      rewrite Hc in *. rewrite Hget. f_equal.
      rewrite wrap32_small by lia. apply memcpy_parts; lia.
    + assert (copy = len) as Hc by (subst copy;
        destruct (Z.ltb_spec (sd_jbsize sdp) len); lia).
      assert (Hn0 : n = 0%nat) by nia. rewrite Hn0 in Hptrs.
      destruct ptrs; [|discriminate Hptrs]. rewrite Hc. reflexivity.
Qed.

End WriteLoop.

(** X20: a value written by [ea_write] is the value [gfs2_ea_get_copy]
    reads back from the record, whether it went into the record or into
    data blocks of its own: with a buffer at least as long as the value the
    copy returns 0 and the buffer begins with the value.  [ea_write] takes
    one block for every [sd_jbsize] bytes of an unstuffed value, started or
    full, counts them in [di_blocks], and its closing assertion holds. *)
Theorem ea_write_read_back (k : ondisk) (sdp : gfs2_sbd) (data_block : list Z -> block)
    (alloc : nat -> Z) (d : disk) (ea : gfs2_ea_header) (er : gfs2_ea_request)
    (data buf : list Z) :
  er_data er = Some data -> er_data_len er = Z.of_nat (length data) ->
  0 < sd_jbsize sdp -> er_data_len er < 2 ^ 32 ->
  DIV_RU (er_data_len er) (sd_jbsize sdp) < 256 ->
  (forall p, mh_type (data_block p) = GFS2_METATYPE_ED /\ ed_bytes (data_block p) = p) ->
  (forall i j, Z.of_nat i < 256 -> Z.of_nat j < 256 -> alloc i = alloc j -> i = j) ->
  er_data_len er <= Z.of_nat (length buf) ->
  exists ea' d' blocks,
    ea_write k sdp data_block alloc d ea er = Some (ea', d', blocks, false) /\
    blocks = ea_num_ptrs ea' /\
    GFS2_EA_DATA_LEN ea' = er_data_len er /\
    ea_num_ptrs ea' =
      (if GFS2_EAREQ_SIZE_STUFFED k er <=? sd_jbsize sdp then 0
       else DIV_RU (er_data_len er) (sd_jbsize sdp)) /\
    gfs2_ea_get_copy sdp d' true ea' buf =
      (0, data ++ drop (Z.to_nat (er_data_len er)) buf).
Proof.
  intros Hdata Hlen Hj H32 Hn Hblock Hinj Hbuf.
  assert (Hdiv : 0 <= DIV_RU (er_data_len er) (sd_jbsize sdp)).
  { unfold DIV_RU. apply Z.div_pos; lia. }
  assert (Hw32 : wrap32 (wrap32 (er_data_len er)) = er_data_len er).
  { rewrite (wrap32_small (er_data_len er)) by lia. apply wrap32_small. lia. }
  unfold ea_write. rewrite Hdata. cbn [mbind option_bind].
  destruct (GFS2_EAREQ_SIZE_STUFFED k er <=? sd_jbsize sdp).
  - eexists _, _, _. split; [reflexivity|]. split; [reflexivity|].
    split; [exact Hw32|]. split; [reflexivity|].
    unfold gfs2_ea_get_copy, GFS2_EA_IS_STUFFED, GFS2_EA_DATA_LEN. cbn [ea_num_ptrs ea_data_len ea_data].
    change (0 =? 0) with true. cbv iota. rewrite Hw32. f_equal.
    rewrite memcpy_splice.
    + change (Z.to_nat 0) with 0%nat. rewrite take_0. cbn [app].
      rewrite (take_ge data) by lia.
      rewrite take_app_length' by lia. reflexivity.
    + lia.
    + rewrite length_app, length_take. lia.
    + lia.
  - rewrite (Z.mod_small (DIV_RU _ _) 256) by lia.
    destruct (write_loop_read_back sdp data_block alloc Hj
                (fun p => proj1 (Hblock p)) (fun p => proj2 (Hblock p))
                (Z.to_nat (DIV_RU (er_data_len er) (sd_jbsize sdp)))
                0%nat d data (er_data_len er) buf 0)
      as (d' & ptrs & Hw & Hptrs & _ & Hget).
    { exact Hlen. }
    { exact H32. }
    { rewrite Z2Nat.id by exact Hdiv. unfold DIV_RU.
      pose proof (Z.div_mod (er_data_len er + sd_jbsize sdp - 1) (sd_jbsize sdp) ltac:(lia)).
      pose proof (Z.mod_pos_bound (er_data_len er + sd_jbsize sdp - 1) (sd_jbsize sdp) Hj).
      nia. }
    { intros i j Hi Hj'. apply Hinj; lia. }
    { lia. }
    { lia. }
    rewrite Hw. rewrite Z2Nat.id by exact Hdiv.
    eexists _, _, _. split; [reflexivity|]. split; [reflexivity|].
    split; [exact Hw32|]. split; [reflexivity|].
    unfold gfs2_ea_get_copy, GFS2_EA_IS_STUFFED, GFS2_EA_DATA_LEN.
    cbn [ea_num_ptrs ea_data_len ea_data ea_dataptrs].
    destruct (Z.eqb_spec (DIV_RU (er_data_len er) (sd_jbsize sdp)) 0) as [Hz|Hnz].
    + assert (Hl0 : er_data_len er = 0).
      { unfold DIV_RU in Hz.
        pose proof (Z.div_mod (er_data_len er + sd_jbsize sdp - 1) (sd_jbsize sdp) ltac:(lia)).
        pose proof (Z.mod_pos_bound (er_data_len er + sd_jbsize sdp - 1) (sd_jbsize sdp) Hj).
        nia. }
      rewrite Hw32, Hl0. rewrite memcpy_nothing by lia.
      destruct data; [reflexivity|simpl in Hlen; lia].
    + unfold ea_get_unstuffed, GFS2_EA_DATA_LEN. cbn [ea_data_len ea_dataptrs negb].
      rewrite Hw32. rewrite take_app_length' by lia.
      rewrite Hget. f_equal. apply memcpy_all; [exact Hlen|lia].
Qed.

Lemma ea_write_read_back_witness :
  exists ea' d' blocks,
    ea_write EattrExamples.format EattrExamples.sbd_64
      (fun p => mk_block GFS2_METATYPE_ED (fun _ => EattrExamples.no_record) [] p)
      (fun i => 100 + Z.of_nat i) EattrExamples.disk_foo EattrExamples.no_record
      (EattrExamples.request_foo (Some (seqZ 1 50)) 50 0) = Some (ea', d', blocks, false) /\
    blocks = 2 /\
    gfs2_ea_get_copy EattrExamples.sbd_64 d' true ea' (replicate 60 0) =
      (0, seqZ 1 50 ++ replicate 10 0).
Proof.
  destruct (ea_write_read_back EattrExamples.format EattrExamples.sbd_64
              (fun p => mk_block GFS2_METATYPE_ED (fun _ => EattrExamples.no_record) [] p)
              (fun i => 100 + Z.of_nat i) EattrExamples.disk_foo EattrExamples.no_record
              (EattrExamples.request_foo (Some (seqZ 1 50)) 50 0)
              (seqZ 1 50) (replicate 60 0))
    as (ea' & d' & blocks & Hw & Hb & _ & Hn & Hget).
  - reflexivity.
  - reflexivity.
  - simpl. lia.
  - simpl. lia.
  - vm_compute. reflexivity.
  - intros p. split; reflexivity.
  - intros i j _ _ Heq. lia.
  - simpl. lia.
  - exists ea', d', blocks. split; [exact Hw|]. split; [|exact Hget].
    rewrite Hb, Hn. reflexivity.
Defined.

End EattrWriteFacts.

(** * Properties of the search and of the removal of an attribute *)

Module EattrRemoveFacts.
Import Eattr EattrRemove EattrFacts.

(** ** The walk over the chain of a buffer *)

Section Chain.
Variable k : ondisk.
Variable b_size : Z.
Variable bn : Z.

(** The walk with the noting callback gives the chain. *)
Lemma note_loop_chain (bh : block) (fuel : nat) :
  forall (acc : list gfs2_ea_location) (s : Z) (q : option Z) (w : walk _),
    ea_foreach_loop fuel k b_size ea_note acc bn bh s q = Some w ->
    exists recs,
      ea_chain k b_size bn bh s q recs (w_error w) /\
      w_private w = acc ++ recs /\ w_block w = bh.
Proof.
  induction fuel as [|fuel IH]; intros acc s q w Hw; [discriminate|].
  simpl in Hw.
  destruct (ea_record_ok k b_size s (ea_at bh s)) eqn:Hok; simpl in Hw.
  - destruct (GFS2_EA_IS_LAST k (ea_at bh s)) eqn:Hlast.
    + exists [mk_location bn s q].
      destruct (Z.eqb_spec (s + GFS2_EA_REC_LEN (ea_at bh s)) b_size) as [He|Hne];
        simpl in Hw; injection Hw as <-; simpl.
      * split; [|split; reflexivity].
        pose proof (chain_last k b_size bn bh s q Hok Hlast) as Hc.
        rewrite He, Z.eqb_refl in Hc. exact Hc.
      * split; [|split; reflexivity].
        pose proof (chain_last k b_size bn bh s q Hok Hlast) as Hc.
        destruct (Z.eqb_spec (s + GFS2_EA_REC_LEN (ea_at bh s)) b_size); [contradiction|].
        exact Hc.
    + destruct (ea_foreach_loop fuel k b_size ea_note _ bn bh _ _) as [w1|] eqn:Hw1;
        [|discriminate].
      simpl in Hw. injection Hw as <-.
      destruct (IH _ _ _ _ Hw1) as (recs & Hc & Hp & Hb).
      exists (mk_location bn s q :: recs). simpl.
      split; [now apply chain_next|]. split; [|exact Hb].
      rewrite Hp, <- app_assoc. reflexivity.
  - injection Hw as <-. exists []. simpl.
    split; [now apply chain_fail|]. split; [now rewrite app_nil_r|reflexivity].
Qed.

(** A callback that leaves the buffer alone is called on the records of
    the chain in turn, until it returns an error. *)
Lemma chain_loop (d : disk) (bh : block) (s : Z) (q : option Z)
    (recs : list gfs2_ea_location) (err : Z) :
  d bn = Some bh ->
  ea_chain k b_size bn bh s q recs err ->
  forall (A : Type) (f : ea_call_t A) (data : A) (fuel : nat),
    ea_reads f -> (1 <= fuel)%nat -> b_size - s < Z.of_nat fuel ->
    exists w,
      ea_foreach_loop fuel k b_size f data bn bh s q = Some w /\
      w_block w = bh /\ (w_error w, w_private w) = ea_run d f data recs err.
Proof.
  intros Hd Hc. induction Hc as [s q Hok|s q Hok Hlast|s q recs err Hok Hlast Hc IH];
    intros A f data fuel Hf H1 Hfuel; (destruct fuel as [|fuel]; [lia|]); simpl.
  - rewrite Hok. simpl. eexists. split; [reflexivity|]. split; reflexivity.
  - rewrite Hok. simpl. rewrite Hd. simpl.
    pose proof (Hf data bn bh s q) as Hro.
    destruct (f data bn bh s q) as [[e data'] bh'] eqn:Hcall. simpl in Hro. subst bh'.
    destruct (Z.eqb_spec e 0) as [->|Hne]; simpl.
    + rewrite Hlast.
      destruct (Z.eqb_spec (s + GFS2_EA_REC_LEN (ea_at bh s)) b_size); simpl;
        eexists; (split; [reflexivity|]); split; reflexivity.
    + eexists. split; [reflexivity|]. split; reflexivity.
  - rewrite Hok. simpl. rewrite Hd. simpl.
    pose proof (Hf data bn bh s q) as Hro.
    destruct (f data bn bh s q) as [[e data'] bh'] eqn:Hcall. simpl in Hro. subst bh'.
    destruct (Z.eqb_spec e 0) as [->|Hne]; simpl.
    + rewrite Hlast.
      apply ea_record_ok_true in Hok as (Hnz & Hs & Hend & _).
      pose proof (rec_len_range (ea_at bh s)).
      destruct (IH A f data' fuel Hf) as (w & Hw & Hb & Hr); [lia|lia|].
      rewrite Hw. simpl. eexists. split; [reflexivity|]. split; [exact Hb|exact Hr].
    + eexists. split; [reflexivity|]. split; reflexivity.
Qed.

End Chain.

(** ** The walk over a store *)

Section Store.
Variable k : ondisk.
Variable sdp : gfs2_sbd.
Hypothesis header_size : 0 <= sizeof_meta_header k.

Lemma note_block (acc : list gfs2_ea_location) (bn : Z) (bh : block) (w : walk _) :
  ea_foreach_i k sdp ea_note acc bn bh = Some w ->
  exists recs,
    block_records k sdp bn bh recs (w_error w) /\
    w_private w = acc ++ recs /\ w_block w = bh.
Proof.
  unfold ea_foreach_i, block_records.
  destruct (mh_type bh =? GFS2_METATYPE_EA); cbn [negb].
  - apply note_loop_chain.
  - intros [= <-]. exists []. simpl. now rewrite app_nil_r.
Qed.

Lemma note_ptrs (d : disk) (eablk : list Z) :
  forall (d1 : disk) (acc : list gfs2_ea_location) err priv d2,
    (forall b, d1 b = d b) ->
    ea_foreach_ptrs k sdp ea_note acc d1 eablk = Some (err, priv, d2) ->
    exists recs, ptrs_records k sdp d eablk recs err /\ priv = acc ++ recs.
Proof.
  induction eablk as [|bn rest IH]; intros d1 acc err priv d2 Hd1 Hw; simpl in Hw.
  - injection Hw as <- <- <-. exists []. split; [constructor|now rewrite app_nil_r].
  - destruct (Z.eqb_spec bn 0) as [->|Hbn].
    { injection Hw as <- <- <-. exists []. split; [constructor|now rewrite app_nil_r]. }
    rewrite Hd1 in Hw. destruct (d bn) as [bh|] eqn:Hbh.
    + destruct (ea_foreach_i k sdp ea_note acc bn bh) as [w|] eqn:Hwi; [|discriminate].
      simpl in Hw. destruct (note_block _ _ _ _ Hwi) as (recs & Hc & Hp & Hb).
      destruct (Z.eqb_spec (w_error w) 0) as [He|He]; simpl in Hw.
      * assert (Hd2 : forall b, disk_write d1 bn (w_block w) b = d b).
        { intros b. unfold disk_write. destruct (Z.eqb_spec b bn) as [->|]; [|apply Hd1].
          now rewrite Hb, Hbh. }
        destruct (IH _ _ _ _ _ Hd2 Hw) as (recs2 & Hc2 & Hp2).
        exists (recs ++ recs2). rewrite He in Hc.
        split; [eapply ptrs_go; eauto|]. rewrite Hp2, Hp, app_assoc. reflexivity.
      * injection Hw as <- <- <-. exists recs. split; [eapply ptrs_stop; eauto|exact Hp].
    + injection Hw as <- <- <-. exists [].
      split; [now apply ptrs_unread|now rewrite app_nil_r].
Qed.

(** The records of a store are those of its buffers, in the order of the
    pointers. *)
Lemma records_store (d : disk) (ip : gfs2_inode) (err : Z) (recs : list gfs2_ea_location) :
  ea_records k sdp d ip = Some (err, recs) -> store_records k sdp d ip recs err.
Proof.
  unfold ea_records, ea_foreach, store_records. intros Hr.
  destruct (d (di_eattr ip)) as [bh|] eqn:Hbh; simpl in Hr.
  - destruct (dif_ea_indirect ip); simpl in *.
    + destruct (mh_type bh =? GFS2_METATYPE_IN); simpl in *.
      * destruct (ea_foreach_ptrs _ _ _ _ _ _) as [[[e p] d2]|] eqn:Hw; [|discriminate].
        simpl in Hr. injection Hr as <- <-.
        destruct (note_ptrs d _ d [] _ _ _ (fun b => eq_refl) Hw) as (recs & Hc & ->).
        exact Hc.
      * injection Hr as <- <-. split; reflexivity.
    + destruct (ea_foreach_i k sdp ea_note [] (di_eattr ip) bh) as [w|] eqn:Hw;
        [|discriminate].
      simpl in Hr. injection Hr as <- <-.
      destruct (note_block _ _ _ _ Hw) as (recs & Hc & -> & _). exact Hc.
  - injection Hr as <- <-. split; reflexivity.
Qed.

Lemma ea_run_app {A : Type} (d : disk) (f : ea_call_t A) (l1 l2 : list gfs2_ea_location)
    (err : Z) :
  forall data,
    ea_run d f data (l1 ++ l2) err =
    let '(e, a) := ea_run d f data l1 0 in
    if negb (e =? 0) then (e, a) else ea_run d f a l2 err.
Proof.
  induction l1 as [|x l1 IH]; intros data; simpl.
  - reflexivity.
  - destruct (d (el_bh x)) as [bh|]; [|apply IH].
    destruct (f data (el_bh x) bh (el_ea x) (el_prev x)) as [[e data'] bh'].
    destruct (Z.eqb_spec e 0) as [->|Hne]; simpl; [apply IH|].
    destruct (Z.eqb_spec e 0); [contradiction|reflexivity].
Qed.

(** A run that meets no error of the callback ends with the error of the
    walk. *)
Lemma ea_run_error {A : Type} (d : disk) (f : ea_call_t A) (recs : list gfs2_ea_location)
    (err : Z) :
  err <> 0 -> forall data, (ea_run d f data recs err).1 <> 0.
Proof.
  intros Herr. induction recs as [|x recs IH]; intros data; simpl; [exact Herr|].
  destruct (d (el_bh x)) as [bh|]; [|apply IH].
  destruct (f data (el_bh x) bh (el_ea x) (el_prev x)) as [[e data'] bh'].
  destruct (Z.eqb_spec e 0) as [->|Hne]; simpl; [apply IH|exact Hne].
Qed.

Section Reader.
Context {A : Type}.
Variable f : ea_call_t A.
Hypothesis f_reads : ea_reads f.

Lemma block_run (d : disk) (bn : Z) (bh : block) (recs : list gfs2_ea_location)
    (err : Z) (data : A) :
  d bn = Some bh -> block_records k sdp bn bh recs err ->
  exists w,
    ea_foreach_i k sdp f data bn bh = Some w /\
    w_block w = bh /\ (w_error w, w_private w) = ea_run d f data recs err.
Proof.
  intros Hd. unfold block_records, ea_foreach_i.
  destruct (mh_type bh =? GFS2_METATYPE_EA); cbn [negb].
  - intros Hc. eapply chain_loop; eauto; lia.
  - intros [-> ->]. eexists. split; [reflexivity|]. split; reflexivity.
Qed.

Lemma ptrs_run (d : disk) (eablk : list Z) (recs : list gfs2_ea_location) (err : Z) :
  ptrs_records k sdp d eablk recs err ->
  forall (d1 : disk) (data : A),
    (forall b, d1 b = d b) ->
    exists e a d2,
      ea_foreach_ptrs k sdp f data d1 eablk = Some (e, a, d2) /\
      (e, a) = ea_run d f data recs err.
Proof.
  induction 1 as [|rest|bn rest Hbn Hbh|bn rest bh recs err Hbn Hbh Hc Herr
                  |bn rest bh recs recs2 err Hbn Hbh Hc Hrest IH];
    intros d1 data Hd1; simpl.
  - eexists _, _, _. split; reflexivity.
  - eexists _, _, _. split; reflexivity.
  - destruct (Z.eqb_spec bn 0); [contradiction|]. rewrite Hd1, Hbh.
    eexists _, _, _. split; reflexivity.
  - destruct (Z.eqb_spec bn 0); [contradiction|]. rewrite Hd1, Hbh.
    destruct (block_run d bn bh recs err data Hbh Hc) as (w & Hw & Hb & Hr).
    rewrite Hw. simpl.
    pose proof (ea_run_error d f recs err Herr data) as Hne.
    rewrite <- Hr in Hne. simpl in Hne.
    destruct (Z.eqb_spec (w_error w) 0); [contradiction|]. simpl.
    eexists _, _, _. split; [reflexivity|exact Hr].
  - destruct (Z.eqb_spec bn 0); [contradiction|]. rewrite Hd1, Hbh.
    destruct (block_run d bn bh recs 0 data Hbh Hc) as (w & Hw & Hb & Hr).
    rewrite Hw. simpl. rewrite ea_run_app, <- Hr.
    destruct (Z.eqb_spec (w_error w) 0) as [He|He]; simpl.
    + apply IH. intros b. unfold disk_write.
      destruct (Z.eqb_spec b bn) as [->|]; [|apply Hd1]. now rewrite Hb, Hbh.
    + eexists _, _, _. split; reflexivity.
Qed.

(** A walk of the store by a callback that leaves the buffers alone calls
    it on the records of the store in turn. *)
Lemma store_run (d : disk) (ip : gfs2_inode) (recs : list gfs2_ea_location) (err : Z)
    (data : A) :
  store_records k sdp d ip recs err ->
  exists e a d2,
    ea_foreach k sdp d ip f data = Some (e, a, d2) /\
    (e, a) = ea_run d f data recs err.
Proof.
  unfold store_records, ea_foreach.
  destruct (d (di_eattr ip)) as [bh|] eqn:Hbh.
  - destruct (dif_ea_indirect ip); simpl.
    + destruct (mh_type bh =? GFS2_METATYPE_IN); simpl.
      * intros Hc. now apply (ptrs_run d _ _ _ Hc d data).
      * intros [-> ->]. eexists _, _, _. split; reflexivity.
    + intros Hc. destruct (block_run d _ bh recs err data Hbh Hc) as (w & Hw & Hb & Hr).
      rewrite Hw. simpl. eexists _, _, _. split; [reflexivity|exact Hr].
  - intros [-> ->]. eexists _, _, _. split; reflexivity.
Qed.

End Reader.

(** ** The search *)

Lemma ea_find_i_reads (er : gfs2_ea_request) :
  ea_reads (ea_find_i (er_type er) (er_name_len er) (er_name er)).
Proof.
  intros data bn bh ea prev. unfold ea_find_i.
  destruct (ea_type (ea_at bh ea) =? GFS2_EATYPE_UNUSED); [reflexivity|].
  destruct (_ && _); reflexivity.
Qed.

Lemma find_run (d : disk) (er : gfs2_ea_request) (recs : list gfs2_ea_location) (err : Z) :
  ea_run d (ea_find_i (er_type er) (er_name_len er) (er_name er)) None recs err =
  match find (ea_found d er) recs with
  | Some x => (1, Some x)
  | None => (err, None)
  end.
Proof.
  induction recs as [|x recs IH]; simpl; [reflexivity|].
  unfold ea_found at 1, located. destruct (d (el_bh x)) as [bh|]; simpl; [|exact IH].
  unfold ea_find_i, ea_find_matches.
  destruct (ea_type (ea_at bh (el_ea x)) =? GFS2_EATYPE_UNUSED); simpl; [exact IH|].
  destruct (_ && _); simpl; [|exact IH]. now destruct x.
Qed.

End Store.

(** ** The chain after a removal *)

Lemma land_lor_byte (f L : Z) : 0 <= L < 256 -> Z.land (Z.lor f L mod 256) L = L.
Proof.
  intros HL. apply Z.bits_inj'. intros n Hn.
  rewrite Z.land_spec, UtilFacts.byte_bits, Z.lor_spec by lia.
  destruct (Z.testbit L n) eqn:Hb; [|apply andb_false_r].
  rewrite orb_true_r, andb_true_r. cbn [andb].
  rewrite <- (Z.mod_small L 256), UtilFacts.byte_bits in Hb by lia.
  now apply andb_true_iff in Hb as [_ ->].
Qed.

Section Unlink.
Variable k : ondisk.
Variable b_size : Z.
Variable bn : Z.
Variable bh : block.
Hypothesis block_small : b_size < 2 ^ 32.
Hypothesis last_flag : 0 <= GFS2_EAFLAG_LAST k < 256.

Lemma chain_error (s : Z) (q : option Z) (recs : list gfs2_ea_location) (err : Z) :
  ea_chain k b_size bn bh s q recs err -> err = 0 \/ err = - EIO.
Proof.
  induction 1 as [| |]; [now right| |assumption].
  destruct (_ =? _); [now left|now right].
Qed.

Lemma chain_once (s : Z) (q : option Z) (recs : list gfs2_ea_location) (err : Z) :
  ea_chain k b_size bn bh s q recs err ->
  forall recs' err', ea_chain k b_size bn bh s q recs' err' -> recs' = recs /\ err' = err.
Proof.
  induction 1 as [s q Hok|s q Hok Hlast|s q recs err Hok Hlast Hc IH];
    intros recs' err' Hc'; inversion Hc'; subst; try congruence.
  - split; reflexivity.
  - split; reflexivity.
  - destruct (IH _ _ H1) as [-> ->]. split; reflexivity.
Qed.

(** Where the records of a chain lie. *)
Lemma chain_elem (s : Z) (q : option Z) (recs : list gfs2_ea_location) (err : Z) :
  ea_chain k b_size bn bh s q recs err ->
  forall x, x ∈ recs ->
    el_bh x = bn /\ s <= el_ea x /\
    ((el_ea x = s /\ el_prev x = q) \/
     (exists o, el_prev x = Some o /\ s <= o < el_ea x)).
Proof.
  induction 1 as [s q Hok|s q Hok Hlast|s q recs err Hok Hlast Hc IH]; intros x Hx.
  - inversion Hx.
  - apply list_elem_of_singleton in Hx as ->. simpl. split; [reflexivity|].
    split; [lia|]. left. split; reflexivity.
  - apply ea_record_ok_true in Hok as (Hnz & Hs & Hend & _).
    pose proof (rec_len_range (ea_at bh s)).
    apply elem_of_cons in Hx as [->|Hx].
    + simpl. split; [reflexivity|]. split; [lia|]. left. split; reflexivity.
    + destruct (IH x Hx) as (Hb & Hge & Hcase). split; [exact Hb|]. split; [lia|].
      right. destruct Hcase as [[He Hp]|(o & Hp & Ho)].
      * exists s. split; [exact Hp|lia].
      * exists o. split; [exact Hp|lia].
Qed.

(** The head of a chain, and what comes after it. *)
Lemma chain_shape (s : Z) (q : option Z) (recs : list gfs2_ea_location) (err : Z) :
  ea_chain k b_size bn bh s q recs err ->
  recs = [] \/
  exists rest,
    recs = mk_location bn s q :: rest /\
    Forall (fun x => el_bh x = bn /\ s < el_ea x /\
                     exists o, el_prev x = Some o /\ s <= o) rest.
Proof.
  intros Hc. inversion Hc as [|s' q' Hok Hlast|s' q' rest err' Hok Hlast Hrest]; subst.
  - now left.
  - right. exists []. split; [reflexivity|constructor].
  - right. exists rest. split; [reflexivity|].
    apply ea_record_ok_true in Hok as (Hnz & Hs & Hend & _).
    pose proof (rec_len_range (ea_at bh s)).
    apply Forall_forall. intros x Hx.
    destruct (chain_elem _ _ _ _ Hrest x Hx) as (Hb & Hge & Hcase).
    split; [exact Hb|]. split; [lia|].
    destruct Hcase as [[He Hp]|(o & Hp & Ho)].
    + exists s. split; [exact Hp|lia].
    + exists o. split; [exact Hp|lia].
Qed.

Lemma chain_inv (s : Z) (q : option Z) (recs : list gfs2_ea_location) (err : Z) :
  ea_chain k b_size bn bh s q recs err ->
  (ea_record_ok k b_size s (ea_at bh s) = false /\ recs = [] /\ err = - EIO) \/
  (ea_record_ok k b_size s (ea_at bh s) = true /\
   GFS2_EA_IS_LAST k (ea_at bh s) = true /\ recs = [mk_location bn s q] /\
   err = if s + GFS2_EA_REC_LEN (ea_at bh s) =? b_size then 0 else - EIO) \/
  (ea_record_ok k b_size s (ea_at bh s) = true /\
   GFS2_EA_IS_LAST k (ea_at bh s) = false /\
   exists rest,
     recs = mk_location bn s q :: rest /\
     ea_chain k b_size bn bh (s + GFS2_EA_REC_LEN (ea_at bh s)) (Some s) rest err).
Proof.
  destruct 1 as [s q Hok|s q Hok Hlast|s q recs err Hok Hlast Hc].
  - left. auto.
  - right. left. auto.
  - right. right. eauto.
Qed.

(** A chain depends on the record before its first one only for the
    location of that one. *)
Lemma chain_reprev (s : Z) (q q' : option Z) (recs : list gfs2_ea_location) (err : Z) :
  ea_chain k b_size bn bh s q recs err ->
  ea_chain k b_size bn bh s q'
    (match recs with [] => [] | _ :: rest => mk_location bn s q' :: rest end) err.
Proof.
  intros Hc. inversion Hc; subst; now constructor.
Qed.

End Unlink.

Section UnlinkBlocks.
Variable k : ondisk.
Variable b_size : Z.
Variable bn : Z.
Hypothesis block_small : b_size < 2 ^ 32.
Hypothesis last_flag : 0 <= GFS2_EAFLAG_LAST k < 256.

(** A chain reads the records from its start on only. *)
Lemma chain_agree (bh1 bh2 : block) (s : Z) (q : option Z)
    (recs : list gfs2_ea_location) (err : Z) :
  ea_chain k b_size bn bh1 s q recs err ->
  (forall o, s <= o -> ea_at bh2 o = ea_at bh1 o) ->
  ea_chain k b_size bn bh2 s q recs err.
Proof.
  induction 1 as [s q Hok|s q Hok Hlast|s q recs err Hok Hlast Hc IH]; intros Hag.
  - apply chain_fail. rewrite Hag by lia. exact Hok.
  - rewrite <- (Hag s) by lia. apply chain_last; rewrite Hag by lia; assumption.
  - apply chain_next; rewrite ?Hag by lia; try assumption.
    apply IH. intros o Ho. apply Hag.
    pose proof (rec_len_range (ea_at bh1 s)). lia.
Qed.

(** The buffer after the removal of a record that is not the first of its
    chain: only the record before it has changed, which now ends where the
    record removed ended and is the last one if that was. *)
Lemma unlink_prev_at (bh : block) (p ea : Z) :
  p <> ea ->
  ea_record_ok k b_size p (ea_at bh p) = true ->
  GFS2_EA_IS_LAST k (ea_at bh p) = false ->
  ea_record_ok k b_size (p + GFS2_EA_REC_LEN (ea_at bh p)) (ea_at bh ea) = true ->
  ea = p + GFS2_EA_REC_LEN (ea_at bh p) ->
  let bh' := ea_unlink k bh ea (Some p) in
  mh_type bh' = mh_type bh /\ in_ptrs bh' = in_ptrs bh /\
  (forall o, o <> p -> ea_at bh' o = ea_at bh o) /\
  GFS2_EA_REC_LEN (ea_at bh' p) = GFS2_EA_REC_LEN (ea_at bh p) + GFS2_EA_REC_LEN (ea_at bh ea) /\
  GFS2_EA_IS_LAST k (ea_at bh' p) = GFS2_EA_IS_LAST k (ea_at bh ea) /\
  ea_type (ea_at bh' p) = ea_type (ea_at bh p) /\
  ea_name_len (ea_at bh' p) = ea_name_len (ea_at bh p) /\
  ea_name (ea_at bh' p) = ea_name (ea_at bh p).
Proof.
  intros Hne Hokp Hlastp Hoke Hea bh'.
  apply ea_record_ok_true in Hokp as (_ & Hp0 & _ & _).
  apply ea_record_ok_true in Hoke as (_ & _ & Hend & _).
  pose proof (rec_len_range (ea_at bh p)). pose proof (rec_len_range (ea_at bh ea)).
  assert (Hlen : GFS2_EA_REC_LEN
                   (set_ea_rec_len_flags (ea_at bh p)
                      (wrap32 (GFS2_EA_REC_LEN (ea_at bh p) + GFS2_EA_REC_LEN (ea_at bh ea)))
                      (ea_flags (ea_at bh p)))
                 = GFS2_EA_REC_LEN (ea_at bh p) + GFS2_EA_REC_LEN (ea_at bh ea)).
  { unfold GFS2_EA_REC_LEN at 1. simpl. rewrite !wrap32_small; [reflexivity|lia|].
    rewrite wrap32_small by lia. lia. }
  subst bh'. unfold ea_unlink. cbn [set_ea_at ea_at].
  destruct (Z.eqb_spec ea p) as [?|_]; [congruence|].
  destruct (GFS2_EA_IS_LAST k (ea_at bh ea)) eqn:Hlaste.
  - cbn [set_ea_at ea_at mh_type in_ptrs]. rewrite Z.eqb_refl.
    split; [reflexivity|]. split; [reflexivity|].
    split.
    { intros o Ho. destruct (Z.eqb_spec o p); [contradiction|reflexivity]. }
    split; [exact Hlen|].
    split; [|split; [reflexivity|split; reflexivity]].
    unfold GFS2_EA_IS_LAST in *. cbn [ea_flags set_ea_rec_len_flags].
    rewrite land_lor_byte by exact last_flag.
    destruct (Z.eqb_spec (GFS2_EAFLAG_LAST k) 0) as [Hz|]; [|reflexivity].
    rewrite Hz, Z.land_0_r in Hlaste. discriminate Hlaste.
  - cbn [set_ea_at ea_at mh_type in_ptrs]. rewrite Z.eqb_refl.
    split; [reflexivity|]. split; [reflexivity|].
    split.
    { intros o Ho. destruct (Z.eqb_spec o p); [contradiction|reflexivity]. }
    split; [exact Hlen|].
    split; [exact Hlastp|split; [reflexivity|split; reflexivity]].
Qed.

(** The records that lie after the one removed, and do not come next to
    it, are where they were. *)
Lemma unlinked_far (el : gfs2_ea_location) (rest : list gfs2_ea_location) :
  Forall (fun x => el_ea el < el_ea x /\ exists o, el_prev x = Some o /\ el_ea el < o) rest ->
  relink el <$> filter (fun x => same_record x el = false) rest = rest.
Proof.
  induction 1 as [|x rest (Hxe & o & Hxp & Hxo) _ IH]; [reflexivity|].
  rewrite filter_cons_True.
  2:{ unfold same_record. destruct (Z.eqb_spec (el_ea x) (el_ea el)); [lia|].
      apply andb_false_r. }
  rewrite fmap_cons, IH. f_equal.
  unfold relink. destruct (el_prev el); [|reflexivity]. rewrite Hxp.
  rewrite bool_decide_eq_false_2 by (intros [= ->]; lia).
  now rewrite andb_false_r.
Qed.

Lemma unlink_prev_other (bh : block) (p ea o : Z) :
  o <> p -> ea_at (ea_unlink k bh ea (Some p)) o = ea_at bh o.
Proof.
  intros Ho. unfold ea_unlink. destruct (GFS2_EA_IS_LAST k _); cbn [set_ea_at ea_at];
    destruct (Z.eqb_spec o p); try contradiction; reflexivity.
Qed.

(** The chain after the removal of a record that is not the first of its
    chain. *)
Lemma chain_unlink_prev (bh : block) (p ea : Z) (s : Z) (q : option Z)
    (recs : list gfs2_ea_location) (err : Z) :
  ea_chain k b_size bn bh s q recs err ->
  mk_location bn ea (Some p) ∈ recs -> s <= p -> (forall o, q = Some o -> o < s) ->
  ea_chain k b_size bn (ea_unlink k bh ea (Some p)) s q
           (unlinked (mk_location bn ea (Some p)) recs) err.
Proof.
  unfold unlinked. cbn [el_prev].
  set (el := mk_location bn ea (Some p)).
  induction 1 as [s q Hok|s q Hok Hlast|s q recs err Hok Hlast Hc IH]; intros Hin Hsp Hq.
  - inversion Hin.
  - apply list_elem_of_singleton in Hin. injection Hin as -> <-.
    specialize (Hq p eq_refl). lia.
  - assert (Hpe : s <= p < ea).
    { destruct (chain_elem k b_size bn bh _ _ _ _
                  (chain_next k b_size bn bh s q recs err Hok Hlast Hc) el Hin)
        as (_ & _ & [[He Hp]|(o & Hp & Ho)]); simpl in *.
      - subst q. specialize (Hq p eq_refl). lia.
      - injection Hp as <-. lia. }
    apply elem_of_cons in Hin as [Hin|Hin]; [injection Hin as ->; lia|].
    pose proof Hok as Hok'. apply ea_record_ok_true in Hok' as (Hnz & Hs0 & Hend & Hty).
    pose proof (rec_len_range (ea_at bh s)) as Hlen.
    assert (Hkeep : filter (fun x => same_record x el = false) (mk_location bn s q :: recs)
                    = mk_location bn s q :: filter (fun x => same_record x el = false) recs).
    { apply filter_cons_True. unfold same_record. simpl.
      destruct (Z.eqb_spec s ea); [lia|]. apply andb_false_r. }
    assert (Hrel : relink el (mk_location bn s q) = mk_location bn s q).
    { unfold relink. simpl. rewrite Z.eqb_refl. simpl.
      destruct (bool_decide_reflect (q = Some ea)) as [Hqe|]; [|reflexivity].
      specialize (Hq ea Hqe). lia. }
    rewrite Hkeep, fmap_cons, Hrel.
    destruct (decide (s = p)) as [->|Hnp].
    + (* the record before the one removed *)
      assert (Hea : ea = p + GFS2_EA_REC_LEN (ea_at bh p)).
      { destruct (chain_elem k b_size bn bh _ _ _ _ Hc el Hin)
          as (_ & _ & [[He _]|(o & Hp & Ho)]); simpl in *; [exact He|].
        injection Hp as <-. lia. }
      rewrite <- Hea in Hc.
      destruct (chain_inv k b_size bn bh _ _ _ _ Hc)
        as [(_ & -> & _)|[(Hoks & Hlasts & -> & ->)|(Hoks & Hlasts & recs2 & -> & Hc2)]];
        [inversion Hin| |].
      all: assert (Hoke : ea_record_ok k b_size (p + GFS2_EA_REC_LEN (ea_at bh p))
                            (ea_at bh ea) = true) by (rewrite <- Hea; exact Hoks).
      all: clear Hc.
      all: destruct (unlink_prev_at bh p ea ltac:(lia) Hok Hlast Hoke Hea)
        as (_ & _ & Hother & Hlen' & Hlast' & Hty' & _).
      all: rewrite <- Hea in Hoke.
      all: apply ea_record_ok_true in Hoke as (Hnze & _ & Hende & _).
      all: pose proof (rec_len_range (ea_at bh ea)) as Hlene.
      all: assert (Hok' : ea_record_ok k b_size p (ea_at (ea_unlink k bh ea (Some p)) p)
                          = true)
        by (apply ea_record_ok_true; rewrite Hlen', Hty'; repeat split; try lia; exact Hty).
      * rewrite filter_cons_False, filter_nil.
        2:{ unfold same_record. simpl. rewrite !Z.eqb_refl. simpl. discriminate. }
        simpl.
        pose proof (chain_last k b_size bn (ea_unlink k bh ea (Some p)) p q Hok') as Hl.
        rewrite Hlen', Hlast' in Hl. specialize (Hl Hlasts).
        replace (p + (GFS2_EA_REC_LEN (ea_at bh p) + GFS2_EA_REC_LEN (ea_at bh ea)))
          with (ea + GFS2_EA_REC_LEN (ea_at bh ea)) in Hl by lia.
        exact Hl.
      * rewrite filter_cons_False.
        2:{ unfold same_record. simpl. rewrite !Z.eqb_refl. simpl. discriminate. }
        apply chain_next; [exact Hok'|now rewrite Hlast'|].
        rewrite Hlen'.
        replace (p + (GFS2_EA_REC_LEN (ea_at bh p) + GFS2_EA_REC_LEN (ea_at bh ea)))
          with (ea + GFS2_EA_REC_LEN (ea_at bh ea)) by lia.
        apply chain_agree with (bh1 := bh).
        2:{ intros o Ho. apply unlink_prev_other. lia. }
        pose proof (chain_reprev k b_size bn bh _ _ (Some p) _ _ Hc2) as Hre.
        destruct (chain_shape k b_size bn bh _ _ _ _ Hc2) as [->|(rest & -> & Hrest)].
        { exact Hre. }
        assert (Hlist : relink el <$> filter (fun x => same_record x el = false)
                          (mk_location bn (ea + GFS2_EA_REC_LEN (ea_at bh ea)) (Some ea) :: rest)
                        = mk_location bn (ea + GFS2_EA_REC_LEN (ea_at bh ea)) (Some p) :: rest).
        { rewrite filter_cons_True.
          2:{ unfold same_record. simpl.
              destruct (Z.eqb_spec (ea + GFS2_EA_REC_LEN (ea_at bh ea)) ea); [lia|].
              apply andb_false_r. }
          rewrite fmap_cons. f_equal.
          { unfold relink. simpl. rewrite Z.eqb_refl. simpl.
            now rewrite bool_decide_eq_true_2. }
          apply unlinked_far. eapply Forall_impl; [exact Hrest|].
          intros x (_ & Hxe & o & Hxp & Hxo). simpl.
          split; [lia|]. exists o. split; [exact Hxp|lia]. }
        rewrite Hlist. exact Hre.
    + (* a record before that one *)
      rewrite <- (unlink_prev_other bh p ea s Hnp) in Hok, Hlast.
      apply chain_next; [exact Hok|exact Hlast|].
      rewrite (unlink_prev_other bh p ea s Hnp).
      apply IH; [exact Hin| |intros o [= <-]; lia].
      destruct (chain_elem k b_size bn bh _ _ _ _ Hc el Hin)
        as (_ & _ & [[_ Hp]|(o & Hp & Ho)]); simpl in *; [congruence|].
      injection Hp as <-. lia.
Qed.

(** The chain after the removal of its first record, which stays in the
    chain as a hole. *)
Lemma chain_unlink_first (bh : block) (ea : Z) (s : Z) (q : option Z)
    (recs : list gfs2_ea_location) (err : Z) :
  GFS2_EATYPE_VALID k GFS2_EATYPE_UNUSED = true ->
  ea_chain k b_size bn bh s q recs err ->
  mk_location bn ea None ∈ recs \/ ea < s ->
  ea_chain k b_size bn (ea_unlink k bh ea None) s q recs err.
Proof.
  intros Hvalid. unfold ea_unlink.
  set (bh' := set_ea_at bh ea (set_ea_type (ea_at bh ea) GFS2_EATYPE_UNUSED)).
  assert (Hat : forall o, o <> ea -> ea_at bh' o = ea_at bh o).
  { intros o Ho. simpl. destruct (Z.eqb_spec o ea); [contradiction|reflexivity]. }
  assert (Hlen : GFS2_EA_REC_LEN (ea_at bh' ea) = GFS2_EA_REC_LEN (ea_at bh ea)).
  { simpl. now rewrite Z.eqb_refl. }
  assert (Hlast : GFS2_EA_IS_LAST k (ea_at bh' ea) = GFS2_EA_IS_LAST k (ea_at bh ea)).
  { simpl. now rewrite Z.eqb_refl. }
  assert (Hok : ea_record_ok k b_size ea (ea_at bh ea) = true ->
                ea_record_ok k b_size ea (ea_at bh' ea) = true).
  { rewrite !ea_record_ok_true, Hlen. intros (? & ? & ? & _).
    repeat split; try assumption. simpl. rewrite Z.eqb_refl. exact Hvalid. }
  clearbody bh'.
  induction 1 as [s q Hoks|s q Hoks Hlasts|s q recs err Hoks Hlasts Hc IH]; intros Hin.
  - destruct Hin as [Hin|Hlt]; [inversion Hin|].
    apply chain_fail. rewrite Hat by lia. exact Hoks.
  - destruct (decide (s = ea)) as [->|Hne].
    + rewrite <- Hlen. apply chain_last; [now apply Hok|now rewrite Hlast].
    + rewrite <- (Hat s Hne). apply chain_last; rewrite Hat by exact Hne; assumption.
  - pose proof Hoks as Hoks'. apply ea_record_ok_true in Hoks' as (Hnz & _ & _ & _).
    pose proof (rec_len_range (ea_at bh s)).
    assert (Hin' : mk_location bn ea None ∈ recs \/
                   ea < s + GFS2_EA_REC_LEN (ea_at bh s)).
    { destruct Hin as [Hin|Hlt]; [|right; lia].
      apply elem_of_cons in Hin as [Hin|Hin]; [|now left].
      injection Hin as -> _. right. lia. }
    destruct (decide (s = ea)) as [->|Hne].
    + apply chain_next; [now apply Hok|now rewrite Hlast|]. rewrite Hlen. now apply IH.
    + apply chain_next; rewrite ?Hat by exact Hne; try assumption. now apply IH.
Qed.

End UnlinkBlocks.

(** ** The store after a removal *)

Lemma unlink_type (k : ondisk) (bh : block) (ea : Z) (prev : option Z) :
  mh_type (ea_unlink k bh ea prev) = mh_type bh /\
  in_ptrs (ea_unlink k bh ea prev) = in_ptrs bh.
Proof.
  unfold ea_unlink. destruct prev; [|split; reflexivity].
  destruct (GFS2_EA_IS_LAST k _); split; reflexivity.
Qed.

(** The removal leaves the type and the name of every other record. *)
Lemma unlink_keeps_name (k : ondisk) (bh : block) (ea : Z) (prev : option Z)
    (er : gfs2_ea_request) (o : Z) :
  o <> ea ->
  ea_find_matches er (ea_at (ea_unlink k bh ea prev) o) = ea_find_matches er (ea_at bh o).
Proof.
  intros Ho. unfold ea_unlink. destruct prev as [p|].
  - destruct (GFS2_EA_IS_LAST k _); cbn [set_ea_at ea_at];
      destruct (Z.eqb_spec o p) as [->|]; rewrite ?Z.eqb_refl; reflexivity.
  - cbn [set_ea_at ea_at]. destruct (Z.eqb_spec o ea); [contradiction|reflexivity].
Qed.

Lemma unlink_hole (k : ondisk) (bh : block) (ea : Z) (er : gfs2_ea_request) :
  ea_find_matches er (ea_at (ea_unlink k bh ea None) ea) = false.
Proof.
  unfold ea_unlink. cbn [set_ea_at ea_at]. rewrite Z.eqb_refl. reflexivity.
Qed.

Lemma unlinked_app (el : gfs2_ea_location) (l1 l2 : list gfs2_ea_location) :
  unlinked el (l1 ++ l2) = unlinked el l1 ++ unlinked el l2.
Proof.
  unfold unlinked. destruct (el_prev el); [|reflexivity].
  now rewrite filter_app, fmap_app.
Qed.

Lemma unlinked_other (el : gfs2_ea_location) (l : list gfs2_ea_location) :
  Forall (fun x => el_bh x <> el_bh el) l -> unlinked el l = l.
Proof.
  unfold unlinked. destruct (el_prev el) as [p|] eqn:Hp; [|reflexivity].
  induction 1 as [|x l Hx _ IH]; [reflexivity|].
  rewrite filter_cons_True.
  2:{ unfold same_record. now destruct (Z.eqb_spec (el_bh x) (el_bh el)). }
  rewrite fmap_cons, IH. f_equal. unfold relink. rewrite Hp.
  now destruct (Z.eqb_spec (el_bh x) (el_bh el)).
Qed.

Lemma unlinked_cases (el : gfs2_ea_location) :
  (exists p, el_prev el = Some p /\
     forall l, unlinked el l = relink el <$> filter (fun x => same_record x el = false) l) \/
  (el_prev el = None /\ forall l, unlinked el l = l).
Proof.
  unfold unlinked. destruct (el_prev el) as [p|]; [left|right]; eauto.
Qed.

Section Removal.
Variable k : ondisk.
Variable sdp : gfs2_sbd.
Hypothesis header_size : 0 <= sizeof_meta_header k.
Hypothesis block_small : sd_bsize sdp < 2 ^ 32.
Hypothesis last_flag : 0 <= GFS2_EAFLAG_LAST k < 256.
Hypothesis hole_valid : GFS2_EATYPE_VALID k GFS2_EATYPE_UNUSED = true.

Lemma block_elem (bn : Z) (bh : block) (recs : list gfs2_ea_location) (err : Z)
    (x : gfs2_ea_location) :
  block_records k sdp bn bh recs err -> x ∈ recs ->
  el_bh x = bn /\
  ea_chain k (sd_bsize sdp) bn bh (sizeof_meta_header k) None recs err.
Proof.
  unfold block_records. destruct (mh_type bh =? GFS2_METATYPE_EA).
  - intros Hc Hx. split; [|exact Hc].
    now destruct (chain_elem k (sd_bsize sdp) bn bh _ _ _ _ Hc x Hx).
  - intros [-> _] Hx. inversion Hx.
Qed.

Lemma ptrs_elem (d : disk) (eablk : list Z) (recs : list gfs2_ea_location) (err : Z)
    (x : gfs2_ea_location) :
  ptrs_records k sdp d eablk recs err -> x ∈ recs ->
  exists bh recs_b err_b,
    d (el_bh x) = Some bh /\
    ea_chain k (sd_bsize sdp) (el_bh x) bh (sizeof_meta_header k) None recs_b err_b /\
    x ∈ recs_b.
Proof.
  induction 1 as [|rest|bn rest Hbn Hbh|bn rest bh recs err Hbn Hbh Hc Herr
                  |bn rest bh recs recs2 err Hbn Hbh Hc Hrest IH]; intros Hx;
    try (now inversion Hx).
  - destruct (block_elem _ _ _ _ _ Hc Hx) as [-> Hch]. eauto 6.
  - apply elem_of_app in Hx as [Hx|Hx]; [|now apply IH].
    destruct (block_elem _ _ _ _ _ Hc Hx) as [-> Hch]. eauto 6.
Qed.

Lemma store_elem (d : disk) (ip : gfs2_inode) (recs : list gfs2_ea_location) (err : Z)
    (x : gfs2_ea_location) :
  store_records k sdp d ip recs err -> x ∈ recs ->
  exists bh recs_b err_b,
    d (el_bh x) = Some bh /\
    ea_chain k (sd_bsize sdp) (el_bh x) bh (sizeof_meta_header k) None recs_b err_b /\
    x ∈ recs_b.
Proof.
  unfold store_records. destruct (d (di_eattr ip)) as [bh|] eqn:Hbh.
  - destruct (dif_ea_indirect ip); simpl.
    + destruct (mh_type bh =? GFS2_METATYPE_IN); simpl.
      * apply ptrs_elem.
      * intros [-> _] Hx. inversion Hx.
    + intros Hc Hx. destruct (block_elem _ _ _ _ _ Hc Hx) as [-> Hch]. eauto 6.
  - intros [-> _] Hx. inversion Hx.
Qed.

Section OneRecord.
Variable d : disk.
Variable el : gfs2_ea_location.
Variable bh : block.
Variable recs_el : list gfs2_ea_location.
Variable err_el : Z.
Hypothesis el_block : d (el_bh el) = Some bh.
Hypothesis el_chain :
  ea_chain k (sd_bsize sdp) (el_bh el) bh (sizeof_meta_header k) None recs_el err_el.
Hypothesis el_there : el ∈ recs_el.

(** The disk [ea_remove_stuffed] leaves. *)
Local Abbreviation d' := (disk_write d (el_bh el) (ea_unlink k bh (el_ea el) (el_prev el))).

Lemma block_unlinked (b : Z) (bh_b : block) (recs : list gfs2_ea_location) (err : Z) :
  d b = Some bh_b -> block_records k sdp b bh_b recs err ->
  exists bh_b',
    d' b = Some bh_b' /\ mh_type bh_b' = mh_type bh_b /\ in_ptrs bh_b' = in_ptrs bh_b /\
    block_records k sdp b bh_b' (unlinked el recs) err.
Proof.
  intros Hb Hc. unfold disk_write.
  destruct (Z.eqb_spec b (el_bh el)) as [->|Hne].
  - rewrite el_block in Hb. injection Hb as <-.
    destruct (unlink_type k bh (el_ea el) (el_prev el)) as [Hty Hptrs].
    eexists. split; [reflexivity|]. split; [exact Hty|]. split; [exact Hptrs|].
    unfold block_records in *. rewrite Hty.
    destruct (mh_type bh =? GFS2_METATYPE_EA).
    + destruct (chain_once _ _ _ _ _ _ _ _ el_chain _ _ Hc) as [-> ->].
      destruct el as [bn ea [p|]]; simpl in *.
      * apply chain_unlink_prev; try assumption; [|discriminate].
        destruct (chain_elem _ _ _ _ _ _ _ _ el_chain _ el_there)
          as (_ & _ & [[_ Hp]|(o & Hp & Ho)]); simpl in *; [discriminate|].
        injection Hp as <-. lia.
      * unfold unlinked. simpl. apply chain_unlink_first; auto.
    + destruct Hc as [-> ->]. split; [|reflexivity].
      unfold unlinked. now destruct (el_prev el).
  - exists bh_b. split; [exact Hb|]. split; [reflexivity|]. split; [reflexivity|].
    rewrite unlinked_other; [exact Hc|].
    apply Forall_forall. intros x Hx.
    destruct (block_elem _ _ _ _ _ Hc Hx) as [-> _]. exact Hne.
Qed.

Lemma ptrs_unlinked (eablk : list Z) (recs : list gfs2_ea_location) (err : Z) :
  ptrs_records k sdp d eablk recs err ->
  ptrs_records k sdp d' eablk (unlinked el recs) err.
Proof.
  assert (Hnil : unlinked el [] = []) by (unfold unlinked; now destruct (el_prev el)).
  induction 1 as [|rest|bn rest Hbn Hbh|bn rest bh_b recs err Hbn Hbh Hc Herr
                  |bn rest bh_b recs recs2 err Hbn Hbh Hc Hrest IH].
  - rewrite Hnil. constructor.
  - rewrite Hnil. constructor.
  - rewrite Hnil. apply ptrs_unread; [exact Hbn|].
    unfold disk_write.
    destruct (Z.eqb_spec bn (el_bh el)) as [->|]; [congruence|exact Hbh].
  - destruct (block_unlinked _ _ _ _ Hbh Hc) as (bh' & Hb' & _ & _ & Hc').
    eapply ptrs_stop; eauto.
  - destruct (block_unlinked _ _ _ _ Hbh Hc) as (bh' & Hb' & _ & _ & Hc').
    rewrite unlinked_app. eapply ptrs_go; eauto.
Qed.

(** The records of the store once the record at [el] is out. *)
Lemma store_unlinked (ip : gfs2_inode) (recs : list gfs2_ea_location) (err : Z) :
  store_records k sdp d ip recs err ->
  store_records k sdp d' ip (unlinked el recs) err.
Proof.
  assert (Hnil : unlinked el [] = []) by (unfold unlinked; now destruct (el_prev el)).
  unfold store_records.
  destruct (d (di_eattr ip)) as [bh0|] eqn:Hbh0.
  - intros Hc.
    assert (Hroot : exists bh0', d' (di_eattr ip) = Some bh0' /\
                      mh_type bh0' = mh_type bh0 /\ in_ptrs bh0' = in_ptrs bh0 /\
                      forall recs err, block_records k sdp (di_eattr ip) bh0 recs err ->
                        block_records k sdp (di_eattr ip) bh0' (unlinked el recs) err).
    { unfold disk_write.
      destruct (Z.eqb_spec (di_eattr ip) (el_bh el)) as [He|Hne].
      - rewrite He in *. rewrite el_block in Hbh0. injection Hbh0 as <-.
        destruct (unlink_type k bh (el_ea el) (el_prev el)) as [Hty Hptrs].
        eexists. split; [reflexivity|]. split; [exact Hty|]. split; [exact Hptrs|].
        intros recs0 err0 Hc0.
        destruct (block_unlinked _ _ _ _ el_block Hc0) as (bh' & Hb' & _ & _ & Hc').
        unfold disk_write in Hb'. rewrite Z.eqb_refl in Hb'.
        injection Hb' as <-. exact Hc'.
      - exists bh0. split; [exact Hbh0|]. split; [reflexivity|]. split; [reflexivity|].
        intros recs0 err0 Hc0.
        destruct (block_unlinked _ _ _ _ Hbh0 Hc0) as (bh' & Hb' & _ & _ & Hc').
        unfold disk_write in Hb'.
        destruct (Z.eqb_spec (di_eattr ip) (el_bh el)); [contradiction|].
        rewrite Hbh0 in Hb'. injection Hb' as <-. exact Hc'. }
    destruct Hroot as (bh0' & -> & Hty & Hptrs & Hblock).
    rewrite Hty, Hptrs.
    destruct (dif_ea_indirect ip); simpl in *.
    + destruct (mh_type bh0 =? GFS2_METATYPE_IN); simpl in *.
      * now apply ptrs_unlinked.
      * destruct Hc as [-> ->]. rewrite Hnil. split; reflexivity.
    + now apply Hblock.
  - intros [-> ->]. rewrite Hnil.
    assert (Hd' : d' (di_eattr ip) = None).
    { unfold disk_write.
      destruct (Z.eqb_spec (di_eattr ip) (el_bh el)) as [He|]; [|exact Hbh0].
      rewrite He, el_block in Hbh0. discriminate. }
    rewrite Hd'. split; reflexivity.
Qed.

(** What a search finds at a record that has not been removed. *)
Lemma found_unlinked (er : gfs2_ea_request) (x : gfs2_ea_location) :
  same_record x el = false ->
  ea_found d' er (relink el x) = ea_found d er x.
Proof.
  intros Hx.
  assert (Hplace : el_bh (relink el x) = el_bh x /\ el_ea (relink el x) = el_ea x).
  { unfold relink. destruct (el_prev el); [|split; reflexivity].
    destruct (_ && _); split; reflexivity. }
  destruct Hplace as [Hb He].
  unfold ea_found, located. rewrite Hb, He. unfold disk_write.
  destruct (Z.eqb_spec (el_bh x) (el_bh el)) as [Hbe|]; [|reflexivity].
  rewrite Hbe, el_block. simpl. apply unlink_keeps_name.
  unfold same_record in Hx. rewrite Hbe, Z.eqb_refl in Hx. simpl in Hx.
  now apply Z.eqb_neq.
Qed.

Lemma found_hole (er : gfs2_ea_request) (x : gfs2_ea_location) :
  el_prev el = None -> same_record x el = true -> ea_found d' er x = false.
Proof.
  intros Hp Hx. unfold same_record in Hx.
  apply andb_true_iff in Hx as [Hb He]. apply Z.eqb_eq in Hb, He.
  unfold ea_found, located. unfold disk_write.
  rewrite Hb, Z.eqb_refl. simpl. rewrite He, Hp. apply unlink_hole.
Qed.

(** The first match among the records left. *)
Lemma find_unlinked (er : gfs2_ea_request) (recs : list gfs2_ea_location) :
  find (ea_found d' er) (unlinked el recs) =
  relink el <$> find (fun x => negb (same_record x el) && ea_found d er x) recs.
Proof.
  destruct (unlinked_cases el) as [(p & Hp & Hu)|(Hp & Hu)]; rewrite Hu.
  - induction recs as [|x recs IH]; [reflexivity|].
    destruct (same_record x el) eqn:Hx.
    + rewrite filter_cons_False by (rewrite Hx; discriminate). simpl.
      rewrite Hx. simpl. exact IH.
    + rewrite filter_cons_True by exact Hx. simpl.
      rewrite Hx, found_unlinked by exact Hx. simpl.
      destruct (ea_found d er x); [reflexivity|exact IH].
  - assert (Hid : forall x, relink el x = x) by (intros x; unfold relink; now rewrite Hp).
    induction recs as [|x recs IH]; [reflexivity|]. simpl.
    destruct (same_record x el) eqn:Hx; simpl.
    + rewrite found_hole by assumption. exact IH.
    + rewrite <- (Hid x) at 1. rewrite found_unlinked by exact Hx.
      destruct (ea_found d er x); [simpl; now rewrite Hid|exact IH].
Qed.

End OneRecord.

End Removal.

(** ** The search, and the search after a removal *)

Section Lookup.
Variable k : ondisk.
Variable sdp : gfs2_sbd.
Hypothesis header_size : 0 <= sizeof_meta_header k.

Lemma note_block_total (acc : list gfs2_ea_location) (bn : Z) (bh : block) :
  exists w, ea_foreach_i k sdp ea_note acc bn bh = Some w.
Proof.
  unfold ea_foreach_i. destruct (mh_type bh =? GFS2_METATYPE_EA); cbn [negb]; [|eauto].
  destruct (ea_foreach_loop_total k (sd_bsize sdp) ea_note bn
              (S (Z.to_nat (sd_bsize sdp))) acc bh (sizeof_meta_header k) None)
    as (w & Hw & _); [lia|left; lia|eauto].
Qed.

Lemma note_ptrs_total (eablk : list Z) :
  forall (d : disk) (acc : list gfs2_ea_location),
    exists r, ea_foreach_ptrs k sdp ea_note acc d eablk = Some r.
Proof.
  induction eablk as [|bn rest IH]; intros d acc; simpl; [eauto|].
  destruct (bn =? 0); [eauto|]. destruct (d bn) as [bh|]; [|eauto].
  destruct (note_block_total acc bn bh) as [w ->]. simpl.
  destruct (negb (w_error w =? 0)); [eauto|apply IH].
Qed.

Lemma ea_records_total (d : disk) (ip : gfs2_inode) :
  exists err recs, ea_records k sdp d ip = Some (err, recs).
Proof.
  unfold ea_records, ea_foreach.
  destruct (d (di_eattr ip)) as [bh|]; [|simpl; eauto].
  destruct (dif_ea_indirect ip); simpl.
  - destruct (mh_type bh =? GFS2_METATYPE_IN); simpl; [|eauto].
    destruct (note_ptrs_total (take (Z.to_nat (sd_inptrs sdp)) (in_ptrs bh)) d [])
      as [r ->]. simpl. eauto.
  - destruct (note_block_total [] (di_eattr ip) bh) as [w ->]. simpl. eauto.
Qed.

Lemma block_error (bn : Z) (bh : block) (recs : list gfs2_ea_location) (err : Z) :
  block_records k sdp bn bh recs err -> err = 0 \/ err = - EIO.
Proof.
  unfold block_records. destruct (_ =? _); [apply chain_error|intros [_ ->]; now right].
Qed.

Lemma store_error (d : disk) (ip : gfs2_inode) (recs : list gfs2_ea_location) (err : Z) :
  store_records k sdp d ip recs err -> err = 0 \/ err = - EIO.
Proof.
  unfold store_records. destruct (d (di_eattr ip)) as [bh|]; [|intros [_ ->]; now right].
  destruct (dif_ea_indirect ip); simpl; [|apply block_error].
  destruct (mh_type bh =? GFS2_METATYPE_IN); simpl; [|intros [_ ->]; now right].
  induction 1; try (now left); try (now right); try assumption.
  eapply block_error; eassumption.
Qed.

(** The search stops at the first record of the store that matches. *)
Lemma find_records (d : disk) (ip : gfs2_inode) (recs : list gfs2_ea_location) (err : Z)
    (er : gfs2_ea_request) :
  store_records k sdp d ip recs err ->
  gfs2_ea_find k sdp d ip er =
    Some (match find (ea_found d er) recs with
          | Some x => (0, Some x)
          | None => (err, None)
          end).
Proof.
  intros Hs. unfold gfs2_ea_find.
  destruct (store_run k sdp header_size _ (ea_find_i_reads er) d ip recs err None Hs)
    as (e & a & d2 & -> & Hr).
  simpl. rewrite find_run in Hr.
  destruct (find (ea_found d er) recs) as [x|].
  - injection Hr as -> ->. reflexivity.
  - injection Hr as -> ->.
    destruct (store_error _ _ _ _ Hs) as [->| ->]; reflexivity.
Qed.

End Lookup.

(** X21: the records of a store, in the order of the walk, can always be
    listed, and the walk ends with 0 or -EIO.  [gfs2_ea_find] returns 0 and
    the first of these records that is in use and has the type and the name
    asked for, whatever comes after it; when there is none it returns the
    error of the walk and no location. *)
Theorem find_first_match (k : ondisk) (sdp : gfs2_sbd) (d : disk) (ip : gfs2_inode) :
  0 <= sizeof_meta_header k ->
  exists err recs,
    ea_records k sdp d ip = Some (err, recs) /\
    (err = 0 \/ err = - EIO) /\
    forall er,
      gfs2_ea_find k sdp d ip er =
        Some (match find (ea_found d er) recs with
              | Some x => (0, Some x)
              | None => (err, None)
              end).
Proof.
  intros Hmh. destruct (ea_records_total k sdp Hmh d ip) as (err & recs & Hr).
  exists err, recs. split; [exact Hr|].
  apply records_store in Hr.
  split; [eapply store_error; eassumption|].
  intros er. now apply find_records.
Qed.

Lemma find_first_match_witness :
  exists err recs,
    ea_records EattrExamples.format EattrExamples.sbd_64 EattrExamples.disk_foo
               (EattrExamples.inode_foo false) = Some (err, recs) /\
    gfs2_ea_find EattrExamples.format EattrExamples.sbd_64 EattrExamples.disk_foo
                 (EattrExamples.inode_foo false) (EattrExamples.request_foo None 0 0)
      = Some (match find (ea_found EattrExamples.disk_foo
                                   (EattrExamples.request_foo None 0 0)) recs with
              | Some x => (0, Some x)
              | None => (err, None)
              end).
Proof.
  destruct (find_first_match EattrExamples.format EattrExamples.sbd_64
              EattrExamples.disk_foo (EattrExamples.inode_foo false))
    as (err & recs & Hr & _ & Hf).
  - simpl. lia.
  - exists err, recs. split; [exact Hr|apply Hf].
Defined.

(** X22: [gfs2_ea_remove_i] on an attribute whose value is in its record
    takes the record found out of its chain and returns what
    [gfs2_meta_inode_buffer] returns, the record being gone even when that
    is an error.  Afterwards a search finds the first matching record among
    the others: the attribute removed is not found again unless another
    record bears its name, and every other attribute is found at the place
    it had, the record that came next now coming after the one before. *)
Theorem remove_then_find (k : ondisk) (sdp : gfs2_sbd) (dibh_error : Z)
    (ea_remove_unstuffed : disk -> gfs2_ea_location -> Z * disk)
    (d : disk) (ip : gfs2_inode) (er : gfs2_ea_request)
    (err : Z) (recs : list gfs2_ea_location) (el : gfs2_ea_location) (h : gfs2_ea_header) :
  0 <= sizeof_meta_header k -> sd_bsize sdp < 2 ^ 32 ->
  0 <= GFS2_EAFLAG_LAST k < 256 ->
  GFS2_EATYPE_VALID k GFS2_EATYPE_UNUSED = true ->
  di_eattr ip <> 0 ->
  ea_records k sdp d ip = Some (err, recs) ->
  find (ea_found d er) recs = Some el ->
  located d el = Some h -> GFS2_EA_IS_STUFFED h = true ->
  exists d',
    gfs2_ea_remove_i k sdp 0 dibh_error ea_remove_unstuffed d ip er
      = Some (dibh_error, d') /\
    (forall b, b <> el_bh el -> d' b = d b) /\
    forall er2,
      gfs2_ea_find k sdp d' ip er2 =
        Some (match find (fun x => negb (same_record x el) && ea_found d er2 x) recs with
              | Some x => (0, Some (relink el x))
              | None => (err, None)
              end).
Proof.
  intros Hmh Hsmall Hlast Hhole Hattr Hrecs Hfind Hloc Hstuffed.
  apply records_store in Hrecs.
  assert (Hin : el ∈ recs) by (apply list_elem_of_In; eapply find_some; exact Hfind).
  destruct (store_elem k sdp d ip recs err el Hrecs Hin) as (bh & recs_b & err_b & Hbh & Hch & Hinb).
  exists (disk_write d (el_bh el) (ea_unlink k bh (el_ea el) (el_prev el))).
  split; [|split].
  - unfold gfs2_ea_remove_i. destruct (Z.eqb_spec (di_eattr ip) 0); [contradiction|].
    rewrite (find_records k sdp Hmh d ip recs err er Hrecs), Hfind. simpl.
    rewrite Hloc. simpl. rewrite Hstuffed.
    unfold ea_remove_stuffed. simpl. rewrite Hbh. reflexivity.
  - intros b Hb. unfold disk_write. now destruct (Z.eqb_spec b (el_bh el)).
  - intros er2.
    rewrite (find_records k sdp Hmh _ ip (unlinked el recs) err er2).
    + rewrite (find_unlinked k d el bh Hbh).
      destruct (find (fun x => negb (same_record x el) && ea_found d er2 x) recs);
        reflexivity.
    + eapply store_unlinked; eassumption.
Qed.

Lemma remove_then_find_witness :
  exists d',
    gfs2_ea_remove_i EattrExamples.format EattrExamples.sbd_64 0 0 (fun d _ => (0, d))
      EattrExamples.disk_foo (EattrExamples.inode_foo false)
      (EattrExamples.request_foo None 0 0) = Some (0, d') /\
    gfs2_ea_find EattrExamples.format EattrExamples.sbd_64 d' (EattrExamples.inode_foo false)
      (EattrExamples.request_foo None 0 0) = Some (0, None).
Proof.
  destruct (remove_then_find EattrExamples.format EattrExamples.sbd_64 0 (fun d _ => (0, d))
              EattrExamples.disk_foo (EattrExamples.inode_foo false)
              (EattrExamples.request_foo None 0 0)
              0 [mk_location 7 24 None] (mk_location 7 24 None) EattrExamples.record_foo)
    as (d' & Hrm & _ & Hfind).
  - simpl. lia.
  - simpl. lia.
  - simpl. lia.
  - reflexivity.
  - discriminate.
  - reflexivity.
  - reflexivity.
  - reflexivity.
  - reflexivity.
  - exists d'. split; [exact Hrm|]. rewrite Hfind. reflexivity.
Defined.

End EattrRemoveFacts.

(** * Properties of the listing *)

Module EattrListFacts.
Import Eattr EattrRemove EattrList EattrFacts EattrRemoveFacts.

Lemma ea_list_i_reads (g : listing) (len : Z) : ea_reads (ea_list_i g len).
Proof.
  intros [data size] bn bh ea prev. unfold ea_list_i.
  destruct (ea_type (ea_at bh ea) =? GFS2_EATYPE_UNUSED); [reflexivity|].
  destruct (negb (len =? 0)); [|reflexivity].
  destruct (len <? _); [reflexivity|].
  destruct (ea_type (ea_at bh ea) =? GFS2_EATYPE_USR g); reflexivity.
Qed.

Lemma ea_list_total_range (g : listing) (d : disk) (recs : list gfs2_ea_location) :
  0 <= ea_list_total g d recs.
Proof.
  induction recs as [|x recs IH]; simpl; [lia|].
  destruct (located d x) as [h|]; [|exact IH].
  destruct (ea_type h =? GFS2_EATYPE_UNUSED); [exact IH|].
  pose proof (wrap32_range (GFS2_EA_STRLEN g h)). lia.
Qed.

(** One call of [ea_list_i] on a record in use. *)
Lemma ea_list_i_step (g : listing) (len : Z) (data : list Z) (size : Z)
    (bn : Z) (bh : block) (ea : Z) (prev : option Z) :
  (ea_type (ea_at bh ea) =? GFS2_EATYPE_UNUSED) = false ->
  0 <= size -> size + wrap32 (GFS2_EA_STRLEN g (ea_at bh ea)) < 2 ^ 32 ->
  exists data1,
    length data1 = length data /\ (len = 0 -> data1 = data) /\
    ea_list_i g len (data, size) bn bh ea prev =
      if negb (len =? 0) && (len <? size + wrap32 (GFS2_EA_STRLEN g (ea_at bh ea)))
      then (- ERANGE, (data, size), bh)
      else (0, (data1, size + wrap32 (GFS2_EA_STRLEN g (ea_at bh ea))), bh).
Proof.
  intros Hused Hsize Hsum. unfold ea_list_i. rewrite Hused.
  pose proof (wrap32_range (GFS2_EA_STRLEN g (ea_at bh ea))) as He.
  rewrite (wrap32_small (size + _)) by lia.
  destruct (Z.eqb_spec len 0) as [Hz|Hnz]; cbn [negb andb].
  - exists data. split; [reflexivity|]. split; reflexivity.
  - destruct (len <? size + wrap32 (GFS2_EA_STRLEN g (ea_at bh ea))).
    + exists data. split; [reflexivity|]. split; reflexivity.
    + destruct (ea_type (ea_at bh ea) =? GFS2_EATYPE_USR g);
        (eexists; split; [|split; [|reflexivity]];
         [now rewrite !RgrpFacts.length_memcpy|intros; contradiction]).
Qed.

(** The run of [ea_list_i] over the records of a store. *)
Lemma list_run (g : listing) (d : disk) (len : Z) (recs : list gfs2_ea_location) :
  forall (data : list Z) (size : Z),
    0 <= size -> size + ea_list_total g d recs < 2 ^ 32 -> len = 0 \/ size <= len ->
    let r := ea_run d (ea_list_i g len) (data, size) recs 0 in
    length r.2.1 = length data /\
    if len =? 0 then r = (0, (data, size + ea_list_total g d recs))
    else if size + ea_list_total g d recs <=? len
         then r.1 = 0 /\ r.2.2 = size + ea_list_total g d recs
         else r.1 = - ERANGE.
Proof.
  induction recs as [|x recs IH]; intros data size Hsize Htotal Hinv; cbn zeta.
  - simpl. rewrite Z.add_0_r. split; [reflexivity|].
    destruct (Z.eqb_spec len 0); [reflexivity|].
    destruct (Z.leb_spec size len); [split; reflexivity|lia].
  - cbn [ea_run ea_list_total] in *. unfold located in *.
    destruct (d (el_bh x)) as [bh|]; cbn [mbind option_bind] in *; [|now apply IH].
    destruct (ea_type (ea_at bh (el_ea x)) =? GFS2_EATYPE_UNUSED) eqn:Hused.
    { assert (Hcall : ea_list_i g len (data, size) (el_bh x) bh (el_ea x) (el_prev x)
                      = (0, (data, size), bh)) by (unfold ea_list_i; now rewrite Hused).
      rewrite Hcall. change (0 =? 0) with true. cbn [negb]. now apply IH. }
    pose proof (wrap32_range (GFS2_EA_STRLEN g (ea_at bh (el_ea x)))) as He.
    pose proof (ea_list_total_range g d recs) as Ht.
    destruct (ea_list_i_step g len data size (el_bh x) bh (el_ea x) (el_prev x) Hused Hsize)
      as (data1 & Hlen1 & Hsame & ->); [lia|].
    set (e := wrap32 (GFS2_EA_STRLEN g (ea_at bh (el_ea x)))) in *.
    destruct (Z.eqb_spec len 0) as [Hz|Hnz]; cbn [negb andb].
    + change (0 =? 0) with true. cbn [negb]. rewrite (Hsame Hz).
      specialize (IH data (size + e) ltac:(lia) ltac:(lia) ltac:(now left)).
      cbn zeta in IH. destruct (Z.eqb_spec len 0); [|contradiction].
      destruct IH as [IH1 IH2]. split; [exact IH1|]. rewrite IH2. f_equal. f_equal. lia.
    + destruct (Z.ltb_spec len (size + e)) as [Hbig|Hfit].
      * change (- ERANGE =? 0) with false. cbn [negb fst snd]. split; [reflexivity|].
        destruct (Z.leb_spec (size + (e + ea_list_total g d recs)) len); [lia|reflexivity].
      * change (0 =? 0) with true. cbn [negb].
        specialize (IH data1 (size + e) ltac:(lia) ltac:(lia) ltac:(right; lia)).
        cbn zeta in IH. destruct (Z.eqb_spec len 0); [contradiction|].
        destruct IH as [IH1 IH2]. split; [now rewrite IH1|].
        rewrite Z.add_assoc. exact IH2.
Qed.

(** X24: the two calls of a listing.  On a store whose walk ends without
    error, [gfs2_ea_list] without a buffer returns the length of the list,
    the sum of the entry lengths of the records in use; with a buffer at
    least that long it returns the same length; with a shorter buffer that
    is not empty it returns -ERANGE.  The buffer keeps its length, and the
    request its buffer length. *)
Theorem ea_list_sizes (k : ondisk) (g : listing) (sdp : gfs2_sbd) (d : disk)
    (ip : gfs2_inode) (recs : list gfs2_ea_location) (er : gfs2_ea_request) :
  0 <= sizeof_meta_header k -> di_eattr ip <> 0 ->
  ea_records k sdp d ip = Some (0, recs) ->
  ea_list_total g d recs < 2 ^ 31 ->
  0 <= er_data_len er ->
  exists er',
    gfs2_ea_list k g sdp 0 d ip er =
      Some (match er_data er with
            | Some _ =>
                if (er_data_len er =? 0) || (ea_list_total g d recs <=? er_data_len er)
                then ea_list_total g d recs else - ERANGE
            | None => ea_list_total g d recs
            end, er') /\
    er_data_len er' = er_data_len (er_normalize er) /\
    length (default [] (er_data er')) = length (default [] (er_data (er_normalize er))).
Proof.
  intros Hmh Hattr Hrecs Htotal Hlen.
  pose proof (ea_list_total_range g d recs) as Ht.
  apply (records_store k sdp) in Hrecs.
  unfold gfs2_ea_list. cbn [negb Z.eqb].
  destruct (Z.eqb_spec (di_eattr ip) 0); [contradiction|]. cbn [negb].
  set (er1 := er_normalize er).
  destruct (store_run k sdp Hmh _ (ea_list_i_reads g (er_data_len er1)) d ip recs 0
              (default [] (er_data er1), 0) Hrecs) as (e & a & d2 & -> & Hr).
  cbn [mbind option_bind]. destruct a as [data size].
  eexists. split; [|split].
  - apply f_equal. apply (f_equal2 pair); [|reflexivity].
    pose proof (list_run g d (er_data_len er1) recs (default [] (er_data er1)) 0
                  ltac:(lia) ltac:(lia)) as Hl.
    cbn zeta in Hl. rewrite <- Hr in Hl. cbn [fst snd] in Hl.
    subst er1. unfold er_normalize in *.
    destruct (er_data er) as [buf|] eqn:Hd.
    + destruct (Z.eqb_spec (er_data_len er) 0) as [Hz|Hnz]; cbn [orb].
      * cbn [er_data_len set_er_data] in Hl. change (0 =? 0) with true in Hl.
        destruct Hl as [_ Hl]; [now left|]. injection Hl as -> _ ->.
        change (0 =? 0) with true. cbv iota. apply to_int_small. lia.
      * destruct (Z.eqb_spec (er_data_len er) 0); [contradiction|].
        destruct Hl as [_ Hl]; [right; lia|]. rewrite Z.add_0_l in Hl.
        destruct (ea_list_total g d recs <=? er_data_len er).
        -- destruct Hl as [-> ->]. change (0 =? 0) with true. cbv iota.
           apply to_int_small. lia.
        -- rewrite Hl. reflexivity.
    + cbn [er_data_len set_er_data] in Hl. change (0 =? 0) with true in Hl.
      destruct Hl as [_ Hl]; [now left|]. injection Hl as -> _ ->.
      change (0 =? 0) with true. cbv iota. apply to_int_small. lia.
  - reflexivity.
  - pose proof (list_run g d (er_data_len er1) recs (default [] (er_data er1)) 0
                  ltac:(lia) ltac:(lia)) as Hl.
    cbn zeta in Hl. rewrite <- Hr in Hl. cbn [fst snd] in Hl.
    assert (Hinv : er_data_len er1 = 0 \/ 0 <= er_data_len er1).
    { subst er1. unfold er_normalize. destruct (er_data er); [|now left].
      destruct (Z.eqb_spec (er_data_len er) 0); [now left|right; exact Hlen]. }
    destruct (Hl Hinv) as [Hlen' _].
    cbn [er_data set_er_data]. destruct (er_data er1); [exact Hlen'|reflexivity].
Qed.

Lemma ea_list_sizes_witness :
  exists er',
    gfs2_ea_list EattrExamples.format ListExamples.listing_1 EattrExamples.sbd_64 0
      EattrExamples.disk_foo (EattrExamples.inode_foo false)
      (EattrExamples.request_foo None 0 0) = Some (9, er').
Proof.
  destruct (ea_list_sizes EattrExamples.format ListExamples.listing_1 EattrExamples.sbd_64
              EattrExamples.disk_foo (EattrExamples.inode_foo false)
              [mk_location 7 24 None] (EattrExamples.request_foo None 0 0))
    as (er' & H & _).
  - simpl. lia.
  - discriminate.
  - reflexivity.
  - vm_compute. reflexivity.
  - simpl. lia.
  - exists er'. exact H.
Defined.

(** ** The entries *)

(** The three copies of [ea_list_i]. *)
Lemma entry_write (data prefix name : list Z) (size l n : Z) :
  0 <= size -> l = Z.of_nat (length prefix) -> 0 <= n <= Z.of_nat (length name) ->
  size + (l + n + 1) <= Z.of_nat (length data) ->
  memcpy (memcpy (memcpy data size prefix 0 l) (size + l) name 0 n)
         (size + (l + n + 1) - 1) [0] 0 1 =
  take (Z.to_nat size) data ++ (prefix ++ take (Z.to_nat n) name ++ [0])
  ++ drop (Z.to_nat (size + (l + n + 1))) data.
Proof.
  intros Hsize Hl Hn Hlen.
  set (E := prefix ++ take (Z.to_nat n) name ++ [0]).
  assert (HE : Z.of_nat (length E) = l + n + 1).
  { subst E. rewrite !length_app, length_take. simpl. lia. }
  assert (HR : take (Z.to_nat size) data ++ E ++ drop (Z.to_nat (size + (l + n + 1))) data
               = memcpy data size E 0 (l + n + 1)).
  { rewrite CopyFacts.memcpy_splice by lia. rewrite (take_ge E) by lia. reflexivity. }
  rewrite HR.
  rewrite <- (CopyFacts.memcpy_parts data E size l (l + n + 1)) by lia.
  assert (Hp : memcpy data size E 0 l = memcpy data size prefix 0 l).
  { unfold memcpy. change (Z.to_nat 0) with 0%nat. rewrite !drop_0.
    subst E. rewrite take_app_le by lia. reflexivity. }
  rewrite Hp. subst E. rewrite drop_app_length' by lia.
  replace (l + n + 1 - l) with (n + 1) by lia.
  set (data1 := memcpy data size prefix 0 l).
  assert (Hlen1 : length data1 = length data) by apply RgrpFacts.length_memcpy.
  rewrite <- (CopyFacts.memcpy_parts data1 (take (Z.to_nat n) name ++ [0]) (size + l) n (n + 1)).
  2-5: rewrite ?length_app, ?length_take; simpl; lia.
  assert (Hn1 : memcpy data1 (size + l) (take (Z.to_nat n) name ++ [0]) 0 n
                = memcpy data1 (size + l) name 0 n).
  { unfold memcpy. change (Z.to_nat 0) with 0%nat. rewrite !drop_0.
    rewrite take_app_le by (rewrite length_take; lia).
    rewrite take_take. f_equal. f_equal. lia. }
  rewrite Hn1. rewrite drop_app_length' by (rewrite length_take; lia).
  f_equal; lia.
Qed.

Lemma list_run_entries (g : listing) (d : disk) (len : Z) (recs : list gfs2_ea_location) :
  len <> 0 -> listing_ok g d recs ->
  forall (data : list Z) (size : Z),
    0 <= size -> size + ea_list_total g d recs <= len ->
    len < 2 ^ 32 -> len <= Z.of_nat (length data) ->
    (ea_run d (ea_list_i g len) (data, size) recs 0).2.1 =
    take (Z.to_nat size) data ++ ea_list_entries g d recs
    ++ drop (Z.to_nat (size + ea_list_total g d recs)) data.
Proof.
  intros Hnz Hok. induction recs as [|x recs IH]; intros data size Hsize Htotal H32 Hdata.
  - simpl. rewrite Z.add_0_r, take_drop. reflexivity.
  - apply Forall_cons in Hok as [Hx Hok]. specialize (IH Hok).
    cbn [ea_run ea_list_total ea_list_entries] in *. unfold located in *.
    destruct (d (el_bh x)) as [bh|]; cbn [mbind option_bind] in *; [|now apply IH].
    destruct (ea_type (ea_at bh (el_ea x)) =? GFS2_EATYPE_UNUSED) eqn:Hused.
    { assert (Hcall : ea_list_i g len (data, size) (el_bh x) bh (el_ea x) (el_prev x)
                      = (0, (data, size), bh)) by (unfold ea_list_i; now rewrite Hused).
      rewrite Hcall. change (0 =? 0) with true. cbn [negb]. now apply IH. }
    destruct Hx as (Hstr & Hname & Hbyte).
    pose proof (ea_list_total_range g d recs) as Ht.
    pose proof (wrap32_range (GFS2_EA_STRLEN g (ea_at bh (el_ea x)))) as He.
    set (h := ea_at bh (el_ea x)) in *.
    set (l := if ea_type h =? GFS2_EATYPE_USR g then 5 else 7) in *.
    assert (Hl : 0 < l <= 7) by (subst l; destruct (_ =? _); lia).
    assert (He' : wrap32 (GFS2_EA_STRLEN g h) = l + ea_name_len h + 1).
    { fold h in Hstr, Hname, Hbyte. rewrite Hstr. fold l. apply wrap32_small. lia. }
    rewrite He' in *.
    assert (Hcall : exists data1,
               ea_list_i g len (data, size) (el_bh x) bh (el_ea x) (el_prev x)
                 = (0, (data1, size + (l + ea_name_len h + 1)), bh) /\
               data1 = take (Z.to_nat size) data
                       ++ ((if ea_type h =? GFS2_EATYPE_USR g
                            then prefix_user else prefix_system)
                           ++ take (Z.to_nat (ea_name_len h)) (ea_name h) ++ [0])
                       ++ drop (Z.to_nat (size + (l + ea_name_len h + 1))) data).
    { unfold ea_list_i. fold h. rewrite Hused, He'.
      destruct (Z.eqb_spec len 0); [contradiction|]. cbn [negb].
      rewrite (wrap32_small (size + _)) by lia.
      destruct (Z.ltb_spec len (size + (l + ea_name_len h + 1))); [lia|].
      subst l. destruct (ea_type h =? GFS2_EATYPE_USR g);
        (eexists; split; [reflexivity|]; apply entry_write; [lia|reflexivity|lia|lia]). }
    destruct Hcall as (data1 & -> & Hdata1).
    change (0 =? 0) with true. cbn [negb].
    rewrite IH; [|lia|lia|lia|].
    2:{ rewrite Hdata1, !length_app, !length_take, length_drop. simpl.
        assert (length (if ea_type h =? GFS2_EATYPE_USR g then prefix_user else prefix_system)
                = Z.to_nat l) by (subst l; destruct (_ =? _); reflexivity).
        lia. }
    assert (Hentry : length (take (Z.to_nat size) data
                             ++ (if ea_type h =? GFS2_EATYPE_USR g
                                 then prefix_user else prefix_system)
                             ++ take (Z.to_nat (ea_name_len h)) (ea_name h) ++ [0])
                     = Z.to_nat (size + (l + ea_name_len h + 1))).
    { rewrite !length_app, !length_take. simpl.
      assert (length (if ea_type h =? GFS2_EATYPE_USR g then prefix_user else prefix_system)
              = Z.to_nat l) by (subst l; destruct (_ =? _); reflexivity).
      lia. }
    rewrite Hdata1. rewrite (app_assoc (take _ data)).
    rewrite take_app_length' by (now rewrite Hentry).
    rewrite drop_app_ge by lia. rewrite Hentry, drop_drop.
    rewrite <- !app_assoc. cbn [app]. repeat f_equal. lia.
Qed.

(** X25: when the entry of a record is its prefix, its name and a NUL, a
    listing into a buffer long enough leaves in it, one after the other in
    the order of the walk, the entries of the records in use: ["user."] or
    ["system."], the name, and a NUL; the bytes after the list are as they
    were. *)
Theorem ea_list_names (k : ondisk) (g : listing) (sdp : gfs2_sbd) (d : disk)
    (ip : gfs2_inode) (recs : list gfs2_ea_location) (er : gfs2_ea_request) (buf : list Z) :
  0 <= sizeof_meta_header k -> di_eattr ip <> 0 ->
  ea_records k sdp d ip = Some (0, recs) -> listing_ok g d recs ->
  er_data er = Some buf -> 0 < er_data_len er < 2 ^ 31 ->
  er_data_len er <= Z.of_nat (length buf) ->
  ea_list_total g d recs <= er_data_len er ->
  gfs2_ea_list k g sdp 0 d ip er =
    Some (ea_list_total g d recs,
          set_er_data er
            (Some (ea_list_entries g d recs
                   ++ drop (Z.to_nat (ea_list_total g d recs)) buf))
            (er_data_len er)).
Proof.
  intros Hmh Hattr Hrecs Hok Hbuf Hlen Hroom Htotal.
  pose proof (ea_list_total_range g d recs) as Ht.
  apply (records_store k sdp) in Hrecs.
  unfold gfs2_ea_list. cbn [negb Z.eqb].
  destruct (Z.eqb_spec (di_eattr ip) 0); [contradiction|]. cbn [negb].
  assert (Hnorm : er_normalize er = er).
  { unfold er_normalize. rewrite Hbuf. destruct (Z.eqb_spec (er_data_len er) 0); [lia|].
    reflexivity. }
  rewrite Hnorm, Hbuf. change (default [] (Some buf)) with buf.
  destruct (store_run k sdp Hmh _ (ea_list_i_reads g (er_data_len er)) d ip recs 0
              (buf, 0) Hrecs) as (e & a & d2 & -> & Hr).
  cbn [mbind option_bind]. destruct a as [data size].
  pose proof (list_run g d (er_data_len er) recs buf 0 ltac:(lia) ltac:(lia)
                ltac:(right; lia)) as Hl.
  pose proof (list_run_entries g d (er_data_len er) recs ltac:(lia) Hok buf 0
                ltac:(lia) ltac:(lia) ltac:(lia) Hroom) as Hent.
  cbn zeta in Hl. rewrite <- Hr in Hl, Hent. cbn [fst snd] in Hl, Hent.
  destruct (Z.eqb_spec (er_data_len er) 0); [lia|].
  rewrite Z.add_0_l in Hl, Hent.
  destruct (Z.leb_spec (ea_list_total g d recs) (er_data_len er)); [|lia].
  destruct Hl as (_ & -> & ->). change (0 =? 0) with true. cbv iota.
  rewrite EattrFacts.to_int_small by lia. rewrite Hent.
  change (Z.to_nat 0) with 0%nat. rewrite take_0. reflexivity.
Qed.

Lemma ea_list_names_witness :
  gfs2_ea_list EattrExamples.format ListExamples.listing_1 EattrExamples.sbd_64 0
    EattrExamples.disk_foo (EattrExamples.inode_foo false)
    (EattrExamples.request_foo (Some (replicate 12 7)) 10 0)
  = Some (9, EattrExamples.request_foo
               (Some [117; 115; 101; 114; 46; 102; 111; 111; 0; 7; 7; 7]) 10 0).
Proof.
  apply (ea_list_names EattrExamples.format ListExamples.listing_1 EattrExamples.sbd_64
           EattrExamples.disk_foo (EattrExamples.inode_foo false)
           [mk_location 7 24 None]
           (EattrExamples.request_foo (Some (replicate 12 7)) 10 0) (replicate 12 7)).
  - simpl. lia.
  - discriminate.
  - reflexivity.
  - repeat constructor; simpl; lia.
  - reflexivity.
  - simpl. lia.
  - simpl. lia.
  - vm_compute. discriminate.
Defined.

End EattrListFacts.

(** * Properties of the release of data blocks *)

Module EattrDeallocFacts.
Import Eattr EattrRemove EattrDealloc.

Lemma freed_blocks_app (c1 c2 : list (Z * Z)) :
  freed_blocks (c1 ++ c2) = freed_blocks c1 ++ freed_blocks c2.
Proof. unfold freed_blocks. now rewrite fmap_app, concat_app. Qed.

(** The run in progress and the calls made cover the pointers passed. *)
Lemma dealloc_loop_spec (ptrs : list Z) :
  forall (bstart blen di_blocks : Z) (consist : bool),
    Forall (fun p => 0 <= p < 2 ^ 64) ptrs ->
    (bstart = 0 /\ blen = 0) \/ (0 < bstart /\ 0 < blen /\ bstart + blen <= 2 ^ 64) ->
    blen + Z.of_nat (length ptrs) < 2 ^ 32 ->
    exists calls ptrs' bs bl db c pre post,
      dealloc_loop ptrs bstart blen di_blocks consist = (calls, ptrs', bs, bl, db, c) /\
      ptrs = pre ++ post /\ Forall (fun p => p <> 0) pre /\
      (post = [] \/ head post = Some 0) /\
      ptrs' = replicate (length pre) 0 ++ post /\
      seqZ bstart blen ++ pre = freed_blocks calls ++ seqZ bs bl /\
      ((bs = 0 /\ bl = 0) \/ (0 < bs /\ 0 < bl /\ bs + bl <= 2 ^ 64)) /\
      Forall (fun c => 0 < c.1 /\ 0 < c.2) calls /\
      (consist = false -> Z.of_nat (length pre) <= di_blocks < 2 ^ 64 ->
       db = di_blocks - Z.of_nat (length pre) /\ c = false).
Proof.
  induction ptrs as [|bn rest IH]; intros bstart blen db c Hrange Hrun Hlen.
  - exists [], [], bstart, blen, db, c, [], []. simpl.
    split; [reflexivity|]. split; [reflexivity|]. split; [constructor|].
    split; [now left|]. split; [reflexivity|]. split; [now rewrite app_nil_r|].
    split; [exact Hrun|]. split; [constructor|]. intros -> _. split; [simpl; lia|reflexivity].
  - apply Forall_cons in Hrange as [Hbn Hrange]. cbn [dealloc_loop].
    destruct (Z.eqb_spec bn 0) as [->|Hnz].
    { exists [], (0 :: rest), bstart, blen, db, c, [], (0 :: rest). simpl.
      split; [reflexivity|]. split; [reflexivity|]. split; [constructor|].
      split; [now right|]. split; [reflexivity|]. split; [now rewrite app_nil_r|].
      split; [exact Hrun|]. split; [constructor|]. intros -> _. split; [simpl; lia|reflexivity]. }
    simpl length in Hlen.
    destruct (Z.eqb_spec (Rgrp.wrap64 (bstart + blen)) bn) as [Heq|Hneq].
    + (* the run goes on *)
      assert (Hcont : 0 < bstart /\ 0 < blen /\ bstart + blen = bn).
      { unfold Rgrp.wrap64 in Heq. destruct Hrun as [[-> ->]|(H1 & H2 & H3)].
        - change ((0 + 0) mod 2 ^ 64) with 0 in Heq. lia.
        - destruct (Z.eq_dec (bstart + blen) (2 ^ 64)) as [He|Hne].
          + rewrite He, Z_mod_same_full in Heq. lia.
          + rewrite Z.mod_small in Heq by lia. lia. }
      destruct Hcont as (Hb & Hl & Hsum).
      rewrite (wrap32_small (blen + 1)) by lia.
      destruct (IH bstart (blen + 1) (Rgrp.wrap64 (db - 1)) (c || (db =? 0)) Hrange)
        as (calls & ptrs' & bs & bl & db' & c' & pre & post
            & Hloop & Hsplit & Hpre & Hpost & Hptrs & Hcover & Hstate & Hcalls & Hcount).
      { right. lia. }
      { lia. }
      rewrite Hloop. exists calls, (0 :: ptrs'), bs, bl, db', c', (bn :: pre), post.
      split; [reflexivity|]. split; [now rewrite Hsplit|].
      split; [now constructor|]. split; [exact Hpost|]. split; [now rewrite Hptrs|].
      split.
      { rewrite <- Hcover, (seqZ_app bstart blen 1) by lia.
        rewrite <- app_assoc. f_equal. rewrite Hsum. reflexivity. }
      split; [exact Hstate|]. split; [exact Hcalls|].
      intros -> Hdb. simpl length in Hdb.
      destruct (Z.eqb_spec db 0); [lia|]. simpl in Hcount.
      unfold Rgrp.wrap64 in Hcount. rewrite Z.mod_small in Hcount by lia.
      destruct (Hcount eq_refl ltac:(lia)) as [-> ->]. split; [simpl length; lia|reflexivity].
    + (* a new run *)
      set (calls0 := if negb (bstart =? 0) then [(bstart, blen)] else []).
      destruct (IH bn 1 (Rgrp.wrap64 (db - 1)) (c || (db =? 0)) Hrange)
        as (calls & ptrs' & bs & bl & db' & c' & pre & post
            & Hloop & Hsplit & Hpre & Hpost & Hptrs & Hcover & Hstate & Hcalls & Hcount).
      { right. lia. }
      { lia. }
      rewrite Hloop. exists (calls0 ++ calls), (0 :: ptrs'), bs, bl, db', c', (bn :: pre), post.
      split; [reflexivity|]. split; [now rewrite Hsplit|].
      split; [now constructor|]. split; [exact Hpost|]. split; [now rewrite Hptrs|].
      split.
      { rewrite freed_blocks_app, <- app_assoc, <- Hcover.
        assert (Hc0 : freed_blocks calls0 = seqZ bstart blen).
        { subst calls0. destruct Hrun as [[-> ->]|(H1 & H2 & H3)]; simpl.
          - reflexivity.
          - destruct (Z.eqb_spec bstart 0); [lia|]. unfold freed_blocks. simpl.
            apply app_nil_r. }
        rewrite Hc0. f_equal. }
      split; [exact Hstate|]. split.
      { apply Forall_app. split; [|exact Hcalls]. subst calls0.
        destruct Hrun as [[-> ->]|(H1 & H2 & H3)]; simpl; [constructor|].
        destruct (Z.eqb_spec bstart 0); [lia|]. repeat constructor; simpl; lia. }
      intros -> Hdb. simpl length in Hdb.
      destruct (Z.eqb_spec db 0); [lia|]. simpl in Hcount.
      unfold Rgrp.wrap64 in Hcount. rewrite Z.mod_small in Hcount by lia.
      destruct (Hcount eq_refl ltac:(lia)) as [-> ->]. split; [simpl length; lia|reflexivity].
Qed.

(** X23: [ea_dealloc_unstuffed] on a record with data blocks, when the
    group is found and neither the lock nor the transaction fails.  The
    calls of [gfs2_free_meta] give back, in order and each block once,
    exactly the pointers that come before the first null pointer, every call
    being a run of at least one block that does not start at block 0; the
    pointers given back are set to null and the block count of the inode
    goes down by their number.  Where the record becomes a hole it has no
    pointer any more.  The value returned is that of
    [gfs2_meta_inode_buffer], the blocks being freed all the same. *)
Theorem dealloc_frees_pointers (k : ondisk) (rgd_found : Z -> bool) (dibh_error : Z)
    (leave : bool) (bh : block) (ea : Z) (prev : option Z) (di_blocks bn : Z) :
  let h := ea_at bh ea in
  let ptrs := take (Z.to_nat (ea_num_ptrs h)) (ea_dataptrs h) in
  GFS2_EA_IS_STUFFED h = false ->
  Forall (fun p => 0 <= p < 2 ^ 64) ptrs -> Z.of_nat (length ptrs) < 2 ^ 32 ->
  last (filter (fun p => p <> 0) ptrs) = Some bn -> rgd_found bn = true ->
  Z.of_nat (length ptrs) <= di_blocks < 2 ^ 64 ->
  exists bh' calls pre post,
    ea_dealloc_unstuffed k rgd_found 0 0 dibh_error leave bh ea prev di_blocks
      = (dibh_error, bh', calls, di_blocks - Z.of_nat (length pre), false) /\
    ptrs = pre ++ post /\ Forall (fun p => p <> 0) pre /\
    (post = [] \/ head post = Some 0) /\
    freed_blocks calls = pre /\
    Forall (fun c => 0 < c.1 /\ 0 < c.2) calls /\
    (prev = None \/ leave = true ->
     ea_type (ea_at bh' ea) = GFS2_EATYPE_UNUSED /\ ea_num_ptrs (ea_at bh' ea) = 0 /\
     take (length ptrs) (ea_dataptrs (ea_at bh' ea)) = replicate (length pre) 0 ++ post).
Proof.
  intros h ptrs Hunst Hrange Hlen Hlast Hrgd Hblocks.
  destruct (dealloc_loop_spec ptrs 0 0 di_blocks false Hrange ltac:(now left) ltac:(lia))
    as (calls & ptrs' & bs & bl & db & c & pre & post
        & Hloop & Hsplit & Hpre & Hpost & Hptrs & Hcover & Hstate & Hcalls & Hcount).
  assert (Hplen : (length pre <= length ptrs)%nat).
  { rewrite Hsplit, length_app. lia. }
  destruct (Hcount eq_refl ltac:(lia)) as [-> ->].
  set (calls' := calls ++ (if negb (bs =? 0) then [(bs, bl)] else [])).
  assert (Hfreed : freed_blocks calls' = pre).
  { subst calls'. rewrite freed_blocks_app. simpl in Hcover. rewrite Hcover. f_equal.
    destruct Hstate as [[-> ->]|(H1 & _)]; [reflexivity|].
    destruct (Z.eqb_spec bs 0); [lia|]. unfold freed_blocks. simpl. apply app_nil_r. }
  assert (Hcalls' : Forall (fun c => 0 < c.1 /\ 0 < c.2) calls').
  { subst calls'. apply Forall_app. split; [exact Hcalls|].
    destruct Hstate as [[-> ->]|(H1 & H2 & _)]; [constructor|].
    destruct (Z.eqb_spec bs 0); [lia|]. repeat constructor; simpl; lia. }
  assert (Hlen' : length ptrs' = length ptrs).
  { rewrite Hptrs, Hsplit, !length_app, length_replicate. reflexivity. }
  unfold ea_dealloc_unstuffed. fold h. rewrite Hunst. fold ptrs. rewrite Hlast, Hrgd.
  cbn [negb Z.eqb]. rewrite Hloop. fold calls'.
  eexists _, calls', pre, post. split; [reflexivity|].
  split; [exact Hsplit|]. split; [exact Hpre|]. split; [exact Hpost|].
  split; [exact Hfreed|]. split; [exact Hcalls'|].
  intros Hhole.
  assert (Hcase : match prev with
                  | Some p => if leave then true else false
                  | None => true
                  end = true).
  { destruct Hhole as [->| ->]; [reflexivity|]. now destruct prev. }
  destruct prev as [p|]; [destruct leave; [|discriminate]|];
    cbn [set_ea_at ea_at]; rewrite !Z.eqb_refl; cbn [set_ea_hole set_ea_dataptrs
      ea_type ea_num_ptrs ea_dataptrs];
    (split; [reflexivity|]; split; [reflexivity|]);
    rewrite <- Hlen', take_app_length; exact Hptrs.
Qed.

Lemma dealloc_frees_pointers_witness :
  exists bh' calls,
    ea_dealloc_unstuffed EattrExamples.format (fun _ => true) 0 0 0 false
      (mk_block GFS2_METATYPE_EA
         (fun _ => mk_ea_header 40 100 3 1 1 5 [102; 111; 111] [] [20; 21; 22; 30; 0; 7])
         [] [])
      24 None 10 = (0, bh', calls, 6, false) /\
    freed_blocks calls = [20; 21; 22; 30].
Proof.
  destruct (dealloc_frees_pointers EattrExamples.format (fun _ => true) 0 false
              (mk_block GFS2_METATYPE_EA
                 (fun _ => mk_ea_header 40 100 3 1 1 5 [102; 111; 111] []
                             [20; 21; 22; 30; 0; 7])
                 [] [])
              24 None 10 30)
    as (bh' & calls & pre & post & Hd & Hsplit & Hpre & Hpost & Hfreed & _).
  - reflexivity.
  - simpl. repeat constructor; lia.
  - simpl. lia.
  - reflexivity.
  - reflexivity.
  - simpl. lia.
  - assert (Hp : pre = [20; 21; 22; 30]).
    { simpl in Hsplit.
      do 4 (destruct pre as [|? pre]; [destruct Hpost as [->|Hh]; [discriminate Hsplit|];
              destruct post; [discriminate|]; simpl in *; congruence|];
            apply Forall_cons in Hpre as [? Hpre]; simpl in Hsplit;
            injection Hsplit as <- Hsplit).
      destruct pre as [|z pre]; [reflexivity|].
      apply Forall_cons in Hpre as [Hz _]. simpl in Hsplit. injection Hsplit as <- _.
      contradiction. }
    exists bh', calls. rewrite Hp in Hd, Hfreed. split; [exact Hd|exact Hfreed].
Defined.

End EattrDeallocFacts.

(** * Creating attributes *)
Module EattrSetFacts.
Import Eattr EattrWrite EattrRemove EattrSet RgrpFacts CopyFacts EattrWriteFacts.

(** The loop of [ea_get_unstuffed] reads the blocks of its pointers only. *)
Lemma get_loop_ext (sdp : gfs2_sbd) (d1 d2 : disk) (ptrs : list Z) :
  forall (amount : Z) (data : list Z) (pos : Z),
    Forall (fun b => d1 b = d2 b) ptrs ->
    ea_get_unstuffed_loop sdp d1 ptrs amount data pos =
    ea_get_unstuffed_loop sdp d2 ptrs amount data pos.
Proof.
  induction ptrs as [|b ptrs IH]; intros amount data pos Hall; [reflexivity|].
  apply Forall_cons in Hall as [Hb Hall]. cbn [ea_get_unstuffed_loop].
  rewrite Hb. destruct (d2 b) as [bh|]; [|reflexivity].
  destruct (negb (mh_type bh =? GFS2_METATYPE_ED)); [reflexivity|].
  apply IH. exact Hall.
Qed.

(** The pointers the loop of [ea_write] stores are the blocks allocated. *)
Lemma write_loop_ptrs (sdp : gfs2_sbd) (data_block : list Z -> block) (alloc : nat -> Z)
    (n : nat) :
  forall (x : nat) (d : disk) (data : list Z) (len : Z),
    (ea_write_loop sdp data_block alloc d x n data len).1.1.2 = alloc <$> seq x n.
Proof.
  induction n as [|n IH]; intros x d data len; [reflexivity|].
  cbn [ea_write_loop].
  match goal with
  | |- context [ea_write_loop sdp data_block alloc ?d1 (S x) n ?dt ?l] =>
      specialize (IH (S x) d1 dt l);
      destruct (ea_write_loop sdp data_block alloc d1 (S x) n dt l) as [[[d' ptrs] blocks] rest]
  end.
  simpl in *. now rewrite IH.
Qed.

(** What [ea_write] leaves in the record and on the disk. *)
Lemma ea_write_spec (k : ondisk) (sdp : gfs2_sbd) (data_block : list Z -> block)
    (alloc : nat -> Z) (d : disk) (ea : gfs2_ea_header) (er : gfs2_ea_request)
    (data : list Z) :
  er_data er = Some data -> er_data_len er = Z.of_nat (length data) ->
  0 < sd_jbsize sdp -> er_data_len er < 2 ^ 32 ->
  DIV_RU (er_data_len er) (sd_jbsize sdp) < 256 ->
  0 <= er_name_len er < 256 -> er_name_len er <= Z.of_nat (length (er_name er)) ->
  0 <= er_type er < 256 ->
  (forall p, mh_type (data_block p) = GFS2_METATYPE_ED /\ ed_bytes (data_block p) = p) ->
  (forall i j, Z.of_nat i < 256 -> Z.of_nat j < 256 -> alloc i = alloc j -> i = j) ->
  exists ea' d',
    ea_write k sdp data_block alloc d ea er = Some (ea', d', ea_num_ptrs ea', false) /\
    ea_rec_len ea' = ea_rec_len ea /\ ea_flags ea' = ea_flags ea /\
    ea_type ea' = er_type er /\ ea_name_len ea' = er_name_len er /\
    take (Z.to_nat (er_name_len er)) (ea_name ea') =
      take (Z.to_nat (er_name_len er)) (er_name er) /\
    GFS2_EA_DATA_LEN ea' = er_data_len er /\
    ea_num_ptrs ea' =
      (if GFS2_EAREQ_SIZE_STUFFED k er <=? sd_jbsize sdp then 0
       else DIV_RU (er_data_len er) (sd_jbsize sdp)) /\
    (forall b, (forall i, Z.of_nat i < 256 -> alloc i <> b) -> d' b = d b) /\
    forall d2 buf,
      (forall i, Z.of_nat i < 256 -> d2 (alloc i) = d' (alloc i)) ->
      er_data_len er <= Z.of_nat (length buf) ->
      gfs2_ea_get_copy sdp d2 true ea' buf =
        (0, data ++ drop (Z.to_nat (er_data_len er)) buf).
Proof.
  intros Hdata Hlen Hj H32 Hn Hnl Hname Hty Hblock Hinj.
  assert (Hdiv : 0 <= DIV_RU (er_data_len er) (sd_jbsize sdp)).
  { unfold DIV_RU. apply Z.div_pos; lia. }
  assert (Hw32 : wrap32 (wrap32 (er_data_len er)) = er_data_len er).
  { rewrite (wrap32_small (er_data_len er)) by lia. apply wrap32_small. lia. }
  assert (Htake : forall old,
    take (Z.to_nat (er_name_len er))
      (take (Z.to_nat (er_name_len er)) (er_name er) ++ old) =
    take (Z.to_nat (er_name_len er)) (er_name er)).
  { intros old. rewrite take_app_le by (rewrite length_take; lia).
    now rewrite take_take, Nat.min_id. }
  unfold ea_write. rewrite Hdata. cbn [mbind option_bind].
  rewrite (Z.mod_small (er_name_len er)) by lia.
  rewrite (Z.mod_small (er_type er)) by lia.
  destruct (GFS2_EAREQ_SIZE_STUFFED k er <=? sd_jbsize sdp).
  - eexists (mk_ea_header _ _ _ _ _ _ _ _ _), _. split; [reflexivity|].
    cbn [ea_rec_len ea_flags ea_type ea_name_len ea_name ea_num_ptrs].
    split; [reflexivity|]. split; [reflexivity|]. split; [reflexivity|].
    split; [reflexivity|]. split; [apply Htake|]. split; [exact Hw32|].
    split; [reflexivity|]. split; [reflexivity|].
    intros d2 buf _ Hbuf.
    unfold gfs2_ea_get_copy, GFS2_EA_IS_STUFFED, GFS2_EA_DATA_LEN.
    cbn [ea_num_ptrs ea_data_len ea_data].
    change (0 =? 0) with true. cbv iota. rewrite Hw32. f_equal.
    rewrite memcpy_splice.
    + change (Z.to_nat 0) with 0%nat. rewrite take_0. cbn [app].
      rewrite (take_ge data) by lia.
      rewrite take_app_length' by lia. reflexivity.
    + lia.
    + rewrite length_app, length_take. lia.
    + lia.
  - rewrite (Z.mod_small (DIV_RU _ _) 256) by lia.
    set (n := Z.to_nat (DIV_RU (er_data_len er) (sd_jbsize sdp))).
    assert (Hrange : (Z.of_nat n - 1) * sd_jbsize sdp < er_data_len er
                     <= Z.of_nat n * sd_jbsize sdp).
    { subst n. rewrite Z2Nat.id by exact Hdiv. unfold DIV_RU.
      pose proof (Z.div_mod (er_data_len er + sd_jbsize sdp - 1) (sd_jbsize sdp) ltac:(lia)).
      pose proof (Z.mod_pos_bound (er_data_len er + sd_jbsize sdp - 1) (sd_jbsize sdp) Hj).
      nia. }
    assert (Hinj' : forall i j, (0 <= i < 0 + n)%nat -> (0 <= j < 0 + n)%nat ->
                                alloc i = alloc j -> i = j).
    { intros i j Hi Hj'. apply Hinj; lia. }
    pose proof (write_loop_ptrs sdp data_block alloc n 0%nat d data (er_data_len er)) as Hp.
    pose proof (fun buf => write_loop_read_back sdp data_block alloc Hj
                  (fun p => proj1 (Hblock p)) (fun p => proj2 (Hblock p))
                  n 0%nat d data (er_data_len er) buf 0 Hlen H32 Hrange Hinj'
                  (Z.le_refl 0)) as Hrb.
    destruct (ea_write_loop sdp data_block alloc d 0 n data (er_data_len er))
      as [[[d' ptrs] blocks] rest] eqn:Hw.
    cbn [fst snd] in Hp.
    destruct (Hrb (replicate (length data) 0)) as (d0 & ptrs0 & Heq0 & Hlen0 & Hframe & _).
    { rewrite length_replicate. lia. }
    injection Heq0 as <- <- -> ->.
    eexists (mk_ea_header _ _ _ _ _ _ _ _ _), _.
    split.
    { cbn [ea_num_ptrs]. subst n. rewrite Z2Nat.id by exact Hdiv. reflexivity. }
    cbn [ea_rec_len ea_flags ea_type ea_name_len ea_name ea_num_ptrs].
    split; [reflexivity|]. split; [reflexivity|]. split; [reflexivity|].
    split; [reflexivity|]. split; [apply Htake|]. split; [exact Hw32|].
    split; [reflexivity|]. split.
    { intros b Hb. apply Hframe. intros i Hi. apply Hb. lia. }
    intros d2 buf Hd2 Hbuf.
    destruct (Hrb buf) as (d0 & ptrs0 & Heq0 & _ & _ & Hget); [lia|].
    injection Heq0 as <- <-.
    unfold gfs2_ea_get_copy, GFS2_EA_IS_STUFFED, GFS2_EA_DATA_LEN.
    cbn [ea_num_ptrs ea_data_len ea_data ea_dataptrs].
    destruct (Z.eqb_spec (DIV_RU (er_data_len er) (sd_jbsize sdp)) 0) as [Hz|Hnz].
    + assert (Hl0 : er_data_len er = 0) by (subst n; rewrite Hz in Hrange; simpl in Hrange; lia).
      rewrite Hw32, Hl0. rewrite memcpy_nothing by lia.
      destruct data; [reflexivity|simpl in Hlen; lia].
    + unfold ea_get_unstuffed, GFS2_EA_DATA_LEN. cbn [ea_data_len ea_dataptrs negb].
      rewrite Hw32.
      replace (Z.to_nat (DIV_RU (er_data_len er) (sd_jbsize sdp))) with (length ptrs)
        by (rewrite Hlen0; reflexivity).
      rewrite take_app_length.
      rewrite (get_loop_ext sdp d2 d').
      * rewrite Hget. f_equal. apply memcpy_all; [exact Hlen|lia].
      * rewrite Hp. apply Forall_fmap, Forall_forall. intros i Hi.
        apply elem_of_seq in Hi. apply Hd2. lia.
Qed.




End EattrSetFacts.

(** * Splitting a record *)
Module EattrSplitFacts.
Import Eattr EattrWrite EattrRemove EattrSet RgrpFacts EattrFacts EattrRemoveFacts
       EattrSetFacts.

Lemma land_lxor_byte (f L : Z) :
  0 <= L < 256 -> Z.land (Z.lxor f (Z.land f L) mod 256) L = 0.
Proof.
  intros HL. apply Z.bits_inj'. intros n Hn.
  rewrite Z.land_spec, UtilFacts.byte_bits, Z.lxor_spec, Z.land_spec, Z.bits_0 by lia.
  destruct (Z.testbit L n), (Z.testbit f n), (n <? 8); reflexivity.
Qed.

Lemma land_land_byte (f L : Z) :
  0 <= L < 256 -> Z.land (Z.land f L mod 256) L = Z.land f L.
Proof.
  intros HL. apply Z.bits_inj'. intros n Hn.
  rewrite Z.land_spec, UtilFacts.byte_bits, Z.land_spec by lia.
  destruct (Z.testbit L n) eqn:Hb; [|now rewrite !andb_false_r].
  rewrite <- (Z.mod_small L 256), UtilFacts.byte_bits in Hb by lia.
  apply andb_true_iff in Hb as [_ ->]. now rewrite !andb_true_r.
Qed.

(** Records past the one split keep their place. *)
Lemma split_far (el : gfs2_ea_location) (new : Z) (rest : list gfs2_ea_location) :
  Forall (fun x => el_ea el < el_ea x /\ exists o, el_prev x = Some o /\ el_ea el < o) rest ->
  split_records el new rest = rest.
Proof.
  unfold split_records.
  induction 1 as [|x rest (Hx & o & Hp & Ho) _ IH]; [reflexivity|].
  rewrite fmap_cons. cbn [concat]. rewrite IH.
  unfold same_record, reprev.
  destruct (Z.eqb_spec (el_ea x) (el_ea el)); [lia|]. rewrite andb_false_r.
  destruct (bool_decide_reflect (el_prev x = Some (el_ea el))) as [He|].
  - rewrite Hp in He. injection He as ->. lia.
  - rewrite andb_false_r. reflexivity.
Qed.

Lemma split_other (el : gfs2_ea_location) (new : Z) (l : list gfs2_ea_location) :
  Forall (fun x => el_bh x <> el_bh el) l -> split_records el new l = l.
Proof.
  unfold split_records.
  induction 1 as [|x l Hx _ IH]; [reflexivity|].
  rewrite fmap_cons. cbn [concat]. rewrite IH.
  unfold same_record, reprev.
  destruct (Z.eqb_spec (el_bh x) (el_bh el)); [contradiction|]. reflexivity.
Qed.

Lemma split_records_app (el : gfs2_ea_location) (new : Z) (l1 l2 : list gfs2_ea_location) :
  split_records el new (l1 ++ l2) = split_records el new l1 ++ split_records el new l2.
Proof. unfold split_records. now rewrite fmap_app, concat_app. Qed.

Section SplitChain.
Variable k : ondisk.
Variable b_size : Z.
Variable bn : Z.
Variables bh bh2 : block.
Variables ea new : Z.
Hypothesis block_small : b_size < 2 ^ 32.
Hypothesis last_flag : 0 <= GFS2_EAFLAG_LAST k < 256.
Hypothesis new_inside : ea < new < ea + GFS2_EA_REC_LEN (ea_at bh ea).
Hypothesis others_kept : forall o, o <> ea -> o <> new -> ea_at bh2 o = ea_at bh o.
Hypothesis ea_len : GFS2_EA_REC_LEN (ea_at bh2 ea) = new - ea.
Hypothesis ea_not_last : GFS2_EA_IS_LAST k (ea_at bh2 ea) = false.
Hypothesis ea_type_kept : ea_type (ea_at bh2 ea) = ea_type (ea_at bh ea).
Hypothesis new_len :
  new + GFS2_EA_REC_LEN (ea_at bh2 new) = ea + GFS2_EA_REC_LEN (ea_at bh ea).
Hypothesis new_last : GFS2_EA_IS_LAST k (ea_at bh2 new) = GFS2_EA_IS_LAST k (ea_at bh ea).
Hypothesis new_type : GFS2_EATYPE_VALID k (ea_type (ea_at bh2 new)) = true.

(** The chain of a buffer once one of its records is split. *)
Lemma chain_split (p : option Z) (s : Z) (q : option Z)
    (recs : list gfs2_ea_location) (err : Z) :
  ea_chain k b_size bn bh s q recs err ->
  mk_location bn ea p ∈ recs -> (forall o, q = Some o -> o < s) ->
  ea_chain k b_size bn bh2 s q (split_records (mk_location bn ea p) new recs) err.
Proof.
  set (el := mk_location bn ea p).
  assert (Hsplit_el : forall q0, split_records el new [mk_location bn ea q0]
                      = [mk_location bn ea q0; mk_location bn new (Some ea)]).
  { intros q0. unfold split_records, same_record. simpl. now rewrite !Z.eqb_refl. }
  assert (Hchain_ea : forall q0 rest err0,
            ea_record_ok k b_size ea (ea_at bh ea) = true ->
            ea_chain k b_size bn bh2 new (Some ea) rest err0 ->
            ea_chain k b_size bn bh2 ea q0 (mk_location bn ea q0 :: rest) err0).
  { intros q0 rest err0 Hok Hc.
    apply ea_record_ok_true in Hok as (Hnz & Hs0 & Hend & Hty).
    apply chain_next.
    - apply ea_record_ok_true. rewrite ea_len, ea_type_kept. repeat split; try lia. exact Hty.
    - exact ea_not_last.
    - rewrite ea_len. replace (ea + (new - ea)) with new by lia. exact Hc. }
  assert (Hok_new : ea_record_ok k b_size ea (ea_at bh ea) = true ->
                    ea_record_ok k b_size new (ea_at bh2 new) = true).
  { intros Hok. apply ea_record_ok_true in Hok as (Hnz & Hs0 & Hend & Hty).
    apply ea_record_ok_true. repeat split; try lia. exact new_type. }
  induction 1 as [s q Hok|s q Hok Hlast|s q recs err Hok Hlast Hc IH]; intros Hin Hq.
  - inversion Hin.
  - apply list_elem_of_singleton in Hin. injection Hin as <- <-.
    rewrite Hsplit_el. apply Hchain_ea; [exact Hok|].
    pose proof (chain_last k b_size bn bh2 new (Some ea) (Hok_new Hok)) as Hl.
    rewrite new_last, new_len in Hl. apply Hl. exact Hlast.
  - pose proof Hok as Hok'. apply ea_record_ok_true in Hok' as (Hnz & Hs0 & Hend & Hty).
    pose proof (rec_len_range (ea_at bh s)) as Hlen.
    destruct (decide (s = ea)) as [->|Hne].
    + (* the record split *)
      change (mk_location bn ea q :: recs) with ([mk_location bn ea q] ++ recs).
      rewrite split_records_app, Hsplit_el. cbn [app].
      apply Hchain_ea; [exact Hok|].
      apply chain_next; [exact (Hok_new Hok)|now rewrite new_last|].
      rewrite new_len.
      apply chain_agree with (bh1 := bh).
      2:{ intros o Ho. apply others_kept; lia. }
      pose proof (chain_reprev k b_size bn bh _ _ (Some new) _ _ Hc) as Hre.
      destruct (chain_shape k b_size bn bh _ _ _ _ Hc) as [->|(rest & -> & Hrest)].
      { exact Hre. }
      change (mk_location bn (ea + GFS2_EA_REC_LEN (ea_at bh ea)) (Some ea) :: rest)
        with ([mk_location bn (ea + GFS2_EA_REC_LEN (ea_at bh ea)) (Some ea)] ++ rest).
      rewrite split_records_app.
      rewrite (split_far el new rest).
      2:{ eapply Forall_impl; [exact Hrest|]. intros x (_ & Hx & o & Hp & Ho).
          simpl. split; [lia|]. exists o. split; [exact Hp|lia]. }
      unfold split_records, same_record, reprev. simpl.
      rewrite Z.eqb_refl.
      destruct (Z.eqb_spec (ea + GFS2_EA_REC_LEN (ea_at bh ea)) ea); [lia|].
      rewrite bool_decide_eq_true_2 by reflexivity. simpl. exact Hre.
    + (* a record before it *)
      apply elem_of_cons in Hin as [Hin|Hin]; [injection Hin as ->; contradiction|].
      destruct (chain_elem k b_size bn bh _ _ _ _ Hc el Hin) as (_ & Hge & _).
      simpl in Hge.
      change (mk_location bn s q :: recs) with ([mk_location bn s q] ++ recs).
      rewrite split_records_app.
      assert (Hhead : split_records el new [mk_location bn s q] = [mk_location bn s q]).
      { unfold split_records, same_record, reprev. simpl.
        destruct (Z.eqb_spec s ea); [contradiction|]. rewrite andb_false_r.
        destruct (bool_decide_reflect (q = Some ea)) as [Hqe|].
        - specialize (Hq ea Hqe). lia.
        - rewrite andb_false_r. reflexivity. }
      rewrite Hhead. cbn [app].
      assert (Hat : ea_at bh2 s = ea_at bh s) by (apply others_kept; lia).
      apply chain_next; rewrite Hat; [exact Hok|exact Hlast|].
      apply IH; [exact Hin|]. intros o Ho. injection Ho as <-. lia.
Qed.

End SplitChain.

(** A chain depends on the lengths, the flags and the types of its records
    only. *)
Lemma chain_same (k : ondisk) (b_size bn : Z) (bh bh2 : block) (s : Z) (q : option Z)
    (recs : list gfs2_ea_location) (err : Z) :
  (forall o, GFS2_EA_REC_LEN (ea_at bh2 o) = GFS2_EA_REC_LEN (ea_at bh o) /\
             GFS2_EA_IS_LAST k (ea_at bh2 o) = GFS2_EA_IS_LAST k (ea_at bh o) /\
             GFS2_EATYPE_VALID k (ea_type (ea_at bh2 o)) =
               GFS2_EATYPE_VALID k (ea_type (ea_at bh o))) ->
  ea_chain k b_size bn bh s q recs err -> ea_chain k b_size bn bh2 s q recs err.
Proof.
  intros Hsame.
  assert (Hok : forall o, ea_record_ok k b_size o (ea_at bh2 o)
                          = ea_record_ok k b_size o (ea_at bh o)).
  { intros o. destruct (Hsame o) as (Hl & _ & Ht). unfold ea_record_ok. now rewrite Hl, Ht. }
  induction 1 as [s q H1|s q H1 H2|s q recs err H1 H2 Hc IH].
  - apply chain_fail. now rewrite Hok.
  - destruct (Hsame s) as (Hl & Hf & _). rewrite <- Hl.
    apply chain_last; [now rewrite Hok|now rewrite Hf].
  - destruct (Hsame s) as (Hl & Hf & _).
    apply chain_next; [now rewrite Hok|now rewrite Hf|]. rewrite Hl. exact IH.
Qed.

(** The records of a store once one buffer is changed, the records of that
    buffer going from [recs] to [T recs]. *)
Section OneBuffer.
Variable k : ondisk.
Variable sdp : gfs2_sbd.
Hypothesis header_size : 0 <= sizeof_meta_header k.
Hypothesis block_small : sd_bsize sdp < 2 ^ 32.
Hypothesis last_flag : 0 <= GFS2_EAFLAG_LAST k < 256.
Variables d d' : disk.
Variable b0 : Z.
Variables bh bh2 : block.
Variable T : list gfs2_ea_location -> list gfs2_ea_location.
Hypothesis b0_block : d b0 = Some bh.
Hypothesis b0_block' : d' b0 = Some bh2.
Hypothesis others_same : forall b, b <> b0 -> d' b = d b.
Hypothesis type_kept : mh_type bh2 = mh_type bh.
Hypothesis ptrs_kept : in_ptrs bh2 = in_ptrs bh.
Hypothesis T_nil : T [] = [].
Hypothesis T_app : forall l1 l2, T (l1 ++ l2) = T l1 ++ T l2.
Hypothesis T_other : forall l, Forall (fun x => el_bh x <> b0) l -> T l = l.
Hypothesis T_chain :
  forall recs err,
    ea_chain k (sd_bsize sdp) b0 bh (sizeof_meta_header k) None recs err ->
    ea_chain k (sd_bsize sdp) b0 bh2 (sizeof_meta_header k) None (T recs) err.

Lemma block_changed (b : Z) (bh_b : block) (recs : list gfs2_ea_location) (err : Z) :
  d b = Some bh_b -> block_records k sdp b bh_b recs err ->
  exists bh_b',
    d' b = Some bh_b' /\ mh_type bh_b' = mh_type bh_b /\ in_ptrs bh_b' = in_ptrs bh_b /\
    block_records k sdp b bh_b' (T recs) err.
Proof.
  intros Hb Hc.
  destruct (decide (b = b0)) as [->|Hne].
  - rewrite b0_block in Hb. injection Hb as <-.
    exists bh2. split; [exact b0_block'|]. split; [exact type_kept|].
    split; [exact ptrs_kept|].
    unfold block_records in *. rewrite type_kept.
    destruct (mh_type bh =? GFS2_METATYPE_EA).
    + apply T_chain. exact Hc.
    + destruct Hc as [-> ->]. split; [exact T_nil|reflexivity].
  - exists bh_b. rewrite others_same by exact Hne.
    split; [exact Hb|]. split; [reflexivity|]. split; [reflexivity|].
    rewrite T_other; [exact Hc|].
    apply Forall_forall. intros x Hx.
    destruct (block_elem k sdp _ _ _ _ _ Hc Hx) as [-> _]. exact Hne.
Qed.

Lemma ptrs_changed (eablk : list Z) (recs : list gfs2_ea_location) (err : Z) :
  ptrs_records k sdp d eablk recs err ->
  ptrs_records k sdp d' eablk (T recs) err.
Proof.
  induction 1 as [|rest|bn rest Hbn Hbh|bn rest bh_b recs err Hbn Hbh Hc Herr
                  |bn rest bh_b recs recs2 err Hbn Hbh Hc Hrest IH].
  - rewrite T_nil. constructor.
  - rewrite T_nil. constructor.
  - rewrite T_nil. apply ptrs_unread; [exact Hbn|].
    destruct (decide (bn = b0)) as [->|Hne]; [congruence|].
    now rewrite others_same.
  - destruct (block_changed _ _ _ _ Hbh Hc) as (bh' & Hb' & _ & _ & Hc').
    eapply ptrs_stop; eauto.
  - destruct (block_changed _ _ _ _ Hbh Hc) as (bh' & Hb' & _ & _ & Hc').
    rewrite T_app. eapply ptrs_go; eauto.
Qed.

Lemma store_changed (ip : gfs2_inode) (recs : list gfs2_ea_location) (err : Z) :
  store_records k sdp d ip recs err ->
  store_records k sdp d' ip (T recs) err.
Proof.
  unfold store_records.
  destruct (d (di_eattr ip)) as [bh0|] eqn:Hbh0.
  - intros Hc.
    assert (Hroot : exists bh0', d' (di_eattr ip) = Some bh0' /\
                      mh_type bh0' = mh_type bh0 /\ in_ptrs bh0' = in_ptrs bh0 /\
                      forall recs err, block_records k sdp (di_eattr ip) bh0 recs err ->
                        block_records k sdp (di_eattr ip) bh0' (T recs) err).
    { destruct (decide (di_eattr ip = b0)) as [He|Hne].
      - rewrite He in *. rewrite b0_block in Hbh0. injection Hbh0 as <-.
        exists bh2. split; [exact b0_block'|]. split; [exact type_kept|].
        split; [exact ptrs_kept|].
        intros recs0 err0 Hc0.
        destruct (block_changed _ _ _ _ b0_block Hc0) as (bh' & Hb' & _ & _ & Hc').
        rewrite b0_block' in Hb'. injection Hb' as <-. exact Hc'.
      - exists bh0. rewrite others_same by exact Hne.
        split; [exact Hbh0|]. split; [reflexivity|]. split; [reflexivity|].
        intros recs0 err0 Hc0.
        destruct (block_changed _ _ _ _ Hbh0 Hc0) as (bh' & Hb' & _ & _ & Hc').
        rewrite others_same, Hbh0 in Hb' by exact Hne. injection Hb' as <-. exact Hc'. }
    destruct Hroot as (bh0' & -> & Hty & Hptrs & Hblock).
    rewrite Hty, Hptrs.
    destruct (dif_ea_indirect ip); simpl in *.
    + destruct (mh_type bh0 =? GFS2_METATYPE_IN); simpl in *.
      * now apply ptrs_changed.
      * destruct Hc as [-> ->]. rewrite T_nil. split; reflexivity.
    + now apply Hblock.
  - intros [-> ->]. rewrite T_nil.
    assert (Hd' : d' (di_eattr ip) = None).
    { destruct (decide (di_eattr ip = b0)) as [He|Hne]; [|now rewrite others_same].
      rewrite He, b0_block in Hbh0. discriminate. }
    rewrite Hd'. split; reflexivity.
Qed.

End OneBuffer.

(** The records of a store are read from the block of [di_eattr] and from
    the blocks it points to. *)
Lemma ptrs_records_ext (k : ondisk) (sdp : gfs2_sbd) (d d1 : disk) (eablk : list Z)
    (recs : list gfs2_ea_location) (err : Z) :
  Forall (fun b => d1 b = d b) eablk ->
  ptrs_records k sdp d eablk recs err -> ptrs_records k sdp d1 eablk recs err.
Proof.
  intros Hall Hc. induction Hc as [|rest|bn rest Hbn Hbh|bn rest bh_b recs err Hbn Hbh Hc Herr
                  |bn rest bh_b recs recs2 err Hbn Hbh Hc Hrest IH].
  - constructor.
  - constructor.
  - apply Forall_cons in Hall as [Hb _]. apply ptrs_unread; [exact Hbn|congruence].
  - apply Forall_cons in Hall as [Hb _]. eapply ptrs_stop; eauto. congruence.
  - apply Forall_cons in Hall as [Hb Hall]. eapply ptrs_go; eauto. congruence.
Qed.

Lemma store_records_ext (k : ondisk) (sdp : gfs2_sbd) (d d1 : disk) (ip : gfs2_inode)
    (recs : list gfs2_ea_location) (err : Z) :
  d1 (di_eattr ip) = d (di_eattr ip) ->
  (forall bh b, d (di_eattr ip) = Some bh -> b ∈ in_ptrs bh -> d1 b = d b) ->
  store_records k sdp d ip recs err -> store_records k sdp d1 ip recs err.
Proof.
  intros Hroot Hptrs. unfold store_records. rewrite Hroot.
  destruct (d (di_eattr ip)) as [bh|]; [|auto].
  destruct (negb (dif_ea_indirect ip)); [auto|].
  destruct (negb (mh_type bh =? GFS2_METATYPE_IN)); [auto|].
  apply ptrs_records_ext. apply Forall_forall. intros b Hb.
  apply (Hptrs bh b eq_refl).
  eapply elem_of_sublist; [exact Hb|]. apply sublist_take.
Qed.

(** No record of a chain starts inside another. *)
Lemma chain_outside (k : ondisk) (b_size bn : Z) (bh : block) (s : Z) (q : option Z)
    (recs : list gfs2_ea_location) (err : Z) :
  b_size < 2 ^ 32 ->
  ea_chain k b_size bn bh s q recs err ->
  forall x y, x ∈ recs -> y ∈ recs ->
    el_ea x <= el_ea y \/ el_ea y + GFS2_EA_REC_LEN (ea_at bh (el_ea y)) <= el_ea x.
Proof.
  intros Hsmall.
  induction 1 as [s q H1|s q H1 H2|s q recs err H1 H2 Hc IH]; intros x y Hx Hy.
  - inversion Hx.
  - apply list_elem_of_singleton in Hx, Hy. subst. left. lia.
  - apply elem_of_cons in Hx as [->|Hx], Hy as [->|Hy]; simpl.
    + left. lia.
    + destruct (chain_elem k b_size bn bh _ _ _ _ Hc y Hy) as (_ & Hge & _).
      apply ea_record_ok_true in H1 as (Hnz & _). pose proof (rec_len_range (ea_at bh s)).
      left. lia.
    + destruct (chain_elem k b_size bn bh _ _ _ _ Hc x Hx) as (_ & Hge & _).
      right. exact Hge.
    + now apply IH.
Qed.

(** The blocks the records of a store are in. *)
Lemma ptrs_block_of (k : ondisk) (sdp : gfs2_sbd) (d : disk) (eablk : list Z)
    (recs : list gfs2_ea_location) (err : Z) (x : gfs2_ea_location) :
  ptrs_records k sdp d eablk recs err -> x ∈ recs -> el_bh x ∈ eablk.
Proof.
  induction 1 as [|rest|bn rest Hbn Hbh|bn rest bh_b recs err Hbn Hbh Hc Herr
                  |bn rest bh_b recs recs2 err Hbn Hbh Hc Hrest IH]; intros Hx.
  - inversion Hx.
  - inversion Hx.
  - inversion Hx.
  - destruct (block_elem k sdp _ _ _ _ _ Hc Hx) as [-> _]. apply list_elem_of_here.
  - apply elem_of_app in Hx as [Hx|Hx].
    + destruct (block_elem k sdp _ _ _ _ _ Hc Hx) as [-> _]. apply list_elem_of_here.
    + apply list_elem_of_further. now apply IH.
Qed.

Lemma store_block_of (k : ondisk) (sdp : gfs2_sbd) (d : disk) (ip : gfs2_inode)
    (recs : list gfs2_ea_location) (err : Z) (x : gfs2_ea_location) :
  store_records k sdp d ip recs err -> x ∈ recs ->
  el_bh x = di_eattr ip \/
  exists bh, d (di_eattr ip) = Some bh /\ el_bh x ∈ in_ptrs bh.
Proof.
  unfold store_records. intros Hc Hx.
  destruct (d (di_eattr ip)) as [bh|]; [|destruct Hc as [-> _]; inversion Hx].
  destruct (dif_ea_indirect ip); simpl in Hc.
  - destruct (mh_type bh =? GFS2_METATYPE_IN); simpl in Hc;
      [|destruct Hc as [-> _]; inversion Hx].
    right. exists bh. split; [reflexivity|].
    eapply elem_of_sublist; [exact (ptrs_block_of _ _ _ _ _ _ _ Hc Hx)|apply sublist_take].
  - left. now destruct (block_elem k sdp _ _ _ _ _ Hc Hx).
Qed.


(** The loop of [ea_get_unstuffed] reads the type and the payload of the
    blocks of its pointers only. *)
Lemma get_loop_payload (sdp : gfs2_sbd) (d1 d2 : disk) (ptrs : list Z) :
  forall (amount : Z) (data : list Z) (pos : Z),
    Forall (same_payload d1 d2) ptrs ->
    ea_get_unstuffed_loop sdp d1 ptrs amount data pos =
    ea_get_unstuffed_loop sdp d2 ptrs amount data pos.
Proof.
  induction ptrs as [|b ptrs IH]; intros amount data pos Hall; [reflexivity|].
  apply Forall_cons in Hall as [Hb Hall]. cbn [ea_get_unstuffed_loop].
  unfold same_payload in Hb.
  destruct (d1 b) as [x|], (d2 b) as [y|]; try contradiction; [|reflexivity].
  destruct Hb as [-> ->].
  destruct (negb (mh_type y =? GFS2_METATYPE_ED)); [reflexivity|].
  apply IH. exact Hall.
Qed.

(** What [gfs2_ea_get_i] returns depends on the value of the record found
    only. *)
Lemma get_at_same (sdp : gfs2_sbd) (d d' : disk) (kc : bool) (x x' : gfs2_ea_location)
    (get : gfs2_ea_request) (h h' : gfs2_ea_header) :
  located d x = Some h -> located d' x' = Some h' ->
  ea_data_len h' = ea_data_len h -> ea_num_ptrs h' = ea_num_ptrs h ->
  ea_data h' = ea_data h -> ea_dataptrs h' = ea_dataptrs h ->
  Forall (same_payload d' d) (ea_dataptrs h) ->
  ea_get_at sdp d' kc x' get = ea_get_at sdp d kc x get.
Proof.
  intros Hx Hx' Hlen Hn Hdata Hptrs Hpay.
  unfold ea_get_at. rewrite Hx, Hx'. cbn [mbind option_bind].
  assert (Hdl : GFS2_EA_DATA_LEN h' = GFS2_EA_DATA_LEN h)
    by (unfold GFS2_EA_DATA_LEN; now rewrite Hlen).
  assert (Hcopy : forall data, gfs2_ea_get_copy sdp d' kc h' data
                               = gfs2_ea_get_copy sdp d kc h data).
  { intros data. unfold gfs2_ea_get_copy, GFS2_EA_IS_STUFFED. rewrite Hn, Hdata, Hdl.
    destruct (ea_num_ptrs h =? 0); [reflexivity|].
    unfold ea_get_unstuffed. rewrite Hdl, Hptrs.
    destruct (negb kc); [reflexivity|].
    apply get_loop_payload.
    apply Forall_take. exact Hpay. }
  rewrite Hdl.
  destruct (negb (er_data_len get =? 0)); [|reflexivity].
  destruct (er_data_len get <? GFS2_EA_DATA_LEN h); [reflexivity|].
  destruct (er_data get) as [data|]; [|reflexivity].
  cbn [mbind option_bind]. now rewrite Hcopy.
Qed.

(** [gfs2_ea_get_i] in terms of the records of the store. *)
Lemma get_i_records (k : ondisk) (sdp : gfs2_sbd) (d : disk) (kc : bool) (ip : gfs2_inode)
    (recs : list gfs2_ea_location) (err : Z) (get : gfs2_ea_request) :
  0 <= sizeof_meta_header k -> di_eattr ip <> 0 ->
  store_records k sdp d ip recs err ->
  gfs2_ea_get_i k sdp d kc ip get =
    match find (ea_found d get) recs with
    | Some x => ea_get_at sdp d kc x get
    | None => Some (if negb (err =? 0) then err else - ENODATA, er_data get)
    end.
Proof.
  intros Hk Hip Hs. unfold gfs2_ea_get_i.
  destruct (Z.eqb_spec (di_eattr ip) 0); [contradiction|].
  rewrite (find_records k sdp Hk d ip recs err get Hs).
  cbn [mbind option_bind].
  destruct (find (ea_found d get) recs) as [x|].
  - cbn [Z.eqb negb]. reflexivity.
  - destruct (negb (err =? 0)); reflexivity.
Qed.

Lemma reprev_place (el : gfs2_ea_location) (new : Z) (x : gfs2_ea_location) :
  el_bh (reprev el new x) = el_bh x /\ el_ea (reprev el new x) = el_ea x.
Proof. unfold reprev. destruct (_ && _); split; reflexivity. Qed.

Lemma found_place (d : disk) (get : gfs2_ea_request) (x y : gfs2_ea_location) :
  el_bh x = el_bh y -> el_ea x = el_ea y -> ea_found d get x = ea_found d get y.
Proof. intros Hb He. unfold ea_found, located. now rewrite Hb, He. Qed.

(** The first match among split records, for a test that looks at the place
    of a record only. *)
Lemma find_split_place (f g : gfs2_ea_location -> bool) (el : gfs2_ea_location) (new : Z)
    (recs : list gfs2_ea_location) :
  (forall x, f (reprev el new x) = f x) ->
  f (mk_location (el_bh el) new (Some (el_ea el))) = false ->
  Forall (fun x => f x = g x) recs ->
  same_place (find f (split_records el new recs)) (find g recs).
Proof.
  intros Hre Hnew. unfold split_records.
  induction 1 as [|x recs Hx _ IH]; [exact I|].
  rewrite fmap_cons. cbn [concat find].
  destruct (same_record x el) eqn:Hsame.
  - cbn [app find]. rewrite Hx.
    destruct (g x) eqn:Hf; [split; reflexivity|].
    rewrite Hnew. exact IH.
  - cbn [app find]. rewrite Hre, Hx.
    destruct (g x); [|exact IH].
    unfold reprev. destruct (_ && _); split; reflexivity.
Qed.

Lemma find_split_first (f : gfs2_ea_location -> bool) (el : gfs2_ea_location) (new : Z)
    (recs : list gfs2_ea_location) :
  (forall x, f (reprev el new x) = f x) ->
  f (mk_location (el_bh el) new (Some (el_ea el))) = true ->
  Forall (fun x => f x = false) recs ->
  (exists x, x ∈ recs /\ same_record x el = true) ->
  find f (split_records el new recs) = Some (mk_location (el_bh el) new (Some (el_ea el))).
Proof.
  intros Hre Hnew. unfold split_records.
  induction 1 as [|x recs Hx _ IH]; intros (y & Hy & Hsame); [inversion Hy|].
  rewrite fmap_cons. cbn [concat find].
  destruct (same_record x el) eqn:Hxs.
  - cbn [app find]. now rewrite Hx, Hnew.
  - cbn [app find]. rewrite Hre, Hx. apply IH.
    apply elem_of_cons in Hy as [->|Hy]; [congruence|]. now exists y.
Qed.

Lemma find_agree {A : Type} (f g : A -> bool) (l : list A) :
  Forall (fun x => f x = g x) l -> find f l = find g l.
Proof.
  induction 1 as [|x l Hx _ IH]; [reflexivity|]. simpl. now rewrite Hx, IH.
Qed.

(** The store once data blocks have been allocated and one of its buffers
    changed. *)
Section AfterSet.
Variable k : ondisk.
Variable sdp : gfs2_sbd.
Hypothesis header_size : 0 <= sizeof_meta_header k.
Hypothesis block_small : sd_bsize sdp < 2 ^ 32.
Hypothesis last_flag : 0 <= GFS2_EAFLAG_LAST k < 256.
Variable alloc : nat -> Z.
Variables d d1 : disk.
Variable ip : gfs2_inode.
Variable recs : list gfs2_ea_location.
Variable err : Z.
Variable b0 : Z.
Variables bh bh2 : block.
Variable T : list gfs2_ea_location -> list gfs2_ea_location.
Hypothesis the_store : store_records k sdp d ip recs err.
Hypothesis b0_block : d b0 = Some bh.
Hypothesis b0_used : exists x, x ∈ recs /\ el_bh x = b0.
Hypothesis allocated : forall b, (forall i, Z.of_nat i < 256 -> alloc i <> b) -> d1 b = d b.
Hypothesis unused : forall i, Z.of_nat i < 256 -> ea_block_unused d ip recs (alloc i).
Hypothesis type_kept : mh_type bh2 = mh_type bh.
Hypothesis ptrs_kept : in_ptrs bh2 = in_ptrs bh.
Hypothesis bytes_kept : ed_bytes bh2 = ed_bytes bh.
Hypothesis T_nil : T [] = [].
Hypothesis T_app : forall l1 l2, T (l1 ++ l2) = T l1 ++ T l2.
Hypothesis T_other : forall l, Forall (fun x => el_bh x <> b0) l -> T l = l.
Hypothesis T_chain :
  forall recs err,
    ea_chain k (sd_bsize sdp) b0 bh (sizeof_meta_header k) None recs err ->
    ea_chain k (sd_bsize sdp) b0 bh2 (sizeof_meta_header k) None (T recs) err.

Local Abbreviation d' := (disk_write d1 b0 bh2).

Lemma store_block_kept (x : gfs2_ea_location) : x ∈ recs -> d1 (el_bh x) = d (el_bh x).
Proof.
  intros Hx. apply allocated. intros i Hi He.
  destruct (unused i Hi) as (Hroot & Hptrs & _).
  destruct (store_block_of k sdp d ip recs err x the_store Hx) as [Hb|(bh0 & Hb0 & Hb)].
  - congruence.
  - apply (Hptrs bh0 Hb0). now rewrite He.
Qed.

Lemma store_after_set : store_records k sdp d' ip (T recs) err.
Proof.
  apply (store_changed k sdp d1 d' b0 bh bh2 T); try assumption.
  - destruct b0_used as (x & Hx & <-). now rewrite store_block_kept.
  - unfold disk_write. now rewrite Z.eqb_refl.
  - intros b Hb. unfold disk_write. now destruct (Z.eqb_spec b b0).
  - apply store_records_ext with (d := d); [| |exact the_store].
    + apply allocated. intros i Hi He. destruct (unused i Hi) as (Hroot & _). congruence.
    + intros bh0 b Hb0 Hb. apply allocated. intros i Hi He.
      destruct (unused i Hi) as (_ & Hptrs & _). apply (Hptrs bh0 Hb0). now rewrite He.
Qed.

Lemma located_elsewhere (x : gfs2_ea_location) :
  x ∈ recs -> el_bh x <> b0 -> located d' x = located d x.
Proof.
  intros Hx Hne. unfold located, disk_write.
  destruct (Z.eqb_spec (el_bh x) b0); [contradiction|]. now rewrite store_block_kept.
Qed.

Lemma located_there (x : gfs2_ea_location) :
  el_bh x = b0 ->
  located d x = Some (ea_at bh (el_ea x)) /\ located d' x = Some (ea_at bh2 (el_ea x)).
Proof.
  intros Hb. unfold located, disk_write. rewrite Hb, Z.eqb_refl, b0_block. split; reflexivity.
Qed.

Lemma payload_kept (x : gfs2_ea_location) (hx : gfs2_ea_header) :
  x ∈ recs -> located d x = Some hx -> Forall (same_payload d' d) (ea_dataptrs hx).
Proof.
  intros Hx Hloc. apply Forall_forall. intros b Hb.
  unfold same_payload, disk_write.
  destruct (Z.eqb_spec b b0) as [->|Hne].
  - rewrite b0_block. split; assumption.
  - rewrite allocated.
    + destruct (d b); [split; reflexivity|exact I].
    + intros i Hi He. destruct (unused i Hi) as (_ & _ & Hdata).
      apply (Hdata x hx Hx Hloc). now rewrite He.
Qed.

(** The chain of the buffer changed holds the records of that buffer. *)
Lemma there_in_chain (recs_b : list gfs2_ea_location) (err_b : Z) (x : gfs2_ea_location) :
  ea_chain k (sd_bsize sdp) b0 bh (sizeof_meta_header k) None recs_b err_b ->
  x ∈ recs -> el_bh x = b0 -> x ∈ recs_b.
Proof.
  intros Hc Hx Hb.
  destruct (store_elem k sdp d ip recs err x the_store Hx)
    as (bh_x & recs_x & err_x & Hdx & Hcx & Hin).
  rewrite Hb, b0_block in Hdx. injection Hdx as <-. rewrite Hb in Hcx.
  destruct (chain_once _ _ _ _ _ _ _ _ Hc _ _ Hcx) as [-> _]. exact Hin.
Qed.

End AfterSet.

(** Every record of a chain has passed the tests of the walk. *)
Lemma chain_ok (k : ondisk) (b_size bn : Z) (bh : block) (s : Z) (q : option Z)
    (recs : list gfs2_ea_location) (err : Z) (x : gfs2_ea_location) :
  ea_chain k b_size bn bh s q recs err -> x ∈ recs ->
  ea_record_ok k b_size (el_ea x) (ea_at bh (el_ea x)) = true.
Proof.
  induction 1 as [s q H1|s q H1 H2|s q recs err H1 H2 Hc IH]; intros Hx.
  - inversion Hx.
  - apply list_elem_of_singleton in Hx. subst x. exact H1.
  - apply elem_of_cons in Hx as [->|Hx]; [exact H1|now apply IH].
Qed.

(** The test of [ea_find_i] on a record [ea_write] has filled. *)
Lemma matches_written (er get : gfs2_ea_request) (h' : gfs2_ea_header) :
  0 < er_type er ->
  ea_type h' = er_type er -> ea_name_len h' = er_name_len er ->
  take (Z.to_nat (er_name_len er)) (ea_name h') =
    take (Z.to_nat (er_name_len er)) (er_name er) ->
  ea_find_matches get h' = same_name er get.
Proof.
  intros Hty Htp Hnl Hnm. unfold ea_find_matches, same_name, memcmp_eq.
  rewrite Htp, Hnl, Hnm.
  destruct (Z.eqb_spec (er_type er) GFS2_EATYPE_UNUSED) as [Hu|_];
    [unfold GFS2_EATYPE_UNUSED in Hu; lia|].
  reflexivity.
Qed.

(** Two requests of one type and name match the same records. *)
Lemma matches_same_name (er get : gfs2_ea_request) (hx : gfs2_ea_header) :
  same_name er get = true -> ea_find_matches get hx = ea_find_matches er hx.
Proof.
  unfold same_name, ea_find_matches, memcmp_eq. intros Hsame.
  apply andb_true_iff in Hsame as [Ht Hsame]. apply andb_true_iff in Hsame as [Hn Hm].
  apply Z.eqb_eq in Ht, Hn. apply bool_decide_eq_true in Hm.
  rewrite <- Ht, <- Hn.
  destruct (negb (ea_type hx =? GFS2_EATYPE_UNUSED)); [|reflexivity].
  destruct (ea_type hx =? er_type er); [|reflexivity].
  destruct (Z.eqb_spec (ea_name_len hx) (er_name_len er)) as [->|]; [|reflexivity].
  cbn [andb]. now rewrite Hm.
Qed.

(** What [gfs2_ea_get_i] returns once an attribute has been added to a
    store. *)
Lemma get_after_set (k : ondisk) (sdp : gfs2_sbd) (d d' : disk) (ip : gfs2_inode)
    (recs recs' : list gfs2_ea_location) (err : Z) (er : gfs2_ea_request)
    (data : list Z) (h' : gfs2_ea_header) (b0 ea1 : Z) :
  0 <= sizeof_meta_header k -> di_eattr ip <> 0 ->
  store_records k sdp d ip recs err -> store_records k sdp d' ip recs' err ->
  (forall x, el_bh x = b0 -> el_ea x = ea1 -> located d' x = Some h') ->
  GFS2_EA_DATA_LEN h' = er_data_len er -> 0 <= er_data_len er < 2 ^ 31 ->
  (forall buf, er_data_len er <= Z.of_nat (length buf) ->
     gfs2_ea_get_copy sdp d' true h' buf = (0, data ++ drop (Z.to_nat (er_data_len er)) buf)) ->
  (forall get, same_name er get = true ->
     exists x', find (ea_found d' get) recs' = Some x' /\ el_bh x' = b0 /\ el_ea x' = ea1) ->
  (forall get, same_name er get = false ->
     same_place (find (ea_found d' get) recs') (find (ea_found d get) recs)) ->
  (forall get x, same_name er get = false -> find (ea_found d get) recs = Some x ->
     exists hx hx',
       located d x = Some hx /\ located d' x = Some hx' /\
       ea_data_len hx' = ea_data_len hx /\ ea_num_ptrs hx' = ea_num_ptrs hx /\
       ea_data hx' = ea_data hx /\ ea_dataptrs hx' = ea_dataptrs hx /\
       Forall (same_payload d' d) (ea_dataptrs hx)) ->
  (forall get buf,
     same_name er get = true ->
     er_data get = Some buf -> er_data_len er <= Z.of_nat (length buf) ->
     gfs2_ea_get_i k sdp d' true ip get =
       Some (if er_data_len get =? 0 then (er_data_len er, Some buf)
             else if er_data_len get <? er_data_len er then (- ERANGE, Some buf)
             else (er_data_len er,
                   Some (data ++ drop (Z.to_nat (er_data_len er)) buf)))) /\
  (forall kc get,
     same_name er get = false ->
     gfs2_ea_get_i k sdp d' kc ip get = gfs2_ea_get_i k sdp d kc ip get).
Proof.
  intros Hk Hip Hs Hs' Hnew Hdl H31 Hget HA HB HV. split.
  - intros get buf Hsame Hbuf Hroom.
    rewrite (get_i_records k sdp d' true ip recs' err get Hk Hip Hs').
    destruct (HA get Hsame) as (x' & -> & Hb & He).
    unfold ea_get_at. rewrite (Hnew x' Hb He). cbn [mbind option_bind].
    rewrite Hdl, Hbuf.
    destruct (Z.eqb_spec (er_data_len get) 0) as [Hz|Hnz]; cbn [negb mbind option_bind].
    + rewrite to_int_small by lia. reflexivity.
    + destruct (Z.ltb_spec (er_data_len get) (er_data_len er)); cbn [mbind option_bind].
      * reflexivity.
      * rewrite (Hget buf Hroom). cbn [Z.eqb]. rewrite to_int_small by lia. reflexivity.
  - intros kc get Hsame.
    rewrite (get_i_records k sdp d' kc ip recs' err get Hk Hip Hs').
    rewrite (get_i_records k sdp d kc ip recs err get Hk Hip Hs).
    specialize (HB get Hsame). specialize (HV get). unfold same_place in HB.
    specialize (fun x => HV x Hsame).
    destruct (find (ea_found d' get) recs') as [x'|], (find (ea_found d get) recs) as [x|];
      try contradiction; [|reflexivity].
    destruct HB as [Hb He].
    destruct (HV x eq_refl) as (hx & hx' & Hx & Hx' & Hf1 & Hf2 & Hf3 & Hf4 & Hpay).
    apply (get_at_same sdp d d' kc x x' get hx hx'); try assumption.
    unfold located in *. now rewrite Hb, He.
Qed.

(** The store once [ea_set_simple_alloc] has written its record and before
    it removes another. *)
Lemma set_state (k : ondisk) (sdp : gfs2_sbd)
    (data_block : list Z -> block) (alloc : nat -> Z) (d : disk) (ip : gfs2_inode)
    (es : ea_set) (er : gfs2_ea_request) (err : Z) (recs : list gfs2_ea_location)
    (el : gfs2_ea_location) (h : gfs2_ea_header) (data : list Z) :
  0 < sd_jbsize sdp -> sd_bsize sdp < 2 ^ 32 -> 0 <= GFS2_EAFLAG_LAST k < 256 ->
  store_records k sdp d ip recs err ->
  el ∈ recs -> el_bh el = es_bh es -> el_ea el = es_ea es ->
  located d el = Some h ->
  0 < sizeof_ea_header k ->
  (if ea_split es
   then sizeof_ea_header k <= GFS2_EA_SIZE k h /\
        GFS2_EA_SIZE k h + sizeof_ea_header k <= GFS2_EA_REC_LEN h
   else ea_type h = GFS2_EATYPE_UNUSED) ->
  er_data er = Some data -> er_data_len er = Z.of_nat (length data) ->
  er_data_len er < 2 ^ 31 -> DIV_RU (er_data_len er) (sd_jbsize sdp) < 256 ->
  0 <= er_name_len er < 256 -> er_name_len er <= Z.of_nat (length (er_name er)) ->
  0 < er_type er < 256 -> GFS2_EATYPE_VALID k (er_type er) = true ->
  (forall p, mh_type (data_block p) = GFS2_METATYPE_ED /\ ed_bytes (data_block p) = p) ->
  (forall i j, Z.of_nat i < 256 -> Z.of_nat j < 256 -> alloc i = alloc j -> i = j) ->
  (forall i, Z.of_nat i < 256 -> ea_block_unused d ip recs (alloc i)) ->
  exists bh bh1 ea1 h' d1,
    d (es_bh es) = Some bh /\
    (if ea_split es then ea_split_ea k bh (es_ea es) else Some (bh, es_ea es))
      = Some (bh1, ea1) /\
    ea_write k sdp data_block alloc d (ea_at bh1 ea1) er
      = Some (h', d1,
              if GFS2_EAREQ_SIZE_STUFFED k er <=? sd_jbsize sdp then 0
              else DIV_RU (er_data_len er) (sd_jbsize sdp),
              false) /\
    let d2 := disk_write d1 (es_bh es) (set_ea_at bh1 ea1 h') in
    store_records k sdp d2 ip (set_records (ea_split es) el ea1 recs) err /\
    (forall b, b <> es_bh es -> (forall i, Z.of_nat i < 256 -> alloc i <> b) -> d2 b = d b) /\
    (forall x, el_bh x = es_bh es -> el_ea x = ea1 -> located d2 x = Some h') /\
    (ea_type h' = er_type er /\ ea_name_len h' = er_name_len er /\
     take (Z.to_nat (er_name_len er)) (ea_name h') =
       take (Z.to_nat (er_name_len er)) (er_name er) /\
     GFS2_EA_DATA_LEN h' = er_data_len er) /\
    (forall d3 buf,
       (forall i, Z.of_nat i < 256 -> d3 (alloc i) = d2 (alloc i)) ->
       er_data_len er <= Z.of_nat (length buf) ->
       gfs2_ea_get_copy sdp d3 true h' buf =
         (0, data ++ drop (Z.to_nat (er_data_len er)) buf)) /\
    (forall x, x ∈ recs ->
       ea_split es = true \/ ~ (el_bh x = es_bh es /\ el_ea x = es_ea es) ->
       exists hx hx',
         located d x = Some hx /\ located d2 x = Some hx' /\ same_value hx hx' /\
         (~ (el_bh x = es_bh es /\ el_ea x = es_ea es) -> hx' = hx)) /\
    (forall x hx, x ∈ recs -> located d x = Some hx ->
       Forall (same_payload d2 d) (ea_dataptrs hx)) /\
    GFS2_EA_REC_LEN (ea_at bh1 ea1) = GFS2_EA_REC_LEN h' /\
    ea1 + GFS2_EA_REC_LEN h' = es_ea es + GFS2_EA_REC_LEN h /\
    (if ea_split es
     then ea1 = es_ea es + GFS2_EA_SIZE k h /\
          es_ea es < ea1 < es_ea es + GFS2_EA_REC_LEN h /\
          (forall x hx', el_bh x = es_bh es -> el_ea x = es_ea es ->
             located d2 x = Some hx' -> GFS2_EA_REC_LEN hx' = ea1 - es_ea es) /\
          (forall x, x ∈ recs -> el_bh x = es_bh es ->
             el_ea x <= es_ea es \/ es_ea es + GFS2_EA_REC_LEN h <= el_ea x)
     else ea1 = es_ea es).
Proof.
  intros Hj Hb32 HL Hs Hel Hbh Hea Hloc Hhdr Hcase Hdata Hlen H31 Hn
         Hnl Hname Htype Hvalid Hblock Hinj Hunused.
  destruct (store_elem k sdp d ip recs err el Hs Hel)
    as (bh & recs_b & err_b & Hdb & Hchain & Hthere).
  assert (Hh : h = ea_at bh (el_ea el)).
  { unfold located in Hloc. rewrite Hdb in Hloc. simpl in Hloc. congruence. }
  subst h. rewrite <- Hbh, <- Hea.
  set (b0 := el_bh el) in *. set (ea := el_ea el) in *. set (h := ea_at bh ea) in *.
  pose proof (chain_ok _ _ _ _ _ _ _ _ el Hchain Hthere) as Hok. fold ea h in Hok.
  apply ea_record_ok_true in Hok as (Hnz & Hea0 & Hend & Hvalid_h).
  assert (Hused : exists x, x ∈ recs /\ el_bh x = b0)
    by (exists el; split; [exact Hel|reflexivity]).
  assert (Hin_chain : forall x, x ∈ recs -> el_bh x = b0 -> x ∈ recs_b).
  { intros x Hx Hb. eapply there_in_chain; eauto. }
  assert (Hnot_alloc : forall i, Z.of_nat i < 256 -> alloc i <> b0).
  { intros i Hi He. destruct (Hunused i Hi) as (Hroot & Hptrs & _).
    destruct (store_block_of k sdp d ip recs err el Hs Hel) as [Hb|(bh0 & Hb0 & Hb)].
    - fold b0 in Hb. congruence.
    - apply (Hptrs bh0 Hb0). fold b0 in Hb. now rewrite He. }
  exists bh.
  destruct (ea_split es).
  - (* the room after a record in use *)
    destruct Hcase as [Hsz1 Hsz2].
    pose proof (rec_len_range h) as Hrl0.
    assert (Hrl32 : GFS2_EA_REC_LEN h < 2 ^ 32) by (apply wrap32_range).
    assert (Hszw : wrap32 (GFS2_EA_SIZE k h) = GFS2_EA_SIZE k h) by (apply wrap32_small; lia).
    unfold ea_split_ea. fold h.
    destruct (Z.leb_spec (sizeof_ea_header k) (GFS2_EA_SIZE k h)); [|lia].
    destruct (Z.leb_spec (GFS2_EA_SIZE k h + sizeof_ea_header k) (GFS2_EA_REC_LEN h)); [|lia].
    cbn [andb negb]. cbv iota.
    set (sz := wrap32 (GFS2_EA_SIZE k h)) in *.
    assert (Hcase : 0 < sz < GFS2_EA_REC_LEN h) by lia.
    set (new := ea + sz).
    set (last := Z.land (ea_flags h) (GFS2_EAFLAG_LAST k)).
    set (hA := set_ea_rec_len_flags h sz (Z.lxor (ea_flags h) last mod 256)).
    set (bhA := set_ea_at bh ea hA).
    set (hB := set_ea_rec_len_flags (ea_at bhA new)
                 (wrap32 (GFS2_EA_REC_LEN h - sz)) (last mod 256)).
    set (bh1 := set_ea_at bhA new hB).
    assert (Hne : new <> ea) by (subst new; lia).
    assert (Hat1 : ea_at bh1 new = hB).
    { subst bh1. cbn [set_ea_at ea_at]. now rewrite Z.eqb_refl. }
    destruct (ea_write_spec k sdp data_block alloc d hB er data)
      as (h' & d1 & Hw & Hrec & Hflags & Htp & Hnlen & Hnm & Hdl & Hnp & Hframe & Hget);
      try assumption; try lia.
    rewrite Hnp in Hw.
    exists bh1, new, h', d1. split; [exact Hdb|]. split; [reflexivity|].
    split; [rewrite Hat1; exact Hw|].
    set (bh2 := set_ea_at bh1 new h'). cbv zeta.
    assert (Hat_new : ea_at bh2 new = h').
    { subst bh2. cbn [set_ea_at ea_at]. now rewrite Z.eqb_refl. }
    assert (Hat_ea : ea_at bh2 ea = hA).
    { subst bh2 bh1 bhA. cbn [set_ea_at ea_at].
      destruct (Z.eqb_spec ea new); [congruence|]. now rewrite Z.eqb_refl. }
    assert (Hat_other : forall o, o <> ea -> o <> new -> ea_at bh2 o = ea_at bh o).
    { intros o H1 H2. subst bh2 bh1 bhA. cbn [set_ea_at ea_at].
      destruct (Z.eqb_spec o new); [contradiction|].
      destruct (Z.eqb_spec o ea); [contradiction|reflexivity]. }
    assert (Hlen_ea : GFS2_EA_REC_LEN (ea_at bh2 ea) = new - ea).
    { rewrite Hat_ea. unfold GFS2_EA_REC_LEN. subst hA. cbn [set_ea_rec_len_flags ea_rec_len].
      rewrite wrap32_small by lia. subst new. lia. }
    assert (Hlen_new : new + GFS2_EA_REC_LEN (ea_at bh2 new) = ea + GFS2_EA_REC_LEN h).
    { rewrite Hat_new. unfold GFS2_EA_REC_LEN at 1. rewrite Hrec. subst hB.
      cbn [set_ea_rec_len_flags ea_rec_len].
      rewrite (wrap32_small (GFS2_EA_REC_LEN h - sz)) by lia.
      rewrite wrap32_small by lia. subst new. lia. }
    assert (Hsplit : forall recs0 err0,
              ea_chain k (sd_bsize sdp) b0 bh (sizeof_meta_header k) None recs0 err0 ->
              ea_chain k (sd_bsize sdp) b0 bh2 (sizeof_meta_header k) None
                       (split_records el new recs0) err0).
    { intros recs0 err0 Hc0.
      destruct (chain_once _ _ _ _ _ _ _ _ Hchain _ _ Hc0) as [-> ->].
      replace el with (mk_location b0 ea (el_prev el)) at 1 by (now destruct el).
      apply chain_split with (bh := bh); try assumption.
      - fold h. subst new. lia.
      - rewrite Hat_ea. unfold GFS2_EA_IS_LAST. subst hA.
        cbn [set_ea_rec_len_flags ea_flags]. subst last.
        rewrite land_lxor_byte by exact HL. reflexivity.
      - rewrite Hat_ea. reflexivity.
      - rewrite Hat_new. unfold GFS2_EA_IS_LAST. rewrite Hflags. subst hB.
        cbn [set_ea_rec_len_flags ea_flags]. subst last.
        rewrite land_land_byte by exact HL. reflexivity.
      - rewrite Hat_new, Htp. exact Hvalid.
      - now destruct el.
      - discriminate. }
    assert (Houtside : forall x, x ∈ recs -> el_bh x = b0 ->
              el_ea x <= ea \/ ea + GFS2_EA_REC_LEN h <= el_ea x).
    { intros x Hx Hb.
      exact (chain_outside k _ _ _ _ _ _ _ Hb32 Hchain x el (Hin_chain x Hx Hb) Hthere). }
    split.
    { apply (store_after_set k sdp alloc d d1 ip recs err b0 bh bh2); try assumption;
        try reflexivity.
      - apply split_records_app.
      - intros l Hl. apply split_other. exact Hl. }
    split.
    { intros b Hb Ha. unfold disk_write.
      destruct (Z.eqb_spec b b0); [contradiction|]. apply Hframe. exact Ha. }
    split.
    { intros x Hb He. destruct (located_there d d1 b0 bh bh2 Hdb x Hb) as [_ ->].
      now rewrite He, Hat_new. }
    split; [repeat split; assumption|].
    split.
    { intros d3 buf Hd3 Hroom. apply Hget; [|exact Hroom].
      intros i Hi. rewrite (Hd3 i Hi). unfold disk_write.
      destruct (Z.eqb_spec (alloc i) b0) as [He|]; [|reflexivity].
      exfalso. exact (Hnot_alloc i Hi He). }
    split.
    { intros x Hx _.
      destruct (decide (el_bh x = b0)) as [Hb|Hb].
      - destruct (located_there d d1 b0 bh bh2 Hdb x Hb) as [-> ->].
        eexists _, _. split; [reflexivity|]. split; [reflexivity|].
        destruct (decide (el_ea x = ea)) as [->|Hxe].
        + rewrite Hat_ea. fold h. subst hA. split; [repeat split; reflexivity|].
          intros Hnot. exfalso. apply Hnot. split; [exact Hb|reflexivity].
        + rewrite Hat_other; [split; [repeat split; reflexivity|reflexivity]|exact Hxe|].
          destruct (Houtside x Hx Hb); subst new; lia.
      - rewrite (located_elsewhere k sdp alloc d d1 ip recs err b0 bh2 Hs Hframe Hunused x Hx Hb).
        destruct (store_elem k sdp d ip recs err x Hs Hx) as (bhx & _ & _ & Hdx & _).
        unfold located. rewrite Hdx. cbn [mbind option_bind].
        eexists _, _. split; [reflexivity|]. split; [reflexivity|].
        split; [repeat split; reflexivity|reflexivity]. }
    split.
    { intros x hx Hx Hlx.
      exact (payload_kept alloc d d1 ip recs b0 bh bh2 Hdb Hframe Hunused eq_refl eq_refl
               x hx Hx Hlx). }
    split; [rewrite Hat1; unfold GFS2_EA_REC_LEN; now rewrite Hrec|].
    split; [rewrite <- Hat_new; exact Hlen_new|].
    split; [subst new; lia|].
    split; [subst new; lia|]. split; [|exact Houtside].
    intros x hx' Hb He Hlx.
    destruct (located_there d d1 b0 bh bh2 Hdb x Hb) as [_ Hl2].
    fold bh2 in Hlx. rewrite Hl2, He in Hlx. injection Hlx as <-. exact Hlen_ea.
  - (* a record not in use *)
    destruct (ea_write_spec k sdp data_block alloc d h er data)
      as (h' & d1 & Hw & Hrec & Hflags & Htp & Hnlen & Hnm & Hdl & Hnp & Hframe & Hget);
      try assumption; try lia.
    rewrite Hnp in Hw.
    exists bh, ea, h', d1. split; [exact Hdb|]. split; [reflexivity|].
    split; [exact Hw|].
    set (bh2 := set_ea_at bh ea h'). cbv zeta.
    assert (Hat_ea : ea_at bh2 ea = h').
    { subst bh2. cbn [set_ea_at ea_at]. now rewrite Z.eqb_refl. }
    assert (Hat_other : forall o, o <> ea -> ea_at bh2 o = ea_at bh o).
    { intros o H1. subst bh2. cbn [set_ea_at ea_at].
      destruct (Z.eqb_spec o ea); [contradiction|reflexivity]. }
    split.
    { apply (store_after_set k sdp alloc d d1 ip recs err b0 bh bh2 (fun l => l));
        try assumption; try reflexivity.
      intros recs0 err0. apply chain_same. intros o.
      destruct (decide (o = ea)) as [->|Ho]; [|rewrite Hat_other by exact Ho; auto].
      rewrite Hat_ea. fold h. unfold GFS2_EA_REC_LEN, GFS2_EA_IS_LAST.
      rewrite Hrec, Hflags, Htp, Hvalid, Hvalid_h. auto. }
    split.
    { intros b Hb Ha. unfold disk_write.
      destruct (Z.eqb_spec b b0); [contradiction|]. apply Hframe. exact Ha. }
    split.
    { intros x Hb He. destruct (located_there d d1 b0 bh bh2 Hdb x Hb) as [_ ->].
      now rewrite He, Hat_ea. }
    split; [repeat split; assumption|].
    split.
    { intros d3 buf Hd3 Hroom. apply Hget; [|exact Hroom].
      intros i Hi. rewrite (Hd3 i Hi). unfold disk_write.
      destruct (Z.eqb_spec (alloc i) b0) as [He|]; [|reflexivity].
      exfalso. exact (Hnot_alloc i Hi He). }
    split.
    { intros x Hx [Hf|Hnot]; [discriminate|].
      destruct (decide (el_bh x = b0)) as [Hb|Hb].
      - destruct (located_there d d1 b0 bh bh2 Hdb x Hb) as [-> ->].
        eexists _, _. split; [reflexivity|]. split; [reflexivity|].
        rewrite Hat_other; [split; [repeat split; reflexivity|reflexivity]|].
        intros He. apply Hnot. split; assumption.
      - rewrite (located_elsewhere k sdp alloc d d1 ip recs err b0 bh2 Hs Hframe Hunused x Hx Hb).
        destruct (store_elem k sdp d ip recs err x Hs Hx) as (bhx & _ & _ & Hdx & _).
        unfold located. rewrite Hdx. cbn [mbind option_bind].
        eexists _, _. split; [reflexivity|]. split; [reflexivity|].
        split; [repeat split; reflexivity|reflexivity]. }
    split.
    { intros x hx Hx Hlx.
      exact (payload_kept alloc d d1 ip recs b0 bh bh2 Hdb Hframe Hunused eq_refl eq_refl
               x hx Hx Hlx). }
    split; [fold h; unfold GFS2_EA_REC_LEN; now rewrite Hrec|].
    split; [|reflexivity].
    unfold GFS2_EA_REC_LEN. now rewrite Hrec.
Qed.

(** What [ea_write] stores includes a header. *)
Lemma ALIGN_ge (x a : Z) : 0 < a -> x <= ALIGN x a.
Proof.
  intros Ha. unfold ALIGN.
  pose proof (Z.div_mod (x + a - 1) a ltac:(lia)).
  pose proof (Z.mod_pos_bound (x + a - 1) a Ha). nia.
Qed.

Lemma ea_write_size_header (k : ondisk) (sdp : gfs2_sbd) (er : gfs2_ea_request) :
  0 < ea_align k -> 0 < sd_jbsize sdp -> 0 <= er_name_len er -> 0 <= er_data_len er ->
  sizeof_ea_header k <= ea_write_size k sdp er.
Proof.
  intros Ha Hj Hn Hd. unfold ea_write_size.
  assert (0 <= DIV_RU (er_data_len er) (sd_jbsize sdp))
    by (unfold DIV_RU; apply Z.div_pos; lia).
  etransitivity; [|apply ALIGN_ge; exact Ha].
  destruct (_ <=? _); lia.
Qed.

(** X27: [ea_set_simple_alloc] without a record to remove puts a new
    attribute in a record of the store: in the room a record in use leaves
    after its own bytes, which [ea_split_ea] splits off, or in a record not
    in use.  The request has to fit there: the bytes [ea_write] stores,
    header, name and value or pointers rounded to the alignment unit, are
    no more than that room, or than the length of the record not in use,
    which is the test [ea_set_simple] makes before the call.  In a store
    whose records in use lie within their lengths, and when no attribute
    of the store had the type and name of the request, [gfs2_ea_get_i] then
    reads the value back under that type and name, and returns for every
    other type and name what it returned before. *)
Theorem set_then_get (k : ondisk) (sdp : gfs2_sbd)
    (data_block : list Z -> block) (alloc : nat -> Z) (d : disk) (ip : gfs2_inode)
    (es : ea_set) (er : gfs2_ea_request) (err : Z) (recs : list gfs2_ea_location)
    (el : gfs2_ea_location) (h : gfs2_ea_header) (data : list Z) :
  0 <= sizeof_meta_header k -> 0 < sizeof_ea_header k -> 0 < ea_align k ->
  0 < sd_jbsize sdp -> sd_bsize sdp < 2 ^ 32 ->
  0 <= GFS2_EAFLAG_LAST k < 256 -> di_eattr ip <> 0 ->
  ea_records k sdp d ip = Some (err, recs) ->
  (forall x hx, x ∈ recs -> located d x = Some hx -> ea_type hx <> GFS2_EATYPE_UNUSED ->
                GFS2_EA_SIZE k hx <= GFS2_EA_REC_LEN hx) ->
  el ∈ recs -> el_bh el = es_bh es -> el_ea el = es_ea es -> es_el es = None ->
  located d el = Some h ->
  (if ea_split es
   then sizeof_ea_header k <= GFS2_EA_SIZE k h /\
        GFS2_EA_SIZE k h + ea_write_size k sdp er <= GFS2_EA_REC_LEN h
   else ea_type h = GFS2_EATYPE_UNUSED /\
        ea_write_size k sdp er <= GFS2_EA_REC_LEN h) ->
  find (ea_found d er) recs = None ->
  er_data er = Some data -> er_data_len er = Z.of_nat (length data) ->
  er_data_len er < 2 ^ 31 -> DIV_RU (er_data_len er) (sd_jbsize sdp) < 256 ->
  0 <= er_name_len er < 256 -> er_name_len er <= Z.of_nat (length (er_name er)) ->
  0 < er_type er < 256 -> GFS2_EATYPE_VALID k (er_type er) = true ->
  (forall p, mh_type (data_block p) = GFS2_METATYPE_ED /\ ed_bytes (data_block p) = p) ->
  (forall i j, Z.of_nat i < 256 -> Z.of_nat j < 256 -> alloc i = alloc j -> i = j) ->
  (forall i, Z.of_nat i < 256 -> ea_block_unused d ip recs (alloc i)) ->
  exists d',
    ea_set_simple_alloc k sdp data_block alloc d es er
      = Some (0, d',
              if GFS2_EAREQ_SIZE_STUFFED k er <=? sd_jbsize sdp then 0
              else DIV_RU (er_data_len er) (sd_jbsize sdp),
              false) /\
    (forall b, b <> es_bh es -> (forall i, Z.of_nat i < 256 -> alloc i <> b) ->
               d' b = d b) /\
    (forall get buf,
       same_name er get = true ->
       er_data get = Some buf -> er_data_len er <= Z.of_nat (length buf) ->
       gfs2_ea_get_i k sdp d' true ip get =
         Some (if er_data_len get =? 0 then (er_data_len er, Some buf)
               else if er_data_len get <? er_data_len er then (- ERANGE, Some buf)
               else (er_data_len er,
                     Some (data ++ drop (Z.to_nat (er_data_len er)) buf)))) /\
    (forall kc get,
       same_name er get = false ->
       gfs2_ea_get_i k sdp d' kc ip get = gfs2_ea_get_i k sdp d kc ip get).
Proof.
  intros Hk Hhdr Halign Hj Hb32 HL Hip Hrecs Hwithin Hel Hbh Hea Hnone Hloc Hcase Hfresh
         Hdata Hlen H31 Hn Hnl Hname Htype Hvalid Hblock Hinj Hunused.
  pose proof (records_store k sdp d ip err recs Hrecs) as Hs.
  pose proof (ea_write_size_header k sdp er Halign Hj ltac:(lia) ltac:(lia)) as Hmin.
  assert (Hguard : if ea_split es
                  then sizeof_ea_header k <= GFS2_EA_SIZE k h /\
                       GFS2_EA_SIZE k h + sizeof_ea_header k <= GFS2_EA_REC_LEN h
                  else ea_type h = GFS2_EATYPE_UNUSED).
  { destruct (ea_split es); [split; lia|tauto]. }
  destruct (set_state k sdp data_block alloc d ip es er err recs el h data)
    as (bh & bh1 & ea1 & h' & d1 & S1 & S2 & S3 & S4 & S5 & S6 & (S7a & S7b & S7c & S7d)
        & S8 & S9 & S10 & S13 & S12 & S11); try assumption.
  cbv zeta in S4, S5, S6, S8, S9, S10, S11.
  set (d2 := disk_write d1 (es_bh es) (set_ea_at bh1 ea1 h')) in *.
  assert (Hfit : ea_write_fits k sdp (ea_at bh1 ea1) er = true).
  { unfold ea_write_fits. rewrite S13. apply Z.leb_le.
    destruct (ea_split es); [destruct S11 as (He1 & _)|]; lia. }
  unfold ea_set_simple_alloc. rewrite S1. cbn [mbind option_bind]. rewrite S2.
  cbn [mbind option_bind]. rewrite Hfit. cbn [negb]. rewrite S3.
  cbn [mbind option_bind]. rewrite Hnone. fold d2.
  exists d2. split; [reflexivity|]. split; [exact S5|].
  assert (Hnomatch : forall x, x ∈ recs -> ea_found d er x = false).
  { intros x Hx. apply (find_none _ _ Hfresh). now apply list_elem_of_In. }
  assert (Hfound2 : forall get x, x ∈ recs ->
            ea_split es = true \/ ~ (el_bh x = es_bh es /\ el_ea x = es_ea es) ->
            ea_found d2 get x = ea_found d get x).
  { intros get x Hx Hc. destruct (S9 x Hx Hc) as (hy & hy' & H1 & H2 & (Ht & Hnn & Hm & _) & _).
    unfold ea_found. rewrite H1, H2. unfold ea_find_matches. now rewrite Ht, Hnn, Hm. }
  assert (Hnewmatch : forall get x, el_bh x = es_bh es -> el_ea x = ea1 ->
            ea_found d2 get x = same_name er get).
  { intros get x Hb He. unfold ea_found. rewrite (S6 x Hb He).
    apply matches_written; [lia|assumption..]. }
  assert (Hothers : forall get x, same_name er get = true -> x ∈ recs ->
            ea_found d get x = false).
  { intros get x Hsame Hx. specialize (Hnomatch x Hx). unfold ea_found in *.
    destruct (located d x) as [hy|]; [|reflexivity].
    now rewrite (matches_same_name er get hy Hsame). }
  assert (Hunused_el : ea_split es = false -> forall get x,
            el_bh x = es_bh es -> el_ea x = es_ea es -> ea_found d get x = false).
  { intros Hsp get x Hb He. rewrite Hsp in Hcase. destruct Hcase as [Hcase _].
    unfold ea_found, located in *. rewrite Hb, He. rewrite Hbh, Hea in Hloc. rewrite Hloc.
    unfold ea_find_matches. rewrite Hcase. reflexivity. }
  apply (get_after_set k sdp d d2 ip recs (set_records (ea_split es) el ea1 recs) err er
           data h' (es_bh es) ea1); try assumption; try lia.
  - intros buf Hroom. apply S8; [reflexivity|exact Hroom].
  - (* the name written *)
    intros get Hsame. unfold set_records. destruct (ea_split es) eqn:Hsp.
    + exists (mk_location (el_bh el) ea1 (Some (el_ea el))).
      split; [|split; [exact Hbh|reflexivity]].
      apply find_split_first.
      * intros x. apply found_place; apply reprev_place.
      * rewrite Hnewmatch by (try exact Hbh; reflexivity). exact Hsame.
      * apply Forall_forall. intros x Hx.
        rewrite Hfound2 by (try exact Hx; now left). now apply Hothers.
      * exists el. split; [exact Hel|]. unfold same_record. now rewrite !Z.eqb_refl.
    + assert (He1 : ea1 = es_ea es) by exact S11.
      destruct (find (ea_found d2 get) recs) as [x0|] eqn:Hf.
      * exists x0. split; [reflexivity|].
        apply find_some in Hf as [Hx Hfx]. apply list_elem_of_In in Hx.
        destruct (decide (el_bh x0 = es_bh es /\ el_ea x0 = es_ea es)) as [[? ?]|Hnot];
          [split; congruence|].
        rewrite Hfound2 in Hfx by (try exact Hx; now right).
        rewrite (Hothers get x0 Hsame Hx) in Hfx. discriminate.
      * exfalso. apply list_elem_of_In in Hel.
        pose proof (find_none _ _ Hf el Hel) as Hno.
        rewrite (Hnewmatch get el Hbh) in Hno by congruence. congruence.
  - (* the other names *)
    intros get Hsame. unfold set_records. destruct (ea_split es) eqn:Hsp.
    + apply find_split_place.
      * intros x. apply found_place; apply reprev_place.
      * rewrite Hnewmatch by (try exact Hbh; reflexivity). exact Hsame.
      * apply Forall_forall. intros x Hx. apply Hfound2; [exact Hx|now left].
    + rewrite (find_agree (ea_found d2 get) (ea_found d get)).
      * unfold same_place. destruct (find (ea_found d get) recs); [split; reflexivity|exact I].
      * apply Forall_forall. intros x Hx.
        destruct (decide (el_bh x = es_bh es /\ el_ea x = es_ea es)) as [[Hb He]|Hnot].
        -- rewrite (Hnewmatch get x Hb) by (rewrite He; symmetry; exact S11).
           rewrite Hsame. symmetry. now apply Hunused_el.
        -- apply Hfound2; [exact Hx|now right].
  - (* their values *)
    intros get x Hsame Hfx. apply find_some in Hfx as [Hx Hfx]. apply list_elem_of_In in Hx.
    destruct (S9 x Hx) as (hy & hy2 & H1 & H2 & (_ & _ & _ & F1 & F2 & F3 & F4) & _).
    { destruct (ea_split es) eqn:Hsp; [now left|right]. intros [Hb He].
      rewrite (Hunused_el eq_refl get x Hb He) in Hfx. discriminate. }
    exists hy, hy2. repeat split; try assumption.
    exact (S10 x hy Hx H1).
Qed.

Lemma set_then_get_witness :
  exists d',
    ea_set_simple_alloc EattrExamples.format SetExamples.sbd_128
      (fun p => mk_block GFS2_METATYPE_ED (fun _ => EattrExamples.no_record) [] p)
      (fun i => 100 + Z.of_nat i) SetExamples.disk_foo (mk_ea_set true None 7 24)
      (SetExamples.request_bar (Some [1; 2; 3; 4; 5]) 5) = Some (0, d', 0, false) /\
    gfs2_ea_get_i EattrExamples.format SetExamples.sbd_128 d' true (mk_inode 7 false false)
      (SetExamples.request_bar (Some (replicate 8 0)) 8) =
      Some (5, Some [1; 2; 3; 4; 5; 0; 0; 0]) /\
    gfs2_ea_get_i EattrExamples.format SetExamples.sbd_128 d' true (mk_inode 7 false false)
      (EattrExamples.request_foo (Some (replicate 8 0)) 8 0) =
      Some (3, Some [1; 2; 3; 0; 0; 0; 0; 0]).
Proof.
  destruct (set_then_get EattrExamples.format SetExamples.sbd_128
              (fun p => mk_block GFS2_METATYPE_ED (fun _ => EattrExamples.no_record) [] p)
              (fun i => 100 + Z.of_nat i) SetExamples.disk_foo (mk_inode 7 false false)
              (mk_ea_set true None 7 24)
              (SetExamples.request_bar (Some [1; 2; 3; 4; 5]) 5)
              0 [mk_location 7 24 None] (mk_location 7 24 None) SetExamples.record_foo
              [1; 2; 3; 4; 5])
    as (d' & Hset & _ & Hnew & Hold).
  - simpl. lia.
  - simpl. lia.
  - simpl. lia.
  - simpl. lia.
  - simpl. lia.
  - simpl. lia.
  - simpl. lia.
  - reflexivity.
  - intros x hx Hx Hloc _. apply list_elem_of_singleton in Hx. subst x.
    injection Hloc as <-. vm_compute. discriminate.
  - apply list_elem_of_here.
  - reflexivity.
  - reflexivity.
  - reflexivity.
  - reflexivity.
  - vm_compute. split; discriminate.
  - reflexivity.
  - reflexivity.
  - reflexivity.
  - simpl. lia.
  - vm_compute. reflexivity.
  - simpl. lia.
  - simpl. lia.
  - simpl. lia.
  - reflexivity.
  - intros p. split; reflexivity.
  - intros i j _ _ Heq. lia.
  - intros i _. split; [simpl; lia|]. split.
    + intros bh Hbh. injection Hbh as <-. apply not_elem_of_nil.
    + intros x h Hx Hloc. apply list_elem_of_singleton in Hx. subst x.
      injection Hloc as <-. apply not_elem_of_nil.
  - exists d'. split; [exact Hset|]. split.
    + exact (Hnew (SetExamples.request_bar (Some (replicate 8 0)) 8) (replicate 8 0)
               eq_refl eq_refl ltac:(simpl; lia)).
    + rewrite (Hold true (EattrExamples.request_foo (Some (replicate 8 0)) 8 0) eq_refl).
      reflexivity.
Defined.

End EattrSplitFacts.

(** * Replacing an attribute *)
Module EattrReplaceFacts.
Import Eattr EattrWrite EattrRemove EattrSet RgrpFacts EattrFacts EattrRemoveFacts
       EattrSetFacts EattrSplitFacts.

(** The record before a record of a chain ends where that record starts. *)
Lemma chain_prev_at (k : ondisk) (b_size bn : Z) (bh : block) (s : Z) (q : option Z)
    (recs : list gfs2_ea_location) (err : Z) :
  ea_chain k b_size bn bh s q recs err ->
  forall x p, x ∈ recs -> el_prev x = Some p ->
    (q = Some p /\ el_ea x = s) \/
    (s <= p /\ p + GFS2_EA_REC_LEN (ea_at bh p) = el_ea x).
Proof.
  induction 1 as [s q H1|s q H1 H2|s q recs err H1 H2 Hc IH]; intros x p Hx Hp.
  - inversion Hx.
  - apply list_elem_of_singleton in Hx. subst x. simpl in *. now left.
  - apply elem_of_cons in Hx as [->|Hx]; [simpl in *; now left|].
    pose proof (rec_len_range (ea_at bh s)) as Hlen.
    destruct (IH x p Hx Hp) as [[Hq He]|[Hs He]].
    + injection Hq as <-. right. split; [lia|now symmetry].
    + right. split; [lia|exact He].
Qed.

(** [ea_unlink] keeps the type, the name and the value of every record but a
    first record it turns into a hole. *)
Lemma unlink_same_value (k : ondisk) (bh : block) (ea : Z) (prev : option Z) (o : Z) :
  (prev = None -> o <> ea) ->
  same_value (ea_at bh o) (ea_at (ea_unlink k bh ea prev) o).
Proof.
  intros Ho. unfold ea_unlink. destruct prev as [p|].
  - set (bh1 := set_ea_at bh p _).
    assert (H1 : same_value (ea_at bh o) (ea_at bh1 o)).
    { subst bh1. cbn [set_ea_at ea_at]. destruct (o =? p) eqn:He.
      - apply Z.eqb_eq in He. subst o. repeat split; reflexivity.
      - repeat split; reflexivity. }
    destruct (GFS2_EA_IS_LAST k (ea_at bh1 ea)); [|exact H1].
    cbn [set_ea_at ea_at]. destruct (o =? p) eqn:He; [|exact H1].
    apply Z.eqb_eq in He. subst o.
    destruct H1 as (? & ? & ? & ? & ? & ? & ?). repeat split; assumption.
  - cbn [set_ea_at ea_at]. destruct (Z.eqb_spec o ea) as [->|]; [now destruct Ho|].
    repeat split; reflexivity.
Qed.

Lemma unlink_bytes (k : ondisk) (bh : block) (ea : Z) (prev : option Z) :
  ed_bytes (ea_unlink k bh ea prev) = ed_bytes bh.
Proof.
  unfold ea_unlink. destruct prev as [p|]; [|reflexivity].
  destruct (GFS2_EA_IS_LAST k _); reflexivity.
Qed.

Lemma same_value_trans (h1 h2 h3 : gfs2_ea_header) :
  same_value h1 h2 -> same_value h2 h3 -> same_value h1 h3.
Proof. unfold same_value. intuition congruence. Qed.

(** [ea_set_remove_stuffed] takes the record out as [ea_remove_stuffed]
    does, once it has found the record that comes before it. *)
Lemma set_remove_unlink (k : ondisk) (bh : block) (ea : Z) (prev prev' : option Z) :
  GFS2_EA_IS_STUFFED (ea_at bh ea) = true ->
  match prev with
  | None => prev' = None
  | Some p =>
      let next := p + GFS2_EA_REC_LEN (ea_at bh p) in
      (next = ea /\ prev' = Some p) \/
      (next <> ea /\ prev' = Some next /\ next + GFS2_EA_REC_LEN (ea_at bh next) = ea)
  end ->
  ea_set_remove_stuffed k bh ea prev = (ea_unlink k bh ea prev', false).
Proof.
  intros Hst. unfold ea_set_remove_stuffed, ea_unlink. destruct prev as [p|].
  - rewrite Hst. cbn [negb]. cbv zeta. intros [[Hn ->]|(Hn & -> & Hnn)].
    + rewrite Hn, Z.eqb_refl. cbn [negb]. reflexivity.
    + destruct (Z.eqb_spec (p + GFS2_EA_REC_LEN (ea_at bh p)) ea); [contradiction|].
      cbn [negb]. rewrite Hnn, Z.eqb_refl. cbn [negb]. reflexivity.
  - intros ->. reflexivity.
Qed.

(** A record of the store has its place among the split records. *)
Lemma elem_of_split_records (el : gfs2_ea_location) (new : Z)
    (recs : list gfs2_ea_location) (y : gfs2_ea_location) :
  y ∈ recs ->
  (if same_record y el then y else reprev el new y) ∈ split_records el new recs.
Proof.
  unfold split_records. induction 1 as [y recs|y x recs Hy IH].
  - rewrite fmap_cons. cbn [concat]. apply elem_of_app. left.
    destruct (same_record y el); apply list_elem_of_here.
  - rewrite fmap_cons. cbn [concat]. apply elem_of_app. right. exact IH.
Qed.

(** Two attributes of different names do not match the same record. *)
Lemma matches_exclusive (er get : gfs2_ea_request) (hx : gfs2_ea_header) :
  ea_find_matches er hx = true -> same_name er get = false ->
  ea_find_matches get hx = false.
Proof.
  unfold ea_find_matches, same_name, memcmp_eq. intros Her Hdiff.
  apply andb_true_iff in Her as [Hu Her]. apply andb_true_iff in Her as [Ht Her].
  apply andb_true_iff in Her as [Hn Hm].
  apply Z.eqb_eq in Ht, Hn. apply bool_decide_eq_true in Hm.
  rewrite Hu, Ht, Hn, <- Hm in *. cbn [andb].
  destruct (er_type er =? er_type get); [|reflexivity].
  destruct (er_name_len er =? er_name_len get); [|reflexivity].
  cbn [andb] in *.
  destruct (bool_decide_reflect (take (Z.to_nat (er_name_len er)) (ea_name hx) =
                                 take (Z.to_nat (er_name_len er)) (er_name get)));
    [discriminate|reflexivity].
Qed.

(** What [gfs2_ea_get_copy] returns depends on the value of the record
    only. *)
Lemma get_copy_same (sdp : gfs2_sbd) (d d' : disk) (kc : bool) (h h' : gfs2_ea_header)
    (data : list Z) :
  same_value h h' -> Forall (same_payload d' d) (ea_dataptrs h) ->
  gfs2_ea_get_copy sdp d' kc h' data = gfs2_ea_get_copy sdp d kc h data.
Proof.
  intros (_ & _ & _ & Hlen & Hn & Hdata & Hptrs) Hpay.
  assert (Hdl : GFS2_EA_DATA_LEN h' = GFS2_EA_DATA_LEN h)
    by (unfold GFS2_EA_DATA_LEN; now rewrite Hlen).
  unfold gfs2_ea_get_copy, GFS2_EA_IS_STUFFED. rewrite Hn, Hdata, Hdl.
  destruct (ea_num_ptrs h =? 0); [reflexivity|].
  unfold ea_get_unstuffed. rewrite Hdl, Hptrs.
  destruct (negb kc); [reflexivity|].
  apply get_loop_payload. apply Forall_take. exact Hpay.
Qed.

Lemma same_payload_refl (d : disk) (b : Z) : same_payload d d b.
Proof. unfold same_payload. destruct (d b); [split; reflexivity|exact I]. Qed.

Lemma same_payload_trans (d1 d2 d3 : disk) (b : Z) :
  same_payload d1 d2 b -> same_payload d2 d3 b -> same_payload d1 d3 b.
Proof.
  unfold same_payload. destruct (d1 b), (d2 b), (d3 b); try tauto.
  intros [-> ->] [-> ->]. split; reflexivity.
Qed.

Lemma relink_place (el x : gfs2_ea_location) :
  el_bh (relink el x) = el_bh x /\ el_ea (relink el x) = el_ea x.
Proof.
  unfold relink. destruct (el_prev el); [|split; reflexivity].
  destruct (_ && _); split; reflexivity.
Qed.

Lemma same_record_place (x y z : gfs2_ea_location) :
  el_bh x = el_bh y -> el_ea x = el_ea y -> same_record x z = same_record y z.
Proof. intros Hb He. unfold same_record. now rewrite Hb, He. Qed.

Lemma same_record_place_r (x y z : gfs2_ea_location) :
  el_bh x = el_bh y -> el_ea x = el_ea y -> same_record z x = same_record z y.
Proof. intros Hb He. unfold same_record. now rewrite Hb, He. Qed.

Lemma same_record_spec (x y : gfs2_ea_location) :
  same_record x y = true <-> el_bh x = el_bh y /\ el_ea x = el_ea y.
Proof. unfold same_record. rewrite andb_true_iff, !Z.eqb_eq. tauto. Qed.

Lemma found_same_value (d d' : disk) (get : gfs2_ea_request) (x x' : gfs2_ea_location)
    (hx hx' : gfs2_ea_header) :
  located d x = Some hx -> located d' x' = Some hx' -> same_value hx hx' ->
  ea_found d' get x' = ea_found d get x.
Proof.
  intros H1 H2 (Ht & Hn & Hm & _). unfold ea_found. rewrite H1, H2.
  unfold ea_find_matches. now rewrite Ht, Hn, Hm.
Qed.

Lemma same_place_relink (el : gfs2_ea_location) (r t : option gfs2_ea_location) :
  same_place r t -> same_place (relink el <$> r) t.
Proof.
  unfold same_place. destruct r as [x|], t as [y|]; simpl; try tauto.
  destruct (relink_place el x) as [-> ->]. tauto.
Qed.

Lemma same_place_refl (r : option gfs2_ea_location) : same_place r r.
Proof. unfold same_place. destruct r; [split; reflexivity|exact I]. Qed.

(** X28: [ea_set_simple_alloc] with a record to remove replaces an
    attribute whose value is in its record: it writes the new value as for a
    new attribute, in the room a record in use leaves after its own bytes
    or in a record not in use, and takes the old record out, looking for the
    record before it again when the new record has come between them, so
    that its assertion holds.  The request has to fit the room or the
    record not in use, as [ea_set_simple] tests before the call.  In a store
    whose records in use lie within their lengths, and when the old record
    is the only one with the type and name of the request, [gfs2_ea_get_i]
    then reads the new value under that type and name, and returns for
    every other type and name what it returned before. *)
Theorem replace_then_get (k : ondisk) (sdp : gfs2_sbd)
    (data_block : list Z -> block) (alloc : nat -> Z) (d : disk) (ip : gfs2_inode)
    (es : ea_set) (er : gfs2_ea_request) (err : Z) (recs : list gfs2_ea_location)
    (el : gfs2_ea_location) (h : gfs2_ea_header)
    (old : gfs2_ea_location) (h_old : gfs2_ea_header) (data : list Z) :
  0 <= sizeof_meta_header k -> 0 < sizeof_ea_header k -> 0 < ea_align k ->
  0 < sd_jbsize sdp -> sd_bsize sdp < 2 ^ 32 ->
  0 <= GFS2_EAFLAG_LAST k < 256 -> GFS2_EATYPE_VALID k GFS2_EATYPE_UNUSED = true ->
  di_eattr ip <> 0 ->
  ea_records k sdp d ip = Some (err, recs) ->
  (forall x hx, x ∈ recs -> located d x = Some hx -> ea_type hx <> GFS2_EATYPE_UNUSED ->
                GFS2_EA_SIZE k hx <= GFS2_EA_REC_LEN hx) ->
  el ∈ recs -> el_bh el = es_bh es -> el_ea el = es_ea es ->
  located d el = Some h ->
  (if ea_split es
   then sizeof_ea_header k <= GFS2_EA_SIZE k h /\
        GFS2_EA_SIZE k h + ea_write_size k sdp er <= GFS2_EA_REC_LEN h
   else ea_type h = GFS2_EATYPE_UNUSED /\
        ea_write_size k sdp er <= GFS2_EA_REC_LEN h) ->
  es_el es = Some old ->
  find (ea_found d er) recs = Some old ->
  (forall x, x ∈ recs -> ea_found d er x = true -> same_record x old = true) ->
  located d old = Some h_old -> GFS2_EA_IS_STUFFED h_old = true ->
  er_data er = Some data -> er_data_len er = Z.of_nat (length data) ->
  er_data_len er < 2 ^ 31 -> DIV_RU (er_data_len er) (sd_jbsize sdp) < 256 ->
  0 <= er_name_len er < 256 -> er_name_len er <= Z.of_nat (length (er_name er)) ->
  0 < er_type er < 256 -> GFS2_EATYPE_VALID k (er_type er) = true ->
  (forall p, mh_type (data_block p) = GFS2_METATYPE_ED /\ ed_bytes (data_block p) = p) ->
  (forall i j, Z.of_nat i < 256 -> Z.of_nat j < 256 -> alloc i = alloc j -> i = j) ->
  (forall i, Z.of_nat i < 256 -> ea_block_unused d ip recs (alloc i)) ->
  exists d',
    ea_set_simple_alloc k sdp data_block alloc d es er
      = Some (0, d',
              if GFS2_EAREQ_SIZE_STUFFED k er <=? sd_jbsize sdp then 0
              else DIV_RU (er_data_len er) (sd_jbsize sdp),
              false) /\
    (forall b, b <> es_bh es -> b <> el_bh old ->
               (forall i, Z.of_nat i < 256 -> alloc i <> b) -> d' b = d b) /\
    (forall get buf,
       same_name er get = true ->
       er_data get = Some buf -> er_data_len er <= Z.of_nat (length buf) ->
       gfs2_ea_get_i k sdp d' true ip get =
         Some (if er_data_len get =? 0 then (er_data_len er, Some buf)
               else if er_data_len get <? er_data_len er then (- ERANGE, Some buf)
               else (er_data_len er,
                     Some (data ++ drop (Z.to_nat (er_data_len er)) buf)))) /\
    (forall kc get,
       same_name er get = false ->
       gfs2_ea_get_i k sdp d' kc ip get = gfs2_ea_get_i k sdp d kc ip get).
Proof.
  intros Hk Hhdr Halign Hj Hb32 HL Hhole Hip Hrecs Hwithin Hel Hbh Hea Hloc Hcase Hes_el
         Hfind Honly Hlold Hst Hdata Hlen H31 Hn Hnl Hname Htype Hvalid Hblock Hinj Hunused.
  pose proof (records_store k sdp d ip err recs Hrecs) as Hs.
  pose proof (ea_write_size_header k sdp er Halign Hj ltac:(lia) ltac:(lia)) as Hmin.
  assert (Hguard : if ea_split es
                   then sizeof_ea_header k <= GFS2_EA_SIZE k h /\
                        GFS2_EA_SIZE k h + sizeof_ea_header k <= GFS2_EA_REC_LEN h
                   else ea_type h = GFS2_EATYPE_UNUSED).
  { destruct (ea_split es); [split; lia|tauto]. }
  pose proof (find_some _ _ Hfind) as [Hold Hfold]. apply list_elem_of_In in Hold.
  assert (Hm_old : ea_find_matches er h_old = true).
  { unfold ea_found in Hfold. now rewrite Hlold in Hfold. }
  destruct (set_state k sdp data_block alloc d ip es er err recs el h data)
    as (bh & bh1 & ea1 & h' & d1 & S1 & S2 & S3 & S4 & S5 & S6 & (S7a & S7b & S7c & S7d)
        & S8 & S9 & S10 & S13 & S12 & S11); try assumption.
  cbv zeta in S4, S5, S6, S8, S9, S10, S11.
  set (d2 := disk_write d1 (es_bh es) (set_ea_at bh1 ea1 h')) in *.
  assert (Hfit : ea_write_fits k sdp (ea_at bh1 ea1) er = true).
  { unfold ea_write_fits. rewrite S13. apply Z.leb_le.
    destruct (ea_split es); [destruct S11 as (He1 & _)|]; lia. }
  unfold ea_set_simple_alloc. rewrite S1. cbn [mbind option_bind]. rewrite S2.
  cbn [mbind option_bind]. rewrite Hfit. cbn [negb]. rewrite S3.
  cbn [mbind option_bind]. rewrite Hes_el. fold d2.
  (* the old record is not the record written *)
  assert (Hnot_el : ea_split es = false ->
                    ~ (el_bh old = es_bh es /\ el_ea old = es_ea es)).
  { intros Hsp [Hb He]. rewrite Hsp in Hcase. destruct Hcase as [Hcase _].
    unfold located in Hloc, Hlold. rewrite Hb, He in Hlold. rewrite Hbh, Hea in Hloc.
    rewrite Hloc in Hlold. injection Hlold as <-.
    unfold ea_find_matches in Hm_old. rewrite Hcase in Hm_old. discriminate. }
  (* its place among the records written *)
  set (old' := if ea_split es
               then (if same_record old el then old else reprev el ea1 old)
               else old).
  assert (Hplace : el_bh old' = el_bh old /\ el_ea old' = el_ea old).
  { subst old'. destruct (ea_split es); [|split; reflexivity].
    destruct (same_record old el); [split; reflexivity|apply reprev_place]. }
  destruct Hplace as [Hpb Hpe].
  assert (Hold' : old' ∈ set_records (ea_split es) el ea1 recs).
  { subst old'. unfold set_records.
    destruct (ea_split es); [apply elem_of_split_records|]; exact Hold. }
  destruct (store_elem k sdp d2 ip _ err old' S4 Hold')
    as (bh_el & recs_el & err_el & Hd2 & Hchain2 & Hthere2).
  pose proof Hd2 as Hd2o. rewrite Hpb in Hd2o.
  destruct (S9 old Hold) as (hx & hx2 & Hl1 & Hl2 & Hsv & _).
  { destruct (ea_split es) eqn:Hsp; [now left|right; now apply Hnot_el]. }
  rewrite Hlold in Hl1. injection Hl1 as <-.
  assert (Hat_old : ea_at bh_el (el_ea old) = hx2).
  { unfold located in Hl2. rewrite Hd2o in Hl2. simpl in Hl2. congruence. }
  assert (Hst2 : GFS2_EA_IS_STUFFED (ea_at bh_el (el_ea old)) = true).
  { rewrite Hat_old. unfold GFS2_EA_IS_STUFFED in *.
    destruct Hsv as (_ & _ & _ & _ & Hnp & _). now rewrite Hnp. }
  (* the record before it *)
  assert (Hrm : ea_set_remove_stuffed k bh_el (el_ea old) (el_prev old)
                = (ea_unlink k bh_el (el_ea old') (el_prev old'), false)).
  { rewrite Hpe. apply set_remove_unlink; [exact Hst2|].
    destruct (el_prev old) as [p|] eqn:Hp.
    - cbv zeta.
      destruct (el_prev old') as [p'|] eqn:Hp'.
      2:{ exfalso. subst old'. destruct (ea_split es); [|congruence].
          destruct (same_record old el); [congruence|].
          unfold reprev in Hp'. destruct (_ && _); simpl in Hp'; congruence. }
      destruct (chain_prev_at _ _ _ _ _ _ _ _ Hchain2 old' p' Hthere2 Hp')
        as [[Hq _]|[_ Hnext]]; [discriminate|].
      rewrite Hpe in Hnext.
      destruct (decide (p' = p)) as [->|Hpp].
      + left. split; [exact Hnext|reflexivity].
      + right.
        assert (Hcase' : ea_split es = true /\ el_bh old = es_bh es /\
                         p = es_ea es /\ p' = ea1).
        { subst old'. destruct (ea_split es); [|congruence].
          destruct (same_record old el); [congruence|].
          unfold reprev in Hp'.
          destruct (Z.eqb_spec (el_bh old) (el_bh el)) as [Hb|]; simpl in Hp'; [|congruence].
          destruct (bool_decide_reflect (el_prev old = Some (el_ea el))) as [Hq|];
            simpl in Hp'; [|congruence].
          injection Hp' as <-. rewrite Hp in Hq. injection Hq as ->.
          repeat split; congruence. }
        destruct Hcase' as (Hsp & Hb & -> & ->). rewrite Hsp in S11.
        destruct S11 as (_ & Hin & Hlen_ea & _).
        assert (Hat_ea : GFS2_EA_REC_LEN (ea_at bh_el (es_ea es)) = ea1 - es_ea es).
        { apply (Hlen_ea el); [exact Hbh|exact Hea|].
          unfold located. rewrite Hbh, <- Hb, Hd2o, Hea. reflexivity. }
        rewrite Hat_ea. replace (es_ea es + (ea1 - es_ea es)) with ea1 by lia.
        assert (Hat_new : ea_at bh_el ea1 = h').
        { pose proof (S6 (mk_location (es_bh es) ea1 None) eq_refl eq_refl) as Hn6.
          unfold located in Hn6. cbn [el_bh el_ea] in Hn6. rewrite <- Hb, Hd2o in Hn6.
          simpl in Hn6. congruence. }
        rewrite Hat_new in *. split; [lia|]. split; [reflexivity|exact Hnext].
    - subst old'. destruct (ea_split es); [|exact Hp].
      destruct (same_record old el); [exact Hp|].
      unfold reprev. rewrite Hp. rewrite bool_decide_eq_false_2 by discriminate.
      rewrite andb_false_r. exact Hp. }
  rewrite Hd2o. cbn [mbind option_bind]. rewrite Hrm. cbn [orb].
  set (l := set_records (ea_split es) el ea1 recs) in *.
  set (bh3 := ea_unlink k bh_el (el_ea old') (el_prev old')).
  set (d3 := disk_write d2 (el_bh old) bh3).
  exists d3. split; [reflexivity|].
  assert (Hs3 : store_records k sdp d3 ip (unlinked old' l) err).
  { subst d3 bh3. rewrite <- Hpb.
    apply (store_unlinked k sdp Hb32 HL Hhole d2 old' bh_el recs_el err_el Hd2 Hchain2 Hthere2).
    exact S4. }
  set (g := fun get x => negb (same_record x old') && ea_found d2 get x).
  assert (Hfind3 : forall get,
            find (ea_found d3 get) (unlinked old' l) = relink old' <$> find (g get) l).
  { intros get. subst d3 bh3. rewrite <- Hpb. apply (find_unlinked k d2 old' bh_el Hd2). }
  assert (Hd3_other : forall b, b <> el_bh old -> d3 b = d2 b).
  { intros b Hb. subst d3. unfold disk_write. now destruct (Z.eqb_spec b (el_bh old)). }
  assert (Hold_block : forall i, Z.of_nat i < 256 -> alloc i <> el_bh old).
  { intros i Hi He. destruct (Hunused i Hi) as (Hroot & Hptrs & _).
    destruct (store_block_of k sdp d ip recs err old Hs Hold) as [Hb|(bh0 & Hb0 & Hb)].
    - congruence.
    - apply (Hptrs bh0 Hb0). now rewrite He. }
  split.
  { intros b Hb1 Hb2 Ha. rewrite Hd3_other by exact Hb2. now apply S5. }
  assert (Hl3 : forall x hy, located d2 x = Some hy ->
            ~ (el_bh x = el_bh old /\ el_ea x = el_ea old) ->
            exists hz, located d3 x = Some hz /\ same_value hy hz).
  { intros x hy H2 Hnot. unfold located in *. subst d3. unfold disk_write.
    destruct (Z.eqb_spec (el_bh x) (el_bh old)) as [Hb|Hb].
    - rewrite Hb, Hd2o in H2. simpl in H2. injection H2 as <-.
      eexists. split; [reflexivity|]. apply unlink_same_value.
      intros _ He. apply Hnot. split; [exact Hb|congruence].
    - rewrite H2. eexists. split; [reflexivity|]. repeat split; reflexivity. }
  assert (Hpay3 : forall b, same_payload d3 d2 b).
  { intros b. subst d3. unfold same_payload, disk_write.
    destruct (Z.eqb_spec b (el_bh old)) as [->|].
    - rewrite Hd2o. split; [apply unlink_type|apply unlink_bytes].
    - destruct (d2 b); [split; reflexivity|exact I]. }
  assert (Hnew_not_old : ~ (es_bh es = el_bh old /\ ea1 = el_ea old)).
  { intros [Hb He]. destruct (ea_split es) eqn:Hsp.
    - destruct S11 as (_ & Hin & _ & Hout). destruct (Hout old Hold (eq_sym Hb)); lia.
    - apply (Hnot_el eq_refl). split; [now symmetry|]. congruence. }
  destruct (Hl3 (mk_location (es_bh es) ea1 None) h'
              (S6 (mk_location (es_bh es) ea1 None) eq_refl eq_refl) Hnew_not_old)
    as (h3 & Hh3 & Hsv3).
  (* what the records answer *)
  assert (Hat_old' : forall x, same_record x old' = same_record x old).
  { intros x. now apply same_record_place_r. }
  assert (Hfound2 : forall get x, x ∈ recs ->
            ea_split es = true \/ ~ (el_bh x = es_bh es /\ el_ea x = es_ea es) ->
            ea_found d2 get x = ea_found d get x).
  { intros get x Hx Hc. destruct (S9 x Hx Hc) as (hy & hy' & H1 & H2 & Hv & _).
    exact (found_same_value d d2 get x x hy hy' H1 H2 Hv). }
  assert (Hnewmatch : forall get x, el_bh x = es_bh es -> el_ea x = ea1 ->
            ea_found d2 get x = same_name er get).
  { intros get x Hb He. unfold ea_found. rewrite (S6 x Hb He).
    apply matches_written; [lia|assumption..]. }
  assert (Hold_nomatch : forall get x, same_name er get = false ->
            same_record x old = true -> ea_found d get x = false).
  { intros get x Hsame Hx. apply same_record_spec in Hx as [Hb He].
    rewrite (found_place d get x old Hb He). unfold ea_found. rewrite Hlold.
    exact (matches_exclusive er get h_old Hm_old Hsame). }
  assert (Hothers : forall get x, same_name er get = true -> x ∈ recs ->
            same_record x old = false -> ea_found d get x = false).
  { intros get x Hsame Hx Hno.
    destruct (ea_found d get x) eqn:Hf; [|reflexivity].
    rewrite <- Hno. symmetry. apply Honly; [exact Hx|].
    unfold ea_found in *. destruct (located d x) as [hy|]; [|discriminate].
    now rewrite <- (matches_same_name er get hy Hsame). }
  assert (Hunused_el : ea_split es = false -> forall get x,
            el_bh x = es_bh es -> el_ea x = es_ea es -> ea_found d get x = false).
  { intros Hsp get x Hb He. rewrite Hsp in Hcase. destruct Hcase as [Hcase _].
    unfold ea_found, located in *. rewrite Hb, He. rewrite Hbh, Hea in Hloc. rewrite Hloc.
    unfold ea_find_matches. rewrite Hcase. reflexivity. }
  assert (Hg_place : forall get x, g get (reprev el ea1 x) = g get x).
  { intros get x. destruct (reprev_place el ea1 x) as [Hb He]. unfold g.
    now rewrite (same_record_place _ x old' Hb He), (found_place d2 get _ x Hb He). }
  apply (get_after_set k sdp d d3 ip recs (unlinked old' l) err er data h3 (es_bh es) ea1);
    try assumption; try lia.
  - intros x Hb He. unfold located in *. cbn [el_bh el_ea] in Hh3. now rewrite Hb, He.
  - destruct Hsv3 as (_ & _ & _ & Hd & _). unfold GFS2_EA_DATA_LEN in *. now rewrite Hd.
  - intros buf Hroom.
    rewrite (get_copy_same sdp d3 d3 true h' h3 buf Hsv3).
    + apply S8; [|exact Hroom]. intros i Hi. apply Hd3_other. now apply Hold_block.
    + apply Forall_forall. intros b _. apply same_payload_refl.
  - (* the name written *)
    intros get Hsame. rewrite Hfind3.
    assert (Hx0 : exists x0, find (g get) l = Some x0 /\
                             el_bh x0 = es_bh es /\ el_ea x0 = ea1).
    { subst l. unfold set_records. destruct (ea_split es) eqn:Hsp.
      - exists (mk_location (el_bh el) ea1 (Some (el_ea el))).
        split; [|split; [exact Hbh|reflexivity]].
        apply find_split_first.
        + apply Hg_place.
        + unfold g. rewrite Hnewmatch by (try exact Hbh; reflexivity). rewrite Hsame.
          rewrite Hat_old'.
          destruct (same_record _ old) eqn:Hso; [|reflexivity].
          apply same_record_spec in Hso as [Hb He]. cbn [el_bh el_ea] in *.
          exfalso. apply Hnew_not_old. split; congruence.
        + apply Forall_forall. intros x Hx. unfold g. rewrite Hat_old'.
          destruct (same_record x old) eqn:Hso; [reflexivity|]. cbn [negb andb].
          rewrite Hfound2 by (try exact Hx; now left). now apply Hothers.
        + exists el. split; [exact Hel|]. apply same_record_spec. split; reflexivity.
      - assert (He1 : ea1 = es_ea es) by exact S11.
        destruct (find (g get) recs) as [x0|] eqn:Hf.
        + exists x0. split; [reflexivity|].
          apply find_some in Hf as [Hx Hgx]. apply list_elem_of_In in Hx.
          unfold g in Hgx. rewrite Hat_old' in Hgx.
          apply andb_true_iff in Hgx as [Hno Hfx]. apply negb_true_iff in Hno.
          destruct (decide (el_bh x0 = es_bh es /\ el_ea x0 = es_ea es)) as [[? ?]|Hnot];
            [split; congruence|].
          rewrite Hfound2 in Hfx by (try exact Hx; now right).
          rewrite (Hothers get x0 Hsame Hx Hno) in Hfx. discriminate.
        + exfalso. apply list_elem_of_In in Hel.
          pose proof (find_none _ _ Hf el Hel) as Hno. unfold g in Hno.
          rewrite Hat_old', (Hnewmatch get el Hbh) in Hno by congruence.
          rewrite Hsame, andb_true_r in Hno. apply negb_false_iff in Hno.
          apply same_record_spec in Hno as [Hb He].
          apply (Hnot_el eq_refl). split; congruence. }
    destruct Hx0 as (x0 & -> & Hb0 & He0). exists (relink old' x0).
    split; [reflexivity|]. destruct (relink_place old' x0) as [-> ->]. split; assumption.
  - (* the other names *)
    intros get Hsame. rewrite Hfind3. apply same_place_relink.
    subst l. unfold set_records. destruct (ea_split es) eqn:Hsp.
    + apply find_split_place.
      * apply Hg_place.
      * unfold g. rewrite Hnewmatch by (try exact Hbh; reflexivity). rewrite Hsame.
        apply andb_false_r.
      * apply Forall_forall. intros x Hx. unfold g. rewrite Hat_old'.
        destruct (same_record x old) eqn:Hso; cbn [negb andb].
        -- symmetry. now apply Hold_nomatch.
        -- apply Hfound2; [exact Hx|now left].
    + rewrite (find_agree (g get) (ea_found d get)); [apply same_place_refl|].
      apply Forall_forall. intros x Hx. unfold g. rewrite Hat_old'.
      destruct (same_record x old) eqn:Hso; cbn [negb andb].
      * symmetry. now apply Hold_nomatch.
      * destruct (decide (el_bh x = es_bh es /\ el_ea x = es_ea es)) as [[Hb He]|Hnot].
        -- rewrite (Hnewmatch get x Hb) by (rewrite He; symmetry; exact S11).
           rewrite Hsame. symmetry. now apply Hunused_el.
        -- apply Hfound2; [exact Hx|now right].
  - (* their values *)
    intros get x Hsame Hfx. apply find_some in Hfx as [Hx Hfx]. apply list_elem_of_In in Hx.
    assert (Hnot_old : ~ (el_bh x = el_bh old /\ el_ea x = el_ea old)).
    { intros Hp. apply same_record_spec in Hp.
      rewrite (Hold_nomatch get x Hsame Hp) in Hfx. discriminate. }
    destruct (S9 x Hx) as (hy & hy2 & H1 & H2 & Hv & _).
    { destruct (ea_split es) eqn:Hsp; [now left|right]. intros [Hb He].
      rewrite (Hunused_el eq_refl get x Hb He) in Hfx. discriminate. }
    destruct (Hl3 x hy2 H2 Hnot_old) as (hy3 & H3 & Hv3).
    destruct (same_value_trans _ _ _ Hv Hv3) as (_ & _ & _ & F1 & F2 & F3 & F4).
    exists hy, hy3. repeat split; try assumption.
    eapply Forall_impl; [exact (S10 x hy Hx H1)|].
    intros b Hb. exact (same_payload_trans _ _ _ _ (Hpay3 b) Hb).
Qed.

Lemma replace_then_get_witness :
  exists d',
    ea_set_simple_alloc EattrExamples.format SetExamples.sbd_128
      (fun p => mk_block GFS2_METATYPE_ED (fun _ => EattrExamples.no_record) [] p)
      (fun i => 100 + Z.of_nat i) SetExamples.disk_foo_bar
      (mk_ea_set true (Some (mk_location 7 80 (Some 24))) 7 24)
      (SetExamples.request_bar (Some [1; 2; 3; 4; 5]) 5) = Some (0, d', 0, false) /\
    gfs2_ea_get_i EattrExamples.format SetExamples.sbd_128 d' true (mk_inode 7 false false)
      (SetExamples.request_bar (Some (replicate 8 0)) 8) =
      Some (5, Some [1; 2; 3; 4; 5; 0; 0; 0]) /\
    gfs2_ea_get_i EattrExamples.format SetExamples.sbd_128 d' true (mk_inode 7 false false)
      (EattrExamples.request_foo (Some (replicate 8 0)) 8 0) =
      Some (3, Some [1; 2; 3; 0; 0; 0; 0; 0]).
Proof.
  destruct (replace_then_get EattrExamples.format SetExamples.sbd_128
              (fun p => mk_block GFS2_METATYPE_ED (fun _ => EattrExamples.no_record) [] p)
              (fun i => 100 + Z.of_nat i) SetExamples.disk_foo_bar (mk_inode 7 false false)
              (mk_ea_set true (Some (mk_location 7 80 (Some 24))) 7 24)
              (SetExamples.request_bar (Some [1; 2; 3; 4; 5]) 5)
              0 [mk_location 7 24 None; mk_location 7 80 (Some 24)]
              (mk_location 7 24 None)
              (mk_ea_header 56 3 3 1 0 0 [102; 111; 111] [1; 2; 3] [])
              (mk_location 7 80 (Some 24))
              (mk_ea_header 48 2 3 1 1 0 [98; 97; 114] [9; 9] [])
              [1; 2; 3; 4; 5])
    as (d' & Hset & _ & Hnew & Hold).
  - simpl. lia.
  - simpl. lia.
  - simpl. lia.
  - simpl. lia.
  - simpl. lia.
  - simpl. lia.
  - reflexivity.
  - simpl. lia.
  - reflexivity.
  - intros x hx Hx Hloc _. apply elem_of_cons in Hx as [->|Hx].
    + injection Hloc as <-. vm_compute. discriminate.
    + apply list_elem_of_singleton in Hx. subst x.
      injection Hloc as <-. vm_compute. discriminate.
  - apply list_elem_of_here.
  - reflexivity.
  - reflexivity.
  - reflexivity.
  - vm_compute. split; discriminate.
  - reflexivity.
  - reflexivity.
  - intros x Hx. apply elem_of_cons in Hx as [->|Hx]; [discriminate|].
    apply list_elem_of_singleton in Hx. subst x. reflexivity.
  - reflexivity.
  - reflexivity.
  - reflexivity.
  - reflexivity.
  - simpl. lia.
  - vm_compute. reflexivity.
  - simpl. lia.
  - simpl. lia.
  - simpl. lia.
  - reflexivity.
  - intros p. split; reflexivity.
  - intros i j _ _ Heq. lia.
  - intros i _. split; [simpl; lia|]. split.
    + intros bh Hbh. injection Hbh as <-. apply not_elem_of_nil.
    + intros x h Hx Hloc. apply elem_of_cons in Hx as [->|Hx].
      * injection Hloc as <-. apply not_elem_of_nil.
      * apply list_elem_of_singleton in Hx. subst x.
        injection Hloc as <-. apply not_elem_of_nil.
  - exists d'. split; [exact Hset|]. split.
    + exact (Hnew (SetExamples.request_bar (Some (replicate 8 0)) 8) (replicate 8 0)
               eq_refl eq_refl ltac:(simpl; lia)).
    + rewrite (Hold true (EattrExamples.request_foo (Some (replicate 8 0)) 8 0) eq_refl).
      reflexivity.
Defined.

End EattrReplaceFacts.

(** * The flags of Set *)
Module EattrSetFlags.
Import Eattr EattrWrite EattrRemove EattrSet EattrSetFacts.


(** A request that passes [ea_check_size] fits a record of [sd_jbsize]
    bytes, as long as its size does not wrap around. *)
Lemma ea_check_size_fits (k : ondisk) (sdp : gfs2_sbd) (er : gfs2_ea_request) :
  0 < ea_align k -> 0 <= sizeof_ea_header k -> 0 < sd_jbsize sdp ->
  0 <= er_name_len er -> 0 <= er_data_len er ->
  sizeof_ea_header k + er_name_len er + 8 * er_data_len er + ea_align k <= 2 ^ 32 ->
  ea_check_size k sdp er = 0 ->
  ea_write_size k sdp er <= sd_jbsize sdp.
Proof.
  intros Ha Hh Hj Hn Hd Hsmall Hcheck.
  assert (Halign : forall x, 0 <= x -> x + ea_align k <= 2 ^ 32 ->
                             wrap32 (ALIGN x (ea_align k)) = ALIGN x (ea_align k)).
  { intros x Hx Hb. apply wrap32_small. unfold ALIGN.
    pose proof (Z.div_mod (x + ea_align k - 1) (ea_align k) ltac:(lia)).
    pose proof (Z.mod_pos_bound (x + ea_align k - 1) (ea_align k) Ha).
    nia. }
  assert (Hdiv : 0 <= DIV_RU (er_data_len er) (sd_jbsize sdp) <= er_data_len er).
  { unfold DIV_RU. split; [apply Z.div_pos; lia|].
    destruct (Z.eq_dec (er_data_len er) 0) as [->|Hnz].
    - rewrite Z.div_small; lia.
    - apply Z.div_le_upper_bound; [lia|]. nia. }
  unfold ea_check_size, ea_calc_size in Hcheck. unfold ea_write_size.
  destruct (GFS2_EA_MAX_DATA_LEN k <? er_data_len er); [discriminate|].
  unfold GFS2_EAREQ_SIZE_UNSTUFFED in Hcheck. unfold GFS2_EAREQ_SIZE_STUFFED in *.
  rewrite Halign in * by lia.
  destruct (Z.leb_spec (ALIGN (sizeof_ea_header k + er_name_len er + er_data_len er)
                              (ea_align k)) (sd_jbsize sdp)) as [Hle|Hgt]; [exact Hle|].
  rewrite Halign in Hcheck by lia.
  destruct (Z.ltb_spec (sd_jbsize sdp)
              (ALIGN (sizeof_ea_header k + er_name_len er
                      + 8 * DIV_RU (er_data_len er) (sd_jbsize sdp)) (ea_align k)));
    [discriminate|assumption].
Qed.




(** ** Set on the sample stores *)

(** With room after the record of [foo], Set puts [bar] there. *)
Example set_in_room :
  SetExamples.set_then_read SetExamples.env_ok (SetExamples.state_foo false)
    (SetExamples.request_bar (Some [5; 6]) 2)
    (SetExamples.request_bar (Some [0; 0; 0]) 3)
  = Some (0, mk_inode 7 false false, 2, Some (2, Some [5; 6; 0])) /\
  SetExamples.set_then_read SetExamples.env_ok (SetExamples.state_foo false)
    (SetExamples.request_bar (Some [5; 6]) 2)
    (EattrExamples.request_foo (Some [0; 0; 0]) 3 0)
  = Some (0, mk_inode 7 false false, 2, Some (3, Some [1; 2; 3])).
Proof. split; vm_compute; reflexivity. Qed.

(** Set gives [foo] its new value. *)
Example set_replaces :
  SetExamples.set_then_read SetExamples.env_ok (SetExamples.state_foo false)
    (EattrExamples.request_foo (Some [5; 6]) 2 0)
    (EattrExamples.request_foo (Some [0; 0; 0]) 3 0)
  = Some (0, mk_inode 7 false false, 2, Some (2, Some [5; 6; 0])).
Proof. vm_compute. reflexivity. Qed.

(** A value of 150 bytes goes to two data blocks. *)
Example set_unstuffed :
  SetExamples.set_then_read SetExamples.env_ok (SetExamples.state_foo false)
    (SetExamples.request_bar (Some (replicate 150 5)) 150)
    (SetExamples.request_bar (Some (replicate 150 0)) 150)
  = Some (0, mk_inode 7 false false, 4, Some (150, Some (replicate 150 5))).
Proof. vm_compute. reflexivity. Qed.

(** Without room in the block, Set takes a new block and an indirect block
    that points to both. *)
Example set_new_block :
  SetExamples.set_then_read SetExamples.env_ok SetExamples.state_foo_60
    (SetExamples.request_bar (Some (replicate 20 5)) 20)
    (SetExamples.request_bar (Some (replicate 20 0)) 20)
  = Some (0, mk_inode 8 true false, 4, Some (20, Some (replicate 20 5))) /\
  SetExamples.set_then_read SetExamples.env_ok SetExamples.state_foo_60
    (SetExamples.request_bar (Some (replicate 20 5)) 20)
    (EattrExamples.request_foo (Some (replicate 60 0)) 60 0)
  = Some (0, mk_inode 8 true false, 4, Some (60, Some (replicate 60 7))).
Proof. split; vm_compute; reflexivity. Qed.

End EattrSetFlags.
